(* ===== verification/_CoqProject ===== *)
-Q . S2P
Prelude.v
Types.v
TupleSerializer.v
HeapPage.v
File.v
Descriptors.v
UndoRecord.v
UndoLog.v
WAL.v
Transactions.v
World.v
HeapTable.v
HeapScan.v
HeapUndoApply.v
HeapExamples.v
HeapConfined.v
Rollback.v
LockList.v
LWLatch.v
LatchSpec.v
Spin.v
Network.v
Packets.v
Executor.v
Logger.v
Plan.v
Catalog.v
Planner.v
Session.v
SessionSpec.v
BufferPool.v
BufferSpec.v
PoolLists.v
PoolSpec.v
EntryIO.v
ClientProgram.v
ClientSpec.v
ClientMain.v
EndToEnd.v
Workers.v
StartUp.v
