(* ===== verification/Prelude.v ===== *)
(** * mimidb: a verification development

    mimidb ([src/src]) is a small relational server: clients send SQL over a socket, a worker
    thread parses and plans each statement and runs it on tables that are kept in heap pages,
    with multi-version concurrency control by commit sequence numbers, an undo log and a
    write-ahead log. This library models its code, file by file, and proves what the parts
    do; where the code does not do what it means to, a theorem states what it does.
    Paths below are relative to [src/src/server] unless they start with [libmimi], [client] or [external].

    ** The parts and how they interact

    A connection goes to a free worker ([worker]), which reads query packets ([libmimi]), has them
    parsed by the SQL parser ([external/sql-parser]), planned against the catalog
    ([planner], [db]) and executed ([executor]) inside of a transaction ([trans]). The plan
    nodes scan and change heap tables ([access/heap]): rows are serialized ([access/tuple]) into
    pages that the buffer pool ([storage/buffer]) reads and writes; each change first makes an
    undo record ([storage/undo]) and a log record ([storage/wal]). An abort applies the undo
    records backward. The terminal client ([client]) prints the answers.

    ** The files

    - [Prelude]: the outcomes of C++ code ([result]: exceptions, failed assertions, undefined behaviour,
      blocking), the state monad [M], builds with and without assertions, machine integers
      ([wrap], [swrap]), blocks of memory ([rd], [wr], [slice], [blit]), cursors, and the automation ([zl], [zb]).
    - [Types]: identifiers, datums, tuple descriptors, attribute loops, bit utilities
      ([executor/Oid.hpp], [access/AttrNumber.hpp], [utils] and others).
    - [TupleSerializer]: [access/tuple/TupleSerializer.cpp]. [HeapPage]: [access/heap/HeapPage.cpp] and its headers.
    - [File]: [storage/io/File.cpp] and [storage/buffer/RelFile.cpp], over the system calls as an interface.
      [Descriptors]: the objects of both as owners of descriptors: moves, assignments, [Close] and destructors.
    - [UndoRecord], [UndoLog]: the resource managers and the heap's undo records; [storage/undo].
    - [WAL]: [storage/wal] and the records of [access/heap/wal].
    - [Transactions]: [trans], each handler as a composition of atomic parts, and the step relation
      that interleaves the parts of all workers.
    - [World]: the interfaces that the table code uses (pages and latches, undo log, WAL, transactions) with
      their laws, and instances in memory. [HeapTable], [HeapScan], [HeapUndoApply]: [access/heap/HeapTable.cpp],
      [HeapTableScan.cpp] and [undo/UndoApplierVisitor.cpp] over them; [HeapExamples] is a concrete table,
      [HeapConfined] says which pages and rows [UpdateTuple] and [DeleteTuple] may touch, and [Rollback] composes the
      table with the undo log file, the write-ahead log and the transactions ([VirtualUndoLog.cpp]).
    - [LockList], [LWLatch], [LatchSpec]: [lock/LockList.cpp] and [lock/LWLatch.cpp]: the word and the wait list of a
      latch, the interleaving of workers, and what the latch promises. [Spin]: [lock/SpinLock.cpp], [lock/Semaphore.cpp].
    - [Network], [Packets]: [libmimi]: cursors, packets, their bytes, and the client of a stream socket.
    - [Executor], [Plan]: [executor]: expressions, builtin functions and plan nodes over an interface of
      tables and scans, which the heap table implements.
    - [Catalog], [Planner]: [db], [planner]: the catalog, and plans for the syntax trees of the parser.
    - [Session], [SessionSpec]: [worker/Handler.cpp]: the loop of a connection, its transaction commands and
      statements, against an abstract session. [Workers]: [worker/WorkerManager.cpp], [worker/Worker.cpp].
    - [BufferPool], [BufferSpec]: [storage/buffer/BufferManager.cpp], its entries, pins, page table and
      list of free buffers; what the pool serves. [PoolLists]: its doubly linked lists as lists; [PoolSpec]: the pool as a map
      of pages. [EntryIO]: [storage/buffer/internal/CacheEntry.cpp] once more, in its accesses to shared memory: the input and
      output of one entry while other workers read, flush, write to or pin the page.
    - [Logger]: [logger], which [Session] and [StartUp] log through.
    - [ClientProgram], [ClientSpec], [ClientMain]: [client]: the table formatter, the sources of commands, the main loop, and
      the main program with its socket.
    - [EndToEnd]: a query from a session over the connection to the terminal of a client.
    - [StartUp]: [Settings.cpp], [cluster_state.cpp] and [main.cpp]: options, the files and the global objects of the
      cluster (each made by the constructor of its component), the listening socket and the loop over connections.

    A component is a record for its state and one definition per method, with the method's name and the
    members' names where they are free. A method that can fail returns [result]; one that
    changes state is a computation in [M], which keeps the writes made before a fault. [Class]es state
    what a component expects of another ([Posix] and [PosixOk], [IRMgrUndoRecord] and [UndoRecordLaws], the classes of [World],
    [Socket] and [SocketLaws], [ITable], [Client], [ILogHandler], [Session_table], [Descriptors], [Host] and [HostLaws],
    [NetworkCalls] and [NetworkLaws], [ServerSocket]); each law has a concrete instance.

    ** What the theorems show

    - Storage: serialized rows are read back ([serialize_deserialize]); an insertion into a page keeps its
      header, its line pointers and the other tuples ([page_insert_appends]);
      undo records and the undo log round-trip and replay backward ([heap_undo_roundtrip], [undo_log_history],
      [undo_all_backward]); the WAL is a prefix-preserving sequence of records ([wal_append]); files own their descriptors
      ([files_owned]).
    - Transactions: the manager refines an abstract one ([transaction_manager_refines]), commit numbers are
      unique under all interleavings, and the verdict of a snapshot on a row does not change while others
      commit ([snapshot_verdict_stable]).
    - Tables: insertion appends, the first of two concurrent writers wins, deletions and updates keep every page well
      formed and touch no row but their own, however they end ([heap_changes_confined]), aborting a transaction restores
      every row that it has deleted or updated in place, through the undo log file ([rollback_restores_rows], except a row that was
      updated to a shorter one before), a scan finds the
      first visible row; the insertion itself is not undone, and an update that
      finds no room in the page waits for itself.
    - Latches: mutual exclusion and exclusive access to the wait list over all interleavings; a shared lock
      excludes the other shared locks. The spin lock loses no wake-up ([spin_lock_safe]).
    - Protocol: packets round-trip over any stream, and no bytes from the peer make the parsers leave their block.
    - Queries: for every statement of the grammar, whether it dereferences a null pointer (a SELECT without FROM, an INSERT of a
      SELECT), is refused, or gets a plan, and which plan: one that carries out the statement as it is read, without its select list
      and without the columns of an INSERT ([plan_correct]); the plan of a SELECT returns the rows for which its condition is
      true ([select_query], [select_over_heap],
      [update_node_updates], [bool_expression_value]). Sessions refine an abstract session; the theorems on failed
      transactions and on lost connections say where the code's behaviour differs from its intent. [select_end_to_end] composes
      the session, the planner, the executor, the protocol and the client: what is printed for a SELECT.
    - Buffer pool: its lists behave as lists ([cache_lists_equivalent]); while no more distinct pages than buffers are needed, the
      pool is a map of pages ([pool_refines_pages]); it serves [n] distinct pages and fails at the next one ([pool_serves_npages]);
      extending a relation inserts an entry twice ([extend_inserts_twice]). Under all interleavings an entry has one input or output at
      a time, valid data are the bytes written last, and a page that is not dirty is in the file if its users mark what they write
      ([entry_io_safe]; [unmarked_writes_lost] if they do not, as [InsertTuple] and [DeleteTuple] do not); its lock, its latch and its
      condition variable do not deadlock ([entry_io_progress]).
    - Client and log: the client runs a script to its end and every answer is printed, in aligned tables ([client_process],
      [format_table]); a log message longer than the buffer is read past its end ([log_line]), which a long query is enough
      for ([long_query_faults]).
    - Start-up: what a start leaves of the files and in the global objects, and that it needs an old directory
      ([server_starts]).

    ** Bounds and fuel

    Loops that are not structural take a fuel, and run out of it only with [NoFuel]; the theorems give a sufficient
    amount: the length of a block for send and receive loops (each call transfers at least one byte), the number of attributes
    plus one for loops over attribute numbers, the number of entries plus one for the walks of a list of the buffer
    pool, the number of pages or of line pointers for scans, the number of packets of the longest answer for the client. Where a loop of the code
    does not end, or waits for another thread, the model says so ([NoFuel], [Blocked]) and a theorem states it.

    ** Not modelled

    - The SQL parser ([external/sql-parser]): a vendored library with generated tables. [Session] takes it as a function from
      texts to results; [Planner] models the members of its syntax trees that are read.
    - Allocation failure, and the unaligned accesses of the network cursors and of the serializer.
    - In [BufferPool], the latches of lists, partitions and pages: the operations are those of one worker while the others are
      between theirs. Only the input and output of an entry are interleaved ([EntryIO]), by accesses that are sequentially consistent,
      with a latch taken and given back in one access each (its own accesses are those of [LWLatch]) and without [ExtendRelation]. The table code is proved against the pages of [World], which the
      pool implements only as far as [pool_refines_pages] goes: reads, writes and pins of as many pages as there are buffers;
      [extend_inserts_twice] shows where it does not keep the law of that interface for extensions.
    - The conversion of the command line into options (a library), the signal handler (in [StartUp] an interrupted [accept]
      tells whether it has run), and the joining of threads that have ended.
    - [lock/Spin] sleeps and [lock/Barrier] is a fence: they change no state of the model. Unit tests. *)
From Stdlib Require Export ZArith Lia.
From Stdlib Require Export Strings.Byte.
From stdpp Require Export base decidable list strings gmap fin_maps pretty.

#[global] Open Scope Z_scope.

(** ** Outcomes of C++ code

    [Throw] is a C++ exception with its message, [Abort] a failed [assert],
    [UB] an access outside an object (undefined behaviour), [Blocked] a call that waits
    for something only another thread can do, [NoFuel] is produced only when the bound
    given to a loop of the model is too small. *)
Inductive fault :=
| Throw (msg : string)
| Abort (cond : string)
| UB (what : string)
| Blocked (what : string)
| NoFuel.

Inductive result (A : Type) :=
| Ok (a : A)
| Fault (f : fault).
Arguments Ok {A} a.
Arguments Fault {A} f.

#[export] Instance fault_eq_dec : EqDecision fault.
Proof. solve_decision. Defined.

#[export] Instance result_eq_dec `{EqDecision A} : EqDecision (result A).
Proof. solve_decision. Defined.

#[export] Instance result_ret : MRet result := fun A a => Ok a.
#[export] Instance result_bind : MBind result :=
  fun A B f r => match r with Ok a => f a | Fault e => Fault e end.
#[export] Instance result_fmap : FMap result :=
  fun A B f r => match r with Ok a => Ok (f a) | Fault e => Fault e end.

Definition is_ok {A} (r : result A) : bool :=
  match r with Ok _ => true | Fault _ => false end.

Definition of_option {A} (f : fault) (o : option A) : result A :=
  match o with Some a => Ok a | None => Fault f end.

Lemma bind_Ok {A B} (a : A) (k : A -> result B) : (Ok a ≫= k) = k a.
Proof. reflexivity. Qed.

Lemma bind_inv {A B} (r : result A) (k : A -> result B) b :
  (r ≫= k) = Ok b -> exists a, r = Ok a /\ k a = Ok b.
Proof. destruct r; [eauto | discriminate]. Qed.

Lemma bind_fault {A B} (f : fault) (k : A -> result B) : (Fault f ≫= k) = Fault f.
Proof. reflexivity. Qed.

Lemma of_option_Ok {A} f (o : option A) a : of_option f o = Ok a <-> o = Some a.
Proof. destruct o; simpl; split; congruence. Qed.

(** ** A state monad whose state survives an exception

    A C++ function that throws keeps the writes it already made, so a computation
    returns its final state whatever its outcome is. *)
Definition M (S A : Type) : Type := S -> result A * S.

#[export] Instance M_ret {S} : MRet (M S) := fun A a s => (Ok a, s).
#[export] Instance M_bind {S} : MBind (M S) :=
  fun A B f m s => match m s with (Ok a, s') => f a s' | (Fault e, s') => (Fault e, s') end.

Definition get {S} : M S S := fun s => (Ok s, s).
Definition put {S} (s : S) : M S unit := fun _ => (Ok tt, s).
Definition gets {S A} (f : S -> A) : M S A := fun s => (Ok (f s), s).
Definition modify {S} (f : S -> S) : M S unit := fun s => (Ok tt, f s).
Definition lift {S A} (r : result A) : M S A := fun s => (r, s).
Definition throw {S A} (f : fault) : M S A := fun s => (Fault f, s).

Lemma M_bind_Ok {S A B} (m : M S A) (k : A -> M S B) s a s' :
  m s = (Ok a, s') -> (m ≫= k) s = k a s'.
Proof. unfold mbind, M_bind. by intros ->. Qed.

Lemma M_bind_fault {S A B} (m : M S A) (k : A -> M S B) s e s' :
  m s = (Fault e, s') -> (m ≫= k) s = (Fault e, s').
Proof. unfold mbind, M_bind. by intros ->. Qed.

(** A step that does not touch the state. *)
Lemma lift_Ok {S A B} (r : result A) (k : A -> M S B) s a :
  r = Ok a -> mbind k (lift r) s = k a s.
Proof. unfold mbind, M_bind, lift. by intros ->. Qed.

Lemma lift_fault {S A B} (r : result A) (k : A -> M S B) s e :
  r = Fault e -> mbind k (lift r) s = (Fault e, s).
Proof. unfold mbind, M_bind, lift. by intros ->. Qed.

Lemma M_bind_inv {S A B} (m : M S A) (k : A -> M S B) s b s'' :
  (m ≫= k) s = (Ok b, s'') -> exists a s', m s = (Ok a, s') /\ k a s' = (Ok b, s'').
Proof.
  unfold mbind, M_bind. destruct (m s) as [[a|e] s']; [eauto | discriminate].
Qed.

(** A whole loop body run for the elements of a list, in order. *)
Fixpoint foldM {A B} (f : B -> A -> result B) (l : list A) (b : B) : result B :=
  match l with
  | [] => Ok b
  | x :: l' => b' ← f b x; foldM f l' b'
  end.

Fixpoint mapM_ {S A} (f : A -> M S unit) (l : list A) : M S unit :=
  match l with
  | [] => mret tt
  | x :: l' => _ ← f x; mapM_ f l'
  end.

Lemma foldM_app {A B} (f : B -> A -> result B) l1 l2 b :
  foldM f (l1 ++ l2) b = (b' ← foldM f l1 b; foldM f l2 b').
Proof.
  revert b; induction l1 as [|x l1 IH]; intros b; [done|].
  simpl. destruct (f b x); simpl; [apply IH | done].
Qed.

Lemma mapM_app {S A} (f : A -> M S unit) l1 l2 s : mapM_ f (l1 ++ l2) s = (_ ← mapM_ f l1; mapM_ f l2) s.
Proof.
  revert s. induction l1 as [|x l1 IH]; intros s; [done|]. cbn [app mapM_]. unfold mbind, M_bind in *.
  destruct (f x s) as [[[]|e] s']; [apply IH | done].
Qed.

Lemma combine_snoc {A B} (l : list A) (k : list B) a b : length l = length k -> combine (l ++ [a]) (k ++ [b]) = combine l k ++ [(a, b)].
Proof. revert k. induction l as [|x l IH]; intros [|y k] Hl; [done..|]. cbn. by rewrite IH by (by injection Hl). Qed.

(** An invariant indexed by the number of elements consumed so far. *)
Lemma foldM_inv {A B} (P : nat -> B -> Prop) (f : B -> A -> result B) (l : list A) (b : B) :
  P 0%nat b ->
  (forall i x b0, l !! i = Some x -> P i b0 -> exists b1, f b0 x = Ok b1 /\ P (S i) b1) ->
  exists b', foldM f l b = Ok b' /\ P (length l) b'.
Proof.
  revert P b; induction l as [|x l IH]; intros P b H0 Hstep; simpl; [eauto|].
  destruct (Hstep 0%nat x b eq_refl H0) as (b1 & -> & H1). simpl.
  apply (IH (fun i => P (S i))); [exact H1 | intros i y b0 Hy; exact (Hstep (S i) y b0 Hy)].
Qed.

(** A loop that reaches an element at which the body faults. *)
Lemma foldM_fault {A B} (P : nat -> B -> Prop) (f : B -> A -> result B) (l : list A) (b : B) i x e :
  P 0%nat b -> l !! i = Some x ->
  (forall j y b0, (j < i)%nat -> l !! j = Some y -> P j b0 -> exists b1, f b0 y = Ok b1 /\ P (S j) b1) ->
  (forall b0, P i b0 -> f b0 x = Fault e) ->
  foldM f l b = Fault e.
Proof.
  revert P b l; induction i as [|i IH]; intros P b [|y l] H0 Hx Hstep Hf; simplify_eq/=.
  - by rewrite Hf.
  - destruct (Hstep 0%nat y b ltac:(lia) eq_refl H0) as (b1 & -> & H1). simpl.
    apply (IH (fun j => P (S j))); try done.
    intros j z b0 Hj Hz. apply (Hstep (S j) z b0); [lia | done].
Qed.

Lemma Forall2_rev {A B} (P : A -> B -> Prop) l k : Forall2 P l k -> Forall2 P (rev l) (rev k).
Proof.
  induction 1; simpl; [constructor|]. apply Forall2_app; [done | by repeat constructor].
Qed.

(** ** Assertions

    [assert] is active unless the build defines [NDEBUG]; the repository's build
    files do not define it for the default build, and do for CMake's Release. *)
Class Build := { asserts_on : bool }.

Definition DebugBuild : Build := {| asserts_on := true |}.
Definition ReleaseBuild : Build := {| asserts_on := false |}.

Definition assert_ `{Build} (c : bool) (what : string) : result unit :=
  if asserts_on && negb c then Fault (Abort what) else Ok tt.

Lemma assert_true `{Build} what : assert_ true what = Ok tt.
Proof. unfold assert_. by rewrite andb_false_r. Qed.

Lemma assert_Ok `{Build} c what : c = true -> assert_ c what = Ok tt.
Proof. intros ->. apply assert_true. Qed.

Lemma assert_fails `{Build} c what :
  asserts_on = true -> c = false -> assert_ c what = Fault (Abort what).
Proof. unfold assert_. by intros -> ->. Qed.

(** ** Machine integers

    A w-bit unsigned integer is the [Z] in [[0, 2^w)], a signed one the [Z] in
    [[- 2^(w-1), 2^(w-1))]; [wrap] and [swrap] are the conversions to them. *)
Definition wrap (w z : Z) : Z := z mod 2 ^ w.
Definition swrap (w z : Z) : Z := (z + 2 ^ (w - 1)) mod 2 ^ w - 2 ^ (w - 1).
Definition in_u (w z : Z) : bool := (0 <=? z) && (z <? 2 ^ w).
Definition in_s (w z : Z) : bool := (- 2 ^ (w - 1) <=? z) && (z <? 2 ^ (w - 1)).

Lemma in_u_spec w z : in_u w z = true <-> 0 <= z < 2 ^ w.
Proof. unfold in_u. rewrite andb_true_iff, Z.leb_le, Z.ltb_lt. reflexivity. Qed.

Lemma in_s_spec w z : in_s w z = true <-> - 2 ^ (w - 1) <= z < 2 ^ (w - 1).
Proof. unfold in_s. rewrite andb_true_iff, Z.leb_le, Z.ltb_lt. reflexivity. Qed.

Lemma wrap_small w z : 0 <= z < 2 ^ w -> wrap w z = z.
Proof. intros. by apply Z.mod_small. Qed.

Lemma wrap_range w z : 0 <= w -> 0 <= wrap w z < 2 ^ w.
Proof. intros. apply Z.mod_pos_bound. lia. Qed.

Lemma pow_half w : 1 <= w -> 2 ^ w = 2 * 2 ^ (w - 1).
Proof. intros. replace w with (Z.succ (w - 1)) at 1 by lia. rewrite Z.pow_succ_r; lia. Qed.

Lemma swrap_small w z : 1 <= w -> - 2 ^ (w - 1) <= z < 2 ^ (w - 1) -> swrap w z = z.
Proof. intros Hw Hz. unfold swrap. rewrite Z.mod_small; [lia|]. rewrite (pow_half w); lia. Qed.

Lemma swrap_wrap w z : 1 <= w -> swrap w (wrap w z) = swrap w z.
Proof. intros. unfold swrap, wrap. by rewrite Zplus_mod_idemp_l. Qed.

Lemma swrap_range w z : 1 <= w -> - 2 ^ (w - 1) <= swrap w z < 2 ^ (w - 1).
Proof.
  intros Hw. unfold swrap.
  pose proof (Z.mod_pos_bound (z + 2 ^ (w - 1)) (2 ^ w) ltac:(lia)).
  rewrite (pow_half w) in * by lia. lia.
Qed.

(** ** Bytes *)
Definition byte_val (b : byte) : Z := Z.of_N (Byte.to_N b).
Definition byte_of (z : Z) : byte := default x00 (Byte.of_N (Z.to_N (z mod 256))).

#[export] Instance byte_eq_dec : EqDecision byte := Byte.byte_eq_dec.

Lemma byte_val_range b : 0 <= byte_val b < 256.
Proof. unfold byte_val. pose proof (Byte.to_N_bounded b). lia. Qed.

Lemma byte_val_of z : byte_val (byte_of z) = z mod 256.
Proof.
  unfold byte_val, byte_of. pose proof (Z.mod_pos_bound z 256 ltac:(lia)).
  destruct (Byte.of_N (Z.to_N (z mod 256))) as [b|] eqn:E; simpl.
  - apply Byte.to_of_N in E. rewrite E. lia.
  - apply Byte.of_N_None_iff in E. lia.
Qed.

Lemma byte_of_val b : byte_of (byte_val b) = b.
Proof.
  unfold byte_of. rewrite Z.mod_small by apply byte_val_range.
  unfold byte_val. by rewrite N2Z.id, Byte.of_to_N.
Qed.

Lemma byte_val_inj b1 b2 : byte_val b1 = byte_val b2 -> b1 = b2.
Proof. intros H. rewrite <-(byte_of_val b1), <-(byte_of_val b2). by rewrite H. Qed.

(** ** Little- and big-endian integers in memory *)
Fixpoint enc_le (n : nat) (z : Z) : list byte :=
  match n with O => [] | S n' => byte_of z :: enc_le n' (z / 256) end.

Fixpoint dec_le (bs : list byte) : Z :=
  match bs with [] => 0 | b :: t => byte_val b + 256 * dec_le t end.

Definition enc_be (n : nat) (z : Z) : list byte := rev (enc_le n z).
Definition dec_be (bs : list byte) : Z := dec_le (rev bs).

Lemma length_enc_le n z : length (enc_le n z) = n.
Proof. revert z; induction n; simpl; auto. Qed.

Lemma length_enc_be n z : length (enc_be n z) = n.
Proof. unfold enc_be. by rewrite length_rev, length_enc_le. Qed.

Lemma pow256_S n : 256 ^ Z.of_nat (S n) = 256 * 256 ^ Z.of_nat n.
Proof. rewrite Nat2Z.inj_succ, Z.pow_succ_r; lia. Qed.

Lemma dec_enc_le n z : dec_le (enc_le n z) = z mod 256 ^ Z.of_nat n.
Proof.
  revert z; induction n as [|n IH]; intros z.
  - simpl. by rewrite Z.mod_1_r.
  - cbn [enc_le dec_le]. rewrite byte_val_of, IH, pow256_S.
    rewrite Z.rem_mul_r by lia. lia.
Qed.

Lemma dec_le_range bs : 0 <= dec_le bs < 256 ^ Z.of_nat (length bs).
Proof.
  induction bs as [|b bs IH]; [simpl; lia|].
  cbn [dec_le length]. rewrite pow256_S. pose proof (byte_val_range b). nia.
Qed.

Lemma enc_dec_le bs : enc_le (length bs) (dec_le bs) = bs.
Proof.
  induction bs as [|b bs IH]; [done|]. cbn [length enc_le dec_le].
  pose proof (byte_val_range b).
  replace ((byte_val b + 256 * dec_le bs) / 256) with (dec_le bs)
    by (apply (Z.div_unique _ _ _ (byte_val b)); lia).
  rewrite IH. f_equal. apply byte_val_inj. rewrite byte_val_of.
  symmetry. apply (Z.mod_unique _ _ (dec_le bs)); lia.
Qed.

Lemma dec_enc_be n z : dec_be (enc_be n z) = z mod 256 ^ Z.of_nat n.
Proof. unfold dec_be, enc_be. by rewrite rev_involutive, dec_enc_le. Qed.

Lemma enc_dec_be bs : enc_be (length bs) (dec_be bs) = bs.
Proof.
  unfold dec_be, enc_be. rewrite <-(length_rev bs), enc_dec_le. apply rev_involutive.
Qed.

Lemma dec_be_range bs : 0 <= dec_be bs < 256 ^ Z.of_nat (length bs).
Proof. unfold dec_be. rewrite <-length_rev. apply dec_le_range. Qed.

(** ** Memory blocks

    A block (a page, a vector's buffer, a file's contents) is a list of bytes;
    offsets and sizes are [Z]. [slice] and [blit] are the total functions, [rd]
    and [wr] the accesses of the code, which fault outside of the block. *)
Definition zlen {A} (l : list A) : Z := Z.of_nat (length l).
Definition slice {A} (off n : Z) (l : list A) : list A :=
  take (Z.to_nat n) (drop (Z.to_nat off) l).
Definition blit {A} (off : Z) (bs l : list A) : list A :=
  take (Z.to_nat off) l ++ bs ++ drop (Z.to_nat off + length bs) l.
Definition zeros (n : Z) : list byte := replicate (Z.to_nat n) x00.

Definition rd (buf : list byte) (off n : Z) : result (list byte) :=
  if (0 <=? off) && (0 <=? n) && (off + n <=? zlen buf) then Ok (slice off n buf)
  else Fault (UB "read outside of the object").

Definition wr (buf : list byte) (off : Z) (bs : list byte) : result (list byte) :=
  if (0 <=? off) && (off + zlen bs <=? zlen buf) then Ok (blit off bs buf)
  else Fault (UB "write outside of the object").

(** The unsigned and the signed integer of [n] bytes at an offset. *)
Definition rd_u (buf : list byte) (off : Z) (n : nat) : result Z :=
  dec_le <$> rd buf off (Z.of_nat n).
Definition rd_s (buf : list byte) (off : Z) (n : nat) : result Z :=
  swrap (8 * Z.of_nat n) <$> rd_u buf off n.

Section blocks.
  Context {A : Type}.
  Implicit Types (l bs : list A) (off n : Z).

Lemma zlen_nonneg l : 0 <= zlen l.
Proof. unfold zlen. lia. Qed.

Lemma zlen_nil : zlen (@nil A) = 0.
Proof. done. Qed.

Lemma zlen_cons x l : zlen (x :: l) = 1 + zlen l.
Proof. unfold zlen. simpl. lia. Qed.

Lemma zlen_app l bs : zlen (l ++ bs) = zlen l + zlen bs.
Proof. unfold zlen. rewrite length_app. lia. Qed.

Lemma zlen_slice off n l : 0 <= off -> 0 <= n -> off + n <= zlen l -> zlen (slice off n l) = n.
Proof. unfold zlen, slice. rewrite length_take, length_drop. lia. Qed.

Lemma zlen_blit off bs l : 0 <= off -> off + zlen bs <= zlen l -> zlen (blit off bs l) = zlen l.
Proof. unfold zlen, blit. rewrite !length_app, length_take, length_drop. lia. Qed.

Lemma lookup_slice off n l i :
  slice off n l !! i =
  if decide (Z.of_nat i < n) then l !! (Z.to_nat off + i)%nat else None.
Proof.
  unfold slice. case_decide.
  - rewrite lookup_take_lt by lia. by rewrite lookup_drop.
  - apply lookup_take_ge. lia.
Qed.

Lemma lookup_blit off bs l i :
  0 <= off -> off + zlen bs <= zlen l ->
  blit off bs l !! i =
  if decide (Z.of_nat i < off) then l !! i
  else if decide (Z.of_nat i < off + zlen bs) then bs !! (i - Z.to_nat off)%nat
  else l !! i.
Proof.
  unfold zlen, blit. intros H0 H1. case_decide; [|case_decide].
  - rewrite lookup_app_l by (rewrite length_take; lia). rewrite lookup_take_lt by lia. done.
  - rewrite lookup_app_r by (rewrite length_take; lia).
    rewrite length_take, lookup_app_l by lia. f_equal. lia.
  - rewrite lookup_app_r by (rewrite length_take; lia).
    rewrite length_take, lookup_app_r, lookup_drop by lia. f_equal. lia.
Qed.

Lemma slice_blit_same off bs l :
  0 <= off -> off + zlen bs <= zlen l -> slice off (zlen bs) (blit off bs l) = bs.
Proof.
  intros H0 H1. apply list_eq; intros i. rewrite lookup_slice. case_decide as Hi.
  - rewrite lookup_blit by done. rewrite decide_False, decide_True by lia. f_equal. lia.
  - symmetry. apply lookup_ge_None. unfold zlen in Hi. lia.
Qed.

Lemma slice_blit_other off bs l off' n :
  0 <= off -> off + zlen bs <= zlen l -> 0 <= off' ->
  off' + n <= off \/ off + zlen bs <= off' ->
  slice off' n (blit off bs l) = slice off' n l.
Proof.
  intros H0 H1 H2 Hd. apply list_eq; intros i. rewrite !lookup_slice. case_decide; [|done].
  rewrite lookup_blit by done. case_decide; [done|]. rewrite decide_False by lia. done.
Qed.

Lemma slice_blit_inside off bs l off' n :
  0 <= off -> off + zlen bs <= zlen l -> off <= off' -> 0 <= n -> off' + n <= off + zlen bs ->
  slice off' n (blit off bs l) = slice (off' - off) n bs.
Proof.
  intros H0 H1 H2 Hn Hd. apply list_eq; intros i. rewrite !lookup_slice. case_decide; [|done].
  rewrite lookup_blit, decide_False, decide_True by lia. f_equal. lia.
Qed.

Lemma blit_slice_id off n l :
  0 <= off -> 0 <= n -> off + n <= zlen l -> blit off (slice off n l) l = l.
Proof.
  intros H0 H1 H2. pose proof (zlen_slice off n l H0 H1 H2) as Hl.
  apply list_eq; intros i. rewrite lookup_blit by lia. rewrite Hl.
  case_decide; [done|]. case_decide; [|done].
  rewrite lookup_slice, decide_True by lia. f_equal. lia.
Qed.

Lemma blit_blit_same off bs bs' l :
  0 <= off -> zlen bs = zlen bs' -> off + zlen bs <= zlen l ->
  blit off bs (blit off bs' l) = blit off bs l.
Proof.
  intros H0 H1 H2. apply list_eq; intros i.
  rewrite !lookup_blit by (rewrite ?zlen_blit by lia; lia).
  repeat case_decide; try done; lia.
Qed.

Lemma slice_all l : slice 0 (zlen l) l = l.
Proof. unfold slice, zlen. rewrite drop_0, take_ge by lia. done. Qed.

Lemma slice_slice off n off' n' l :
  0 <= off -> 0 <= off' -> 0 <= n' -> off' + n' <= n ->
  slice off' n' (slice off n l) = slice (off + off') n' l.
Proof.
  intros H0 H1 H2 H3. apply list_eq; intros i. rewrite !lookup_slice.
  case_decide; [|done]. rewrite decide_True by lia. f_equal. lia.
Qed.

Lemma slice_app_l off n l bs : 0 <= off -> off + n <= zlen l -> slice off n (l ++ bs) = slice off n l.
Proof.
  intros H0 H1. apply list_eq; intros i. rewrite !lookup_slice. case_decide; [|done].
  apply lookup_app_l. unfold zlen in *. lia.
Qed.

Lemma slice_app_r off n l bs :
  zlen l <= off -> slice off n (l ++ bs) = slice (off - zlen l) n bs.
Proof.
  intros H0. apply list_eq; intros i. rewrite !lookup_slice. case_decide; [|done].
  unfold zlen in *. rewrite lookup_app_r by lia. f_equal. lia.
Qed.

Lemma slice_app_exact l bs : slice (zlen l) (zlen bs) (l ++ bs) = bs.
Proof. rewrite slice_app_r by lia. rewrite Z.sub_diag. apply slice_all. Qed.
End blocks.

Lemma zlen_zeros n : 0 <= n -> zlen (zeros n) = n.
Proof. intros. unfold zlen, zeros. rewrite length_replicate. lia. Qed.

Lemma zlen_enc_le n z : zlen (enc_le n z) = Z.of_nat n.
Proof. unfold zlen. by rewrite length_enc_le. Qed.

Lemma zlen_enc_be n z : zlen (enc_be n z) = Z.of_nat n.
Proof. unfold zlen. by rewrite length_enc_be. Qed.

Lemma rd_Ok buf off n :
  0 <= off -> 0 <= n -> off + n <= zlen buf -> rd buf off n = Ok (slice off n buf).
Proof.
  intros. unfold rd. rewrite !(proj2 (Z.leb_le _ _)) by lia. done.
Qed.

Lemma rd_inv buf off n bs :
  rd buf off n = Ok bs -> 0 <= off /\ 0 <= n /\ off + n <= zlen buf /\ bs = slice off n buf.
Proof.
  unfold rd. destruct (Z.leb_spec 0 off), (Z.leb_spec 0 n), (Z.leb_spec (off + n) (zlen buf));
    simpl; intros [= <-]; auto.
Qed.

Lemma wr_Ok buf off bs :
  0 <= off -> off + zlen bs <= zlen buf -> wr buf off bs = Ok (blit off bs buf).
Proof. intros. unfold wr. rewrite !(proj2 (Z.leb_le _ _)) by lia. done. Qed.

Lemma wr_inv buf off bs buf' :
  wr buf off bs = Ok buf' -> 0 <= off /\ off + zlen bs <= zlen buf /\ buf' = blit off bs buf.
Proof.
  unfold wr. destruct (Z.leb_spec 0 off), (Z.leb_spec (off + zlen bs) (zlen buf));
    simpl; intros [= <-]; auto.
Qed.

Lemma wr_outside buf off bs :
  off < 0 \/ zlen buf < off + zlen bs -> wr buf off bs = Fault (UB "write outside of the object").
Proof.
  intros H. unfold wr.
  destruct (Z.leb_spec 0 off), (Z.leb_spec (off + zlen bs) (zlen buf)); simpl; done || lia.
Qed.

(** ** Lists given by a function of the index *)
Definition fupd {A} (f : nat -> A) (i : nat) (x : A) : nat -> A := fun j => if decide (j = i) then x else f j.

Section tables.
  Context {A : Type}.
  Implicit Types (f g : nat -> A) (l : list A).

Lemma fupd_eq f i x : fupd f i x i = x.
Proof. unfold fupd. by rewrite decide_True. Qed.

Lemma fupd_ne f i j x : j <> i -> fupd f i x j = f j.
Proof. intros. unfold fupd. by rewrite decide_False. Qed.

Lemma lookup_map_seq f n i : (i < n)%nat -> map f (seq 0 n) !! i = Some (f i).
Proof. intros Hi. by rewrite list_lookup_fmap, lookup_seq_lt. Qed.

Lemma map_seq_eq f g n : (forall j, (j < n)%nat -> f j = g j) -> map f (seq 0 n) = map g (seq 0 n).
Proof. intros He. apply map_ext_in. intros j Hj%in_seq. apply He. lia. Qed.

Lemma insert_map_seq f n i x : (i < n)%nat -> <[i := x]> (map f (seq 0 n)) = map (fupd f i x) (seq 0 n).
Proof.
  intros Hi. apply list_eq. intros j. destruct (decide (j = i)) as [->|Hne].
  - rewrite list_lookup_insert_eq by (by rewrite length_map, length_seq). by rewrite lookup_map_seq, fupd_eq by done.
  - rewrite list_lookup_insert_ne by done. destruct (decide (j < n)%nat) as [Hj|Hj].
    + by rewrite !lookup_map_seq, fupd_ne by done.
    + rewrite !lookup_ge_None_2; [done | |]; rewrite length_map, length_seq; lia.
Qed.

Lemma list_as_map_seq l d : l = map (fun j => default d (l !! j)) (seq 0 (length l)).
Proof.
  apply list_eq. intros i. destruct (l !! i) as [x|] eqn:E.
  - rewrite lookup_map_seq by (by eapply lookup_lt_Some). by rewrite E.
  - symmetry. apply lookup_ge_None. rewrite length_map, length_seq. by apply lookup_ge_None.
Qed.

Lemma map_as_seq {B} (h : A -> B) l d : map h l = map (fun j => h (default d (l !! j))) (seq 0 (length l)).
Proof. rewrite (list_as_map_seq l d) at 1. by rewrite map_map. Qed.
End tables.

(** ** Cursor discipline

    A block filled from the left: [pre] is written, [k] zero bytes are left.
    Writing [bs] at the cursor extends the written part. *)
Lemma wr_frontier pre bs k :
  zlen bs <= k ->
  wr (pre ++ zeros k) (zlen pre) bs = Ok ((pre ++ bs) ++ zeros (k - zlen bs)).
Proof.
  intros Hk. pose proof (zlen_nonneg pre). pose proof (zlen_nonneg bs).
  rewrite wr_Ok by (rewrite ?zlen_app, ?zlen_zeros; lia). f_equal.
  unfold blit, zlen in *. rewrite Nat2Z.id, take_app_length, <-app_assoc.
  f_equal. f_equal. rewrite drop_app_add. unfold zeros. rewrite drop_replicate.
  f_equal. lia.
Qed.

Lemma wr_frontier_overflow pre bs k :
  0 <= k < zlen bs ->
  wr (pre ++ zeros k) (zlen pre) bs = Fault (UB "write outside of the object").
Proof. intros Hk. apply wr_outside. rewrite zlen_app, zlen_zeros; lia. Qed.

(** Reading the bytes that follow what was consumed. *)
Lemma rd_frontier pre bs rest :
  rd (pre ++ bs ++ rest) (zlen pre) (zlen bs) = Ok bs.
Proof.
  pose proof (zlen_nonneg pre). pose proof (zlen_nonneg bs). pose proof (zlen_nonneg rest).
  rewrite rd_Ok by (rewrite ?zlen_app; lia). f_equal.
  rewrite slice_app_r, Z.sub_diag, slice_app_l, slice_all by lia. done.
Qed.

Lemma rd_frontier_n pre bs rest n :
  n = zlen bs -> rd (pre ++ bs ++ rest) (zlen pre) n = Ok bs.
Proof. intros ->. apply rd_frontier. Qed.

Lemma rd_u_frontier pre n z rest :
  rd_u (pre ++ enc_le n z ++ rest) (zlen pre) n = Ok (z mod 256 ^ Z.of_nat n).
Proof.
  unfold rd_u. rewrite (rd_frontier_n _ (enc_le n z)) by (by rewrite zlen_enc_le).
  simpl. by rewrite dec_enc_le.
Qed.

Lemma rd_u_Ok buf off n :
  0 <= off -> off + Z.of_nat n <= zlen buf ->
  rd_u buf off n = Ok (dec_le (slice off (Z.of_nat n) buf)).
Proof. intros. unfold rd_u. by rewrite rd_Ok by lia. Qed.

Lemma dec_le_slice_range (buf : list byte) off n :
  0 <= off -> off + Z.of_nat n <= zlen buf ->
  0 <= dec_le (slice off (Z.of_nat n) buf) < 256 ^ Z.of_nat n.
Proof.
  intros. pose proof (dec_le_range (slice off (Z.of_nat n) buf)) as Hr.
  pose proof (zlen_slice off (Z.of_nat n) buf) as Hz. unfold zlen in *.
  by rewrite Hz in Hr by lia.
Qed.

(** One byte. *)
Lemma rd_u_byte buf i b : buf !! i = Some b -> rd_u buf (Z.of_nat i) 1 = Ok (byte_val b).
Proof.
  intros Hb. pose proof (lookup_lt_Some _ _ _ Hb). unfold rd_u.
  rewrite rd_Ok by (unfold zlen; lia). unfold slice. rewrite !Nat2Z.id.
  rewrite (drop_S _ _ _ Hb). simpl. unfold dec_le. f_equal. lia.
Qed.

Lemma wr_byte buf i b :
  (i < length buf)%nat -> wr buf (Z.of_nat i) [b] = Ok (<[i := b]> buf).
Proof.
  intros Hi. rewrite wr_Ok by (unfold zlen; simpl; lia). f_equal. unfold blit. rewrite Nat2Z.id.
  rewrite insert_take_drop by done. simpl. do 3 f_equal. lia.
Qed.

Lemma pow256 n : 256 ^ Z.of_nat n = 2 ^ (8 * Z.of_nat n).
Proof. rewrite Z.pow_mul_r by lia. done. Qed.

Lemma rd_s_frontier pre n z rest :
  (0 < n)%nat ->
  rd_s (pre ++ enc_le n z ++ rest) (zlen pre) n = Ok (swrap (8 * Z.of_nat n) z).
Proof.
  intros Hn. unfold rd_s. rewrite rd_u_frontier. simpl. rewrite pow256.
  f_equal. apply swrap_wrap. lia.
Qed.

Lemma land_bit b k : 0 <= k -> (Z.land b (Z.shiftl 1 k) =? 0) = negb (Z.testbit b k).
Proof.
  intros Hk. rewrite Z.shiftl_1_l. destruct (Z.testbit b k) eqn:E; simpl.
  - apply Z.eqb_neq. intros H. apply (f_equal (fun z => Z.testbit z k)) in H.
    rewrite Z.land_spec, E, Z.pow2_bits_true, Z.bits_0 in H by done. discriminate.
  - apply Z.eqb_eq. apply Z.bits_inj'. intros i Hi. rewrite Z.land_spec, Z.bits_0.
    destruct (decide (i = k)) as [->|]; [by rewrite E|].
    rewrite Z.pow2_bits_false by done. by rewrite andb_false_r.
Qed.

(** A field placed above the [k] low bits. *)
Lemma lor_shiftl a b k : 0 <= k -> 0 <= a < 2 ^ k -> Z.lor a (Z.shiftl b k) = a + 2 ^ k * b.
Proof.
  intros Hk Ha. pose proof (Z.add_lor_land a (Z.shiftl b k)) as Hs.
  replace (Z.land a (Z.shiftl b k)) with 0 in Hs.
  - rewrite Z.shiftl_mul_pow2 in Hs |- * by done. lia.
  - symmetry. apply Z.bits_inj'. intros i Hi. rewrite Z.land_spec, Z.bits_0, Z.shiftl_spec by done.
    destruct (Z_lt_le_dec i k).
    + rewrite (Z.testbit_neg_r _ (i - k)) by lia. apply andb_false_r.
    + rewrite <-(Z.mod_small a (2 ^ k)), Z.mod_pow2_bits_high by lia. done.
Qed.

#[global] Arguments enc_le : simpl never.
#[global] Arguments dec_le : simpl never.
#[global] Arguments enc_be : simpl never.
#[global] Arguments dec_be : simpl never.
#[global] Arguments wrap : simpl never.
#[global] Arguments swrap : simpl never.
#[global] Arguments zlen : simpl never.
#[global] Arguments slice : simpl never.
#[global] Arguments blit : simpl never.
#[global] Arguments zeros : simpl never.
#[global] Arguments rd : simpl never.
#[global] Arguments wr : simpl never.
#[global] Arguments rd_u : simpl never.
#[global] Arguments rd_s : simpl never.

(** ** Automation *)
Create HintDb mimi discriminated.
#[export] Hint Resolve zlen_nonneg byte_val_range assert_true : mimi.
Create Rewrite HintDb zlen.
#[export] Hint Rewrite @zlen_nil @zlen_cons @zlen_app zlen_enc_le zlen_enc_be : zlen.

(** [zl]: linear arithmetic over lengths of blocks. *)
Ltac zl_facts :=
  repeat match goal with
  | |- context [zlen ?l] =>
      lazymatch goal with
      | _ : 0 <= zlen l |- _ => fail
      | _ => pose proof (zlen_nonneg l)
      end
  | H : context [zlen ?l] |- _ =>
      lazymatch goal with
      | _ : 0 <= zlen l |- _ => fail
      | _ => pose proof (zlen_nonneg l)
      end
  end.
Ltac zl := autorewrite with zlen in *; zl_facts; lia.

(** [zdm]: the same with [/] and [mod] by constants. *)
Ltac zdm := Z.div_mod_to_equations; lia.

(** [zb]: the same through writes, whose bounds are proved on the way. *)
Ltac zb :=
  lazymatch goal with
  | |- context [zlen (blit ?o ?b ?l)] => rewrite (zlen_blit o b l); [zb | zb | zb]
  | |- _ => rewrite ?zlen_enc_le; lia
  end.

(** [inv_bind H]: split a successful sequence into its successful steps. *)
Ltac inv_bind H :=
  repeat match type of H with
  | (_ ≫= _) = Ok _ => apply bind_inv in H; destruct H as (? & ? & H)
  end.
