(* ===== verification/Types.v ===== *)
(** Scalar types, datums, descriptors and the small utilities every component uses:
    [utils/BitUtils.hpp], [utils/DatumArray.hpp], [executor/Datum.hpp],
    [executor/Oid.hpp], [access/AttrNumber.hpp], [access/TupleDescriptor.hpp],
    [access/heap/TupleId.hpp], [storage/buffer/PageNumber.hpp],
    [storage/buffer/PageTag.hpp], [trans/TransactionId.hpp],
    [trans/CommitSeqNumber.hpp], [storage/undo/UndoSeqNumber.hpp],
    [storage/wal/LogSeqNumber.hpp] and [mi_config.hpp]. *)
From S2P Require Import Prelude.

(** ** Configuration *)
Module Config.
Definition PageSize : Z := 8192.
Definition BitsPerByte : Z := 8.
Definition MaxWorkers : Z := 16.
Definition BufferPoolSize : Z := 1024.
End Config.

(** ** BitUtils: rounding to an alignment, in the width [w] of the argument type *)
Module BitUtils.
Definition TypeAlign (w length alignment : Z) : Z :=
  wrap w (Z.land (wrap 64 (length + (alignment - 1))) (2 ^ 64 - alignment)).
Definition MaxAlign (w length : Z) : Z := TypeAlign w length 8.
Definition BitmapSize (size : Z) : Z := (size + 7) / 8.

Lemma land_align x : 0 <= x < 2 ^ 64 -> Z.land x (2 ^ 64 - 8) = 8 * (x / 8).
Proof.
  intros Hx.
  replace (2 ^ 64 - 8) with (Z.ldiff (Z.ones 64) (Z.ones 3)) by reflexivity.
  replace (Z.land x (Z.ldiff (Z.ones 64) (Z.ones 3))) with (Z.ldiff (Z.land x (Z.ones 64)) (Z.ones 3)).
  - rewrite Z.land_ones, Z.mod_small by lia.
    rewrite Z.ldiff_ones_r, Z.shiftr_div_pow2, Z.shiftl_mul_pow2 by lia.
    change (2 ^ 3) with 8. lia.
  - apply Z.bits_inj'. intros i Hi. rewrite !Z.ldiff_spec, !Z.land_spec, Z.ldiff_spec.
    by rewrite andb_assoc.
Qed.

(** Rounding up to a multiple of 8, while it fits the type. *)
Lemma MaxAlign_spec w n :
  0 <= w <= 64 -> 0 <= n -> 8 * ((n + 7) / 8) < 2 ^ w -> MaxAlign w n = 8 * ((n + 7) / 8).
Proof.
  intros Hw Hn Hb. unfold MaxAlign, TypeAlign.
  assert (2 ^ w <= 2 ^ 64) by (apply Z.pow_le_mono_r; lia).
  assert (n + (8 - 1) < 2 ^ 64).
  { change (2 ^ 64) with 18446744073709551616 in *. zdm. }
  rewrite (wrap_small 64) by lia. rewrite land_align by lia.
  replace (n + (8 - 1)) with (n + 7) by lia. apply wrap_small. zdm.
Qed.
End BitUtils.

(** ** Identifiers *)
Module TransactionId.
Definition Invalid : Z := 0.
Definition Min : Z := 1.
Definition Max : Z := (2 ^ 64 - 1) / 4.
Definition isNormal (value : Z) : bool := (Min <=? value) && (value <=? Max).
End TransactionId.

Module CommitSeqNumber.
Definition Invalid : Z := 0.
Definition Frozen : Z := 1.
Definition InProgress : Z := 2.
Definition Aborted : Z := 3.
Definition Committing : Z := 4.
Definition Min : Z := 5.
Definition Max : Z := (2 ^ 64 - 1) / 2.
Definition IsInvalid (csn : Z) : bool := csn =? Invalid.
Definition IsFrozen (csn : Z) : bool := csn =? Frozen.
Definition IsInProgress (csn : Z) : bool := csn =? InProgress.
Definition IsAborted (csn : Z) : bool := csn =? Aborted.
Definition IsCommitting (csn : Z) : bool := csn =? Committing.
Definition IsNormal (csn : Z) : bool := csn >=? Min.
End CommitSeqNumber.

Module UndoSeqNumber.
Definition Max : Z := (2 ^ 64 - 1) / 4.
Definition Invalid : Z := 0.
Definition IsValid (value : Z) : bool := negb (value =? Invalid) && (value <=? Max).
End UndoSeqNumber.

Module LogSeqNumber.
Definition InvalidValue : Z := 0.
Definition IsValid (value : Z) : bool := negb (value =? InvalidValue).
End LogSeqNumber.

Module Oid.
Definition Invalid : Z := 0.
Definition IsValid (value : Z) : bool := negb (value =? Invalid).
End Oid.

Module PageNumber.
Definition InvalidValue : Z := 2 ^ 32 - 1.
Definition MinValue : Z := 0.
Definition MaxValue : Z := 2 ^ 32 - 2.
Definition IsValid (value : Z) : bool := negb (value =? InvalidValue).
Definition add (value n : Z) : Z := wrap 32 (value + n).
End PageNumber.

Record PageTag := mkPageTag { Relid : Z; PageNo : Z }.

#[export] Instance PageTag_eq_dec : EqDecision PageTag.
Proof. solve_decision. Defined.

#[export] Instance PageTag_countable : Countable PageTag.
Proof.
  apply (inj_countable' (fun t => (Relid t, PageNo t)) (fun p => mkPageTag p.1 p.2)).
  by intros [].
Defined.

Record TupleId := mkTupleId { pageno : Z; itemid : Z }.

#[export] Instance TupleId_eq_dec : EqDecision TupleId.
Proof. solve_decision. Defined.

(** [operator==] of [TupleId]: page and item. *)
Definition TupleId_eqb (a b : TupleId) : bool :=
  (pageno a =? pageno b) && (itemid a =? itemid b).

Lemma TupleId_eqb_spec a b : TupleId_eqb a b = true <-> a = b.
Proof.
  destruct a, b; unfold TupleId_eqb; simpl.
  rewrite andb_true_iff, !Z.eqb_eq. split; [intros [-> ->] | intros [= -> ->]]; auto.
Qed.

(** ** AttrNumber: 1-based attribute numbers and the loop over them *)
Module AttrNumber.
Section attr.
Context `{Build}.

Definition InvalidValue : Z := 0.
Definition MinValue : Z := 1.
Definition MaxValue : Z := 2 ^ 16 - 1.

(** 0-based position; the value 0 has none. *)
Definition ToIndex (value : Z) : result nat :=
  _ ← assert_ (negb (value =? InvalidValue)) "this->value != InvalidValue";
  Ok (Z.to_nat (wrap 64 (value - 1))).

(** [operator++]: a [uint16_t] increment. *)
Definition incr (value : Z) : Z := wrap 16 (value + 1).

(** [for (auto attno = AttrNumber::Min(); attno <= maxAttno; ++attno)] with a body
    that starts by taking [attno.ToIndex()]. *)
Fixpoint for_loop {B} (fuel : nat) (attno maxAttno : Z) (f : B -> nat -> result B) (b : B)
    : result B :=
  match fuel with
  | O => Fault NoFuel
  | S k =>
      if attno <=? maxAttno then
        idx ← ToIndex attno;
        b' ← f b idx;
        for_loop k (incr attno) maxAttno f b'
      else Ok b
  end.

Definition for_each {B} (maxAttno : Z) (f : B -> nat -> result B) (b : B) : result B :=
  for_loop (Z.to_nat maxAttno + 2) MinValue maxAttno f b.

Lemma ToIndex_ok value : 0 < value < 2 ^ 64 -> ToIndex value = Ok (Z.to_nat (value - 1)).
Proof.
  intros Hv. unfold ToIndex. rewrite assert_Ok.
  - simpl. rewrite wrap_small by lia. done.
  - apply negb_true_iff, Z.eqb_neq. unfold InvalidValue. lia.
Qed.

Lemma for_loop_S {B} (f : B -> nat -> result B) k attno m b :
  for_loop (S k) attno m f b =
  if attno <=? m then
    idx ← ToIndex attno; b' ← f b idx; for_loop k (incr attno) m f b'
  else Ok b.
Proof. reflexivity. Qed.

Lemma for_loop_seq {B} (f : B -> nat -> result B) n i m b :
  (Z.of_nat i + Z.of_nat n = m)%Z -> 0 <= m < MaxValue ->
  for_loop (S n) (Z.of_nat i + 1) m f b = foldM f (seq i n) b.
Proof.
  unfold MaxValue. revert i b. induction n as [|n IH]; intros i b Hm Hb.
  - simpl. rewrite (proj2 (Z.leb_gt _ _)) by lia. done.
  - rewrite for_loop_S. cbn [seq foldM].
    rewrite (proj2 (Z.leb_le _ _)) by lia. rewrite ToIndex_ok by lia. rewrite bind_Ok.
    replace (Z.to_nat (Z.of_nat i + 1 - 1)) with i by lia.
    destruct (f b i) as [b'|e]; [|done]. rewrite !bind_Ok.
    unfold incr. rewrite wrap_small by lia.
    replace (Z.of_nat i + 1 + 1) with (Z.of_nat (S i) + 1) by lia. apply IH; lia.
Qed.

Lemma for_loop_more {B} (f : B -> nat -> result B) k attno m b r :
  for_loop k attno m f b = r -> r <> Fault NoFuel -> for_loop (S k) attno m f b = r.
Proof.
  revert attno b. induction k as [|k IH]; intros attno b Hr Hne; [by subst r|].
  rewrite for_loop_S in Hr |- *. destruct (attno <=? m); [|done].
  destruct (ToIndex attno) as [idx|e]; [|done]. simpl in *.
  destruct (f b idx) as [b'|e]; [|done]. simpl in *. by apply IH.
Qed.

(** Below the maximum of the type the loop visits the positions 0 .. n-1 in order. *)
Lemma for_each_seq {B} (f : B -> nat -> result B) m b :
  0 <= m < MaxValue -> (foldM f (seq 0 (Z.to_nat m)) b <> Fault NoFuel) ->
  for_each m f b = foldM f (seq 0 (Z.to_nat m)) b.
Proof.
  intros Hm Hne. unfold for_each.
  replace (Z.to_nat m + 2)%nat with (S (S (Z.to_nat m))) by lia.
  apply for_loop_more; [|done].
  apply (for_loop_seq f (Z.to_nat m) 0 m b); lia.
Qed.

(** An invariant indexed by the number of attributes handled carries through the loop. *)
Lemma for_each_inv {B} (P : nat -> B -> Prop) (f : B -> nat -> result B) m b :
  0 <= m < MaxValue -> P 0%nat b ->
  (forall i b0, (Z.of_nat i < m)%Z -> P i b0 -> exists b1, f b0 i = Ok b1 /\ P (S i) b1) ->
  exists b', for_each m f b = Ok b' /\ P (Z.to_nat m) b'.
Proof.
  intros Hm H0 Hstep.
  destruct (foldM_inv P f (seq 0 (Z.to_nat m)) b H0) as (b' & Hf & HP).
  { intros i x b0 (-> & Hi)%lookup_seq HPi. apply Hstep; [lia | done]. }
  exists b'. rewrite length_seq in HP. split; [|done].
  rewrite for_each_seq by (rewrite ?Hf; done). done.
Qed.

(** The body faults at position [i]. *)
Lemma for_each_fault {B} (P : nat -> B -> Prop) (f : B -> nat -> result B) m b i e :
  0 <= m < MaxValue -> Z.of_nat i < m -> e <> NoFuel -> P 0%nat b ->
  (forall j b0, (j < i)%nat -> P j b0 -> exists b1, f b0 j = Ok b1 /\ P (S j) b1) ->
  (forall b0, P i b0 -> f b0 i = Fault e) ->
  for_each m f b = Fault e.
Proof.
  intros Hm Hi He H0 Hstep Hf.
  assert (Hl : foldM f (seq 0 (Z.to_nat m)) b = Fault e).
  { apply (foldM_fault P _ _ _ i i); try done; [rewrite lookup_seq_lt by lia; done|].
    intros j y b0 Hj (-> & _)%lookup_seq HP. by apply Hstep. }
  rewrite for_each_seq; rewrite ?Hl; congruence.
Qed.

(** At the maximum of the type the number wraps to 0 after the last attribute and the
    loop goes on. *)
Lemma for_loop_wraps {B} (f : B -> nat -> result B) n i b b' k :
  (i + n = Z.to_nat MaxValue)%nat -> foldM f (seq i n) b = Ok b' ->
  for_loop (n + k) (wrap 16 (Z.of_nat i + 1)) MaxValue f b = for_loop k 0 MaxValue f b'.
Proof.
  unfold MaxValue. revert i b. induction n as [|n IH]; intros i b Hi Hf.
  - simpl in Hf. simplify_eq. replace (Z.of_nat i + 1) with (2 ^ 16) by lia. done.
  - cbn [seq foldM Nat.add] in *. rewrite for_loop_S, wrap_small by lia.
    rewrite (proj2 (Z.leb_le _ _)) by lia. rewrite ToIndex_ok by lia. rewrite bind_Ok.
    replace (Z.to_nat (Z.of_nat i + 1 - 1)) with i by lia.
    destruct (f b i) as [b1|e]; [|done]. rewrite bind_Ok in Hf |- *. unfold incr.
    replace (Z.of_nat i + 1 + 1) with (Z.of_nat (S i) + 1) by lia. apply IH; [lia | done].
Qed.

Lemma for_each_max {B} (f : B -> nat -> result B) b b' :
  asserts_on = true -> foldM f (seq 0 (Z.to_nat MaxValue)) b = Ok b' ->
  for_each MaxValue f b = Fault (Abort "this->value != InvalidValue").
Proof.
  intros Ha Hf. unfold for_each. change MinValue with (wrap 16 (Z.of_nat 0 + 1)).
  rewrite (for_loop_wraps f _ 0 b b' 2) by (lia || done).
  rewrite for_loop_S. unfold ToIndex, assert_. by rewrite Ha.
Qed.
End attr.
End AttrNumber.

(** ** Datum: a machine word that is a scalar or a pointer

    [Ptr mem] is a pointer into a readable object of which [mem] are the bytes from
    the pointed address to the object's end. *)
Inductive Datum :=
| Scalar (value : Z)
| Ptr (mem : list byte).

#[export] Instance Datum_eq_dec : EqDecision Datum.
Proof. solve_decision. Defined.

(** [getScalar<T>] for a signed [T] of [w] bits: a [static_cast] of the word. *)
Definition getScalar (w : Z) (d : Datum) : result Z :=
  match d with Scalar v => Ok (swrap w v) | Ptr _ => Fault (UB "pointer used as a scalar") end.
Definition getBool (d : Datum) : result bool :=
  match d with Scalar v => Ok (negb (v =? 0)) | Ptr _ => Fault (UB "pointer used as a scalar") end.
Definition getPointer (d : Datum) : result (list byte) :=
  match d with Ptr m => Ok m | Scalar _ => Fault (UB "scalar used as a pointer") end.

(** The constructor from an integer, [static_cast<std::ptrdiff_t>]. *)
Definition mkScalar (v : Z) : Datum := Scalar (swrap 64 v).
Definition mkBool (b : bool) : Datum := Scalar (if b then 1 else 0).

(** [std::vector::operator[]]: undefined outside of the vector. *)
Definition vec_get {A} (v : list A) (i : nat) : result A :=
  of_option (UB "vector index out of range") (v !! i).
Definition vec_set {A} (v : list A) (i : nat) (x : A) : result (list A) :=
  if decide (i < length v)%nat then Ok (<[i := x]> v)
  else Fault (UB "vector index out of range").

Lemma vec_get_Ok {A} (v : list A) i x : v !! i = Some x -> vec_get v i = Ok x.
Proof. unfold vec_get. by intros ->. Qed.

Lemma vec_set_Ok {A} (v : list A) i x : (i < length v)%nat -> vec_set v i x = Ok (<[i := x]> v).
Proof. intros. unfold vec_set. by rewrite decide_True by done. Qed.

(** ** Tuple descriptors *)
Record AttributeDescriptor := mkAttr { typeId : Z; attLength : Z; byVal : bool }.

Notation TupleDescriptor := (list AttributeDescriptor).

(** [GetMaxAttrNumber]: the size of the vector, cast to [uint16_t]. *)
Definition GetMaxAttrNumber (attributes : TupleDescriptor) : Z := wrap 16 (zlen attributes).

(** ** DatumArray: growing arrays of values and null flags *)
Module DatumArray.
Record t := mk { values : list Datum; isnull : list bool; size : Z }.

Definition empty : t := mk [] [] 0.
Definition make (vs : list Datum) (ns : list bool) : result t :=
  if decide (length vs = length ns) then Ok (mk vs ns (zlen vs))
  else Fault (Throw "datum array and isnull bitmap have different sizes").
Definition AddValue (a : t) (v : Datum) : t :=
  mk (values a ++ [v]) (isnull a ++ [false]) (size a + 1).
Definition AddNull (a : t) : t :=
  mk (values a ++ [Scalar 0]) (isnull a ++ [true]) (size a + 1).
Definition Add (a : t) (v : option Datum) : t :=
  match v with Some d => AddValue a d | None => AddNull a end.
Definition sized (n : nat) : t := mk (replicate n (Scalar 0)) (replicate n false) 0.
Definition SetValue (a : t) (index : nat) (v : Datum) : result t :=
  vs ← vec_set (values a) index v;
  ns ← vec_set (isnull a) index false;
  mret (mk vs ns (size a)).
Definition SetNull (a : t) (index : nat) : result t :=
  vs ← vec_set (values a) index (Scalar 0);
  ns ← vec_set (isnull a) index true;
  mret (mk vs ns (size a)).
Definition Set_ (a : t) (index : nat) (v : option Datum) : result t :=
  match v with Some d => SetValue a index d | None => SetNull a index end.
Definition Get (a : t) (index : nat) : result (option Datum) :=
  n ← vec_get (isnull a) index;
  if n : bool then Ok None else Some <$> vec_get (values a) index.
Definition Size (a : t) : Z := zlen (values a).
Definition Decompose (a : t) : list Datum * list bool := (values a, isnull a).

(** What was added is read back at its position. *)
Definition of_list (vs : list (option Datum)) : t := fold_left Add vs empty.

Lemma Add_fields a v :
  values (Add a v) = values a ++ [default (Scalar 0) v] /\
  isnull (Add a v) = isnull a ++ [bool_decide (v = None)] /\
  size (Add a v) = size a + 1.
Proof. by destruct v. Qed.

Lemma fold_Add vs a :
  values (fold_left Add vs a) = values a ++ map (default (Scalar 0)) vs /\
  isnull (fold_left Add vs a) = isnull a ++ map (fun v => bool_decide (v = None)) vs /\
  size (fold_left Add vs a) = size a + zlen vs.
Proof.
  revert a. induction vs as [|v vs IH]; intros a; simpl.
  - rewrite !app_nil_r. unfold zlen. simpl. rewrite Z.add_0_r. done.
  - destruct (IH (Add a v)) as (-> & -> & ->). destruct (Add_fields a v) as (-> & -> & ->).
    rewrite <-!app_assoc. unfold zlen. simpl. split_and!; [done | done | lia].
Qed.

Lemma Get_of_list vs i v : vs !! i = Some v -> Get (of_list vs) i = Ok v.
Proof.
  intros Hi. unfold Get, of_list. destruct (fold_Add vs empty) as (-> & -> & _). simpl.
  rewrite (vec_get_Ok _ _ (bool_decide (v = None))) by by rewrite list_lookup_fmap, Hi.
  rewrite (vec_get_Ok _ _ (default (Scalar 0) v)) by by rewrite list_lookup_fmap, Hi.
  destruct v; done.
Qed.

(** What was set is read back, and the other entries are as before. *)
Lemma Get_Set a index v :
  length (isnull a) = length (values a) -> (index < length (values a))%nat ->
  exists a', Set_ a index v = Ok a' /\ Get a' index = Ok v /\ forall j, j <> index -> Get a' j = Get a j.
Proof.
  intros Hl Hi. unfold Set_, SetValue, SetNull. destruct v as [d|]; rewrite (vec_set_Ok (values a)), bind_Ok, (vec_set_Ok (isnull a)), bind_Ok by lia;
    (eexists; split; [reflexivity|]; split; [|intros j Hj]); unfold Get, vec_get; cbn [values isnull].
  - rewrite !list_lookup_insert_eq by lia. done.
  - by rewrite !list_lookup_insert_ne by done.
  - rewrite !list_lookup_insert_eq by lia. done.
  - by rewrite !list_lookup_insert_ne by done.
Qed.
End DatumArray.
