(* ===== verification/TupleSerializer.v ===== *)
(** [access/tuple/TupleSerializer.cpp]: the on-disk format of a row.

    [Serialize] makes two passes over the attributes: the first computes the size of
    the buffer, the second fills it (null bitmap first, then the values of the
    attributes that are not NULL). [Deserialize] reads it back. The buffers are memory
    blocks of exactly the size the code allocates, so a write after the end faults. *)
From S2P Require Import Prelude Types.

Section TupleSerializer.
Context `{Build}.

Record SerializedTupleInfo := mkSTI { Tuple : list byte; HasNulls : bool }.
Record DeserializedTuple := mkDT { Values : list Datum; IsNull : list bool }.

(** ** First pass: the size of the data *)
Definition size_step (attrs : TupleDescriptor) (values : list Datum) (isnull : list bool)
    (acc : bool * Z) (idx : nat) : result (bool * Z) :=
  let '(hasnulls, tupsize) := acc in
  n ← vec_get isnull idx;
  if n : bool then Ok (true, tupsize)
  else
    attrdesc ← vec_get attrs idx;
    if byVal attrdesc then
      _ ← assert_ (0 <? attLength attrdesc) "attrdesc.Length() > 0";
      Ok (hasnulls, wrap 64 (tupsize + attLength attrdesc))
    else if 0 <? attLength attrdesc then
      Ok (hasnulls, wrap 64 (tupsize + attLength attrdesc))
    else
      v ← vec_get values idx;
      p ← getPointer v;
      length ← rd_u p 0 4;
      _ ← assert_ (0 <? length) "length > 0";
      Ok (hasnulls, wrap 64 (tupsize + 4 + length)).

(** ** The null bitmap

    The cursor of the loop is the current byte [bitmap] and the mask [bitmask] of
    the bit that was handled last; [base] is the address of the first byte. *)
Definition highbit : Z := 128.

Definition bitmap_step (isnull : list bool) (acc : list byte * Z * Z) (idx : nat)
    : result (list byte * Z * Z) :=
  let '(buffer, bitmap, bitmask) := acc in
  let '(bitmap, bitmask) :=
    if bitmask =? highbit then (bitmap + 1, 1) else (bitmap, Z.shiftl bitmask 1) in
  n ← vec_get isnull idx;
  if n : bool then Ok (buffer, bitmap, bitmask)
  else
    b ← rd_u buffer bitmap 1;
    buffer' ← wr buffer bitmap [byte_of (Z.lor b (wrap 8 bitmask))];
    Ok (buffer', bitmap, bitmask).

Definition write_bitmap (maxAttno : Z) (isnull : list bool) (buffer : list byte) (cursor : Z)
    : result (list byte * Z) :=
  let bmsize := BitUtils.BitmapSize maxAttno in
  buffer ← wr buffer cursor (zeros bmsize);
  '(buffer, _, _) ← AttrNumber.for_each maxAttno (bitmap_step isnull) (buffer, cursor - 1, highbit);
  Ok (buffer, cursor + bmsize).

(** ** Second pass: the values *)
Definition data_step (attrs : TupleDescriptor) (values : list Datum) (isnull : list bool)
    (acc : list byte * Z) (idx : nat) : result (list byte * Z) :=
  let '(buffer, cursor) := acc in
  n ← vec_get isnull idx;
  if n : bool then Ok (buffer, cursor)
  else
    value ← vec_get values idx;
    attr ← vec_get attrs idx;
    if byVal attr then
      if bool_decide (attLength attr ∈ [1; 2; 4; 8]) then
        v ← getScalar (8 * attLength attr) value;
        buffer ← wr buffer cursor (enc_le (Z.to_nat (attLength attr)) v);
        Ok (buffer, cursor + attLength attr)
      else Fault (Throw "invalid by val attr length")
    else if 0 <? attLength attr then
      data ← getPointer value;
      bs ← rd data 0 (attLength attr);
      buffer ← wr buffer cursor bs;
      Ok (buffer, cursor + attLength attr)
    else
      data ← getPointer value;
      length ← rd_s data 0 4;
      buffer ← wr buffer cursor (enc_le 4 length);
      bs ← rd data 4 (wrap 64 length);
      buffer ← wr buffer (cursor + 4) bs;
      Ok (buffer, cursor + 4 + wrap 32 length).

Definition Serialize (desc : TupleDescriptor) (values : list Datum) (isnull : list bool)
    : result SerializedTupleInfo :=
  let maxAttno := GetMaxAttrNumber desc in
  '(hasnulls, tupsize) ← AttrNumber.for_each maxAttno (size_step desc values isnull) (false, 0);
  let tupsize := if hasnulls : bool then wrap 64 (tupsize + BitUtils.BitmapSize maxAttno) else tupsize in
  let buffer := zeros tupsize in
  '(buffer, cursor) ←
    (if hasnulls : bool then write_bitmap maxAttno isnull buffer 0 else Ok (buffer, 0));
  '(buffer, _) ← AttrNumber.for_each maxAttno (data_step desc values isnull) (buffer, cursor);
  Ok (mkSTI buffer hasnulls).

(** ** Reading *)

(** The value stored at a cursor and its full length. *)
Definition extract_attr_datum (array : list byte) (cursor : Z) (desc : AttributeDescriptor)
    : result (Datum * Z) :=
  if byVal desc then
    let length := wrap 64 (attLength desc) in
    _ ← assert_ (0 <? length) "length > 0";
    if bool_decide (length ∈ [1; 2; 4; 8]) then
      v ← rd_s array cursor (Z.to_nat length);
      Ok (mkScalar v, length)
    else
      _ ← assert_ false "false";
      Fault (Throw ("unknown type length " ++ pretty length))
  else if 0 <? attLength desc then
    Ok (Ptr (drop (Z.to_nat cursor) array), wrap 64 (attLength desc))
  else
    dataLen ← rd_s array cursor 4;
    Ok (Ptr (drop (Z.to_nat cursor) array), 4 + wrap 64 dataLen).

Definition null_step (array : list byte) (isnull : list bool) (idx : nat) : result (list bool) :=
  b ← rd_u array (Z.shiftr (Z.of_nat idx) 3) 1;
  vec_set isnull idx (Z.land b (Z.shiftl 1 (Z.land (Z.of_nat idx) 7)) =? 0).

Definition value_step (attributes : TupleDescriptor) (array : list byte) (hasnulls : bool)
    (isnull : list bool) (acc : list Datum * Z) (num : nat) : result (list Datum * Z) :=
  let '(values, cursor) := acc in
  n ← vec_get isnull num;
  if hasnulls && n then Ok (values, cursor)
  else
    desc ← vec_get attributes num;
    '(value, length) ← extract_attr_datum array cursor desc;
    values ← vec_set values num value;
    Ok (values, cursor + length).

Definition Deserialize (attributes : TupleDescriptor) (array : list byte) (hasnulls : bool)
    : result DeserializedTuple :=
  let maxattno := GetMaxAttrNumber attributes in
  let values := replicate (Z.to_nat maxattno) (Scalar 0) in
  let isnull := replicate (Z.to_nat maxattno) false in
  '(isnull, cursor) ←
    (if hasnulls then
       isnull ← AttrNumber.for_each maxattno (null_step array) isnull;
       Ok (isnull, BitUtils.BitmapSize maxattno)
     else Ok (isnull, 0));
  '(values, _) ←
    AttrNumber.for_each maxattno (value_step attributes array hasnulls isnull) (values, cursor);
  Ok (mkDT values isnull).
End TupleSerializer.


(** ** What the format is: the abstract description of a row's bytes *)
Section row_format.

(** A value that can be stored under an attribute. A by-value attribute holds an
    integer of its width; a by-reference one points to enough readable bytes, where a
    variable-width datum carries its length (at least 1) in its first 4 bytes. *)
Definition valid_attr (a : AttributeDescriptor) (v : Datum) : bool :=
  match v with
  | Scalar z => byVal a && bool_decide (attLength a ∈ [1; 2; 4; 8]) && in_s (8 * attLength a) z
  | Ptr mem =>
      negb (byVal a) && (attLength a <? 2 ^ 15) &&
      (if 0 <? attLength a then attLength a <=? zlen mem
       else let length := dec_le (slice 0 4 mem) in
            (0 <? length) && (length <? 2 ^ 31) && (4 + length <=? zlen mem))
  end.

Definition encode_attr (a : AttributeDescriptor) (v : Datum) : list byte :=
  match v with
  | Scalar z => enc_le (Z.to_nat (attLength a)) z
  | Ptr mem =>
      if 0 <? attLength a then slice 0 (attLength a) mem
      else slice 0 (4 + dec_le (slice 0 4 mem)) mem
  end.

Definition encode_cell (a : AttributeDescriptor) (v : Datum) (n : bool) : list byte :=
  if n then [] else encode_attr a v.

Fixpoint payload (desc : TupleDescriptor) (values : list Datum) (isnull : list bool) : list byte :=
  match desc, values, isnull with
  | a :: desc', v :: values', n :: isnull' => encode_cell a v n ++ payload desc' values' isnull'
  | _, _, _ => []
  end.

Fixpoint valid_row (desc : TupleDescriptor) (values : list Datum) (isnull : list bool) : bool :=
  match desc, values, isnull with
  | a :: desc', v :: values', n :: isnull' =>
      (n || valid_attr a v) && valid_row desc' values' isnull'
  | [], [], [] => true
  | _, _, _ => false
  end.

(** The whole stored row, and whether it has a null bitmap. *)
Definition has_nulls (isnull : list bool) : bool := existsb id isnull.

(** What a reader gets: the same scalars, and pointers to the stored bytes (which
    continue to the end of the row); the slot of a NULL is the default datum. *)
Fixpoint stored_values (desc : TupleDescriptor) (values : list Datum) (isnull : list bool)
    : list Datum :=
  match desc, values, isnull with
  | a :: desc', v :: values', n :: isnull' =>
      (if n : bool then Scalar 0 else
       match v with
       | Scalar z => Scalar z
       | Ptr _ => Ptr (encode_attr a v ++ payload desc' values' isnull')
       end) :: stored_values desc' values' isnull'
  | _, _, _ => []
  end.

Lemma valid_row_length desc values isnull :
  valid_row desc values isnull = true ->
  length values = length desc /\ length isnull = length desc.
Proof.
  revert values isnull. induction desc as [|a desc IH]; intros [|v values] [|n isnull]; simpl;
    try done. rewrite andb_true_iff. intros [_ H]. apply IH in H. lia.
Qed.

Lemma valid_row_lookup desc values isnull i a :
  valid_row desc values isnull = true -> desc !! i = Some a ->
  exists v n, values !! i = Some v /\ isnull !! i = Some n /\ (n = false -> valid_attr a v = true).
Proof.
  revert values isnull i. induction desc as [|b desc IH]; intros [|v values] [|n isnull] i; simpl;
    try done. rewrite andb_true_iff. intros [H1 H2] Hi.
  destruct i as [|i]; simpl in *; [|by apply IH].
  simplify_eq. exists v, n. split_and!; [done | done | intros ->; exact H1].
Qed.

Lemma payload_split desc values isnull i a v n :
  desc !! i = Some a -> values !! i = Some v -> isnull !! i = Some n ->
  payload desc values isnull =
    payload (take i desc) (take i values) (take i isnull) ++ encode_cell a v n ++
    payload (drop (S i) desc) (drop (S i) values) (drop (S i) isnull).
Proof.
  revert values isnull i. induction desc as [|b desc IH]; intros [|w values] [|m isnull] [|i];
    simpl; try done.
  - intros [= ->] [= ->] [= ->]. by rewrite !drop_0.
  - intros Ha Hv Hn. rewrite <-app_assoc. f_equal. by apply IH.
Qed.

Lemma payload_snoc desc values isnull i a v n :
  desc !! i = Some a -> values !! i = Some v -> isnull !! i = Some n ->
  payload (take (S i) desc) (take (S i) values) (take (S i) isnull) =
    payload (take i desc) (take i values) (take i isnull) ++ encode_cell a v n.
Proof.
  intros Ha Hv Hn.
  rewrite (payload_split (take (S i) desc) (take (S i) values) (take (S i) isnull) i a v n)
    by (rewrite lookup_take_lt by lia; done).
  rewrite !take_take, !(Nat.min_l i (S i)) by lia.
  rewrite !(drop_ge (take (S i) _)) by (rewrite length_take; lia). simpl.
  by rewrite app_nil_r.
Qed.
End row_format.

(** ** The null bitmap as a function of the flags *)
Section null_bitmap.

(** Bit [k] is set when attribute [k] is not NULL. *)
Fixpoint null_bits (isnull : list bool) : Z :=
  match isnull with [] => 0 | n :: t => (if n : bool then 0 else 1) + 2 * null_bits t end.

Definition null_bitmap (isnull : list bool) : list byte :=
  map (fun j => byte_of (null_bits (slice (8 * Z.of_nat j) 8 isnull)))
    (seq 0 (Z.to_nat (BitUtils.BitmapSize (zlen isnull)))).

Definition row_bytes (desc : TupleDescriptor) (values : list Datum) (isnull : list bool) : list byte :=
  (if has_nulls isnull then null_bitmap isnull else []) ++ payload desc values isnull.

Definition bm_bit (bm : list byte) (j : Z) : bool :=
  match bm !! Z.to_nat (j / 8) with Some b => Z.testbit (byte_val b) (j mod 8) | None => false end.

Definition not_null (isnull : list bool) (j : Z) : bool :=
  match isnull !! Z.to_nat j with Some n => negb n | None => false end.

Lemma null_bits_testbit isnull k :
  0 <= k -> Z.testbit (null_bits isnull) k = not_null isnull k.
Proof.
  unfold not_null. revert k. induction isnull as [|n t IH]; intros k Hk.
  - simpl. by rewrite Z.bits_0.
  - cbn [null_bits]. destruct (decide (k = 0)) as [->|].
    + rewrite Z.bit0_odd, Z.odd_add_mul_2. by destruct n.
    + replace k with (Z.succ (k - 1)) by lia.
      replace (Z.to_nat (Z.succ (k - 1))) with (S (Z.to_nat (k - 1))) by lia.
      cbn [lookup list_lookup]. rewrite <-IH by lia. destruct n.
      * rewrite Z.add_0_l, Z.testbit_even_succ by lia. done.
      * rewrite (Z.add_comm 1), Z.testbit_odd_succ by lia. done.
Qed.

Lemma zlen_null_bitmap isnull : zlen (null_bitmap isnull) = BitUtils.BitmapSize (zlen isnull).
Proof.
  unfold zlen at 1, null_bitmap. rewrite length_map, length_seq.
  unfold BitUtils.BitmapSize. pose proof (zlen_nonneg isnull). zdm.
Qed.

Lemma null_bitmap_bit isnull j :
  0 <= j < 8 * BitUtils.BitmapSize (zlen isnull) ->
  bm_bit (null_bitmap isnull) j = not_null isnull j.
Proof.
  intros Hj. unfold bm_bit, null_bitmap.
  assert (0 <= j mod 8 < 8) by (apply Z.mod_pos_bound; lia).
  rewrite list_lookup_fmap, lookup_seq_lt by (unfold BitUtils.BitmapSize in *; zdm). simpl.
  rewrite byte_val_of. change 256 with (2 ^ 8). rewrite Z.mod_pow2_bits_low by lia.
  rewrite null_bits_testbit by lia. unfold not_null. rewrite lookup_slice, decide_True by lia.
  replace (Z.to_nat (8 * Z.of_nat (Z.to_nat (j / 8))) + Z.to_nat (j mod 8))%nat
    with (Z.to_nat j) by zdm. done.
Qed.

Lemma byte_val_high b k : 8 <= k -> Z.testbit (byte_val b) k = false.
Proof.
  intros Hk. pose proof (byte_val_range b).
  rewrite <-(Z.mod_small (byte_val b) (2 ^ 8)) by lia. apply Z.mod_pow2_bits_high. lia.
Qed.

Lemma bm_ext a b :
  zlen a = zlen b -> (forall j, 0 <= j < 8 * zlen a -> bm_bit a j = bm_bit b j) -> a = b.
Proof.
  intros Hl Hbit. apply (list_eq_same_length _ _ (length a)); unfold zlen in *; [lia | lia |].
  intros i x y Hi Hx Hy. apply byte_val_inj, Z.bits_inj'. intros k Hk.
  destruct (Z_lt_le_dec k 8); [|by rewrite !byte_val_high].
  specialize (Hbit (8 * Z.of_nat i + k) ltac:(lia)). unfold bm_bit in Hbit.
  replace ((8 * Z.of_nat i + k) / 8) with (Z.of_nat i) in Hbit by zdm.
  replace ((8 * Z.of_nat i + k) mod 8) with k in Hbit by zdm.
  rewrite Nat2Z.id, Hx, Hy in Hbit. done.
Qed.

(** Setting one bit of one byte. *)
Lemma bm_bit_set bm i b j :
  0 <= i -> bm !! Z.to_nat (i / 8) = Some b -> 0 <= j ->
  bm_bit (<[Z.to_nat (i / 8) := byte_of (Z.lor (byte_val b) (2 ^ (i mod 8)))]> bm) j =
  bm_bit bm j || (j =? i).
Proof.
  intros Hi Hb Hj. pose proof (lookup_lt_Some _ _ _ Hb). unfold bm_bit.
  assert (0 <= j mod 8 < 8) by (apply Z.mod_pos_bound; lia).
  destruct (decide (Z.to_nat (i / 8) = Z.to_nat (j / 8))) as [E|E].
  - rewrite <-E, Hb, list_lookup_insert_eq by done.
    rewrite byte_val_of. change 256 with (2 ^ 8). rewrite Z.mod_pow2_bits_low by lia.
    rewrite Z.lor_spec. f_equal. rewrite Z.pow2_bits_eqb by (apply Z.mod_pos_bound; lia).
    assert (i / 8 = j / 8) by zdm.
    destruct (Z.eqb_spec j i) as [->|]; [apply Z.eqb_refl|]. apply Z.eqb_neq. zdm.
  - rewrite list_lookup_insert_ne by done.
    destruct (Z.eqb_spec j i) as [->|]; [done|]. by rewrite orb_false_r.
Qed.

Lemma bm_bit_zeros n j : bm_bit (zeros n) j = false.
Proof.
  unfold bm_bit, zeros. destruct (replicate _ _ !! _) as [b|] eqn:E; [|done].
  apply lookup_replicate in E as [-> _]. apply Z.bits_0.
Qed.
End null_bitmap.

(** ** Facts about one attribute *)
Section attributes.
Context `{Build}.

Lemma slice_add {A} (l : list A) off n m :
  0 <= off -> 0 <= n -> 0 <= m -> slice off (n + m) l = slice off n l ++ slice (off + n) m l.
Proof.
  intros. unfold slice. rewrite !Z2Nat.inj_add by lia.
  by rewrite <-take_take_drop, drop_drop.
Qed.

Lemma rd_u_0 mem : 4 <= zlen mem -> rd_u mem 0 4 = Ok (dec_le (slice 0 4 mem)).
Proof. intros. unfold rd_u. rewrite rd_Ok by lia. done. Qed.

Lemma enc_dec_4 mem : 4 <= zlen mem -> enc_le 4 (dec_le (slice 0 4 mem)) = slice 0 4 mem.
Proof.
  intros Hm. rewrite <-(enc_dec_le (slice 0 4 mem)) at 2. f_equal.
  pose proof (zlen_slice 0 4 mem). unfold zlen in *. lia.
Qed.

(** The parts of the validity of a by-reference value. *)
Lemma valid_ptr_inv a mem :
  valid_attr a (Ptr mem) = true ->
  byVal a = false /\
  if 0 <? attLength a then attLength a <= zlen mem /\ attLength a < 2 ^ 15
  else 0 < dec_le (slice 0 4 mem) < 2 ^ 31 /\ 4 + dec_le (slice 0 4 mem) <= zlen mem.
Proof.
  unfold valid_attr. rewrite !andb_true_iff, negb_true_iff. intros [[-> H15] Hm]. split; [done|].
  apply Z.ltb_lt in H15. destruct (0 <? attLength a).
  - apply Z.leb_le in Hm. done.
  - rewrite !andb_true_iff, !Z.ltb_lt, Z.leb_le in Hm. lia.
Qed.

Lemma valid_scalar_inv a z :
  valid_attr a (Scalar z) = true ->
  byVal a = true /\ (attLength a ∈ [1; 2; 4; 8]) /\ in_s (8 * attLength a) z = true.
Proof.
  unfold valid_attr. rewrite !andb_true_iff, bool_decide_eq_true. tauto.
Qed.

Lemma byval_length (n : Z) : n ∈ [1; 2; 4; 8] -> 0 < n <= 8.
Proof. rewrite !elem_of_cons, elem_of_nil. lia. Qed.

(** The bytes of a value: their number is what the first pass counts. *)
Lemma zlen_encode_attr a v :
  valid_attr a v = true ->
  zlen (encode_attr a v) =
    match v with
    | Scalar _ => attLength a
    | Ptr mem => if 0 <? attLength a then attLength a else 4 + dec_le (slice 0 4 mem)
    end.
Proof.
  destruct v as [z|mem].
  - intros (_ & Hl & _)%valid_scalar_inv. apply byval_length in Hl. simpl. rewrite zlen_enc_le. lia.
  - intros [_ Hm]%valid_ptr_inv. simpl. destruct (Z.ltb_spec 0 (attLength a)); apply zlen_slice; lia.
Qed.

Lemma encode_attr_bound a v :
  valid_attr a v = true -> 0 < zlen (encode_attr a v) < 2 ^ 31 + 4.
Proof.
  intros Hv. rewrite zlen_encode_attr by done. destruct v as [z|mem].
  - apply valid_scalar_inv in Hv as (_ & Hl & _). apply byval_length in Hl. lia.
  - apply valid_ptr_inv in Hv as [_ Hv].
    destruct (Z.ltb_spec 0 (attLength a)); lia.
Qed.

(** First pass, one attribute. *)
Lemma size_step_ok desc values isnull idx a v n h t :
  desc !! idx = Some a -> values !! idx = Some v -> isnull !! idx = Some n ->
  (n = false -> valid_attr a v = true) ->
  0 <= t < 2 ^ 48 ->
  size_step desc values isnull (h, t) idx =
    Ok (h || n, t + zlen (encode_cell a v n)).
Proof.
  intros Ha Hv Hn Hval Ht. unfold size_step. rewrite (vec_get_Ok _ _ _ Hn), bind_Ok.
  destruct n.
  { rewrite orb_true_r. unfold encode_cell. by rewrite zlen_nil, Z.add_0_r. }
  specialize (Hval eq_refl). pose proof (encode_attr_bound a v Hval) as Hb.
  rewrite orb_false_r. unfold encode_cell. rewrite (zlen_encode_attr _ _ Hval) in Hb |- *.
  rewrite (vec_get_Ok _ _ _ Ha), bind_Ok. destruct v as [z|mem].
  - apply valid_scalar_inv in Hval as (-> & Hl & _).
    rewrite assert_Ok by (apply Z.ltb_lt; lia). rewrite bind_Ok, wrap_small by lia. done.
  - apply valid_ptr_inv in Hval as [-> Hval]. destruct (0 <? attLength a).
    + rewrite wrap_small by lia. done.
    + rewrite (vec_get_Ok _ _ _ Hv), bind_Ok. simpl getPointer. rewrite bind_Ok.
      rewrite rd_u_0 by lia. rewrite bind_Ok, assert_Ok by (apply Z.ltb_lt; lia).
      rewrite bind_Ok, wrap_small by lia. do 2 f_equal. lia.
Qed.

(** Second pass, one attribute: its bytes are appended at the cursor. *)
Lemma data_step_ok desc values isnull idx a v n pre k :
  desc !! idx = Some a -> values !! idx = Some v -> isnull !! idx = Some n ->
  (n = false -> valid_attr a v = true) ->
  zlen (encode_cell a v n) <= k ->
  data_step desc values isnull (pre ++ zeros k, zlen pre) idx =
    Ok ((pre ++ encode_cell a v n) ++ zeros (k - zlen (encode_cell a v n)),
        zlen (pre ++ encode_cell a v n)).
Proof.
  intros Ha Hv Hn Hval Hk. unfold data_step. rewrite (vec_get_Ok _ _ _ Hn), bind_Ok.
  destruct n.
  { unfold encode_cell. by rewrite app_nil_r, zlen_nil, Z.sub_0_r. }
  specialize (Hval eq_refl). unfold encode_cell in *.
  pose proof (zlen_encode_attr a v Hval) as Hlen.
  rewrite (vec_get_Ok _ _ _ Hv), bind_Ok, (vec_get_Ok _ _ _ Ha), bind_Ok. destruct v as [z|mem].
  - apply valid_scalar_inv in Hval as (-> & Hl & Hr). pose proof (byval_length _ Hl).
    rewrite bool_decide_true by done. simpl getScalar. rewrite bind_Ok.
    apply in_s_spec in Hr. rewrite swrap_small by lia. simpl encode_attr in *.
    rewrite wr_frontier by lia. rewrite bind_Ok, zlen_app. by rewrite Hlen.
  - apply valid_ptr_inv in Hval as [-> Hval]. simpl encode_attr in *.
    destruct (Z.ltb_spec 0 (attLength a)).
    + simpl getPointer. rewrite bind_Ok, rd_Ok by lia. rewrite bind_Ok.
      rewrite wr_frontier by lia. rewrite bind_Ok, zlen_app. by rewrite Hlen.
    + set (L := dec_le (slice 0 4 mem)) in *. simpl getPointer. rewrite bind_Ok.
      unfold rd_s. rewrite rd_u_0 by lia. simpl. fold L.
      change (8 * Z.of_nat 4) with 32. rewrite swrap_small by lia.
      rewrite slice_add by lia. rewrite wr_frontier by (rewrite zlen_enc_le; lia).
      rewrite bind_Ok, (wrap_small 64) by lia. rewrite rd_Ok by lia. rewrite bind_Ok.
      replace (zlen pre + 4) with (zlen (pre ++ enc_le 4 L)) by (rewrite zlen_app, zlen_enc_le; lia).
      rewrite wr_frontier by (rewrite zlen_enc_le, zlen_slice; lia).
      rewrite bind_Ok. unfold L at 1 3. rewrite enc_dec_4 by lia.
      rewrite <-!app_assoc, wrap_small, !zlen_app, zlen_enc_le, !zlen_slice by lia.
      do 2 f_equal; [do 4 f_equal; lia | lia].
Qed.
End attributes.

(** ** The two passes and the reader *)
Section passes.
Context `{Build} (desc : TupleDescriptor) (values : list Datum) (isnull : list bool).
Hypothesis Hrow : valid_row desc values isnull = true.
Hypothesis Hatts : zlen desc < AttrNumber.MaxValue.

#[local] Notation pre i := (payload (take i desc) (take i values) (take i isnull)).
#[local] Notation full := (payload desc values isnull).
#[local] Notation BM := (BitUtils.BitmapSize (zlen isnull)).

Lemma row_zlen : zlen values = zlen desc /\ zlen isnull = zlen desc.
Proof. apply valid_row_length in Hrow. unfold zlen. lia. Qed.

Lemma max_attno : GetMaxAttrNumber desc = zlen desc.
Proof.
  unfold GetMaxAttrNumber, AttrNumber.MaxValue in *. apply wrap_small.
  pose proof (zlen_nonneg desc). lia.
Qed.

Lemma row_lookup i :
  Z.of_nat i < zlen desc ->
  exists a v n, desc !! i = Some a /\ values !! i = Some v /\ isnull !! i = Some n /\
    (n = false -> valid_attr a v = true).
Proof.
  intros Hi. unfold zlen in Hi. destruct (lookup_lt_is_Some_2 desc i ltac:(lia)) as [a Ha].
  destruct (valid_row_lookup _ _ _ _ _ Hrow Ha) as (v & n & Hv & Hn & Hval). eauto 10.
Qed.

Lemma any_null_snoc i n :
  isnull !! i = Some n -> has_nulls (take (S i) isnull) = has_nulls (take i isnull) || n.
Proof.
  unfold has_nulls. intros Hn. rewrite (take_S_r _ _ _ Hn), existsb_app. simpl. by rewrite orb_false_r.
Qed.

Lemma pre_full i : Z.of_nat i < zlen desc -> zlen (pre (S i)) <= zlen full.
Proof.
  intros Hi. destruct (row_lookup i Hi) as (a & v & n & Ha & Hv & Hn & _).
  rewrite (payload_snoc _ _ _ _ a v n), (payload_split desc _ _ i a v n) by done.
  rewrite !zlen_app. pose proof (zlen_nonneg (payload (drop (S i) desc) (drop (S i) values) (drop (S i) isnull))). lia.
Qed.

Lemma pre_all i : zlen desc <= Z.of_nat i -> pre i = full.
Proof.
  destruct (valid_row_length _ _ _ Hrow). unfold zlen. intros Hi.
  by rewrite !take_ge by lia.
Qed.

(** First pass: whether a value is NULL, and the exact size of the data. *)
Lemma size_pass :
  AttrNumber.for_each (zlen desc) (size_step desc values isnull) (false, 0) =
    Ok (has_nulls isnull, zlen full).
Proof.
  pose proof row_zlen as [_ Hlen]. pose proof (zlen_nonneg desc).
  destruct (AttrNumber.for_each_inv
    (fun i acc => acc = (has_nulls (take i isnull), zlen (pre i)) /\ zlen (pre i) <= Z.of_nat i * 2 ^ 32)
    (size_step desc values isnull) (zlen desc) (false, 0)) as (b' & -> & -> & _); try done.
  - intros i acc Hi [-> Hb]. destruct (row_lookup i Hi) as (a & v & n & Ha & Hv & Hn & Hval).
    eexists. split.
    + apply (size_step_ok _ _ _ _ a v n); try done.
      unfold AttrNumber.MaxValue in *. pose proof (zlen_nonneg (pre i)). lia.
    + rewrite (payload_snoc _ _ _ _ a v n), zlen_app by done. rewrite (any_null_snoc _ _ Hn).
      split; [done|]. destruct n; simpl encode_cell; [rewrite zlen_nil; lia|].
      pose proof (encode_attr_bound a v (Hval eq_refl)). lia.
  - rewrite pre_all by lia. rewrite take_ge by (unfold zlen in *; lia). done.
Qed.

(** Second pass: the values are written after the bitmap [hd], filling the buffer. *)
Lemma data_pass hd :
  AttrNumber.for_each (zlen desc) (data_step desc values isnull)
    (hd ++ zeros (zlen full), zlen hd) = Ok (hd ++ full, zlen (hd ++ full)).
Proof.
  pose proof (zlen_nonneg desc).
  destruct (AttrNumber.for_each_inv
    (fun i acc => acc = ((hd ++ pre i) ++ zeros (zlen full - zlen (pre i)), zlen (hd ++ pre i)))
    (data_step desc values isnull) (zlen desc) (hd ++ zeros (zlen full), zlen hd))
    as (b' & -> & ->); try done.
  - change (pre 0%nat) with (@nil byte). by rewrite zlen_nil, Z.sub_0_r, !app_nil_r.
  - intros i acc Hi ->. destruct (row_lookup i Hi) as (a & v & n & Ha & Hv & Hn & Hval).
    pose proof (pre_full i Hi) as Hfit. rewrite (payload_snoc _ _ _ _ a v n) in Hfit |- * by done.
    rewrite zlen_app in Hfit. eexists. split.
    + apply (data_step_ok _ _ _ _ a v n); try done. lia.
    + rewrite <-!app_assoc. f_equal. do 4 f_equal. rewrite zlen_app. lia.
  - rewrite pre_all by lia. rewrite Z.sub_diag. simpl. by rewrite app_nil_r.
Qed.

(** The bitmap loop, one attribute: the cursor is at bit [i - 1]; bit [i] is set in the
    block [bm] when the attribute is not NULL. *)
Lemma bitmap_step_ok (bm rest : list byte) i n :
  Z.of_nat i < 8 * zlen bm -> isnull !! i = Some n ->
  exists bm', bitmap_step isnull (bm ++ rest, (Z.of_nat i - 1) / 8, 2 ^ ((Z.of_nat i - 1) mod 8)) i =
      Ok (bm' ++ rest, Z.of_nat i / 8, 2 ^ (Z.of_nat i mod 8)) /\
    zlen bm' = zlen bm /\
    forall j, 0 <= j -> bm_bit bm' j = bm_bit bm j || (negb n && (j =? Z.of_nat i)).
Proof.
  intros Hi Hn. set (k := Z.of_nat i) in *. unfold bitmap_step.
  assert (Hcur : (if 2 ^ ((k - 1) mod 8) =? highbit then ((k - 1) / 8 + 1, 1)
      else ((k - 1) / 8, Z.shiftl (2 ^ ((k - 1) mod 8)) 1)) = (k / 8, 2 ^ (k mod 8))).
  { assert (0 <= (k - 1) mod 8) by zdm. destruct (decide ((k - 1) mod 8 = 7)) as [E|E].
    - rewrite E. simpl. f_equal; [zdm|]. replace (k mod 8) with 0 by zdm. done.
    - rewrite (proj2 (Z.eqb_neq _ _)).
      + rewrite Z.shiftl_mul_pow2, <-Z.pow_add_r by lia. f_equal; [zdm | f_equal; zdm].
      + change highbit with (2 ^ 7). intros E'. apply Z.pow_inj_r in E'; lia. }
  rewrite Hcur, (vec_get_Ok _ _ _ Hn), bind_Ok. destruct n.
  { exists bm. split_and!; [done | done |]. intros. by rewrite orb_false_r. }
  destruct (lookup_lt_is_Some_2 bm (Z.to_nat (k / 8)) ltac:(unfold zlen in *; zdm)) as [b Hb].
  assert (Hlb := lookup_lt_Some _ _ _ Hb).
  replace (k / 8) with (Z.of_nat (Z.to_nat (k / 8))) by zdm.
  rewrite (rd_u_byte _ _ b) by (rewrite lookup_app_l; done).
  rewrite bind_Ok, wr_byte by (rewrite length_app; lia). rewrite bind_Ok, insert_app_l by done.
  rewrite wrap_small by (split; [lia|]; apply Z.pow_lt_mono_r; zdm).
  eexists. split_and!; [done | unfold zlen; by rewrite length_insert |].
  intros j Hj. rewrite bm_bit_set by (lia || done). done.
Qed.

Lemma bitmap_pass (rest : list byte) :
  write_bitmap (zlen desc) isnull (zeros (BM + zlen rest)) 0 =
    Ok (null_bitmap isnull ++ zeros (zlen rest), BM).
Proof.
  destruct row_zlen as [_ Hlen]. pose proof (zlen_nonneg desc). pose proof (zlen_nonneg rest).
  assert (HBM : 0 <= BM) by (unfold BitUtils.BitmapSize; zdm).
  unfold write_bitmap. rewrite <-Hlen.
  pose proof (wr_frontier [] (zeros BM) (BM + zlen rest)) as Hw. simpl app in Hw.
  rewrite zlen_nil, zlen_zeros in Hw by done. rewrite Hw by lia. clear Hw.
  replace (BM + zlen rest - BM) with (zlen rest) by lia. rewrite bind_Ok.
  destruct (AttrNumber.for_each_inv
    (fun i acc => exists bm,
      acc = (bm ++ zeros (zlen rest), (Z.of_nat i - 1) / 8, 2 ^ ((Z.of_nat i - 1) mod 8)) /\
      zlen bm = BM /\
      forall j, 0 <= j -> bm_bit bm j = (j <? Z.of_nat i) && not_null isnull j)
    (bitmap_step isnull) (zlen isnull) (zeros BM ++ zeros (zlen rest), 0 - 1, highbit))
    as (b' & -> & bm & -> & Hbm & Hbits); try done.
  - lia.
  - exists (zeros BM). rewrite zlen_zeros by done. split_and!; try done.
    intros j Hj. rewrite bm_bit_zeros, (proj2 (Z.ltb_ge _ _)) by lia. done.
  - intros i acc Hi (bm & -> & Hbm & Hbits). rewrite Hlen in Hi. destruct (row_lookup i Hi) as (_ & _ & n & _ & _ & Hn & _).
    destruct (bitmap_step_ok bm (zeros (zlen rest)) i n) as (bm' & -> & Hbm' & Hbits'); try done.
    { rewrite Hbm, Hlen. unfold BitUtils.BitmapSize. zdm. }
    eexists. split; [done|]. exists bm'.
    replace (Z.of_nat (S i) - 1) with (Z.of_nat i) by lia. split_and!; [done | congruence |].
    intros j Hj. rewrite Hbits', Hbits by done.
    destruct (Z.eqb_spec j (Z.of_nat i)) as [->|Hne].
    + rewrite (proj2 (Z.ltb_ge _ _)), (proj2 (Z.ltb_lt _ _)) by lia.
      unfold not_null. rewrite Nat2Z.id, Hn. destruct n; done.
    + rewrite andb_false_r, orb_false_r.
      destruct (Z.ltb_spec j (Z.of_nat i)), (Z.ltb_spec j (Z.of_nat (S i))); done || lia.
  - rewrite bind_Ok. do 3 f_equal. apply bm_ext.
    + by rewrite zlen_null_bitmap, Hbm.
    + rewrite Hbm. intros j Hj. rewrite Hbits, null_bitmap_bit by lia.
      destruct (Z.ltb_spec j (Z.of_nat (Z.to_nat (zlen isnull)))); [done|].
      unfold not_null. rewrite lookup_ge_None_2; [done|]. unfold zlen in *. lia.
Qed.

Lemma payload_bound : 0 <= zlen full <= zlen desc * 2 ^ 32.
Proof.
  clear Hatts. split; [apply zlen_nonneg|]. revert values isnull Hrow.
  induction desc as [|a d IH]; intros [|v vs] [|n ns] Hr; try done. cbn [payload valid_row] in *.
  apply andb_true_iff in Hr as [Hv Hr]. apply IH in Hr. rewrite zlen_app, zlen_cons.
  destruct n; simpl encode_cell; [rewrite zlen_nil; lia|].
  apply encode_attr_bound in Hv. lia.
Qed.

Lemma Serialize_ok :
  Serialize desc values isnull = Ok (mkSTI (row_bytes desc values isnull) (has_nulls isnull)).
Proof.
  destruct row_zlen as [_ Hlen]. pose proof payload_bound as Hb. pose proof (zlen_nonneg desc).
  unfold Serialize, row_bytes. rewrite max_attno, size_pass, bind_Ok.
  destruct (has_nulls isnull).
  - assert (0 <= BM <= 2 ^ 16) by (unfold BitUtils.BitmapSize, AttrNumber.MaxValue in *; zdm).
    rewrite wrap_small by (rewrite <-Hlen; unfold AttrNumber.MaxValue in *; lia).
    replace (zlen full + _) with (BM + zlen full) by (rewrite Hlen; lia).
    rewrite bitmap_pass, bind_Ok, <-zlen_null_bitmap, data_pass. done.
  - pose proof (data_pass []) as Hd. simpl app in Hd. rewrite zlen_nil in Hd.
    by rewrite bind_Ok, Hd.
Qed.

(** *** Reading the row back *)
Lemma extract_attr_datum_ok a v A B :
  valid_attr a v = true ->
  extract_attr_datum (A ++ encode_attr a v ++ B) (zlen A) a =
    Ok (match v with Scalar z => Scalar z | Ptr _ => Ptr (encode_attr a v ++ B) end,
        zlen (encode_attr a v)).
Proof.
  intros Hval. pose proof (zlen_encode_attr a v Hval) as Hlen. unfold extract_attr_datum.
  assert (Hdrop : drop (Z.to_nat (zlen A)) (A ++ encode_attr a v ++ B) = encode_attr a v ++ B).
  { unfold zlen. by rewrite Nat2Z.id, drop_app_length. }
  destruct v as [z|mem].
  - apply valid_scalar_inv in Hval as (-> & Hl & Hr). pose proof (byval_length _ Hl).
    cbv zeta. rewrite wrap_small by lia.
    rewrite (assert_Ok (0 <? _)) by (apply Z.ltb_lt; lia). rewrite bind_Ok.
    rewrite bool_decide_true by done. simpl encode_attr in *. apply in_s_spec in Hr.
    rewrite rd_s_frontier by lia. rewrite bind_Ok, swrap_small by (rewrite ?Z2Nat.id; lia).
    assert (2 ^ (8 * attLength a - 1) <= 2 ^ 63) by (apply Z.pow_le_mono_r; lia).
    rewrite Hlen. unfold mkScalar. by rewrite swrap_small by lia.
  - apply valid_ptr_inv in Hval as [-> Hval]. rewrite Hdrop, Hlen.
    destruct (Z.ltb_spec 0 (attLength a)) as [Hpos|Hneg]; [by rewrite wrap_small by lia|].
    assert (Henc : encode_attr a (Ptr mem) =
      enc_le 4 (dec_le (slice 0 4 mem)) ++ slice 4 (dec_le (slice 0 4 mem)) mem).
    { cbn [encode_attr]. rewrite (proj2 (Z.ltb_ge _ _) Hneg), slice_add by lia. by rewrite enc_dec_4 by lia. }
    rewrite Henc, <-app_assoc, rd_s_frontier by lia. rewrite bind_Ok.
    change (8 * Z.of_nat 4) with 32. by rewrite swrap_small, wrap_small by lia.
Qed.

Lemma null_step_ok rest i n :
  isnull !! i = Some n ->
  null_step (null_bitmap isnull ++ rest) (take i isnull ++ replicate (length isnull - i) false) i =
    Ok (take (S i) isnull ++ replicate (length isnull - S i) false).
Proof.
  intros Hn. assert (Hi := lookup_lt_Some _ _ _ Hn). unfold null_step.
  rewrite Z.shiftr_div_pow2 by lia. change (2 ^ 3) with 8.
  pose proof (zlen_null_bitmap isnull) as Hz.
  assert (Hj : 0 <= Z.of_nat i < 8 * BM) by (unfold BitUtils.BitmapSize, zlen; zdm).
  destruct (lookup_lt_is_Some_2 (null_bitmap isnull) (Z.to_nat (Z.of_nat i / 8))) as [b Hb].
  { unfold zlen in Hz at 1. zdm. }
  replace (Z.of_nat i / 8) with (Z.of_nat (Z.to_nat (Z.of_nat i / 8))) by zdm.
  rewrite (rd_u_byte _ _ b) by (rewrite lookup_app_l; [done | by apply lookup_lt_Some in Hb]).
  rewrite bind_Ok. change 7 with (Z.ones 3). rewrite Z.land_ones by lia.
  rewrite land_bit by zdm.
  pose proof (null_bitmap_bit isnull (Z.of_nat i) Hj) as Hbit.
  unfold bm_bit, not_null in Hbit. rewrite Hb, Nat2Z.id, Hn in Hbit.
  change (2 ^ 3) with 8. rewrite Hbit, negb_involutive.
  rewrite vec_set_Ok by (rewrite length_app, length_take, length_replicate; lia). f_equal.
  rewrite (take_S_r _ _ _ Hn), <-app_assoc, insert_app_r_alt by (rewrite length_take; lia).
  rewrite length_take, Nat.min_l, Nat.sub_diag by lia. f_equal.
  by replace (length isnull - i)%nat with (S (length isnull - S i)) by lia.
Qed.

Lemma null_pass rest :
  AttrNumber.for_each (zlen desc) (null_step (null_bitmap isnull ++ rest))
    (replicate (Z.to_nat (zlen desc)) false) = Ok isnull.
Proof.
  destruct row_zlen as [_ Hlen]. pose proof (zlen_nonneg desc).
  destruct (AttrNumber.for_each_inv
    (fun i acc => acc = take i isnull ++ replicate (length isnull - i) false)
    (null_step (null_bitmap isnull ++ rest)) (zlen desc) (replicate (Z.to_nat (zlen desc)) false))
    as (b' & -> & ->); try done.
  - simpl. rewrite <-Hlen. f_equal. unfold zlen. lia.
  - intros i acc Hi ->. destruct (row_lookup i Hi) as (_ & _ & n & _ & _ & Hn & _).
    eexists. split; [by apply (null_step_ok _ _ n)|done].
  - f_equal. rewrite <-Hlen. unfold zlen. rewrite Nat2Z.id, take_ge, Nat.sub_diag by lia.
    apply app_nil_r.
Qed.

Lemma stored_values_lookup i a v n :
  desc !! i = Some a -> values !! i = Some v -> isnull !! i = Some n ->
  stored_values desc values isnull !! i =
    Some (if n : bool then Scalar 0 else
      match v with
      | Scalar z => Scalar z
      | Ptr _ => Ptr (encode_attr a v ++
          payload (drop (S i) desc) (drop (S i) values) (drop (S i) isnull))
      end).
Proof.
  clear Hrow Hatts. revert values isnull i. induction desc as [|b d IH]; intros [|w vs] [|m ns] [|i];
    simpl; try done.
  - intros [= ->] [= ->] [= ->]. by rewrite !drop_0.
  - intros Ha Hv Hn. by apply IH.
Qed.

Lemma length_stored_values : length (stored_values desc values isnull) = length desc.
Proof.
  clear Hatts. revert values isnull Hrow. induction desc as [|b d IH]; intros [|w vs] [|m ns]; simpl;
    try done. rewrite andb_true_iff. intros [_ Hr]. f_equal. by apply IH.
Qed.

Lemma no_nulls : has_nulls isnull = false -> isnull = replicate (length isnull) false.
Proof.
  clear Hrow Hatts. unfold has_nulls. induction isnull as [|n ns IH]; [done|]. simpl.
  rewrite orb_false_iff. intros [-> Hn]. f_equal. by apply IH.
Qed.

#[local] Notation st := (stored_values desc values isnull).

Lemma value_step_ok hd i a v n :
  desc !! i = Some a -> values !! i = Some v -> isnull !! i = Some n ->
  (n = false -> valid_attr a v = true) ->
  value_step desc (hd ++ full) (has_nulls isnull) isnull
    (take i st ++ replicate (length desc - i) (Scalar 0), zlen (hd ++ pre i)) i =
  Ok (take (S i) st ++ replicate (length desc - S i) (Scalar 0), zlen (hd ++ pre (S i))).
Proof.
  intros Ha Hv Hn Hval. assert (Hi := lookup_lt_Some _ _ _ Ha).
  pose proof (stored_values_lookup i a v n Ha Hv Hn) as Hst.
  unfold value_step. rewrite (vec_get_Ok _ _ _ Hn), bind_Ok.
  rewrite (take_S_r _ _ _ Hst), (payload_snoc _ _ _ _ a v n) by done.
  assert (Hrep : replicate (length desc - i) (Scalar 0) =
    Scalar 0 :: replicate (length desc - S i) (Scalar 0)).
  { by replace (length desc - i)%nat with (S (length desc - S i)) by lia. }
  destruct n.
  - assert (Hhas : has_nulls isnull = true).
    { apply existsb_exists. exists true. split; [|done]. apply list_elem_of_In.
      by apply list_elem_of_lookup_2 in Hn. }
    rewrite Hhas. cbn [andb encode_cell]. by rewrite app_nil_r, Hrep, <-app_assoc.
  - rewrite andb_false_r, (vec_get_Ok _ _ _ Ha), bind_Ok.
    rewrite (payload_split desc values isnull i a v false), app_assoc by done.
    cbn [encode_cell]. rewrite extract_attr_datum_ok by auto. rewrite bind_Ok.
    rewrite vec_set_Ok by (rewrite length_app, length_take, length_replicate, length_stored_values; lia).
    rewrite bind_Ok, insert_app_r_alt by (rewrite length_take; lia).
    rewrite length_take, length_stored_values, Nat.min_l, Nat.sub_diag by lia.
    rewrite Hrep, !zlen_app. cbn [insert list_insert]. rewrite <-app_assoc. do 2 f_equal. lia.
Qed.

Lemma value_pass hd :
  AttrNumber.for_each (zlen desc) (value_step desc (hd ++ full) (has_nulls isnull) isnull)
    (replicate (Z.to_nat (zlen desc)) (Scalar 0), zlen hd) = Ok (st, zlen (hd ++ full)).
Proof.
  pose proof (zlen_nonneg desc).
  destruct (AttrNumber.for_each_inv
    (fun i acc => acc = (take i st ++ replicate (length desc - i) (Scalar 0), zlen (hd ++ pre i)))
    (value_step desc (hd ++ full) (has_nulls isnull) isnull) (zlen desc)
    (replicate (Z.to_nat (zlen desc)) (Scalar 0), zlen hd)) as (b' & -> & ->); try done.
  - change (pre 0%nat) with (@nil byte). rewrite app_nil_r, take_0. simpl. do 3 f_equal.
    unfold zlen. lia.
  - intros i acc Hi ->. destruct (row_lookup i Hi) as (a & v & n & Ha & Hv & Hn & Hval).
    eexists. split; [by apply (value_step_ok hd i a v n)|done].
  - rewrite pre_all by lia. unfold zlen at 1 2. rewrite Nat2Z.id, Nat.sub_diag.
    rewrite take_ge by (rewrite length_stored_values; lia). by rewrite app_nil_r.
Qed.

Lemma Deserialize_ok :
  Deserialize desc (row_bytes desc values isnull) (has_nulls isnull) = Ok (mkDT st isnull).
Proof.
  destruct row_zlen as [_ Hlen]. unfold Deserialize, row_bytes. rewrite max_attno.
  cbv zeta. destruct (has_nulls isnull) eqn:Hn.
  - rewrite null_pass, !bind_Ok.
    replace (BitUtils.BitmapSize (zlen desc)) with (zlen (null_bitmap isnull))
      by (by rewrite zlen_null_bitmap, Hlen).
    pose proof (value_pass (null_bitmap isnull)) as Hp. rewrite Hn in Hp. by rewrite Hp.
  - rewrite bind_Ok. replace (replicate (Z.to_nat (zlen desc)) false) with isnull.
    + pose proof (value_pass []) as Hp. rewrite Hn in Hp. change (zlen (@nil byte)) with 0 in Hp.
      by rewrite Hp.
    + rewrite (no_nulls Hn) at 1. f_equal. rewrite <-Hlen. unfold zlen. lia.
Qed.
End passes.

(** ** Storing again what was read *)
Section stored_again.
Context `{Build}.

(** A copy of a value's bytes is a value with the same bytes. *)
Lemma encode_attr_copy a mem B :
  valid_attr a (Ptr mem) = true ->
  valid_attr a (Ptr (encode_attr a (Ptr mem) ++ B)) = true /\
  encode_attr a (Ptr (encode_attr a (Ptr mem) ++ B)) = encode_attr a (Ptr mem).
Proof.
  intros Hval. pose proof (zlen_encode_attr a _ Hval) as Hlen. revert Hlen.
  pose proof (valid_ptr_inv _ _ Hval) as [_ Hm]. revert Hval.
  unfold valid_attr, encode_attr. pose proof (zlen_nonneg B) as HB. pose proof (zlen_nonneg mem).
  destruct (Z.ltb_spec 0 (attLength a)) as [Hp|Hp]; rewrite !andb_true_iff.
  - intros [[-> ->] Hv] Hl. split.
    + rewrite zlen_app, Z.leb_le. split; [done | lia].
    + rewrite slice_app_l by lia. rewrite <-Hl at 1. apply slice_all.
  - intros [[-> ->] Hv] Hl. set (L := dec_le (slice 0 4 mem)) in *.
    assert (Hs : dec_le (slice 0 4 (slice 0 (4 + L) mem ++ B)) = L).
    { rewrite slice_app_l by lia. rewrite slice_slice by lia. done. }
    rewrite Hs. split.
    + rewrite !Z.ltb_lt, Z.leb_le, zlen_app. lia.
    + rewrite slice_app_l by lia. rewrite <-Hl at 1. apply slice_all.
Qed.

Lemma stored_row_again desc values isnull :
  valid_row desc values isnull = true ->
  valid_row desc (stored_values desc values isnull) isnull = true /\
  payload desc (stored_values desc values isnull) isnull = payload desc values isnull.
Proof.
  revert values isnull. induction desc as [|a desc IH]; intros [|v values] [|n isnull]; try done.
  cbn [valid_row stored_values payload]. rewrite andb_true_iff. intros [Hv Hr].
  apply IH in Hr as [-> ->]. rewrite andb_true_r. destruct n; [done|]. cbn [orb encode_cell] in *.
  destruct v as [z|mem]; [done|].
  destruct (encode_attr_copy a mem (payload desc values isnull) Hv) as [-> ->]. done.
Qed.

(** The first pass below the number of attributes it is asked for. *)
Lemma size_prefix desc values isnull i :
  valid_row (take i desc) (take i values) (take i isnull) = true -> (i <= length desc)%nat ->
  zlen desc <= AttrNumber.MaxValue ->
  forall j, (j < i)%nat ->
  forall h t, 0 <= t <= Z.of_nat j * 2 ^ 32 ->
  exists h' t', size_step desc values isnull (h, t) j = Ok (h', t') /\
    0 <= t' <= Z.of_nat (S j) * 2 ^ 32.
Proof.
  intros Hr Hi Hm j Hj h t Ht. unfold AttrNumber.MaxValue in Hm.
  destruct (lookup_lt_is_Some_2 desc j ltac:(lia)) as [a Ha].
  destruct (valid_row_lookup _ _ _ j a Hr) as (v & n & Hv & Hn & Hval);
    [by rewrite lookup_take_lt by lia|].
  rewrite lookup_take_lt in Hv by lia. rewrite lookup_take_lt in Hn by lia.
  rewrite (size_step_ok _ _ _ _ a v n) by (try done; unfold zlen in *; lia).
  eexists _, _. split; [done|]. pose proof (zlen_nonneg (encode_cell a v n)).
  destruct n; cbn [encode_cell]; [change (zlen (@nil byte)) with 0; lia|].
  pose proof (encode_attr_bound a v (Hval eq_refl)). lia.
Qed.
End stored_again.

(** ** Properties of the format *)
Section properties.
Context `{Build}.

(** C21: for a row that matches its descriptor, in every build, [Serialize] succeeds;
    the bytes it produced, read with the flag it returned, give the same NULL flags
    and for each value that is not NULL the same scalar or a pointer to a copy of its
    bytes. *)
Theorem serialize_deserialize desc values isnull :
  valid_row desc values isnull = true -> zlen desc < AttrNumber.MaxValue ->
  exists t, Serialize desc values isnull = Ok t /\
    Deserialize desc (Tuple t) (HasNulls t) = Ok (mkDT (stored_values desc values isnull) isnull).
Proof.
  intros Hrow Hatts. eexists. rewrite Serialize_ok by done. split; [done|].
  simpl Tuple. simpl HasNulls. by rewrite Deserialize_ok.
Qed.

(** the buffer that the first pass sizes is filled exactly by the second: the
    output is the null bitmap, present only when a value is NULL, followed by the
    encodings of the other values with no gap. *)
Theorem serialize_layout desc values isnull :
  valid_row desc values isnull = true -> zlen desc < AttrNumber.MaxValue ->
  Serialize desc values isnull =
    Ok (mkSTI ((if has_nulls isnull then null_bitmap isnull else []) ++ payload desc values isnull)
          (has_nulls isnull)).
Proof. intros. by rewrite Serialize_ok. Qed.

(** storing what was read gives the same bytes (the format is canonical). *)
Theorem serialize_stored_again desc values isnull :
  valid_row desc values isnull = true -> zlen desc < AttrNumber.MaxValue ->
  Serialize desc (stored_values desc values isnull) isnull = Serialize desc values isnull.
Proof.
  intros Hrow Hatts. destruct (stored_row_again _ _ _ Hrow) as [Hrow' Hp].
  rewrite !Serialize_ok by done. unfold row_bytes. by rewrite Hp.
Qed.

(** a text value of length 0 that is not NULL cannot be stored: with assertions
    enabled the first pass aborts, whatever valid values precede it. *)
Theorem serialize_empty_text_aborts desc values isnull i a mem :
  asserts_on = true -> zlen desc < AttrNumber.MaxValue ->
  valid_row (take i desc) (take i values) (take i isnull) = true ->
  desc !! i = Some a -> byVal a = false -> attLength a <= 0 ->
  values !! i = Some (Ptr mem) -> isnull !! i = Some false ->
  4 <= zlen mem -> dec_le (slice 0 4 mem) = 0 ->
  Serialize desc values isnull = Fault (Abort "length > 0").
Proof.
  intros Hon Hatts Hr Ha Hbv Hlen Hv Hn Hmem Hz. assert (Hi := lookup_lt_Some _ _ _ Ha).
  unfold Serialize. rewrite max_attno by done.
  rewrite (AttrNumber.for_each_fault (fun j acc => 0 <= acc.2 <= Z.of_nat j * 2 ^ 32) _ _ _ i
    (Abort "length > 0")); try done.
  - pose proof (zlen_nonneg desc). lia.
  - unfold zlen. lia.
  - intros j [h t] Hj Ht. simpl in Ht.
    destruct (size_prefix desc values isnull i Hr ltac:(lia) ltac:(lia) j Hj h t Ht)
      as (h' & t' & Hs & Ht'). eauto.
  - intros [h t] _. unfold size_step. rewrite (vec_get_Ok _ _ _ Hn), bind_Ok.
    rewrite (vec_get_Ok _ _ _ Ha), bind_Ok, Hbv, (proj2 (Z.ltb_ge _ _)) by done.
    rewrite (vec_get_Ok _ _ _ Hv), bind_Ok. simpl getPointer. rewrite bind_Ok.
    rewrite rd_u_0, Hz by done. rewrite bind_Ok. by rewrite assert_fails.
Qed.

(** a table of 65535 attributes, the largest the 16-bit attribute number can
    count, cannot be serialized although each of its values is valid: the number wraps
    to 0 after the last attribute and the loop's assertion fails. *)
Theorem serialize_too_many_attributes desc values isnull :
  asserts_on = true -> zlen desc = AttrNumber.MaxValue ->
  valid_row desc values isnull = true ->
  Serialize desc values isnull = Fault (Abort "this->value != InvalidValue").
Proof.
  intros Hon Hz Hr. unfold Serialize.
  assert (Hmax : GetMaxAttrNumber desc = AttrNumber.MaxValue).
  { unfold GetMaxAttrNumber. rewrite Hz. done. }
  rewrite Hmax.
  destruct (foldM_inv (fun j acc => 0 <= acc.2 <= Z.of_nat j * 2 ^ 32)
    (size_step desc values isnull) (seq 0 (Z.to_nat AttrNumber.MaxValue)) (false, 0))
    as (b' & Hf & _).
  - simpl. lia.
  - intros i x [h t] (-> & Hi)%lookup_seq Ht. simpl in Ht. destruct (valid_row_length _ _ _ Hr).
    destruct (size_prefix desc values isnull (length desc)) with (j := i) (h := h) (t := t)
      as (h' & t' & Hs & Ht'); try done.
    + by rewrite !take_ge by lia.
    + lia.
    + unfold zlen in Hz. lia.
    + eauto.
  - by rewrite (AttrNumber.for_each_max _ _ _ Hon Hf).
Qed.
End properties.

(** ** Concrete rows *)
Section examples.

(** int4, bool, a NULL int8, text "hi" (length word 2) and a 3-byte fixed value. *)
Definition ex_desc : TupleDescriptor :=
  [mkAttr 1 4 true; mkAttr 2 1 true; mkAttr 1 8 true; mkAttr 3 (-1) false; mkAttr 4 3 false].
Definition ex_text : list byte := enc_le 4 2 ++ [x68; x69].
Definition ex_values : list Datum :=
  [Scalar (-7); Scalar 1; Scalar 0; Ptr (ex_text ++ [xff]); Ptr [x01; x02; x03; x04]].
Definition ex_isnull : list bool := [false; false; true; false; false].

Example serialize_example :
  Serialize (H := DebugBuild) ex_desc ex_values ex_isnull =
  Ok (mkSTI ([x1b] ++ [xf9; xff; xff; xff] ++ [x01] ++ ex_text ++ [x01; x02; x03]) true).
Proof. vm_compute. reflexivity. Qed.

Lemma serialize_deserialize_witness :
  exists t, Serialize (H := DebugBuild) ex_desc ex_values ex_isnull = Ok t /\
    Deserialize (H := DebugBuild) ex_desc (Tuple t) (HasNulls t) =
      Ok (mkDT [Scalar (-7); Scalar 1; Scalar 0; Ptr (ex_text ++ [x01; x02; x03]);
                Ptr [x01; x02; x03]] ex_isnull).
Proof. apply (serialize_deserialize (H := DebugBuild) ex_desc ex_values ex_isnull); vm_compute; reflexivity. Defined.

Lemma serialize_layout_witness :
  exists t, Serialize (H := ReleaseBuild) ex_desc ex_values ex_isnull = Ok t /\ zlen (Tuple t) = 15.
Proof.
  rewrite (serialize_layout (H := ReleaseBuild) ex_desc ex_values ex_isnull) by (vm_compute; reflexivity).
  eexists. split; [reflexivity | vm_compute; reflexivity].
Defined.

Lemma serialize_stored_again_witness :
  Serialize (H := DebugBuild) ex_desc (stored_values ex_desc ex_values ex_isnull) ex_isnull =
  Serialize (H := DebugBuild) ex_desc ex_values ex_isnull.
Proof. apply (serialize_stored_again (H := DebugBuild)); vm_compute; reflexivity. Defined.

Lemma serialize_empty_text_aborts_witness :
  Serialize (H := DebugBuild) [mkAttr 1 4 true; mkAttr 3 (-1) false]
    [Scalar 5; Ptr (enc_le 4 0)] [false; false] = Fault (Abort "length > 0").
Proof.
  apply (serialize_empty_text_aborts (H := DebugBuild) _ _ _ 1 (mkAttr 3 (-1) false) (enc_le 4 0));
    vm_compute; congruence.
Defined.

Lemma serialize_too_many_attributes_witness :
  Serialize (H := DebugBuild) (replicate (Z.to_nat 65535) (mkAttr 1 4 true))
    (replicate (Z.to_nat 65535) (Scalar 5)) (replicate (Z.to_nat 65535) false) =
  Fault (Abort "this->value != InvalidValue").
Proof. apply (serialize_too_many_attributes (H := DebugBuild)); vm_compute; reflexivity. Defined.
End examples.
