(* ===== verification/HeapPage.v ===== *)
(** [access/heap/HeapPage.cpp], [HeapPageHeader.hpp], [ItemId.hpp] and
    [HeapPageTupleHeader.hpp]: the heap page as the 8192 bytes of a buffer.

    A page is a header (LSN, [lower], [upper]), the line pointer array that grows up to
    [lower], free space, and tuples placed downwards from the end of the page to
    [upper]. All accesses go through [rd] and [wr] on the block of the page, so an
    access outside of it faults. *)
From S2P Require Import Prelude Types.

(** ** Line pointers *)
Module ItemId.
Section itemid.
Context `{Build}.

(** [ItemState]; the bit-field can also hold 3. *)
Definition Unused : Z := 0.
Definition Normal : Z := 1.
Definition Dead : Z := 2.

Record t := mk { flags : Z; offset : Z; length : Z }.

Definition isUnused (i : t) : bool := flags i =? Unused.
Definition isNormal (i : t) : bool := flags i =? Normal.
Definition isDead (i : t) : bool := flags i =? Dead.
Definition hasHeader (i : t) : bool := (flags i =? Normal) || (flags i =? Dead).
Definition getLength (i : t) : Z := wrap 16 (length i).
Definition getOffset (i : t) : Z := wrap 16 (offset i).

Definition setLength (i : t) (len : Z) : result t :=
  let i' := mk (flags i) (offset i) (Z.land len 0x7FFF) in
  _ ← assert_ (length i' =? len) "this->length == length"; Ok i'.

Definition setOffset (i : t) (off : Z) : result t :=
  let i' := mk (flags i) (Z.land off 0x7FFF) (length i) in
  _ ← assert_ (offset i' =? off) "this->offset == offset"; Ok i'.

Definition setDead (i : t) : t := mk Dead 0 0.

Definition setNormal (i : t) (len off : Z) : result t :=
  i ← setLength i len;
  i ← setOffset i off;
  Ok (mk Normal (offset i) (length i)).

(** The 32-bit word that holds the three bit-fields. *)
Definition pack (i : t) : Z :=
  Z.lor (flags i) (Z.lor (Z.shiftl (offset i) 2) (Z.shiftl (length i) 17)).
Definition unpack (z : Z) : t :=
  mk (Z.land z 3) (Z.land (Z.shiftr z 2) 0x7FFF) (Z.land (Z.shiftr z 17) 0x7FFF).

Definition in_range (i : t) : Prop :=
  0 <= flags i < 4 /\ 0 <= offset i < 2 ^ 15 /\ 0 <= length i < 2 ^ 15.

Lemma land_mod z k : 0 <= k -> Z.land z (2 ^ k - 1) = z mod 2 ^ k.
Proof. intros. rewrite <-Z.land_ones by done. by rewrite Z.ones_equiv, Z.sub_1_r. Qed.

Lemma pack_sum i : in_range i -> pack i = flags i + 4 * offset i + 2 ^ 17 * length i.
Proof.
  intros (Hf & Ho & Hl). unfold pack.
  rewrite (Z.lor_comm (Z.shiftl (offset i) 2)), !(Z.shiftl_mul_pow2) by lia.
  replace (length i * 2 ^ 17) with ((length i * 2 ^ 15) * 2 ^ 2) by lia.
  rewrite <-!(Z.shiftl_mul_pow2 _ 2), <-Z.shiftl_lor by lia.
  rewrite <-(Z.shiftl_mul_pow2 (length i) 15), (Z.lor_comm (Z.shiftl _ _)) by lia.
  rewrite !lor_shiftl by lia. lia.
Qed.

Lemma pack_range i : in_range i -> 0 <= pack i < 2 ^ 32.
Proof. intros Hi. rewrite pack_sum by done. destruct Hi as (?&?&?). lia. Qed.

Lemma unpack_pack i : in_range i -> unpack (pack i) = i.
Proof.
  intros Hi. rewrite pack_sum by done. destruct Hi as (Hf & Ho & Hl). unfold unpack.
  change 3 with (2 ^ 2 - 1). change 0x7FFF with (2 ^ 15 - 1).
  rewrite !land_mod, !Z.shiftr_div_pow2 by lia. destruct i as [f o l]; simpl in *.
  change (2 ^ 2) with 4. change (2 ^ 15) with 32768. change (2 ^ 17) with 131072.
  f_equal; zdm.
Qed.

Lemma unpack_range z : 0 <= z -> in_range (unpack z).
Proof.
  intros Hz. unfold in_range, unpack; simpl.
  change 3 with (2 ^ 2 - 1). change 0x7FFF with (2 ^ 15 - 1). rewrite !land_mod by lia.
  pose proof (Z.mod_pos_bound z (2 ^ 2)).
  pose proof (Z.mod_pos_bound (Z.shiftr z 2) (2 ^ 15)).
  pose proof (Z.mod_pos_bound (Z.shiftr z 17) (2 ^ 15)). lia.
Qed.

Lemma setLength_ok i len :
  0 <= len < 2 ^ 15 -> setLength i len = Ok (mk (flags i) (offset i) len).
Proof.
  intros. unfold setLength. simpl length. change 0x7FFF with (2 ^ 15 - 1).
  rewrite land_mod, Z.mod_small by lia. by rewrite assert_Ok by apply Z.eqb_refl.
Qed.

Lemma setOffset_ok i off :
  0 <= off < 2 ^ 15 -> setOffset i off = Ok (mk (flags i) off (length i)).
Proof.
  intros. unfold setOffset. simpl offset. change 0x7FFF with (2 ^ 15 - 1).
  rewrite land_mod, Z.mod_small by lia. by rewrite assert_Ok by apply Z.eqb_refl.
Qed.

Lemma setNormal_ok i len off :
  0 <= len < 2 ^ 15 -> 0 <= off < 2 ^ 15 -> setNormal i len off = Ok (mk Normal off len).
Proof.
  intros. unfold setNormal. rewrite setLength_ok by lia. rewrite bind_Ok, setOffset_ok by lia.
  done.
Qed.
End itemid.
End ItemId.

(** ** Tuple headers *)
Module HeapPageTupleHeader.
Definition Deleted : Z := 1.
Definition HasNulls : Z := 2.

Record t := mk { xid : Z; undo : Z; flags : Z }.
Definition size : Z := 24.

Definition encode (h : t) : list byte := enc_le 8 (xid h) ++ enc_le 8 (undo h) ++ enc_le 8 (flags h).

(** Reading the header that starts at an address of a block. *)
Definition load (buf : list byte) (addr : Z) : result t :=
  x ← rd_u buf addr 8;
  u ← rd_s buf (addr + 8) 8;
  f ← rd_u buf (addr + 16) 8;
  Ok (mk x u f).

Definition store (buf : list byte) (addr : Z) (h : t) : result (list byte) :=
  wr buf addr (encode h).

Definition has_flag (h : t) (f : Z) : bool := negb (Z.land (flags h) f =? 0).

Definition in_range (h : t) : Prop :=
  0 <= xid h < 2 ^ 64 /\ - 2 ^ 63 <= undo h < 2 ^ 63 /\ 0 <= flags h < 2 ^ 64.

Lemma zlen_encode h : zlen (encode h) = 24.
Proof. unfold encode. zl. Qed.

Lemma load_encode h pre rest :
  in_range h -> load (pre ++ encode h ++ rest) (zlen pre) = Ok h.
Proof.
  intros (Hx & Hu & Hf). unfold load, encode. destruct h as [x u f]; cbn [xid undo flags] in *.
  rewrite <-!app_assoc, rd_u_frontier. rewrite bind_Ok.
  replace (zlen pre + 8) with (zlen (pre ++ enc_le 8 x)) by zl.
  rewrite app_assoc, rd_s_frontier by lia. rewrite bind_Ok.
  replace (zlen pre + 16) with (zlen ((pre ++ enc_le 8 x) ++ enc_le 8 u)) by zl.
  rewrite app_assoc, rd_u_frontier, bind_Ok. rewrite !pow256.
  change (8 * Z.of_nat 8) with 64. by rewrite !Z.mod_small, swrap_small by lia.
Qed.
End HeapPageTupleHeader.

(** ** Pages *)
Module Page.
Section page.
Context `{Build}.

Definition SizeOfHeapPageHeader : Z := 12.
(** [sizeof(HeapPageHeader)], with the padding at the end of the struct. *)
Definition sizeof_HeapPageHeader : Z := 16.
Definition sizeof_ItemId : Z := 4.

Definition get_lsn (page : list byte) : result Z := rd_u page 0 8.
Definition get_lower (page : list byte) : result Z := rd_u page 8 2.
Definition get_upper (page : list byte) : result Z := rd_u page 10 2.
Definition set_lsn (page : list byte) (v : Z) : result (list byte) := wr page 0 (enc_le 8 v).
Definition set_lower (page : list byte) (v : Z) : result (list byte) := wr page 8 (enc_le 2 v).
Definition set_upper (page : list byte) (v : Z) : result (list byte) := wr page 10 (enc_le 2 v).

Definition page_nitems (lower : Z) : Z :=
  wrap 16 (wrap 64 (lower - SizeOfHeapPageHeader) / sizeof_ItemId).

Definition ItemsCount (page : list byte) : result Z := page_nitems <$> get_lower page.

(** The address of a line pointer on the page. *)
Definition header_get_itemid (index : Z) : Z := SizeOfHeapPageHeader + sizeof_ItemId * index.

Definition GetItemId (page : list byte) (index : Z) : result Z :=
  n ← ItemsCount page;
  _ ← assert_ (index <? n) "index < page_nitems(header)";
  Ok (header_get_itemid index).

Definition load_itemid (page : list byte) (addr : Z) : result ItemId.t :=
  ItemId.unpack <$> rd_u page addr 4.
Definition store_itemid (page : list byte) (addr : Z) (i : ItemId.t) : result (list byte) :=
  wr page addr (enc_le 4 (ItemId.pack i)).

(** The address of the tuple a line pointer designates. *)
Definition GetTuple (itemId : ItemId.t) : result Z :=
  _ ← assert_ (ItemId.isNormal itemId) "itemId.isNormal()";
  let offset := ItemId.getOffset itemId in
  _ ← assert_ (offset <? Config.PageSize) "offset < mi::Config::PageSize";
  _ ← assert_ (sizeof_HeapPageHeader <? offset) "sizeof(HeapPageHeader) < offset";
  Ok offset.

(** An [int] difference converted to [size_t]. *)
Definition GetFreeSpace (page : list byte) : result Z :=
  upper ← get_upper page;
  lower ← get_lower page;
  Ok (wrap 64 (upper - lower)).

Definition IsNew (page : list byte) : result bool := (fun lower => lower =? 0) <$> get_lower page.

Definition Init (page : list byte) : result (list byte) :=
  page ← set_lsn page 0;
  page ← set_lower page SizeOfHeapPageHeader;
  set_upper page Config.PageSize.

(** [HeapTable::InsertTuple], the changes of the page: the line pointer after the last
    one, the tuple below [upper], then the two bounds. *)
Definition insert_tuple (page : list byte) (lsn : Z) (heapTuple : list byte) : result (list byte) :=
  let size := zlen heapTuple in
  page ← set_lsn page lsn;
  n ← ItemsCount page;
  let lp := header_get_itemid n in
  upper ← get_upper page;
  let offset := wrap 16 (upper - BitUtils.MaxAlign 64 size) in
  i ← load_itemid page lp;
  i ← ItemId.setLength (ItemId.mk ItemId.Normal (ItemId.offset i) (ItemId.length i)) (wrap 16 size);
  i ← ItemId.setOffset i offset;
  page ← store_itemid page lp i;
  ptr ← GetTuple i;
  page ← wr page ptr heapTuple;
  lower ← get_lower page;
  page ← set_lower page (wrap 16 (lower + sizeof_ItemId));
  upper ← get_upper page;
  set_upper page (wrap 16 (upper - wrap 16 (BitUtils.MaxAlign 64 size))).
End page.
End Page.

(** ** Well-formed pages

    The view of a page: its bounds, its line pointers and the bytes of each tuple. *)
Section view.
Implicit Type p : list byte.

Definition lower p : Z := dec_le (slice 8 2 p).
Definition upper p : Z := dec_le (slice 10 2 p).
Definition nitems p : Z := (lower p - 12) / 4.
Definition item p (i : Z) : ItemId.t := ItemId.unpack (dec_le (slice (12 + 4 * i) 4 p)).

(** The contents of a page: for each line pointer the bytes of its tuple, if it has one. *)
Definition item_tuple p (i : Z) : option (list byte) :=
  if ItemId.isNormal (item p i)
  then Some (slice (ItemId.offset (item p i)) (ItemId.length (item p i)) p) else None.
Definition tuples p : list (option (list byte)) :=
  map (fun k => item_tuple p (Z.of_nat k)) (seq 0 (Z.to_nat (nitems p))).

(** The tuple of a line pointer lies between [upper] and the end of the page (and after
    the padded header, which [GetTuple] asserts). *)
Definition item_ok p (i : Z) : Prop :=
  ItemId.isNormal (item p i) = true ->
  upper p <= ItemId.offset (item p i) /\ 16 < ItemId.offset (item p i) /\
  24 <= ItemId.length (item p i) /\
  ItemId.offset (item p i) + ItemId.length (item p i) <= Config.PageSize.

Definition disjoint_items p (i j : Z) : Prop :=
  ItemId.isNormal (item p i) = true -> ItemId.isNormal (item p j) = true ->
  ItemId.offset (item p i) + ItemId.length (item p i) <= ItemId.offset (item p j) \/
  ItemId.offset (item p j) + ItemId.length (item p j) <= ItemId.offset (item p i).

Record wf p : Prop := mk_wf {
  wf_size : zlen p = Config.PageSize;
  wf_lower : lower p = 12 + 4 * nitems p;
  wf_bounds : 12 <= lower p <= upper p;
  wf_upper : upper p <= Config.PageSize;
  wf_aligned : upper p mod 8 = 0;
  wf_items : forall i, 0 <= i < nitems p -> item_ok p i;
  wf_disjoint : forall i j, 0 <= i < j -> j < nitems p -> disjoint_items p i j
}.

Lemma length_tuples p : zlen (tuples p) = Z.max 0 (nitems p).
Proof. unfold tuples, zlen. rewrite length_map, length_seq. lia. Qed.

Lemma tuples_lookup p i :
  0 <= i < nitems p -> tuples p !! Z.to_nat i = Some (item_tuple p i).
Proof.
  intros Hi. unfold tuples. rewrite list_lookup_fmap, lookup_seq_lt by lia. simpl.
  by rewrite Z2Nat.id by lia.
Qed.

(** A write that leaves the 4 bytes of a line pointer alone leaves it unchanged. *)
Lemma item_blit p off bs i :
  0 <= off -> off + zlen bs <= zlen p -> 0 <= i ->
  16 + 4 * i <= off \/ off + zlen bs <= 12 + 4 * i -> item (blit off bs p) i = item p i.
Proof. intros. unfold item. rewrite slice_blit_other by lia. done. Qed.

Lemma item_range p i : ItemId.in_range (item p i).
Proof. apply ItemId.unpack_range. apply dec_le_range. Qed.
End view.

(** What the accessors compute on a page. *)
Section accessors.
Context `{Build}.
Implicit Type p : list byte.

Lemma get_lower_ok p : zlen p = Config.PageSize -> Page.get_lower p = Ok (lower p).
Proof. intros Hz. unfold Page.get_lower, Config.PageSize in *. by rewrite rd_u_Ok by lia. Qed.

Lemma get_upper_ok p : zlen p = Config.PageSize -> Page.get_upper p = Ok (upper p).
Proof. intros Hz. unfold Page.get_upper, Config.PageSize in *. by rewrite rd_u_Ok by lia. Qed.

Lemma lower_range p : zlen p = Config.PageSize -> 0 <= lower p < 2 ^ 16.
Proof. intros Hz. unfold Config.PageSize in Hz. apply (dec_le_slice_range p 8 2); lia. Qed.

Lemma upper_range p : zlen p = Config.PageSize -> 0 <= upper p < 2 ^ 16.
Proof. intros Hz. unfold Config.PageSize in Hz. apply (dec_le_slice_range p 10 2); lia. Qed.

Lemma page_nitems_ok p : wf p -> Page.page_nitems (lower p) = nitems p /\ 0 <= nitems p <= 2045.
Proof.
  intros [Hz Hl Hb Hu _ _ _]. unfold Page.page_nitems, Page.SizeOfHeapPageHeader, Page.sizeof_ItemId.
  unfold Config.PageSize in *. rewrite (wrap_small 64) by lia.
  fold (nitems p). rewrite wrap_small by lia. lia.
Qed.

Lemma ItemsCount_ok p : wf p -> Page.ItemsCount p = Ok (nitems p).
Proof.
  intros Hwf. unfold Page.ItemsCount. rewrite get_lower_ok by apply Hwf. simpl.
  by destruct (page_nitems_ok p Hwf) as [-> _].
Qed.

Lemma GetItemId_ok p i : wf p -> 0 <= i < nitems p -> Page.GetItemId p i = Ok (12 + 4 * i).
Proof.
  intros Hwf Hi. unfold Page.GetItemId. rewrite ItemsCount_ok by done. rewrite bind_Ok.
  by rewrite assert_Ok by (apply Z.ltb_lt; lia).
Qed.

Lemma GetItemId_beyond p i :
  asserts_on = true -> wf p -> nitems p <= i ->
  Page.GetItemId p i = Fault (Abort "index < page_nitems(header)").
Proof.
  intros Ha Hwf Hi. unfold Page.GetItemId. rewrite ItemsCount_ok by done. rewrite bind_Ok.
  by rewrite assert_fails by (done || (apply Z.ltb_ge; lia)).
Qed.

Lemma load_itemid_ok p i :
  zlen p = Config.PageSize -> 0 <= i -> 16 + 4 * i <= Config.PageSize ->
  Page.load_itemid p (12 + 4 * i) = Ok (item p i).
Proof. intros Hz Hi Hb. unfold Page.load_itemid. by rewrite rd_u_Ok by lia. Qed.

Lemma GetTuple_ok p i :
  wf p -> 0 <= i < nitems p -> ItemId.isNormal (item p i) = true ->
  Page.GetTuple (item p i) = Ok (ItemId.offset (item p i)).
Proof.
  intros Hwf Hi Hn. destruct (wf_items p Hwf i Hi Hn) as (Ho & H16 & Hl & He).
  destruct (wf_bounds p Hwf) as [Hb1 Hb2]. rewrite (wf_lower p Hwf) in Hb2.
  unfold Page.GetTuple, ItemId.getOffset, Page.sizeof_HeapPageHeader, Config.PageSize in *.
  rewrite (assert_Ok (ItemId.isNormal _)) by done. rewrite bind_Ok, wrap_small by lia.
  by rewrite !assert_Ok by (apply Z.ltb_lt; lia).
Qed.

Lemma GetFreeSpace_ok p : wf p -> Page.GetFreeSpace p = Ok (upper p - lower p).
Proof.
  intros [Hz _ Hb Hu _ _ _]. unfold Page.GetFreeSpace. rewrite get_upper_ok, bind_Ok by done.
  rewrite get_lower_ok, bind_Ok by done. unfold Config.PageSize in *. by rewrite wrap_small by lia.
Qed.
End accessors.

(** ** Insertion *)
Section insertion.
Context `{Build}.
Implicit Type p : list byte.

(** The aligned size that an insertion takes from the top of the free space. *)
Definition aligned (size : Z) : Z := 8 * ((size + 7) / 8).

Lemma aligned_spec size : size <= aligned size < size + 8 /\ aligned size mod 8 = 0.
Proof. unfold aligned. zdm. Qed.

(** The room that an insertion needs, and what [GetTuple] requires of its offset. *)
Definition fits p (size : Z) : Prop :=
  24 <= size /\ aligned size + 4 <= upper p - lower p /\ 16 < upper p - aligned size.

(** The page after the insertion, write by write. *)
Definition inserted p (lsn : Z) (data : list byte) : list byte :=
  let off := upper p - aligned (zlen data) in
  let ptr := ItemId.mk ItemId.Normal off (zlen data) in
  blit 10 (enc_le 2 off) (blit 8 (enc_le 2 (lower p + 4)) (blit off data
    (blit (lower p) (enc_le 4 (ItemId.pack ptr)) (blit 0 (enc_le 8 lsn) p)))).


Lemma lower_blit p off bs :
  0 <= off -> off + zlen bs <= zlen p -> off + zlen bs <= 8 \/ 10 <= off ->
  lower (blit off bs p) = lower p.
Proof. intros. unfold lower. by rewrite slice_blit_other by lia. Qed.

Lemma upper_blit p off bs :
  0 <= off -> off + zlen bs <= zlen p -> off + zlen bs <= 10 \/ 12 <= off ->
  upper (blit off bs p) = upper p.
Proof. intros. unfold upper. by rewrite slice_blit_other by lia. Qed.

Lemma insert_tuple_inserted p lsn data :
  wf p -> 24 <= zlen data -> aligned (zlen data) <= upper p - lower p ->
  16 < upper p - aligned (zlen data) ->
  Page.insert_tuple p lsn data = Ok (inserted p lsn data).
Proof.
  intros Hwf H24 Hfit H16. pose proof (aligned_spec (zlen data)) as [Ha Ham].
  destruct (page_nitems_ok p Hwf) as [Hn Hn0]. pose proof Hwf as [Hz Hl Hb Hu Hal _ _].
  unfold Page.insert_tuple, inserted, Config.PageSize in *. cbv zeta.
  set (off := upper p - aligned (zlen data)) in *.
  unfold Page.set_lsn. rewrite wr_Ok by zb. rewrite bind_Ok.
  set (p1 := blit 0 (enc_le 8 lsn) p).
  assert (Hz1 : zlen p1 = 8192) by (unfold p1; rewrite zlen_blit by zb; done).
  assert (Hl1 : lower p1 = lower p) by (apply lower_blit; zb).
  assert (Hu1 : upper p1 = upper p) by (apply upper_blit; zb).
  unfold Page.ItemsCount. rewrite get_lower_ok, Hl1 by done. cbn [fmap result_fmap].
  rewrite bind_Ok, Hn, get_upper_ok, bind_Ok, Hu1 by done.
  rewrite BitUtils.MaxAlign_spec by (unfold aligned in *; lia).
  fold (aligned (zlen data)). fold off. rewrite (wrap_small 16 off) by lia.
  unfold Page.header_get_itemid, Page.SizeOfHeapPageHeader, Page.sizeof_ItemId.
  rewrite load_itemid_ok by (unfold Config.PageSize; lia). rewrite bind_Ok.
  rewrite (wrap_small 16 (zlen data)) by lia.
  rewrite ItemId.setLength_ok by lia. rewrite bind_Ok, ItemId.setOffset_ok by lia. rewrite bind_Ok.
  cbn [ItemId.flags ItemId.length ItemId.offset]. rewrite <-Hl. unfold Page.store_itemid.
  rewrite wr_Ok by zb. rewrite bind_Ok.
  set (ptr := ItemId.mk ItemId.Normal off (zlen data)).
  set (p2 := blit (lower p) (enc_le 4 (ItemId.pack ptr)) p1).
  assert (Hz2 : zlen p2 = 8192) by (unfold p2; rewrite zlen_blit by zb; done).
  unfold Page.GetTuple, ItemId.getOffset, Page.sizeof_HeapPageHeader, Config.PageSize.
  rewrite (assert_Ok (ItemId.isNormal _)) by done. rewrite bind_Ok. cbn [ItemId.offset ptr].
  rewrite (wrap_small 16 off) by lia. rewrite !assert_Ok by (apply Z.ltb_lt; lia). rewrite !bind_Ok.
  rewrite wr_Ok by lia. rewrite bind_Ok. set (p3 := blit off data p2).
  assert (Hz3 : zlen p3 = 8192) by (unfold p3; rewrite zlen_blit by zb; done).
  assert (Hl3 : lower p3 = lower p).
  { unfold p3. rewrite lower_blit by lia. unfold p2. rewrite lower_blit by zb. done. }
  rewrite get_lower_ok, bind_Ok, Hl3 by done. rewrite !(wrap_small 16 (lower p + 4)) by lia.
  unfold Page.set_lower. rewrite wr_Ok by zb. rewrite bind_Ok.
  set (p4 := blit 8 (enc_le 2 (lower p + 4)) p3).
  assert (Hz4 : zlen p4 = 8192) by (unfold p4; rewrite zlen_blit by zb; done).
  assert (Hu4 : upper p4 = upper p).
  { unfold p4. rewrite upper_blit by zb. unfold p3. rewrite upper_blit by lia.
    unfold p2. rewrite upper_blit by zb. done. }
  rewrite get_upper_ok, bind_Ok, Hu4 by done. unfold Page.set_upper. rewrite (wrap_small 16 (aligned _)) by lia. fold off. rewrite wrap_small by lia.
  rewrite wr_Ok by zb. done.
Qed.

(** The fields of the new page. *)
Section inserted.
Context (p : list byte) (lsn : Z) (data : list byte).
Hypotheses (Hwf : wf p) (Hfits : fits p (zlen data)).
#[local] Notation p' := (inserted p lsn data).
#[local] Notation off := (upper p - aligned (zlen data)).

Lemma inserted_bounds :
  zlen p = 8192 /\ lower p = 12 + 4 * nitems p /\ 0 <= nitems p /\
  lower p + 4 <= off /\ 16 < off /\ off + zlen data <= upper p <= 8192 /\ 24 <= zlen data.
Proof.
  destruct Hfits as (H24 & Hfit & H16). pose proof (aligned_spec (zlen data)).
  destruct Hwf as [Hz Hl Hb Hu _ _ _]. unfold Config.PageSize in *. lia.
Qed.

(** Everything but the header, the new line pointer and the new tuple is unchanged. *)
Lemma inserted_slice o n :
  12 <= o -> 0 <= n -> (o + n <= lower p \/ lower p + 4 <= o) ->
  (o + n <= off \/ off + zlen data <= o) -> slice o n p' = slice o n p.
Proof.
  intros Ho Hn H1 H2. destruct inserted_bounds as (Hz & Hl & Hn0 & Hfit & H16 & Hu & H24).
  unfold inserted. cbv zeta. rewrite !slice_blit_other by zb. done.
Qed.

Lemma inserted_zlen : zlen p' = 8192.
Proof.
  destruct inserted_bounds as (Hz & Hl & Hn0 & Hfit & H16 & Hu & H24).
  unfold inserted. cbv zeta. zb.
Qed.

Lemma inserted_fields : lower p' = lower p + 4 /\ upper p' = off /\ dec_le (slice 0 8 p') = lsn mod 2 ^ 64.
Proof.
  destruct inserted_bounds as (Hz & Hl & Hn0 & Hfit & H16 & Hu & H24).
  split_and!; [unfold lower at 1 | unfold upper at 1 |]; unfold inserted; cbv zeta.
  - rewrite slice_blit_other by zb. rewrite slice_blit_inside by zb.
    change (8 - 8) with 0. rewrite (slice_all (enc_le 2 _)), dec_enc_le, Z.mod_small; [done|].
    change (256 ^ Z.of_nat 2) with 65536. lia.
  - rewrite slice_blit_inside by zb. change (10 - 10) with 0.
    rewrite (slice_all (enc_le 2 _)), dec_enc_le, Z.mod_small; [done|].
    change (256 ^ Z.of_nat 2) with 65536. lia.
  - rewrite !(slice_blit_other (A:=byte)) with (off' := 0) (n := 8) by zb.
    rewrite slice_blit_inside by zb. rewrite (slice_all (enc_le 8 _)), dec_enc_le. done.
Qed.

Lemma inserted_nitems : nitems p' = nitems p + 1.
Proof.
  destruct inserted_bounds as (Hz & Hl & Hn0 & Hfit & H16 & Hu & H24).
  destruct inserted_fields as (Hl' & _). unfold nitems. rewrite Hl'. zdm.
Qed.

Lemma inserted_item_old i : 0 <= i < nitems p -> item p' i = item p i.
Proof.
  intros Hi. destruct inserted_bounds as (Hz & Hl & Hn0 & Hfit & H16 & Hu & H24).
  unfold item. rewrite inserted_slice by lia. done.
Qed.

Lemma inserted_item_new :
  item p' (nitems p) = ItemId.mk ItemId.Normal off (zlen data).
Proof.
  destruct inserted_bounds as (Hz & Hl & Hn0 & Hfit & H16 & Hu & H24).
  unfold item, inserted. cbv zeta. rewrite <-Hl. set (i := ItemId.mk _ _ _).
  assert (Hi : ItemId.in_range i) by (unfold ItemId.in_range; simpl; unfold ItemId.Normal; lia).
  rewrite !(slice_blit_other (A:=byte)) with (off' := lower p) (n := 4) by zb.
  rewrite slice_blit_inside by zb. rewrite Z.sub_diag, (slice_all (enc_le 4 _)), dec_enc_le.
  change (256 ^ Z.of_nat 4) with (2 ^ 32).
  rewrite Z.mod_small by (by apply ItemId.pack_range). by apply ItemId.unpack_pack.
Qed.

Lemma inserted_tuple_old i : 0 <= i < nitems p -> item_tuple p' i = item_tuple p i.
Proof.
  intros Hi. destruct inserted_bounds as (Hz & Hl & Hn0 & Hfit & H16 & Hu & H24).
  unfold item_tuple. rewrite inserted_item_old by done.
  destruct (ItemId.isNormal (item p i)) eqn:E; [|done]. f_equal.
  destruct (wf_items p Hwf i Hi E) as (Ho & _ & Hlen & He).
  apply inserted_slice; lia.
Qed.

Lemma inserted_tuple_new : item_tuple p' (nitems p) = Some data.
Proof.
  destruct inserted_bounds as (Hz & Hl & Hn0 & Hfit & H16 & Hu & H24).
  unfold item_tuple. rewrite inserted_item_new. cbn [ItemId.offset ItemId.length ItemId.isNormal ItemId.flags].
  change (ItemId.Normal =? ItemId.Normal) with true. cbv iota. f_equal.
  unfold inserted. cbv zeta.
  rewrite !(slice_blit_other (A:=byte)) with (off' := off) (n := zlen data) by zb.
  apply slice_blit_same; zb.
Qed.

Lemma inserted_tuples : tuples p' = tuples p ++ [Some data].
Proof.
  destruct inserted_bounds as (_ & _ & Hn0 & _).
  unfold tuples. rewrite inserted_nitems, Z2Nat.inj_add by lia. change (Z.to_nat 1) with 1%nat.
  rewrite seq_app, map_app. f_equal.
  - apply map_ext_in. intros k Hk. apply in_seq in Hk. apply inserted_tuple_old. lia.
  - cbn [seq map]. rewrite Nat.add_0_l, Z2Nat.id by lia. by rewrite inserted_tuple_new.
Qed.

Lemma inserted_wf : wf p'.
Proof.
  destruct inserted_bounds as (Hz & Hl & Hn0 & Hfit & H16 & Hu & H24).
  destruct inserted_fields as (Hl' & Hu' & _). pose proof inserted_nitems as Hn.
  pose proof (aligned_spec (zlen data)) as [Ha Ham]. pose proof (wf_aligned p Hwf) as Hal.
  assert (Hold : forall i, 0 <= i < nitems p -> ItemId.isNormal (item p' i) = true ->
    upper p <= ItemId.offset (item p' i) /\ item_ok p' i).
  { intros i Hi E. rewrite inserted_item_old in E by done.
    destruct (wf_items p Hwf i Hi E) as (Ho & Hitem). unfold item_ok.
    rewrite inserted_item_old by done. split; [done|]. rewrite Hu'. intros _. split; [lia | done]. }
  split; rewrite ?Hl', ?Hu', ?Hn; unfold Config.PageSize in *; try lia.
  - apply inserted_zlen.
  - zdm.
  - intros i Hi E. destruct (decide (i = nitems p)) as [->|].
    + unfold item_ok. rewrite inserted_item_new, Hu'. cbn [ItemId.offset ItemId.length].
      unfold Config.PageSize. lia.
    + exact (proj2 (Hold i ltac:(lia) E) E).
  - intros i j Hij Hj Ei Ej. destruct (decide (j = nitems p)) as [->|].
    + rewrite inserted_item_new. cbn [ItemId.offset ItemId.length]. right.
      destruct (Hold i ltac:(lia) Ei) as [Ho _]. lia.
    + rewrite inserted_item_old in Ei |- * by lia. rewrite (inserted_item_old j) in Ej |- * by lia.
      apply (wf_disjoint p Hwf i j); lia || done.
Qed.
End inserted.
End insertion.

(** ** Changing a page in place *)
Section in_place.
Context `{Build}.
Implicit Type p : list byte.

(** A write that touches neither the bounds nor the line pointers. *)
Lemma frame_ok p off bs :
  wf p -> 0 <= off -> off + zlen bs <= Config.PageSize ->
  off + zlen bs <= 8 \/ lower p <= off ->
  wf (blit off bs p) /\ nitems (blit off bs p) = nitems p /\ upper (blit off bs p) = upper p /\
  (forall i, 0 <= i < nitems p -> item (blit off bs p) i = item p i).
Proof.
  intros [Hz Hl Hb Hu Ha Hi Hd] H0 Hend Hr. unfold Config.PageSize in *. set (p' := blit off bs p).
  assert (Hl' : lower p' = lower p) by (apply lower_blit; lia).
  assert (Hu' : upper p' = upper p) by (apply upper_blit; lia).
  assert (Hn' : nitems p' = nitems p) by (unfold nitems; by rewrite Hl').
  assert (Hit : forall i, 0 <= i < nitems p -> item p' i = item p i)
    by (intros; apply item_blit; lia).
  split_and!; try done. split; rewrite ?Hl', ?Hu', ?Hn'; unfold Config.PageSize; try done; try lia.
  - unfold p'. zb.
  - intros i Hir. unfold item_ok. rewrite Hit, Hu' by lia. by apply Hi.
  - intros i j Hij Hj. unfold disjoint_items. rewrite !Hit by lia. by apply Hd.
Qed.

(** Setting the LSN. *)
Lemma set_lsn_ok p lsn :
  wf p -> exists p', Page.set_lsn p lsn = Ok p' /\ wf p' /\ tuples p' = tuples p /\
    nitems p' = nitems p /\ upper p' = upper p /\
    (forall i, 0 <= i < nitems p -> item p' i = item p i).
Proof.
  intros Hwf. pose proof Hwf as [Hz _ Hb _ _ Hi _]. unfold Config.PageSize in *.
  unfold Page.set_lsn. rewrite wr_Ok by zb. eexists. split; [done|].
  destruct (frame_ok p 0 (enc_le 8 lsn) Hwf) as (Hwf' & Hn' & Hu' & Hit);
    unfold Config.PageSize; try (rewrite ?zlen_enc_le; lia).
  split_and!; try done. unfold tuples. rewrite Hn'. apply map_ext_in. intros k Hk.
  apply in_seq in Hk. unfold item_tuple. rewrite Hit by lia.
  destruct (ItemId.isNormal _) eqn:E; [|done].
  f_equal. destruct (Hi (Z.of_nat k) ltac:(lia) E) as (? & ? & ?). apply slice_blit_other; zb.
Qed.

(** Reading a region after a write inside it. *)
Lemma slice_blit_within (p bs : list byte) off d len :
  0 <= off -> 0 <= d -> d + zlen bs <= len -> off + len <= zlen p ->
  slice off len (blit (off + d) bs p) = blit d bs (slice off len p).
Proof.
  intros H0 Hd Hb Hl. pose proof (zlen_nonneg bs).
  pose proof (zlen_blit d bs (slice off len p) Hd) as Hb'. rewrite zlen_slice in Hb' by lia.
  apply list_eq. intros k. rewrite lookup_slice. destruct (decide (Z.of_nat k < len)) as [Hk|Hk].
  - rewrite !lookup_blit by (rewrite ?zlen_slice by lia; lia). rewrite lookup_slice.
    rewrite (decide_True (P := Z.of_nat k < len)) by done.
    destruct (decide (Z.of_nat k < d)), (decide (Z.of_nat k < d + zlen bs));
      destruct (decide (Z.of_nat (Z.to_nat off + k) < off + d)),
        (decide (Z.of_nat (Z.to_nat off + k) < off + d + zlen bs)); try lia; try done.
    f_equal. lia.
  - symmetry. apply lookup_ge_None. specialize (Hb' ltac:(lia)). unfold zlen in Hb'. lia.
Qed.

(** Overwriting a part of a tuple. *)
Lemma write_tuple_ok p i d bs :
  wf p -> 0 <= i < nitems p -> ItemId.isNormal (item p i) = true ->
  0 <= d -> d + zlen bs <= ItemId.length (item p i) ->
  exists p', wr p (ItemId.offset (item p i) + d) bs = Ok p' /\ wf p' /\ nitems p' = nitems p /\
    (forall j, 0 <= j < nitems p -> item p' j = item p j) /\
    item_tuple p' i =
      Some (blit d bs (slice (ItemId.offset (item p i)) (ItemId.length (item p i)) p)) /\
    (forall j, 0 <= j < nitems p -> j <> i -> item_tuple p' j = item_tuple p j).
Proof.
  intros Hwf Hir En Hd0 Hd1. pose proof Hwf as [Hz Hl Hb Hu Ha Hi Hd]. unfold Config.PageSize in *.
  destruct (Hi i Hir En) as (Ho & H16 & Hlen & He). unfold Config.PageSize in *.
  set (off := ItemId.offset (item p i)) in *. set (len := ItemId.length (item p i)) in *.
  rewrite wr_Ok by lia. eexists. split; [done|].
  destruct (frame_ok p (off + d) bs Hwf) as (Hwf' & Hn' & Hu' & Hit); unfold Config.PageSize; try lia.
  split_and!; try done.
  - unfold item_tuple. rewrite Hit, En by lia. f_equal. apply slice_blit_within; lia.
  - intros j Hj Hne. unfold item_tuple. rewrite Hit by lia.
    destruct (ItemId.isNormal (item p j)) eqn:Ej; [|done]. f_equal.
    destruct (Hi j Hj Ej) as (Hoj & _ & Hlj & _). apply slice_blit_other; try lia.
    assert (Hdis : disjoint_items p i j \/ disjoint_items p j i).
    { destruct (decide (i < j)); [left; apply Hd; lia | right; apply Hd; lia]. }
    destruct Hdis as [Hdis|Hdis]; [specialize (Hdis En Ej) | specialize (Hdis Ej En)]; lia.
Qed.

(** Marking a line pointer dead. *)
Lemma set_dead_ok p i :
  wf p -> 0 <= i < nitems p ->
  exists p', Page.store_itemid p (12 + 4 * i) (ItemId.setDead (item p i)) = Ok p' /\ wf p' /\
    nitems p' = nitems p /\ item_tuple p' i = None /\
    (forall j, 0 <= j < nitems p -> j <> i ->
      item p' j = item p j /\ item_tuple p' j = item_tuple p j).
Proof.
  intros Hwf Hir. pose proof Hwf as [Hz Hl Hb Hu Ha Hi Hd]. unfold Config.PageSize in *.
  unfold Page.store_itemid. rewrite wr_Ok by zb. eexists. split; [done|].
  set (p' := blit _ _ p).
  assert (Hl' : lower p' = lower p) by (apply lower_blit; zb).
  assert (Hu' : upper p' = upper p) by (apply upper_blit; zb).
  assert (Hn' : nitems p' = nitems p) by (unfold nitems; by rewrite Hl').
  assert (Hit : forall j, 0 <= j < nitems p -> j <> i -> item p' j = item p j)
    by (intros; apply item_blit; zb).
  assert (Hii : item p' i = ItemId.mk ItemId.Dead 0 0).
  { unfold item, p'. rewrite slice_blit_inside by zb. rewrite Z.sub_diag.
    rewrite (slice_all (enc_le 4 _)), dec_enc_le. reflexivity. }
  split_and!; try done.
  - split; rewrite ?Hl', ?Hu', ?Hn'; unfold Config.PageSize; try done; try lia.
    + unfold p'. zb.
    + intros j Hr. unfold item_ok. destruct (decide (j = i)) as [->|]; [by rewrite Hii|].
      rewrite Hit, Hu' by lia. by apply Hi.
    + intros j k Hjk Hk. unfold disjoint_items.
      destruct (decide (j = i)) as [->|]; [by rewrite Hii|].
      destruct (decide (k = i)) as [->|]; [by rewrite Hii|].
      rewrite !Hit by lia. by apply Hd.
  - unfold item_tuple. by rewrite Hii.
  - intros j Hj Hne. rewrite Hit by lia. split; [done|]. unfold item_tuple. rewrite Hit by lia.
    destruct (ItemId.isNormal (item p j)) eqn:Ej; [|done]. f_equal.
    destruct (Hi j Hj Ej) as (Hoj & _ & Hlj & _). apply slice_blit_other; zb.
Qed.
End in_place.

(** ** A new page *)
Section new_page.
Context `{Build}.

Lemma Init_ok p :
  zlen p = Config.PageSize ->
  exists p', Page.Init p = Ok p' /\ wf p' /\ tuples p' = [] /\
    Page.GetFreeSpace p' = Ok (Config.PageSize - 12) /\ Page.IsNew p' = Ok false.
Proof.
  intros Hz. unfold Config.PageSize in *. unfold Page.Init, Page.set_lsn, Page.set_lower, Page.set_upper.
  rewrite wr_Ok by zb. rewrite bind_Ok, wr_Ok by zb. rewrite bind_Ok, wr_Ok by zb.
  eexists. split; [done|]. set (p' := blit 10 _ _).
  assert (Hz' : zlen p' = 8192) by (unfold p'; zb).
  assert (Hl : lower p' = 12).
  { unfold lower, p'. rewrite slice_blit_other by zb. rewrite slice_blit_inside by zb. by vm_compute. }
  assert (Hu : upper p' = 8192).
  { unfold upper, p'. rewrite slice_blit_inside by zb. by vm_compute. }
  assert (Hn : nitems p' = 0) by (unfold nitems; by rewrite Hl).
  assert (Hwf : wf p').
  { split; rewrite ?Hl, ?Hu, ?Hn; unfold Config.PageSize; try done; try lia; intros; lia. }
  split_and!; try done.
  - rewrite GetFreeSpace_ok, Hl, Hu by done. done.
  - unfold Page.IsNew. rewrite get_lower_ok, Hl by done. done.
Qed.
End new_page.

(** ** A tuple of a page *)
Section tuple_access.
Context `{Build}.
Implicit Type p : list byte.

(** The header that a tuple's bytes begin with. *)
Definition decode_header (bs : list byte) : HeapPageTupleHeader.t :=
  HeapPageTupleHeader.mk (dec_le (slice 0 8 bs)) (swrap 64 (dec_le (slice 8 8 bs))) (dec_le (slice 16 8 bs)).

Record has_tuple p (i addr : Z) (old : list byte) : Prop := mk_has_tuple {
  ht_index : 0 <= i < nitems p;
  ht_normal : ItemId.isNormal (item p i) = true;
  ht_addr : addr = ItemId.offset (item p i);
  ht_bytes : item_tuple p i = Some old;
  ht_length : zlen old = ItemId.length (item p i);
  ht_header : 24 <= zlen old;
  ht_end : 0 <= addr /\ addr + zlen old <= zlen p;
  ht_slice : old = slice addr (zlen old) p
}.

Lemma item_has_tuple p i old :
  wf p -> 0 <= i < nitems p -> item_tuple p i = Some old -> has_tuple p i (ItemId.offset (item p i)) old.
Proof.
  intros Hwf Hi Ht. pose proof Ht as Ht'. unfold item_tuple in Ht.
  destruct (ItemId.isNormal (item p i)) eqn:En; [|done]. apply (inj Some) in Ht as Hold.
  destruct (wf_items p Hwf i Hi En) as (Ho & H16 & Hl & He). pose proof (wf_size p Hwf) as Hz.
  pose proof (wf_bounds p Hwf). rewrite <-Hz in He.
  assert (Hlen : zlen old = ItemId.length (item p i)).
  { rewrite <-Hold. apply zlen_slice; lia. }
  split; try done; try lia. by rewrite Hlen.
Qed.

Lemma tuples_has_tuple p i old :
  wf p -> 0 <= i -> tuples p !! Z.to_nat i = Some (Some old) ->
  has_tuple p i (ItemId.offset (item p i)) old.
Proof.
  intros Hwf Hi Ht. assert (Hn : i < nitems p).
  { apply lookup_lt_Some in Ht. pose proof (length_tuples p) as Hz. unfold zlen in Hz. lia. }
  apply item_has_tuple; [done | lia |]. rewrite tuples_lookup in Ht by lia. congruence.
Qed.

Lemma load_header_slice p addr len :
  0 <= addr -> 24 <= len -> addr + len <= zlen p ->
  HeapPageTupleHeader.load p addr = Ok (decode_header (slice addr len p)).
Proof.
  intros H0 Hl He. unfold HeapPageTupleHeader.load, decode_header, rd_s.
  rewrite !rd_u_Ok by (change (Z.of_nat 8) with 8; lia). cbn [fmap result_fmap]. rewrite !bind_Ok.
  rewrite !slice_slice by lia. by rewrite Z.add_0_r.
Qed.

(** What the accessors find at the tuple. *)
Lemma access_ok p i addr old :
  wf p -> has_tuple p i addr old ->
  Page.GetItemId p i = Ok (12 + 4 * i) /\ Page.load_itemid p (12 + 4 * i) = Ok (item p i) /\
  Page.GetTuple (item p i) = Ok addr /\ HeapPageTupleHeader.load p addr = Ok (decode_header old) /\
  ItemId.getLength (item p i) = zlen old /\ rd p addr (zlen old) = Ok old.
Proof.
  intros Hwf [Hi En -> Ht Hl H24 [H0 He] Hs]. pose proof (wf_size p Hwf) as Hz.
  pose proof (wf_lower p Hwf). pose proof (wf_bounds p Hwf). pose proof (wf_upper p Hwf).
  unfold Config.PageSize in *. split_and!.
  - by apply GetItemId_ok.
  - apply load_itemid_ok; unfold Config.PageSize; lia.
  - by apply GetTuple_ok.
  - rewrite (load_header_slice p _ (zlen old)) by lia. by rewrite <-Hs.
  - unfold ItemId.getLength. rewrite wrap_small by lia. done.
  - unfold rd. rewrite !(proj2 (Z.leb_le _ _)) by lia. by rewrite <-Hs.
Qed.

(** Overwriting bytes inside the tuple. *)
Lemma overwrite_ok p i addr old d bs :
  wf p -> has_tuple p i addr old -> 0 <= d -> d + zlen bs <= zlen old ->
  exists p', wr p (addr + d) bs = Ok p' /\ wf p' /\ has_tuple p' i addr (blit d bs old) /\
    tuples p' = <[Z.to_nat i := Some (blit d bs old)]> (tuples p) /\ nitems p' = nitems p /\
    upper p' = upper p /\ (forall j, 0 <= j < nitems p -> item p' j = item p j).
Proof.
  intros Hwf Hh Hd Hb. pose proof Hh as [Hi En -> Ht Hl H24 [H0 He] Hs].
  destruct (write_tuple_ok p i d bs Hwf Hi En Hd) as (p' & Hwr & Hwf' & Hn & Hit & Hti & Hto); [lia|].
  exists p'. rewrite <-Hl, <-Hs in Hti.
  assert (Hup : upper p' = upper p).
  { unfold wr in Hwr. case_match eqn:Hc; [|done].
    assert (p' = blit (ItemId.offset (item p i) + d) bs p) as -> by congruence.
    apply andb_true_iff in Hc as [?%Z.leb_le ?%Z.leb_le]. apply upper_blit; [lia | lia |].
    destruct (wf_items p Hwf i Hi En) as (_ & ? & _). lia. }
  split_and!; try done.
  - rewrite <-(Hit i) by done. apply item_has_tuple; [done | lia | done].
  - apply (list_eq_same_length _ _ (Z.to_nat (nitems p))).
    + rewrite length_insert. unfold tuples. by rewrite length_map, length_seq.
    + unfold tuples. by rewrite length_map, length_seq, Hn.
    + intros k x y Hk Hx Hy. replace k with (Z.to_nat (Z.of_nat k)) in Hx, Hy by lia.
      rewrite tuples_lookup in Hx by lia. destruct (decide (Z.of_nat k = i)) as [<-|Hne].
      * rewrite list_lookup_insert_eq in Hy; [congruence|].
        unfold tuples. rewrite length_map, length_seq. lia.
      * rewrite list_lookup_insert_ne, tuples_lookup in Hy by lia.
        rewrite Hto in Hx by lia. congruence.
Qed.

Lemma decode_header_blit h old :
  HeapPageTupleHeader.in_range h -> 24 <= zlen old ->
  decode_header (blit 0 (HeapPageTupleHeader.encode h) old) = h.
Proof.
  intros Hr H24. pose proof (HeapPageTupleHeader.zlen_encode h) as Hz.
  set (bs := blit 0 _ old). assert (Hbs : slice 0 24 bs = HeapPageTupleHeader.encode h).
  { rewrite <-Hz. apply slice_blit_same; lia. }
  pose proof (HeapPageTupleHeader.load_encode h [] (drop 24 bs) Hr) as Hl.
  rewrite app_nil_l, zlen_nil, <-Hbs in Hl. unfold slice in Hl at 1. rewrite drop_0 in Hl.
  change (Z.to_nat 24) with 24%nat in Hl. rewrite take_drop in Hl.
  assert (Hzb : zlen bs = zlen old) by (unfold bs; apply zlen_blit; lia).
  rewrite (load_header_slice bs 0 (zlen bs)) in Hl by lia. rewrite slice_all in Hl. congruence.
Qed.
End tuple_access.

(** ** The guard of the insertion

    [HeapTable::InsertTuple] inserts when [GetFreeSpace() >= size + sizeof(ItemId)],
    without the alignment padding. The bounds of the page are multiples of 8 and of 4,
    so the guard is too weak in exactly one case: an odd number of line pointers and
    free space equal to the aligned size. *)
Section guard.
Context `{Build}.
Implicit Type p : list byte.

Definition guard_ok p (size : Z) : Prop := size + 4 <= upper p - lower p.

Lemma guard_cases p size :
  wf p -> 24 <= size -> guard_ok p size ->
  aligned size + 4 <= upper p - lower p \/
  (aligned size = upper p - lower p /\ nitems p mod 2 = 1).
Proof.
  intros Hwf H24 Hg. pose proof (aligned_spec size) as [Ha Ham]. unfold guard_ok in Hg.
  pose proof (wf_lower p Hwf) as Hl. pose proof (wf_aligned p Hwf) as Hal. zdm.
Qed.

(** In that case the tuple is written over its own line pointer, and [lower] passes
    [upper]. *)
Lemma insert_tuple_overlap p lsn data :
  wf p -> 24 <= zlen data -> 16 < lower p -> aligned (zlen data) = upper p - lower p ->
  exists p', Page.insert_tuple p lsn data = Ok p' /\
    item p' (nitems p) = ItemId.unpack (dec_le (slice 0 4 data)) /\
    Page.GetFreeSpace p' = Ok (2 ^ 64 - 4).
Proof.
  intros Hwf H24 H16 Hfit. pose proof (aligned_spec (zlen data)) as [Ha Ham].
  pose proof Hwf as [Hz Hl Hb Hu Hal _ _]. unfold Config.PageSize in *.
  rewrite insert_tuple_inserted by (done || lia). eexists. split; [done|].
  unfold inserted. cbv zeta. replace (upper p - aligned (zlen data)) with (lower p) by lia.
  set (off := lower p) in *. set (p3 := blit off data _).
  assert (Hz3 : zlen p3 = 8192) by (unfold p3; zb).
  split.
  - unfold item. rewrite <-Hl. fold off. rewrite !slice_blit_other with (off' := off) (l := blit _ _ p3) by zb.
    rewrite slice_blit_other by zb. unfold p3.
    rewrite slice_blit_inside by zb. by rewrite Z.sub_diag.
  - unfold Page.GetFreeSpace. rewrite get_upper_ok, bind_Ok by (unfold Config.PageSize; zb).
    rewrite get_lower_ok, bind_Ok by (unfold Config.PageSize; zb). unfold upper at 1, lower at 1.
    rewrite slice_blit_inside by zb. rewrite (slice_blit_other 10) by zb.
    rewrite slice_blit_inside by zb. change (10 - 10) with 0. change (8 - 8) with 0.
    rewrite !(slice_all (enc_le 2 _)), !dec_enc_le. change (256 ^ Z.of_nat 2) with 65536.
    rewrite !Z.mod_small by lia. replace (off - (off + 4)) with (-4) by lia. done.
Qed.
End guard.

(** ** Properties of the page *)
Section properties.
Context `{Build}.
Implicit Type p : list byte.

(** C22: an insertion that passes the code's guard on a well-formed page keeps it well
    formed and appends exactly the tuple: every tuple already on the page, the dead
    ones included, keeps its position and its bytes. The excluded case is the one of
    [page_insert_guard_too_weak]. *)
Theorem page_insert_appends p lsn data :
  wf p -> 24 <= zlen data -> guard_ok p (zlen data) -> 16 < upper p - aligned (zlen data) ->
  ~ (aligned (zlen data) = upper p - lower p /\ nitems p mod 2 = 1) ->
  exists p', Page.insert_tuple p lsn data = Ok p' /\ wf p' /\ tuples p' = tuples p ++ [Some data] /\
    dec_le (slice 0 8 p') = lsn mod 2 ^ 64 /\ lower p' = lower p + 4 /\
    upper p' = upper p - aligned (zlen data).
Proof.
  intros Hwf H24 Hg H16 Hex. destruct (guard_cases p (zlen data) Hwf H24 Hg) as [Hfit|Hbad]; [|done].
  assert (Hfits : fits p (zlen data)) by (unfold fits; auto).
  exists (inserted p lsn data).
  destruct (inserted_fields p lsn data Hwf Hfits) as (Hl & Hu & Hs).
  split_and!; try done.
  - apply insert_tuple_inserted; auto; lia.
  - by apply inserted_wf.
  - by apply inserted_tuples.
Qed.

(** the guard omits the alignment padding. With an odd number of line pointers (3 at
    least) and free space equal to the aligned size it lets the insertion through, and
    the tuple is written over its own line pointer, which becomes the first 4 bytes of
    the tuple (the creator's xid); [lower] passes [upper], and the page then reports
    2^64 - 4 bytes of free space. *)
Theorem page_insert_guard_too_weak p lsn data :
  wf p -> 24 <= zlen data -> guard_ok p (zlen data) -> 3 <= nitems p ->
  aligned (zlen data) = upper p - lower p ->
  exists p', Page.insert_tuple p lsn data = Ok p' /\
    item p' (nitems p) = ItemId.unpack (dec_le (slice 0 4 data)) /\
    Page.GetFreeSpace p' = Ok (2 ^ 64 - 4).
Proof.
  intros Hwf H24 _ Hn Hfit. pose proof (wf_lower p Hwf).
  apply insert_tuple_overlap; auto; lia.
Qed.

(** A page filled with [n] rows of the same size. *)
Definition fill (n : nat) (p : list byte) (row : list byte) : result (list byte) :=
  foldM (fun p _ => Page.insert_tuple p 0 row) (seq 0 n) p.

Lemma fill_ok n p row :
  wf p -> 24 <= zlen row -> 16 < upper p - Z.of_nat n * aligned (zlen row) ->
  lower p + Z.of_nat n * (4 + aligned (zlen row)) <= upper p ->
  exists p', fill n p row = Ok p' /\ wf p' /\ tuples p' = tuples p ++ replicate n (Some row) /\
    nitems p' = nitems p + Z.of_nat n /\ upper p' = upper p - Z.of_nat n * aligned (zlen row).
Proof.
  intros Hwf H24 H16 Hfit. pose proof (aligned_spec (zlen row)) as [Ha _]. unfold fill.
  destruct (foldM_inv (fun k q => (k <= n)%nat -> wf q /\ tuples q = tuples p ++ replicate k (Some row) /\
    nitems q = nitems p + Z.of_nat k /\ upper q = upper p - Z.of_nat k * aligned (zlen row))
    (fun p _ => Page.insert_tuple p 0 row) (seq 0 n) p) as (p' & -> & Hp').
  - intros _. rewrite app_nil_r. split_and!; try done; lia.
  - intros k x q (-> & Hk)%lookup_seq Hq. destruct (Hq ltac:(lia)) as (Hwf' & Ht & Hn & Hu).
    pose proof (wf_lower p Hwf) as Hl. pose proof (wf_lower q Hwf') as Hl'.
    assert (Hfits : fits q (zlen row)) by (unfold fits; split_and!; nia).
    exists (inserted q 0 row). split.
    + apply insert_tuple_inserted; try done; unfold fits in Hfits; lia.
    + intros _. destruct (inserted_fields q 0 row Hwf' Hfits) as (_ & Hu' & _).
      split_and!; [by apply inserted_wf | | rewrite inserted_nitems by done; lia | rewrite Hu'; lia].
      rewrite inserted_tuples, Ht, <-app_assoc by done. f_equal.
      by rewrite replicate_S_end.
  - rewrite length_seq in Hp'. eauto.
Qed.
End properties.

(** ** Concrete pages *)
Section examples.

Definition ex_page : list byte := zeros Config.PageSize.
(** Three 4-byte columns: a tuple of 36 bytes. *)
Definition ex_row : list byte := enc_le 8 7 ++ zeros 16 ++ zeros 12.

Lemma ex_new : exists p, Page.Init ex_page = Ok p /\ wf p /\ tuples p = [] /\ lower p = 12 /\ upper p = 8192.
Proof.
  destruct (Init_ok ex_page) as (p & Hp & Hwf & Ht & Hf & _); [by vm_compute|].
  exists p. rewrite (GetFreeSpace_ok) in Hf by done.
  pose proof (wf_lower p Hwf) as Hl. pose proof (length_tuples p) as Hn. rewrite Ht, zlen_nil in Hn.
  pose proof (page_nitems_ok p Hwf) as [_ Hn0]. assert (nitems p = 0) by lia.
  split_and!; try assumption; [lia|]. injection Hf. unfold Config.PageSize. lia.
Qed.

Lemma page_insert_appends_witness :
  exists p p', Page.Init ex_page = Ok p /\
    Page.insert_tuple (H := DebugBuild) p 9 ex_row = Ok p' /\ tuples p' = [Some ex_row].
Proof.
  destruct ex_new as (p & Hi & Hwf & Ht & Hl & Hu).
  destruct (page_insert_appends (H := DebugBuild) p 9 ex_row) as (p' & Hp & _ & Ht' & _).
  - exact Hwf.
  - vm_compute. congruence.
  - unfold guard_ok. rewrite Hl, Hu. vm_compute. congruence.
  - rewrite Hu. vm_compute. reflexivity.
  - rewrite Hl, Hu. vm_compute. intros [? _]. congruence.
  - exists p, p'. rewrite Ht in Ht'. auto.
Defined.

(** Rows of 36 bytes: the 186th insertion in a page corrupts it. *)
Lemma page_insert_guard_too_weak_witness :
  exists p p', fill (H := DebugBuild) 185 p ex_row = Ok p' /\ Page.Init ex_page = Ok p /\
    wf p' /\ exists p'', Page.insert_tuple (H := DebugBuild) p' 0 ex_row = Ok p'' /\
      item p'' 185 = ItemId.mk 3 1 0 /\ Page.GetFreeSpace p'' = Ok (2 ^ 64 - 4).
Proof.
  destruct ex_new as (p & Hi & Hwf & Ht & Hl & Hu).
  assert (Hz : zlen ex_row = 36) by (vm_compute; reflexivity).
  assert (Ha : aligned (zlen ex_row) = 40) by (vm_compute; reflexivity).
  destruct (fill_ok (H := DebugBuild) 185 p ex_row Hwf) as (p' & Hf & Hwf' & Ht' & Hn' & Hu');
    [lia | lia | lia |].
  assert (Hn : nitems p = 0) by (unfold nitems; rewrite Hl; reflexivity).
  pose proof (wf_lower p' Hwf') as Hl'. exists p, p'. split_and!; try assumption.
  destruct (page_insert_guard_too_weak (H := DebugBuild) p' 0 ex_row) as (p'' & Hp & Hit & Hfree);
    [done | lia | unfold guard_ok; lia | lia | lia |].
  exists p''. split_and!; try assumption. replace 185 with (nitems p') by lia. rewrite Hit.
  vm_compute. reflexivity.
Defined.

End examples.
