(* ===== verification/File.v ===== *)
(** [storage/io/File.cpp] and [storage/buffer/RelFile.cpp]: files and relation files.

    The system calls are parameters ([Posix]): each takes the contents of the file and
    returns what the call returns and the contents after it. What the code relies on
    is the class [PosixOk]: transfers are complete and no call fails. [RamFile] is a
    concrete instance of both. *)
From S2P Require Import Prelude Types.

(** ** System calls *)
Class Posix := {
  open_fd : string -> Z -> Z;
  pwrite64 : list byte -> list byte -> Z -> Z * list byte;
  write_append : list byte -> list byte -> Z * list byte;
  pread64 : list byte -> Z -> Z -> Z * list byte;
  fdatasync : list byte -> Z;
  lseek_end : list byte -> Z
}.

(** The contents after bytes are written at an offset: a gap is filled with zeros. *)
Definition file_write (f : list byte) (off : Z) (bs : list byte) : list byte :=
  blit off bs (f ++ zeros (off + zlen bs - zlen f)).

Class PosixOk `{Posix} := {
  open_ok path mode : 0 <= open_fd path mode;
  pwrite_ok f bs off : 0 <= off -> pwrite64 f bs off = (zlen bs, file_write f off bs);
  append_ok f bs : write_append f bs = (zlen bs, f ++ bs);
  pread_ok f n off : 0 <= off -> 0 <= n ->
    pread64 f n off = (zlen (slice off n f), slice off n f);
  sync_ok f : fdatasync f = 0;
  lseek_ok f : lseek_end f = zlen f
}.

#[local] Instance RamFile : Posix := {
  open_fd _ _ := 3;
  pwrite64 f bs off := (zlen bs, file_write f off bs);
  write_append f bs := (zlen bs, f ++ bs);
  pread64 f n off := (zlen (slice off n f), slice off n f);
  fdatasync _ := 0;
  lseek_end f := zlen f
}.

#[local] Instance RamFile_ok : PosixOk.
Proof. by split. Qed.

(** ** File *)
Module File.
Section file.
Context `{Posix}.

(** What [File::Open] gives is a descriptor; the operations act on the contents. *)
Definition Open (path : string) (mode : Z) : result unit :=
  if open_fd path mode <? 0 then Fault (Throw "could not open file") else Ok tt.

Definition Append (buffer : list byte) : M (list byte) unit := fun f =>
  let '(ret, f') := write_append f buffer in
  (if ret <? 0 then Fault (Throw "could not write file") else Ok tt, f').

Definition Write (buffer : list byte) (offset : Z) : M (list byte) unit := fun f =>
  let '(ret, f') := pwrite64 f buffer offset in
  (if ret <? 0 then Fault (Throw "could not pwrite64 file") else Ok tt, f').

(** The count that was read and the bytes. *)
Definition Read (size offset : Z) : M (list byte) (Z * list byte) := fun f =>
  let '(ret, bs) := pread64 f size offset in
  (if ret <? 0 then Fault (Throw "could not read file") else Ok (wrap 64 ret, bs), f).

Definition Fsync : M (list byte) unit := fun f =>
  (if fdatasync f <? 0 then Fault (Throw "could not fsync file") else Ok tt, f).

Definition Size : M (list byte) Z := fun f =>
  let ret := lseek_end f in
  (if ret <? 0 then Fault (Throw "could not lseek file") else Ok ret, f).

Context `{!PosixOk}.

Lemma zlen_file_write f off bs :
  0 <= off -> zlen (file_write f off bs) = Z.max (zlen f) (off + zlen bs).
Proof.
  intros Hoff. unfold file_write. pose proof (zlen_nonneg f). pose proof (zlen_nonneg bs).
  assert (Hz : zlen (f ++ zeros (off + zlen bs - zlen f)) = Z.max (zlen f) (off + zlen bs)).
  { rewrite zlen_app. unfold zlen at 2, zeros. rewrite length_replicate. lia. }
  rewrite zlen_blit; lia.
Qed.

(** Writing at the end appends. *)
Lemma file_write_end f bs : file_write f (zlen f) bs = f ++ bs.
Proof.
  unfold file_write, blit, zeros, zlen.
  rewrite Nat2Z.id, take_app_length, <-drop_drop, drop_app_length, drop_replicate.
  replace (Z.to_nat _ - length bs)%nat with 0%nat by lia. by rewrite app_nil_r.
Qed.

Lemma Open_ok path mode : Open path mode = Ok tt.
Proof. unfold Open. by rewrite (proj2 (Z.ltb_ge _ _) (open_ok path mode)). Qed.

Lemma Write_ok f bs off : 0 <= off -> Write bs off f = (Ok tt, file_write f off bs).
Proof.
  intros Ho. unfold Write. rewrite pwrite_ok by done. pose proof (zlen_nonneg bs).
  by rewrite (proj2 (Z.ltb_ge _ _)) by lia.
Qed.

Lemma Read_ok f n off :
  0 <= off -> 0 <= n -> zlen f < 2 ^ 64 ->
  Read n off f = (Ok (zlen (slice off n f), slice off n f), f).
Proof.
  intros Ho Hn Hf. unfold Read. rewrite pread_ok by done. pose proof (zlen_nonneg (slice off n f)).
  rewrite (proj2 (Z.ltb_ge _ _)) by lia. rewrite wrap_small; [done|].
  split; [lia|]. eapply Z.le_lt_trans; [|exact Hf]. unfold zlen, slice.
  rewrite length_take, length_drop. lia.
Qed.

Lemma Fsync_ok f : Fsync f = (Ok tt, f).
Proof. unfold Fsync. by rewrite sync_ok. Qed.

Lemma Size_ok f : Size f = (Ok (zlen f), f).
Proof.
  unfold Size. rewrite lseek_ok. pose proof (zlen_nonneg f).
  by rewrite (proj2 (Z.ltb_ge _ _)) by lia.
Qed.
End file.
End File.

(** ** RelFile: the file of a relation, by pages *)
Module RelFile.
Section relfile.
Context `{Posix}.

(** The offset is computed in 32 bits ([unsigned int] times [uint32_t]). *)
Definition Write (buffer : list byte) (pageno : Z) : M (list byte) unit :=
  if negb (PageNumber.IsValid pageno)
  then throw (Throw "could not write page: pageno is invalid")
  else File.Write buffer (wrap 32 (Config.PageSize * pageno)).

Definition Extend (pageno : Z) : M (list byte) unit := Write (zeros Config.PageSize) pageno.

(** Here it is computed in 64 bits. *)
Definition Read (pageno : Z) : M (list byte) (list byte) :=
  if negb (PageNumber.IsValid pageno)
  then throw (Throw "could not read page: pageno is invalid")
  else
    '(ret, bs) ← File.Read Config.PageSize (Config.PageSize * pageno);
    if ret =? Config.PageSize then mret bs
    else throw (Throw ("could not read page: read only " ++ pretty ret ++ " bytes")).

Definition Fsync : M (list byte) unit := File.Fsync.

Definition GetPagesCount : M (list byte) Z :=
  size ← File.Size;
  mret (wrap 32 (size / Config.PageSize)).

Definition Open (relid : Z) (mode : Z) : result unit := File.Open ("data/" ++ pretty relid) mode.

Context `{!PosixOk}.

Lemma page_valid pageno : 0 <= pageno < 2 ^ 32 - 1 -> PageNumber.IsValid pageno = true.
Proof. intros. unfold PageNumber.IsValid, PageNumber.InvalidValue. apply negb_true_iff, Z.eqb_neq. lia. Qed.

(** below page 2^19 (4 GiB) a page that was written is read back, and no other page
    of the relation changes. *)
Theorem relfile_read_written f buffer pageno :
  zlen f < 2 ^ 62 -> zlen buffer = Config.PageSize -> 0 <= pageno < 2 ^ 19 ->
  exists f', Write buffer pageno f = (Ok tt, f') /\ Read pageno f' = (Ok buffer, f') /\
    forall q, 0 <= q < 2 ^ 32 -> q <> pageno -> Config.PageSize * (q + 1) <= zlen f ->
      fst (Read q f') = fst (Read q f).
Proof.
  intros Hf Hb Hp. unfold Write, Read, Config.PageSize in *. rewrite page_valid by lia. cbn [negb].
  rewrite wrap_small, File.Write_ok by lia. eexists. split; [done|].
  assert (Hz := File.zlen_file_write f (8192 * pageno) buffer ltac:(lia)).
  assert (Hzf : zlen (f ++ zeros (8192 * pageno + zlen buffer - zlen f)) =
    Z.max (zlen f) (8192 * pageno + 8192)).
  { rewrite zlen_app. unfold zlen at 2, zeros. rewrite length_replicate. lia. }
  split.
  - erewrite M_bind_Ok by (apply File.Read_ok; lia). unfold file_write.
    pose proof (slice_blit_same (8192 * pageno) buffer
      (f ++ zeros (8192 * pageno + zlen buffer - zlen f))) as Hs.
    rewrite Hb in Hs, Hzf |- *. rewrite Hs by lia. by rewrite Hb.
  - intros q Hq Hne Hqf. destruct (PageNumber.IsValid q); [|done]. cbn [negb].
    erewrite !M_bind_Ok by (apply File.Read_ok; lia). unfold file_write.
    rewrite !(slice_blit_other (8192 * pageno)), !slice_app_l by lia.
    by destruct (_ =? _).
Qed.

(** from page 2^19 on the written offset wraps at 32 bits, so the page overwrites the
    page 2^19 below it (as [Read] computes its offset in 64 bits, it does not get it
    back). *)
Theorem relfile_write_wraps f buffer pageno :
  0 <= pageno -> pageno + 2 ^ 19 < 2 ^ 32 - 1 ->
  Write buffer (pageno + 2 ^ 19) f = Write buffer pageno f.
Proof.
  intros Hp Hb. unfold Write. rewrite !page_valid by lia. cbn [negb]. f_equal.
  unfold wrap, Config.PageSize. rewrite Z.mul_add_distr_l.
  change (8192 * 2 ^ 19) with (1 * 2 ^ 32). by rewrite Z.mod_add by lia.
Qed.
End relfile.

Lemma relfile_read_written_witness :
  exists f', Write (zeros Config.PageSize) 2 (zeros (3 * Config.PageSize)) = (Ok tt, f') /\
    Read 2 f' = (Ok (zeros Config.PageSize), f').
Proof.
  destruct (relfile_read_written (zeros (3 * Config.PageSize)) (zeros Config.PageSize) 2)
    as (f' & Hw & Hr & _); [vm_compute; reflexivity | vm_compute; reflexivity | lia | eauto].
Defined.

Lemma relfile_write_wraps_witness :
  Write [x01] (5 + 2 ^ 19) [] = Write [x01] 5 [].
Proof. apply relfile_write_wraps; vm_compute; congruence. Defined.
End RelFile.
