(* ===== verification/Descriptors.v ===== *)
(** Who owns a file descriptor: the constructors, moves, [Close] and destructors of [storage/io/File.cpp] and
    [storage/buffer/RelFile.cpp], on a store of [File] objects and the descriptors that the process has open. *)
From stdpp Require Import gmap sets.
From S2P Require Import Prelude.

Definition InvalidFd : Z := -1.

(** The objects that are alive with their member [_fd], the open descriptors, and the calls of [close] on a
    descriptor that was not open. *)
Record Files := mkFiles { f_objects : gmap nat Z; f_open : gset Z; f_bad_closes : list Z }.

(** [alloc] is the descriptor that [open] gives when it succeeds: it is not negative and not in use. *)
Class Descriptors := { alloc : gset Z -> Z; alloc_nonneg X : 0 <= alloc X; alloc_fresh X : alloc X ∉ X }.

Section files.
Context `{Build} `{Descriptors}.
#[local] Notation F := (M Files).

Definition fd_of (i : nat) : F Z := s ← get; lift (of_option (UB "no object") (f_objects s !! i)).
Definition set_fd (i : nat) (fd : Z) : F unit := modify (fun s => mkFiles (<[i := fd]> (f_objects s)) (f_open s) (f_bad_closes s)).

(** A new object; its place is not in use. *)
Definition construct (i : nat) (fd : Z) : F unit :=
  s ← get;
  match f_objects s !! i with Some _ => throw (UB "object exists") | None => set_fd i fd end.

Definition close (fd : Z) : F unit := modify (fun s =>
  mkFiles (f_objects s) (f_open s ∖ {[fd]}) (if decide (fd ∈ f_open s) then f_bad_closes s else fd :: f_bad_closes s)).

Definition newFile (i : nat) : F unit := construct i InvalidFd.

(** [File::Open] makes a temporary object, which the result is. *)
Definition open_file (i : nat) : F unit :=
  s ← get;
  let fd := alloc (f_open s) in
  _ ← construct i fd;
  modify (fun s => mkFiles (f_objects s) ({[fd]} ∪ f_open s) (f_bad_closes s)).

Definition move_construct_file (this other : nat) : F unit :=
  fd ← fd_of other;
  _ ← construct this fd;
  set_fd other InvalidFd.

(** The descriptor that [this] had is not closed. *)
Definition move_assign_file (this other : nat) : F unit :=
  _ ← lift (assert_ (negb (bool_decide (this = other))) "this != &other");
  _ ← fd_of this;
  fd ← fd_of other;
  _ ← set_fd this fd;
  set_fd other InvalidFd.

Definition Close (this : nat) : F unit :=
  fd ← fd_of this;
  if fd =? InvalidFd then mret tt
  else _ ← close fd; set_fd this InvalidFd.

Definition destroy (this : nat) : F unit :=
  _ ← Close this;
  modify (fun s => mkFiles (delete this (f_objects s)) (f_open s) (f_bad_closes s)).

(** [std::swap]: the temporary is the place [tmp]. *)
Definition swap_files (tmp a b : nat) : F unit :=
  _ ← move_construct_file tmp a;
  _ ← move_assign_file a b;
  _ ← move_assign_file b tmp;
  destroy tmp.

(** [RelFile] has a [File]: the move constructor assigns to a new one, the assignment closes what it had and swaps. *)
Definition relfile_move_construct (this other : nat) : F unit :=
  _ ← newFile this;
  move_assign_file this other.

Definition relfile_move_assign (tmp this other : nat) : F unit :=
  _ ← lift (assert_ (negb (bool_decide (this = other))) "this != &other");
  _ ← Close this;
  swap_files tmp this other.

(** [RelFile::Open]: the constructor moves the file out of the temporary [tmp]. *)
Definition open_relfile (tmp this : nat) : F unit :=
  _ ← open_file tmp;
  _ ← move_construct_file this tmp;
  destroy tmp.

(** ** Ownership *)
Definition owns (s : Files) (i : nat) (fd : Z) : Prop := f_objects s !! i = Some fd /\ fd <> InvalidFd.

(** Every descriptor of an object is open and no other object has it; [lost] are the open ones that no object has, and no [close] has
    failed. *)
Record owned (lost : gset Z) (s : Files) : Prop := mkOwned {
  owned_one i j fd : owns s i fd -> owns s j fd -> i = j;
  owned_open fd : fd ∈ f_open s <-> fd ∈ lost \/ exists i, owns s i fd;
  owned_lost fd i : fd ∈ lost -> ~ owns s i fd;
  owned_closes : f_bad_closes s = []
}.

(** The descriptor of an object. *)
Definition held_by (s : Files) (i : nat) : gset Z :=
  match f_objects s !! i with Some fd => if decide (fd = InvalidFd) then ∅ else {[fd]} | None => ∅ end.

Lemma construct_inv i fd s s' : construct i fd s = (Ok tt, s') -> f_objects s !! i = None /\ s' = mkFiles (<[i := fd]> (f_objects s)) (f_open s) (f_bad_closes s).
Proof. unfold construct, mbind, M_bind. cbn. destruct (f_objects s !! i) eqn:E; [done|]. cbn. by intros [= <-]. Qed.

Lemma fd_of_inv i fd s s' : fd_of i s = (Ok fd, s') -> f_objects s !! i = Some fd /\ s' = s.
Proof. unfold fd_of, mbind, M_bind. cbn. destruct (f_objects s !! i); cbn; [by intros [= <- <-] | done]. Qed.

Ltac objects := unfold owns in *; cbn [f_objects f_open f_bad_closes] in *; rewrite ?lookup_insert_Some, ?lookup_delete_Some in *.

(** How the owners change: [i] gives up what it has, and [j] has [fd] then. *)
Lemma owns_move (s : Files) i j fd k fd' : i <> j ->
  owns (mkFiles (<[i := InvalidFd]> (<[j := fd]> (f_objects s))) (f_open s) (f_bad_closes s)) k fd' <->
  (k = j /\ fd' = fd /\ fd <> InvalidFd) \/ (k <> i /\ k <> j /\ owns s k fd').
Proof. intros Hij. objects. naive_solver. Qed.

Lemma elem_of_held s i fd : fd ∈ held_by s i <-> owns s i fd.
Proof.
  unfold held_by, owns. destruct (f_objects s !! i) as [fd'|]; [|set_solver]. destruct (decide (fd' = InvalidFd)); set_solver.
Qed.

(** Moving the descriptor of [i] to [j] loses what [j] had. *)
Lemma owned_move lost s i j fd : i <> j -> f_objects s !! i = Some fd -> owned lost s ->
  owned (lost ∪ held_by s j) (mkFiles (<[i := InvalidFd]> (<[j := fd]> (f_objects s))) (f_open s) (f_bad_closes s)).
Proof.
  intros Hij Hi [H1 H2 H3 H4]. assert (Hfd : fd <> InvalidFd -> owns s i fd) by done. constructor; [| | |done].
  - intros k l fd'. rewrite !owns_move by done. intros [(-> & -> & Hv) | (Hk & Hk' & Ho)] [(-> & He & Hv') | (Hl & Hl' & Ho')]; subst; try done.
    + destruct Hl. symmetry. exact (H1 _ _ _ (Hfd Hv) Ho').
    + destruct Hk. symmetry. exact (H1 _ _ _ (Hfd Hv') Ho).
    + by eapply H1.
  - intros fd'. cbn [f_open]. rewrite H2, elem_of_union, elem_of_held. setoid_rewrite owns_move; [|done]. split.
    + intros [Hl | [k Hk]]; [by left; left|]. destruct (decide (k = j)) as [->|]; [by left; right|]. right.
      destruct (decide (k = i)) as [->|]; [|naive_solver]. exists j. left. destruct Hk as [Hk Hv]. rewrite Hi in Hk. by injection Hk as ->.
    + intros [[Hl | Hj] | [k [(-> & -> & Hv) | (_ & _ & Hk)]]]; [by left | right; by exists j | right; exists i; by apply Hfd | right; by exists k].
  - intros fd' k. rewrite elem_of_union, elem_of_held, owns_move by done. intros [Hl | Hj] [(-> & -> & Hv) | (Hk & Hk' & Ho)].
    + exact (H3 _ i Hl (Hfd Hv)).
    + by apply (H3 _ _ Hl Ho).
    + apply Hij. exact (H1 _ _ _ (Hfd Hv) Hj).
    + apply Hk'. exact (H1 _ _ _ Ho Hj).
Qed.

(** An object that has nothing comes or goes. *)
Lemma owned_same lost s objects : (forall i fd, fd <> InvalidFd -> objects !! i = Some fd <-> f_objects s !! i = Some fd) -> owned lost s ->
  owned lost (mkFiles objects (f_open s) (f_bad_closes s)).
Proof.
  intros Ho. assert (He : forall i fd, owns (mkFiles objects (f_open s) (f_bad_closes s)) i fd <-> owns s i fd) by (intros i fd; unfold owns; cbn; naive_solver).
  intros [H1 H2 H3 H4]. constructor; [| | |done].
  - intros i j fd. rewrite !He. apply H1.
  - intros fd. setoid_rewrite He. apply H2.
  - intros fd i. rewrite He. apply H3.
Qed.

Lemma newFile_owned lost i s s' : owned lost s -> newFile i s = (Ok tt, s') -> owned lost s'.
Proof. intros Ho [Hi ->]%construct_inv. apply owned_same; [|done]. intros j fd Hfd. rewrite lookup_insert_Some. naive_solver. Qed.

Lemma open_file_owned lost i s s' : owned lost s -> open_file i s = (Ok tt, s') -> owned lost s'.
Proof.
  intros [H1 H2 H3 H4] E. unfold open_file in E. destruct (M_bind_inv _ _ _ _ _ E) as (s0 & s1 & [= <- <-] & E1). clear E. cbv zeta in E1.
  destruct (M_bind_inv _ _ _ _ _ E1) as ([] & s2 & [Hi ->]%construct_inv & [= <-]). clear E1.
  pose proof (alloc_fresh (f_open s)) as Hf. pose proof (alloc_nonneg (f_open s)) as Hn. set (fd := alloc (f_open s)) in *.
  assert (Hv : fd <> InvalidFd) by (unfold InvalidFd; lia). rewrite H2 in Hf.
  constructor; [| | |done]; unfold owns in *; cbn [f_objects f_open f_bad_closes] in *.
  - intros j k fd'. rewrite !lookup_insert_Some. naive_solver.
  - intros fd'. rewrite elem_of_union, elem_of_singleton, H2. setoid_rewrite lookup_insert_Some.
    split; [intros [-> | [Hl | (k & Hk & Hk')]] | intros [Hl | (k & [[-> <-] | [Hk Hk']] & Hv')]]; eauto 6.
    right. exists k. split; [|done]. right. split; [by intros <-; rewrite Hi in Hk | done].
  - intros fd' j Hl. rewrite lookup_insert_Some. naive_solver.
Qed.

Lemma move_construct_owned lost i j s s' : owned lost s -> move_construct_file i j s = (Ok tt, s') ->
  owned lost s' /\ f_objects s' !! j = Some InvalidFd.
Proof.
  intros Ho E. unfold move_construct_file in E. destruct (M_bind_inv _ _ _ _ _ E) as (fd & s1 & [Hj ->]%fd_of_inv & E1). clear E.
  destruct (M_bind_inv _ _ _ _ _ E1) as ([] & s2 & [Hi ->]%construct_inv & [= <-]). clear E1. cbn [f_objects f_open f_bad_closes].
  assert (Hji : j <> i) by (intros ->; by rewrite Hi in Hj). split; [|by rewrite lookup_insert_eq].
  pose proof (owned_move lost s j i fd Hji Hj Ho) as Hm. unfold held_by in Hm. rewrite Hi in Hm. by rewrite union_empty_r_L in Hm.
Qed.

Lemma move_assign_owned lost i j s s' : owned lost s -> i <> j -> move_assign_file i j s = (Ok tt, s') ->
  owned (lost ∪ held_by s i) s' /\ f_objects s' !! j = Some InvalidFd.
Proof.
  intros Ho Hij E. unfold move_assign_file in E. destruct (M_bind_inv _ _ _ _ _ E) as ([] & s1 & E0 & E1). clear E.
  unfold lift in E0. injection E0 as _ <-.
  destruct (M_bind_inv _ _ _ _ _ E1) as (fd0 & s2 & [Hi ->]%fd_of_inv & E2). clear E1.
  destruct (M_bind_inv _ _ _ _ _ E2) as (fd & s3 & [Hj ->]%fd_of_inv & [= <-]). clear E2. cbn [f_objects f_open f_bad_closes].
  split; [by apply owned_move | by rewrite lookup_insert_eq].
Qed.

Lemma Close_owned lost i s s' : owned lost s -> Close i s = (Ok tt, s') -> owned lost s' /\ f_objects s' !! i = Some InvalidFd.
Proof.
  intros [H1 H2 H3 H4] E. unfold Close in E. destruct (M_bind_inv _ _ _ _ _ E) as (fd & s1 & [Hi ->]%fd_of_inv & E1). clear E.
  destruct (fd =? InvalidFd) eqn:Ef; [apply Z.eqb_eq in Ef as ->; by injection E1 as <-|]. apply Z.eqb_neq in Ef. injection E1 as <-.
  assert (Hown : owns s i fd) by done. cbn [f_objects f_open f_bad_closes]. split; [|by rewrite lookup_insert_eq].
  assert (He : forall o b k fd', owns (mkFiles (<[i := InvalidFd]> (f_objects s)) o b) k fd' <-> k <> i /\ owns s k fd').
  { intros o b k fd'. objects. naive_solver. }
  constructor.
  - intros k l fd'. rewrite !He. naive_solver.
  - intros fd'. cbn [f_open]. rewrite elem_of_difference, elem_of_singleton, H2. setoid_rewrite He. split.
    + intros [[Hl | [k Hk]] Hne]; [by left | right; exists k; split; [|done]]. intros ->. destruct Hk as [Hk _]. rewrite Hi in Hk. congruence.
    + intros [Hl | (k & Hk & Hk')]; (split; [eauto|]); intros ->; [by apply (H3 _ i Hl) | apply Hk; by eapply H1].
  - intros fd' k Hl. rewrite He. intros [_ Hk]. by apply (H3 _ _ Hl Hk).
  - cbn [f_bad_closes]. rewrite decide_True; [done|]. apply H2. eauto.
Qed.

Lemma destroy_owned lost i s s' : owned lost s -> destroy i s = (Ok tt, s') -> owned lost s' /\ f_objects s' !! i = None.
Proof.
  intros Ho E. unfold destroy in E. destruct (M_bind_inv _ _ _ _ _ E) as ([] & s1 & E1 & [= <-]). clear E.
  destruct (Close_owned _ _ _ _ Ho E1) as [Ho1 Hi]. cbn [f_objects]. split; [|by rewrite lookup_delete_eq]. apply owned_same; [|done].
  intros k fd Hfd. rewrite lookup_delete_Some. naive_solver.
Qed.
(** *** The operations on relation files *)
Ltac bind_inv E s1 E1 E2 := destruct (M_bind_inv _ _ _ _ _ E) as ([] & s1 & E1 & E2); clear E.

Lemma held_by_invalid s i : f_objects s !! i = Some InvalidFd -> held_by s i = ∅.
Proof. unfold held_by. intros ->. by rewrite decide_True. Qed.

Lemma move_assign_keeps lost i j s s' : owned lost s -> i <> j -> f_objects s !! i = Some InvalidFd -> move_assign_file i j s = (Ok tt, s') ->
  owned lost s' /\ f_objects s' !! j = Some InvalidFd.
Proof. intros Ho Hij Hi E. destruct (move_assign_owned _ _ _ _ _ Ho Hij E) as [Ho' Hj]. by rewrite (held_by_invalid _ _ Hi), union_empty_r_L in Ho'. Qed.

Lemma swap_owned lost t i j s s' : owned lost s -> i <> j -> j <> t -> swap_files t i j s = (Ok tt, s') -> owned lost s'.
Proof.
  intros Ho Hij Hjt E. unfold swap_files in E. bind_inv E s1 E1 E2. bind_inv E2 s2 E3 E4. bind_inv E4 s3 E5 E6.
  destruct (move_construct_owned _ _ _ _ _ Ho E1) as [Ho1 Hi]. destruct (move_assign_keeps _ _ _ _ _ Ho1 Hij Hi E3) as [Ho2 Hj].
  destruct (move_assign_keeps _ _ _ _ _ Ho2 Hjt Hj E5) as [Ho3 _]. by destruct (destroy_owned _ _ _ _ Ho3 E6).
Qed.

(** What a program does with files, at places that are different. *)
Inductive file_op :=
| NewFile (i : nat) | OpenFile (i : nat) | MoveFile (i j : nat) | AssignFile (i j : nat) | CloseFile (i : nat) | DestroyFile (i : nat)
| OpenRel (t i : nat) | MoveRel (i j : nat) | AssignRel (t i j : nat).

Definition distinct (o : file_op) : Prop :=
  match o with
  | AssignFile i j | MoveRel i j => i <> j
  | AssignRel t i j => i <> j /\ j <> t
  | _ => True
  end.

Definition run_file_op (o : file_op) : F unit :=
  match o with
  | NewFile i => newFile i
  | OpenFile i => open_file i
  | MoveFile i j => move_construct_file i j
  | AssignFile i j => move_assign_file i j
  | CloseFile i => Close i
  | DestroyFile i => destroy i
  | OpenRel t i => open_relfile t i
  | MoveRel i j => relfile_move_construct i j
  | AssignRel t i j => relfile_move_assign t i j
  end.

Fixpoint run_file_ops (os : list file_op) : F unit :=
  match os with [] => mret tt | o :: os => _ ← run_file_op o; run_file_ops os end.

(** The descriptors that are lost: those of files that another file is assigned to. *)
Definition loss (s : Files) (o : file_op) : gset Z := match o with AssignFile i _ => held_by s i | _ => ∅ end.
Fixpoint losses (os : list file_op) (s : Files) : gset Z :=
  match os with [] => ∅ | o :: os => loss s o ∪ losses os (snd (run_file_op o s)) end.

Lemma file_op_owned lost o s s' : owned lost s -> distinct o -> run_file_op o s = (Ok tt, s') -> owned (lost ∪ loss s o) s'.
Proof.
  intros Ho Hd E. destruct o; cbn [run_file_op loss distinct] in *; rewrite ?union_empty_r_L.
  - by eapply newFile_owned.
  - by eapply open_file_owned.
  - by eapply move_construct_owned.
  - by destruct (move_assign_owned _ _ _ _ _ Ho Hd E).
  - by destruct (Close_owned _ _ _ _ Ho E).
  - by destruct (destroy_owned _ _ _ _ Ho E).
  - unfold open_relfile in E. bind_inv E s1 E1 E2. bind_inv E2 s2 E3 E4. pose proof (open_file_owned _ _ _ _ Ho E1) as Ho1.
    destruct (move_construct_owned _ _ _ _ _ Ho1 E3) as [Ho2 _]. by destruct (destroy_owned _ _ _ _ Ho2 E4).
  - unfold relfile_move_construct in E. bind_inv E s1 E1 E2. pose proof (newFile_owned _ _ _ _ Ho E1) as Ho1. apply construct_inv in E1 as [_ ->].
    destruct (move_assign_keeps _ _ _ _ _ Ho1 Hd ltac:(cbn; by rewrite lookup_insert_eq) E2) as [Ho2 _]. done.
  - destruct Hd as [Hij Hjt]. unfold relfile_move_assign in E. bind_inv E s1 E1 E2. bind_inv E2 s2 E3 E4.
    unfold lift in E1. injection E1 as _ <-. destruct (Close_owned _ _ _ _ Ho E3) as [Ho1 _]. exact (swap_owned _ _ _ _ _ _ Ho1 Hij Hjt E4).
Qed.

(** C40: Files own their descriptors: every sequence of opening, moving, assigning, closing and destroying files keeps the ownership: no descriptor is closed twice or closed while another file has
    it, and when all objects are gone the open descriptors are those of the rest of the process and those that the assignment of
    files has lost; the assignment of relation files loses none. *)
Theorem files_owned others os s' :
  Forall distinct os -> run_file_ops os (mkFiles ∅ others []) = (Ok tt, s') ->
  owned (others ∪ losses os (mkFiles ∅ others [])) s' /\ f_bad_closes s' = [] /\
  (f_objects s' = ∅ -> f_open s' = others ∪ losses os (mkFiles ∅ others [])).
Proof.
  intros Hd E. assert (Hinv : forall os lost s, Forall distinct os -> owned lost s -> run_file_ops os s = (Ok tt, s') -> owned (lost ∪ losses os s) s').
  { clear. induction os as [|o os IH]; intros lost s Hd Ho E; cbn [run_file_ops losses] in *.
    - injection E as <-. by rewrite union_empty_r_L.
    - apply Forall_cons in Hd as [Hd Hds]. bind_inv E s1 E1 E2. rewrite E1. cbn [snd]. rewrite union_assoc_L.
      eapply IH; [done | by eapply file_op_owned | done]. }
  assert (Ho : owned others (mkFiles ∅ others [])).
  { assert (Hno : forall i fd, ~ owns (mkFiles ∅ others []) i fd) by (intros i fd [Hi _]; cbn in Hi; by rewrite lookup_empty in Hi).
    constructor; [naive_solver | | naive_solver | done]. intros fd. cbn [f_open]. naive_solver. }
  pose proof (Hinv os others _ Hd Ho E) as Hown. split; [done|]. destruct Hown as [_ Hopen _ Hbad]. split; [done|].
  intros Hnone. apply set_eq. intros fd. rewrite Hopen. split; [intros [Hf | (i & Hi & _)]; [done | by rewrite Hnone, lookup_empty in Hi] | by left].
Qed.
End files.

(** A process that takes descriptors after those that are in use. *)
#[export] Program Instance NextDescriptors : Descriptors := {| alloc X := Z.of_N (fresh (set_map Z.to_N X : gset N)) |}.
Next Obligation. intros. apply N2Z.is_nonneg. Qed.
Next Obligation.
  intros X Hin. apply (is_fresh (set_map Z.to_N X : gset N)). apply elem_of_map. eexists. split; [|exact Hin]. by rewrite N2Z.id.
Qed.

(** The assignment of a file to a file that is open loses a descriptor; that of a relation file does not. *)
Example assignment_loses :
  (let (r, s) := run_file_ops (H := DebugBuild) [OpenFile 0; OpenFile 1; AssignFile 0 1; DestroyFile 0; DestroyFile 1] (mkFiles ∅ ∅ []) in
   (r, f_open s, f_bad_closes s)) = (Ok tt, {[0]}, []) /\
  (let (r, s) := run_file_ops (H := DebugBuild) [OpenRel 9 0; OpenRel 9 1; AssignRel 9 0 1; DestroyFile 0; DestroyFile 1] (mkFiles ∅ ∅ []) in
   (r, f_open s, f_bad_closes s)) = (Ok tt, ∅, []).
Proof. split; vm_compute; reflexivity. Qed.

Lemma files_owned_witness :
  let os := [OpenRel 9 0; OpenRel 9 1; AssignRel 9 0 1; MoveFile 2 0; DestroyFile 0; DestroyFile 1; DestroyFile 2] in
  exists s', run_file_ops (H := DebugBuild) os (mkFiles ∅ {[7]} []) = (Ok tt, s') /\ f_objects s' = ∅ /\ f_open s' = {[7]}.
Proof.
  intros os. set (r := run_file_ops (H := DebugBuild) os (mkFiles ∅ {[7]} [])).
  assert (E : r = (Ok tt, snd r)) by (vm_compute; reflexivity). assert (Ho : f_objects (snd r) = ∅) by (vm_compute; reflexivity).
  exists (snd r). split; [exact E|]. split; [exact Ho|].
  assert (Hd : Forall distinct os) by (repeat constructor; done).
  rewrite (proj2 (proj2 (files_owned (H := DebugBuild) {[7]} os (snd r) Hd E)) Ho). vm_compute. reflexivity.
Defined.
