(* ===== verification/UndoRecord.v ===== *)
(** The undo records and what the undo log requires of them:
    [storage/undo/IRMgrUndoRecord.hpp], [trans/IResourceManager.hpp],
    [trans/ResourceManagerRegistry.hpp] (the interface), and
    [access/heap/undo/*UndoRecord.*], [access/heap/HeapResourceManager.cpp] (the heap's
    implementation of it). *)
From S2P Require Import Prelude Types.

(** ** The interface *)

(** [IRMgrUndoRecord]: [Serialize] gets the buffer from the address it is passed to the
    end of the buffer, and returns it modified. *)
Class IRMgrUndoRecord (R : Type) := {
  GetRMgrId : R -> Z;
  GetType : R -> Z;
  CalculateSize : R -> Z;
  Serialize : R -> list byte -> result (list byte)
}.

(** [IResourceManager::ParseUndo], and the registry of the managers by their id. *)
Class IResourceManager (R : Type) := {
  ParseUndo : Z -> list byte -> Z -> result R
}.

Definition MaxResourceManagers : Z := 128.

Definition GetManager {A} (managers : list (option A)) (rmgrId : Z) : result A :=
  m ← vec_get managers (Z.to_nat (wrap 32 rmgrId));
  of_option (Throw "No resource manager registered") m.

Definition RegisterManager {A} (managers : list (option A)) (rmgrId : Z) (m : A)
    : result (list (option A)) :=
  old ← vec_get managers (Z.to_nat (wrap 32 rmgrId));
  match old with
  | Some _ => Fault (Throw "Resource manager already exists")
  | None => vec_set managers (Z.to_nat (wrap 32 rmgrId)) (Some m)
  end.

(** What the log relies on: a record fits the header's fields, [Serialize] fills the
    first [CalculateSize] bytes of its buffer, and [ParseUndo] gives the record back. *)
Class UndoRecordLaws (R : Type) `{IRMgrUndoRecord R, IResourceManager R} (valid : R -> Prop) := {
  undo_ids r : valid r -> in_s 32 (GetRMgrId r) = true /\ in_u 8 (GetType r) = true;
  undo_size r : valid r -> 0 <= CalculateSize r < 2 ^ 32;
  undo_roundtrip r buffer : valid r -> CalculateSize r <= zlen buffer ->
    exists bs, Serialize r buffer = Ok (bs ++ drop (Z.to_nat (CalculateSize r)) buffer) /\
      zlen bs = CalculateSize r /\ ParseUndo (GetType r) bs (CalculateSize r) = Ok r
}.

(** ** TupleId in memory: 8 bytes, of which the last two are padding *)
Definition sizeof_Oid : Z := 4.
Definition sizeof_TupleId : Z := 8.
Definition sizeof_enc_TupleId (t : TupleId) : list byte := enc_le 4 (pageno t) ++ enc_le 2 (itemid t).

(** An assignment through the pointer writes the members and leaves the padding. *)
Definition wr_TupleId (buf : list byte) (off : Z) (t : TupleId) : result (list byte) :=
  _ ← rd buf off sizeof_TupleId;
  wr buf off (sizeof_enc_TupleId t).
Definition rd_TupleId (buf : list byte) (off : Z) : result TupleId :=
  bs ← rd buf off sizeof_TupleId;
  p ← rd_u bs 0 4;
  i ← rd_u bs 4 2;
  Ok (mkTupleId p i).

Definition valid_TupleId (t : TupleId) : bool := in_u 32 (pageno t) && in_u 16 (itemid t).

(** [std::vector<std::byte>(n)] *)
Definition alloc (n : Z) : result Z :=
  if n <? 2 ^ 63 then Ok n else Fault (Throw "cannot create std::vector larger than max_size()").

(** [std::make_unique<std::byte[]>(n)] *)
Definition new_array (n : Z) : result Z :=
  if n <? 2 ^ 63 then Ok n else Fault (Throw "std::bad_array_new_length").

(** ** The records of the heap *)
Inductive HeapUndoRecord :=
| DeleteUndoRecord (TableId : Z) (TupId : TupleId)
| UpdateUndoRecord (TableId : Z) (OldLocation NewLocation : TupleId) (TupleData : list byte)
| InsertUndoRecord (TableId : Z) (Location : TupleId) (TupleData : list byte).

#[export] Instance HeapUndoRecord_eq_dec : EqDecision HeapUndoRecord.
Proof. solve_decision. Defined.

Module HeapUndo.

(** [HeapUndoRecordType] *)
Definition Delete : Z := 1.
Definition Update : Z := 2.
Definition Insert : Z := 3.

(** [ResourceManagerId::Heap] *)
Definition Heap : Z := 1.

Definition GetType (r : HeapUndoRecord) : Z :=
  match r with
  | DeleteUndoRecord _ _ => Delete
  | UpdateUndoRecord _ _ _ _ => Update
  | InsertUndoRecord _ _ _ => Insert
  end.

Definition CalculateSize (r : HeapUndoRecord) : Z :=
  match r with
  | DeleteUndoRecord _ _ => sizeof_Oid + sizeof_TupleId
  | UpdateUndoRecord _ _ _ data => wrap 64 (sizeof_Oid + sizeof_TupleId + sizeof_TupleId + zlen data)
  | InsertUndoRecord _ _ data => wrap 64 (sizeof_Oid + sizeof_TupleId + zlen data)
  end.

Definition Serialize (r : HeapUndoRecord) (buffer : list byte) : result (list byte) :=
  match r with
  | DeleteUndoRecord t l =>
      buffer ← wr buffer 0 (enc_le 4 t);
      wr_TupleId buffer 4 l
  | UpdateUndoRecord t o n data =>
      buffer ← wr buffer 0 (enc_le 4 t);
      buffer ← wr_TupleId buffer 4 o;
      buffer ← wr_TupleId buffer 12 n;
      wr buffer 20 data
  | InsertUndoRecord t l data =>
      buffer ← wr buffer 0 (enc_le 4 t);
      buffer ← wr_TupleId buffer 4 l;
      wr buffer 12 data
  end.

Definition ParseUndo (t : Z) (data : list byte) (length : Z) : result HeapUndoRecord :=
  if t =? Delete then
    if negb (length =? sizeof_Oid + sizeof_TupleId)
    then Fault (Throw "record size does not match")
    else
      tableId ← rd_u data 0 4;
      tupleId ← rd_TupleId data 4;
      Ok (DeleteUndoRecord tableId tupleId)
  else if t =? Update then
    tableId ← rd_u data 0 4;
    oldLocation ← rd_TupleId data 4;
    newLocation ← rd_TupleId data 12;
    length ← alloc (wrap 64 (length - (sizeof_Oid + sizeof_TupleId + sizeof_TupleId)));
    tupleData ← rd data 20 length;
    Ok (UpdateUndoRecord tableId oldLocation newLocation tupleData)
  else if t =? Insert then
    tableId ← rd_u data 0 4;
    location ← rd_TupleId data 4;
    length ← alloc (wrap 64 (length - sizeof_Oid - sizeof_TupleId));
    buffer ← rd data 12 length;
    Ok (InsertUndoRecord tableId location buffer)
  else Fault (Throw ("unknown heap record type: " ++ pretty t)).

(** Records whose members are in the range of their types. *)
Definition valid (r : HeapUndoRecord) : bool :=
  match r with
  | DeleteUndoRecord t l => in_u 32 t && valid_TupleId l
  | UpdateUndoRecord t o n data =>
      in_u 32 t && valid_TupleId o && valid_TupleId n && (zlen data <? 2 ^ 31)
  | InsertUndoRecord t l data => in_u 32 t && valid_TupleId l && (zlen data <? 2 ^ 31)
  end.
End HeapUndo.

#[export] Instance Heap_record : IRMgrUndoRecord HeapUndoRecord := {
  GetRMgrId _ := HeapUndo.Heap;
  GetType := HeapUndo.GetType;
  CalculateSize := HeapUndo.CalculateSize;
  Serialize := HeapUndo.Serialize
}.

#[export] Instance Heap_manager : IResourceManager HeapUndoRecord := {
  ParseUndo := HeapUndo.ParseUndo
}.

(** [setupResourceManagers]: the registry after start-up has the heap manager only. *)
Definition setupResourceManagers {A} (heap : A) : result (list (option A)) :=
  RegisterManager (replicate (Z.to_nat MaxResourceManagers) None) HeapUndo.Heap heap.

(** ** Proofs: the heap implements the interface *)
Section tuple_id.

Lemma zlen_enc_TupleId t : zlen (sizeof_enc_TupleId t) = 6.
Proof. unfold sizeof_enc_TupleId. zl. Qed.

Lemma wr_TupleId_ok buf off t :
  0 <= off -> off + 8 <= zlen buf -> wr_TupleId buf off t = Ok (blit off (sizeof_enc_TupleId t) buf).
Proof.
  intros. unfold wr_TupleId, sizeof_TupleId. rewrite rd_Ok by lia. rewrite bind_Ok.
  by rewrite wr_Ok by (rewrite ?zlen_enc_TupleId; lia).
Qed.

Lemma rd_TupleId_ok buf off t :
  0 <= off -> off + 8 <= zlen buf -> slice off 6 buf = sizeof_enc_TupleId t ->
  valid_TupleId t = true -> rd_TupleId buf off = Ok t.
Proof.
  intros Ho Hb Hs [Hp Hi]%andb_true_iff. apply in_u_spec in Hp, Hi.
  unfold rd_TupleId, sizeof_TupleId. rewrite rd_Ok by lia. rewrite bind_Ok.
  pose proof (zlen_slice off 8 buf ltac:(lia) ltac:(lia) ltac:(lia)) as Hz.
  rewrite !rd_u_Ok, !bind_Ok, !slice_slice by lia.
  replace (off + 0) with (off + (off - off)) by lia.
  assert (H4 : slice off 4 buf = enc_le 4 (pageno t)).
  { replace (slice off 4 buf) with (slice 0 4 (slice off 6 buf)) by (rewrite slice_slice by lia; f_equal; lia).
    rewrite Hs. unfold sizeof_enc_TupleId. rewrite slice_app_l by (rewrite ?zlen_enc_le; lia).
    apply (slice_all (enc_le 4 _)). }
  assert (H2 : slice (off + 4) 2 buf = enc_le 2 (itemid t)).
  { replace (slice (off + 4) 2 buf) with (slice 4 2 (slice off 6 buf)) by (by rewrite slice_slice by lia).
    rewrite Hs. unfold sizeof_enc_TupleId. rewrite slice_app_r by (rewrite zlen_enc_le; lia).
    apply (slice_all (enc_le 2 _)). }
  rewrite Z.sub_diag, Z.add_0_r. change (Z.of_nat 4) with 4. change (Z.of_nat 2) with 2.
  rewrite H4, H2, !dec_enc_le, !pow256.
  change (8 * Z.of_nat 4) with 32. change (8 * Z.of_nat 2) with 16.
  rewrite !Z.mod_small by lia. by destruct t.
Qed.

(** A buffer of which the first [n] bytes changed. *)
Lemma split_prefix (buf' buf : list byte) n :
  0 <= n <= zlen buf -> zlen buf' = zlen buf ->
  (forall k, n <= Z.of_nat k -> buf' !! k = buf !! k) ->
  buf' = slice 0 n buf' ++ drop (Z.to_nat n) buf.
Proof.
  intros Hn Hz Hk. rewrite <-(take_drop (Z.to_nat n) buf') at 1. unfold slice. rewrite drop_0. f_equal.
  apply list_eq. intros k. rewrite !lookup_drop. apply Hk. lia.
Qed.

Lemma blit_beyond (p bs : list byte) off k :
  0 <= off -> off + zlen bs <= zlen p -> off + zlen bs <= Z.of_nat k -> blit off bs p !! k = p !! k.
Proof.
  intros. rewrite lookup_blit by lia. repeat case_decide; (done || lia).
Qed.
End tuple_id.

Ltac zbt :=
  lazymatch goal with
  | |- context [zlen (blit ?o ?b ?l)] => rewrite (zlen_blit o b l); [zbt | zbt | zbt]
  | |- context [zlen (slice ?o ?n ?l)] => rewrite (zlen_slice o n l); [zbt | zbt | zbt | zbt]
  | |- _ => rewrite ?zlen_enc_le, ?zlen_enc_TupleId; zl_facts; lia
  end.

Section heap_laws.

(** The three layouts, as blits of the buffer. *)
Lemma Serialize_blits r buffer :
  HeapUndo.valid r = true -> HeapUndo.CalculateSize r <= zlen buffer ->
  HeapUndo.Serialize r buffer = Ok
    match r with
    | DeleteUndoRecord t l => blit 4 (sizeof_enc_TupleId l) (blit 0 (enc_le 4 t) buffer)
    | UpdateUndoRecord t o n data =>
        blit 20 data (blit 12 (sizeof_enc_TupleId n)
          (blit 4 (sizeof_enc_TupleId o) (blit 0 (enc_le 4 t) buffer)))
    | InsertUndoRecord t l data =>
        blit 12 data (blit 4 (sizeof_enc_TupleId l) (blit 0 (enc_le 4 t) buffer))
    end.
Proof.
  destruct r as [t l|t o n data|t l data]; simpl; unfold sizeof_Oid, sizeof_TupleId;
    rewrite ?andb_true_iff, ?Z.ltb_lt; intros Hv; rewrite ?wrap_small by zl; intros Hz;
    rewrite wr_Ok by zbt; rewrite bind_Ok, wr_TupleId_ok by zl || zbt; [done | |];
    pose proof (zlen_nonneg data); rewrite bind_Ok.
  - rewrite wr_TupleId_ok by zbt. rewrite bind_Ok. by rewrite wr_Ok by zbt.
  - by rewrite wr_Ok by zbt.
Qed.

(** The first [n] bytes of a buffer [buf'] that extends what was written there. *)
Lemma rd_u_prefix buf' n off k z :
  0 <= off -> off + Z.of_nat k <= n -> n <= zlen buf' -> 0 <= z < 256 ^ Z.of_nat k ->
  slice off (Z.of_nat k) buf' = enc_le k z -> rd_u (slice 0 n buf') off k = Ok z.
Proof.
  intros H0 H1 H2 Hz Hs. rewrite rd_u_Ok by zbt. rewrite slice_slice, Z.add_0_l, Hs by lia.
  by rewrite dec_enc_le, Z.mod_small by lia.
Qed.

Lemma rd_TupleId_prefix buf' n off t :
  0 <= off -> off + 8 <= n -> n <= zlen buf' -> valid_TupleId t = true ->
  slice off 6 buf' = sizeof_enc_TupleId t -> rd_TupleId (slice 0 n buf') off = Ok t.
Proof.
  intros. apply rd_TupleId_ok; [lia | zbt | | done]. by rewrite slice_slice, Z.add_0_l by lia.
Qed.

Lemma rd_prefix buf' n off data :
  0 <= off -> off + zlen data = n -> n <= zlen buf' ->
  slice off (zlen data) buf' = data -> rd (slice 0 n buf') off (zlen data) = Ok data.
Proof.
  intros H0 H1 H2 Hs. pose proof (zlen_nonneg data). rewrite rd_Ok by zbt.
  by rewrite slice_slice, Z.add_0_l, Hs by lia.
Qed.

Lemma enc_le_at buf off k z :
  0 <= off -> off + Z.of_nat k <= zlen buf -> slice off (Z.of_nat k) (blit off (enc_le k z) buf) = enc_le k z.
Proof.
  intros. rewrite <-(zlen_enc_le k z) at 1. apply slice_blit_same; zbt.
Qed.

Lemma enc_TupleId_at buf off t :
  0 <= off -> off + 6 <= zlen buf ->
  slice off 6 (blit off (sizeof_enc_TupleId t) buf) = sizeof_enc_TupleId t.
Proof.
  intros. rewrite <-(zlen_enc_TupleId t) at 1. apply slice_blit_same; zbt.
Qed.

Lemma alloc_ok n : n < 2 ^ 63 -> alloc n = Ok n.
Proof. intros. unfold alloc. by rewrite (proj2 (Z.ltb_lt _ _)). Qed.

(** The buffer after [Serialize], as in [Serialize_blits]. *)
#[local] Notation serialized r buffer := (match r with
    | DeleteUndoRecord t l => blit 4 (sizeof_enc_TupleId l) (blit 0 (enc_le 4 t) buffer)
    | UpdateUndoRecord t o n data =>
        blit 20 data (blit 12 (sizeof_enc_TupleId n)
          (blit 4 (sizeof_enc_TupleId o) (blit 0 (enc_le 4 t) buffer)))
    | InsertUndoRecord t l data =>
        blit 12 data (blit 4 (sizeof_enc_TupleId l) (blit 0 (enc_le 4 t) buffer))
    end).

Ltac heap_case Hv :=
  unfold HeapUndo.CalculateSize, sizeof_Oid, sizeof_TupleId in *; simpl HeapUndo.valid in Hv;
  rewrite ?andb_true_iff, ?Z.ltb_lt, in_u_spec in Hv; rewrite ?wrap_small in * by zl.

Lemma serialized_prefix r buffer :
  HeapUndo.valid r = true -> HeapUndo.CalculateSize r <= zlen buffer ->
  zlen (serialized r buffer) = zlen buffer /\
  serialized r buffer = slice 0 (HeapUndo.CalculateSize r) (serialized r buffer) ++
    drop (Z.to_nat (HeapUndo.CalculateSize r)) buffer.
Proof.
  intros Hv Hz. destruct r as [t l|t o n data|t l data]; heap_case Hv;
    (split; [zbt | apply split_prefix; [zl | zbt |]; intros k Hk; rewrite !blit_beyond by zbt; done]).
Qed.

Lemma serialized_parse r buffer :
  HeapUndo.valid r = true -> HeapUndo.CalculateSize r <= zlen buffer ->
  HeapUndo.ParseUndo (HeapUndo.GetType r) (slice 0 (HeapUndo.CalculateSize r) (serialized r buffer))
    (HeapUndo.CalculateSize r) = Ok r.
Proof.
  intros Hv Hz. destruct (serialized_prefix r buffer Hv Hz) as [Hz' _].
  set (buf' := serialized r buffer) in *.
  destruct r as [t l|t o n data|t l data]; heap_case Hv;
    unfold HeapUndo.ParseUndo, HeapUndo.GetType, sizeof_Oid, sizeof_TupleId;
    cbn [Z.eqb HeapUndo.Delete HeapUndo.Update HeapUndo.Insert Pos.eqb negb Z.add Pos.add Pos.succ].
  - rewrite (rd_u_prefix _ _ _ _ t), bind_Ok; try lia.
    + rewrite (rd_TupleId_prefix _ _ 4 l); try lia; [done | tauto |].
      unfold buf'. apply enc_TupleId_at; zbt.
    + unfold buf'. rewrite slice_blit_other by zbt. apply enc_le_at; zbt.
  - rewrite (rd_u_prefix _ _ _ _ t), bind_Ok; try zl.
    + rewrite (rd_TupleId_prefix _ _ 4 o), bind_Ok; try zl; [| tauto |].
      * rewrite (rd_TupleId_prefix _ _ 12 n), bind_Ok; try zl; [| tauto |].
        -- rewrite wrap_small by zl. replace (4 + 8 + 8 + zlen data - _) with (zlen data) by lia.
           rewrite alloc_ok, bind_Ok by lia. rewrite rd_prefix; try zl; [done|].
           unfold buf'. apply slice_blit_same; zbt.
        -- unfold buf'. rewrite slice_blit_other by zbt. apply enc_TupleId_at; zbt.
      * unfold buf'. rewrite !slice_blit_other by zbt. apply enc_TupleId_at; zbt.
    + unfold buf'. rewrite !slice_blit_other by zbt. apply enc_le_at; zbt.
  - rewrite (rd_u_prefix _ _ _ _ t), bind_Ok; try zl.
    + rewrite (rd_TupleId_prefix _ _ 4 l), bind_Ok; try zl; [| tauto |].
      * rewrite wrap_small by zl. replace (4 + 8 + zlen data - _ - _) with (zlen data) by lia.
        rewrite alloc_ok, bind_Ok by lia. rewrite rd_prefix; try zl; [done|].
        unfold buf'. apply slice_blit_same; zbt.
      * unfold buf'. rewrite slice_blit_other by zbt. apply enc_TupleId_at; zbt.
    + unfold buf'. rewrite !slice_blit_other by zbt. apply enc_le_at; zbt.
Qed.

#[export] Instance Heap_laws : UndoRecordLaws HeapUndoRecord (fun r => HeapUndo.valid r = true).
Proof.
  split.
  - by intros [].
  - intros r Hv. destruct r as [t l|t o n data|t l data]; simpl CalculateSize;
      heap_case Hv; zl.
  - intros r buffer Hv Hz. change (HeapUndo.CalculateSize r <= zlen buffer) in Hz.
    destruct (serialized_prefix r buffer Hv Hz) as [Hz' Hsplit].
    exists (slice 0 (HeapUndo.CalculateSize r) (serialized r buffer)).
    pose proof (zlen_nonneg buffer). split_and!.
    + simpl Serialize. rewrite Serialize_blits by done. f_equal. exact Hsplit.
    + apply (zlen_slice 0 (HeapUndo.CalculateSize r)); [lia | | lia].
      destruct r as [t l|t o n data|t l data]; heap_case Hv; zl.
    + by apply serialized_parse.
Qed.
End heap_laws.

(** ** Properties *)
Section properties.

(** C26: every heap undo record, serialized into any buffer that is large enough and
    parsed back from the bytes its size covers, is the same record, whatever the
    padding bytes of the buffer were. *)
Theorem heap_undo_roundtrip r buffer :
  HeapUndo.valid r = true -> HeapUndo.CalculateSize r <= zlen buffer ->
  exists buffer', HeapUndo.Serialize r buffer = Ok buffer' /\ zlen buffer' = zlen buffer /\
    HeapUndo.ParseUndo (HeapUndo.GetType r) (slice 0 (HeapUndo.CalculateSize r) buffer')
      (HeapUndo.CalculateSize r) = Ok r.
Proof.
  intros Hv Hz. rewrite Serialize_blits by done. eexists. split; [done|].
  split; [by apply serialized_prefix | by apply serialized_parse].
Qed.

(** [ParseUndo] rejects what no record serializes to: a Delete record of the wrong
    length and a type that is not one of the three. *)
Theorem heap_parse_rejects t data length :
  (t = HeapUndo.Delete /\ length <> 12) \/ ~ (1 <= t <= 3) ->
  exists msg, HeapUndo.ParseUndo t data length = Fault (Throw msg).
Proof.
  unfold HeapUndo.ParseUndo, HeapUndo.Delete, HeapUndo.Update, HeapUndo.Insert.
  intros [[-> Hl]|Ht].
  - change (sizeof_Oid + sizeof_TupleId) with 12. simpl. rewrite (proj2 (Z.eqb_neq _ _) Hl). simpl. eauto.
  - destruct (Z.eqb_spec t 1), (Z.eqb_spec t 2), (Z.eqb_spec t 3); eauto; lia.
Qed.

Lemma heap_undo_roundtrip_witness :
  exists buffer', HeapUndo.Serialize
      (UpdateUndoRecord 1 (mkTupleId 2 3) (mkTupleId 4 5) [x0a; x0b]) (replicate 24 xff) = Ok buffer' /\
    zlen buffer' = 24 /\
    HeapUndo.ParseUndo 2 (slice 0 22 buffer') 22 =
      Ok (UpdateUndoRecord 1 (mkTupleId 2 3) (mkTupleId 4 5) [x0a; x0b]).
Proof.
  apply (heap_undo_roundtrip (UpdateUndoRecord 1 (mkTupleId 2 3) (mkTupleId 4 5) [x0a; x0b])
    (replicate 24 xff)); vm_compute; congruence.
Defined.

Lemma heap_parse_rejects_witness :
  exists msg, HeapUndo.ParseUndo 4 [] 0 = Fault (Throw msg).
Proof. apply heap_parse_rejects. right. lia. Defined.
End properties.
