(* ===== verification/UndoLog.v ===== *)
(** [storage/undo/UndoLog.cpp] and [VirtualUndoLog.cpp]: the undo log, an append-only
    file of records addressed by the undo sequence number (the offset of the record's
    header plus 1), and the list of the records of one transaction.

    The records are abstract ([IRMgrUndoRecord], with the laws [UndoRecordLaws]); the
    theorems hold for every resource manager that satisfies them, and [UndoRecord]
    shows that the heap does. *)
From Stdlib Require Import Sorting.Sorted.
From S2P Require Import Prelude Types File UndoRecord.

Section UndoLog.
Context `{Build, Posix}.
Context {R : Type} `{Hrec : IRMgrUndoRecord R, Hman : IResourceManager R}.

(** [RMgrRegistryGlobal] *)
Context (managers : list (option (IResourceManager R))).

(** ** Record headers: 24 bytes, with 3 bytes of padding after the type *)
Record UndoLogRecordHeader := mkUndoHeader {
  Xid : Z; ResourceManager : Z; RecordType : Z; DataLength : Z }.
Definition sizeof_UndoLogRecordHeader : Z := 24.

Definition store_header (buffer : list byte) (h : UndoLogRecordHeader) : result (list byte) :=
  buffer ← wr buffer 0 (enc_le 8 (Xid h));
  buffer ← wr buffer 8 (enc_le 4 (ResourceManager h));
  buffer ← wr buffer 12 (enc_le 1 (RecordType h));
  wr buffer 16 (enc_le 8 (DataLength h)).

Definition load_header (bs : list byte) : result UndoLogRecordHeader :=
  x ← rd_u bs 0 8; m ← rd_s bs 8 4; t ← rd_u bs 12 1; n ← rd_u bs 16 8;
  Ok (mkUndoHeader x m t n).

(** ** The log: the offset of the next record and the file *)
Record UndoLog := mkUndoLog { log_size : Z; log_file : list byte }.

Definition on_file {A} (m : M (list byte) A) : M UndoLog A := fun l =>
  let '(r, f) := m (log_file l) in (r, mkUndoLog (log_size l) f).

Definition Open (path : string) (file : list byte) : result UndoLog :=
  _ ← File.Open path 64;
  size ← fst (File.Size file);
  Ok (mkUndoLog size file).

Definition read_header (offset : Z) : M (list byte) UndoLogRecordHeader :=
  '(read, bs) ← File.Read sizeof_UndoLogRecordHeader offset;
  if negb (read =? sizeof_UndoLogRecordHeader)
  then throw (Throw "could not read UndoLogRecordHeader")
  else lift (load_header bs).

(** The part that [GetRecord] and [PerformUndo] share: header, manager, payload (which
    they allocate as a vector and as an array). *)
Definition read_record (new : Z -> result Z) (offset : Z) : M (list byte) R :=
  header ← read_header offset;
  manager ← lift (GetManager managers (ResourceManager header));
  length ← lift (new (DataLength header));
  '(ret, buffer) ← File.Read length (offset + sizeof_UndoLogRecordHeader);
  if negb (ret =? DataLength header)
  then throw (Throw "could not read UndoLogRecordHeader")
  else lift (@ParseUndo R manager (RecordType header) buffer length).

Definition GetRecord (path : string) (usn : Z) : M UndoLog R :=
  _ ← lift (assert_ (UndoSeqNumber.IsValid usn) "usn.IsValid()");
  _ ← lift (File.Open path 0);
  on_file (read_record alloc (usn - 1)).

Definition format_undo_record (xid : Z) (record : R) : result (list byte) :=
  let size := CalculateSize record in
  let fullSize := wrap 64 (sizeof_UndoLogRecordHeader + BitUtils.MaxAlign 64 size) in
  fullSize ← alloc fullSize;
  let buffer := zeros fullSize in
  buffer ← store_header buffer (mkUndoHeader xid (GetRMgrId record) (GetType record) size);
  data ← Serialize record (drop (Z.to_nat sizeof_UndoLogRecordHeader) buffer);
  Ok (take (Z.to_nat sizeof_UndoLogRecordHeader) buffer ++ data).

(** The USN of a record written at the end of the file. *)
Definition getCurrentUSN (l : UndoLog) : Z := log_size l + 1.

Definition InsertUndoRecord (path : string) (xid : Z) (record : R) : M UndoLog Z :=
  _ ← lift (File.Open path 1);
  buffer ← lift (format_undo_record xid record);
  l ← get;
  _ ← on_file (File.Write buffer (log_size l));
  _ ← on_file File.Fsync;
  l ← get;
  let usn := getCurrentUSN l in
  _ ← put (mkUndoLog (log_size l + zlen buffer) (log_file l));
  mret usn.

(** Applying a record acts on the rest of the system, a state of its own. *)
Section apply.
Context {S : Type} (ApplyUndo : R -> Z -> M S unit).

Definition PerformUndo (path : string) (usn : Z) : M (UndoLog * S) unit := fun '(l, s) =>
  match (_ ← lift (File.Open path 0); on_file (read_record new_array (usn - 1))) l with
  | (Ok record, l') => let '(r, s') := ApplyUndo record usn s in (r, (l', s'))
  | (Fault e, l') => (Fault e, (l', s))
  end.

(** [VirtualUndoLog]: the USNs of the records of one transaction, oldest first. *)
Definition InsertRecord (path : string) (xid : Z) (record : R) : M (list Z * UndoLog) Z :=
  fun '(history, l) =>
  match InsertUndoRecord path xid record l with
  | (Ok usn, l') => (Ok usn, (history ++ [usn], l'))
  | (Fault e, l') => (Fault e, (history, l'))
  end.

Definition UndoAllRecords (path : string) : M (list Z * (UndoLog * S)) unit := fun '(history, st) =>
  match mapM_ (PerformUndo path) (rev history) st with
  | (Ok _, st') => (Ok tt, ([], st'))
  | (Fault e, st') => (Fault e, (history, st'))
  end.

Definition LastUSN (history : list Z) : Z := default UndoSeqNumber.Invalid (last history).
End apply.

(** ** Records in the file *)
Section records.
Context `{!PosixOk} (valid : R -> Prop) `{!UndoRecordLaws R valid}.
Hypothesis Hreg : forall r, valid r -> GetManager managers (GetRMgrId r) = Ok Hman.

#[local] Notation header_of xid r := (mkUndoHeader xid (GetRMgrId r) (GetType r) (CalculateSize r)).

Definition record_size (r : R) : Z := 24 + 8 * ((CalculateSize r + 7) / 8).

Lemma store_load_header buffer xid r :
  valid r -> in_u 64 xid = true -> 24 <= zlen buffer ->
  exists buffer', store_header buffer (header_of xid r) = Ok buffer' /\ zlen buffer' = zlen buffer /\
    drop 24 buffer' = drop 24 buffer /\ load_header (slice 0 24 buffer') = Ok (header_of xid r).
Proof.
  intros Hv Hx Hz. destruct (undo_ids r Hv) as [Hm Ht]. pose proof (undo_size r Hv).
  apply in_u_spec in Hx, Ht. apply in_s_spec in Hm.
  unfold store_header. cbn [Xid ResourceManager RecordType DataLength].
  rewrite wr_Ok, bind_Ok, wr_Ok, bind_Ok, wr_Ok, bind_Ok, wr_Ok by zb.
  eexists. split; [done|]. set (b := blit 16 _ _).
  assert (Hb : zlen b = zlen buffer) by (unfold b; zb). split_and!; [done | |].
  - apply list_eq. intros k. rewrite !lookup_drop. unfold b.
    rewrite !lookup_blit by zb. rewrite !zlen_enc_le. repeat case_decide; lia || done.
  - unfold load_header, rd_s. rewrite !rd_u_Ok by (rewrite ?zlen_slice by lia; lia).
    cbn [fmap result_fmap]. rewrite !bind_Ok, !slice_slice by lia. rewrite !Z.add_0_l.
    assert (E0 : slice 0 8 b = enc_le 8 xid).
    { unfold b. rewrite !slice_blit_other by zb. apply (enc_le_at _ _ 8); zb. }
    assert (E8 : slice 8 4 b = enc_le 4 (GetRMgrId r)).
    { unfold b. rewrite !slice_blit_other by zb. apply (enc_le_at _ _ 4); zb. }
    assert (E12 : slice 12 1 b = enc_le 1 (GetType r)).
    { unfold b. rewrite !slice_blit_other by zb. apply (enc_le_at _ _ 1); zb. }
    assert (E16 : slice 16 8 b = enc_le 8 (CalculateSize r)).
    { unfold b. apply (enc_le_at _ _ 8); zb. }
    change (Z.of_nat 8) with 8. change (Z.of_nat 4) with 4. change (Z.of_nat 1) with 1.
    rewrite E0, E8, E12, E16, !dec_enc_le, !pow256.
    change (8 * Z.of_nat 4) with 32. change (8 * Z.of_nat 8) with 64. change (8 * Z.of_nat 1) with 8.
    change (8 * 4) with 32.
    rewrite !(Z.mod_small _ (2 ^ 64)), (Z.mod_small _ (2 ^ 8)) by lia.
    fold (wrap 32 (GetRMgrId r)). rewrite swrap_wrap, swrap_small by lia. done.
Qed.

Lemma format_ok xid r :
  valid r -> in_u 64 xid = true ->
  exists bs, format_undo_record xid r = Ok bs /\ zlen bs = record_size r /\
    load_header (slice 0 24 bs) = Ok (header_of xid r) /\
    ParseUndo (GetType r) (slice 24 (CalculateSize r) bs) (CalculateSize r) = Ok r.
Proof.
  intros Hv Hx. pose proof (undo_size r Hv) as Hs. unfold format_undo_record, record_size.
  unfold sizeof_UndoLogRecordHeader. set (a := 8 * ((CalculateSize r + 7) / 8)) in *.
  assert (Ha : CalculateSize r <= a < CalculateSize r + 8) by (unfold a; zdm).
  rewrite BitUtils.MaxAlign_spec by (fold a; lia). fold a. rewrite wrap_small by lia.
  rewrite alloc_ok, bind_Ok by lia.
  destruct (store_load_header (zeros (24 + a)) xid r Hv Hx) as (b & -> & Hb & Hdrop & Hload).
  { rewrite zlen_zeros; lia. }
  rewrite zlen_zeros in Hb by lia. rewrite bind_Ok.
  set (rest := drop (Z.to_nat 24) b).
  assert (Hrest : zlen rest = a) by (unfold rest, zlen in *; rewrite length_drop; lia).
  destruct (undo_roundtrip r rest Hv) as (bs & -> & Hbs & Hparse); [lia|]. rewrite bind_Ok.
  eexists. split; [done|]. set (hd := take (Z.to_nat 24) b).
  assert (Hhd : zlen hd = 24) by (unfold hd, zlen in *; rewrite length_take; lia).
  assert (Htl : zlen (drop (Z.to_nat (CalculateSize r)) rest) = a - CalculateSize r)
    by (unfold zlen in *; rewrite length_drop; lia).
  split_and!.
  - rewrite !zlen_app. lia.
  - rewrite slice_app_l by lia. rewrite <-Hhd, slice_all.
    replace hd with (slice 0 24 b); [done|]. unfold slice, hd. by rewrite drop_0.
  - rewrite slice_app_r, slice_app_l by lia. rewrite Hhd, Z.sub_diag, <-Hbs, slice_all, Hbs. done.
Qed.

(** The record [r] is stored at [usn]. *)
Definition holds (l : UndoLog) (usn : Z) (r : R) : Prop :=
  valid r /\ 1 <= usn /\ usn - 1 + record_size r <= zlen (log_file l) /\
  exists xid, in_u 64 xid = true /\
    format_undo_record xid r = Ok (slice (usn - 1) (record_size r) (log_file l)).

Definition wf (l : UndoLog) : Prop := log_size l = zlen (log_file l).

Lemma read_record_ok new l usn r :
  (forall n, n < 2 ^ 63 -> new n = Ok n) -> holds l usn r -> zlen (log_file l) < 2 ^ 62 ->
  read_record new (usn - 1) (log_file l) = (Ok r, log_file l).
Proof.
  intros Hnew (Hv & Hu & Hend & xid & Hx & Hfmt) Hf. set (f := log_file l) in *.
  destruct (format_ok xid r Hv Hx) as (bs & Hfmt' & Hbs & Hload & Hparse).
  rewrite Hfmt in Hfmt'. injection Hfmt' as <-. pose proof (undo_size r Hv) as Hs.
  assert (Hle : 24 + CalculateSize r <= record_size r) by (unfold record_size; zdm).
  rewrite !slice_slice in Hload, Hparse by lia. rewrite Z.add_0_r in Hload.
  unfold read_record, read_header, sizeof_UndoLogRecordHeader.
  assert (H24 : zlen (slice (usn - 1) 24 f) = 24) by (apply zlen_slice; lia).
  assert (Hhead : ('(read, bs) ← File.Read 24 (usn - 1);
      if negb (read =? 24) then throw (Throw "could not read UndoLogRecordHeader")
      else lift (load_header bs)) f = (Ok (header_of xid r), f)).
  { erewrite M_bind_Ok by (apply File.Read_ok; lia). rewrite H24. simpl negb.
    unfold lift. by rewrite Hload. }
  erewrite M_bind_Ok by exact Hhead. cbn [ResourceManager DataLength RecordType].
  erewrite M_bind_Ok by (unfold lift; by rewrite Hreg).
  erewrite M_bind_Ok by (unfold lift; by rewrite Hnew by lia).
  assert (Hz : zlen (slice (usn - 1 + 24) (CalculateSize r) f) = CalculateSize r) by (apply zlen_slice; lia).
  erewrite M_bind_Ok by (apply File.Read_ok; lia). rewrite Hz, Z.eqb_refl. simpl negb.
  unfold lift. by rewrite Hparse.
Qed.

Lemma GetRecord_ok path l usn r :
  holds l usn r -> zlen (log_file l) < UndoSeqNumber.Max -> GetRecord path usn l = (Ok r, l).
Proof.
  intros Hh Hf. unfold UndoSeqNumber.Max in Hf. change ((2 ^ 64 - 1) / 4) with 4611686018427387903 in Hf.
  unfold GetRecord. pose proof Hh as (Hv & Hu & Hend & _).
  assert (Hrs : 24 <= record_size r) by (unfold record_size; pose proof (undo_size r Hv); zdm).
  erewrite M_bind_Ok.
  2: { unfold lift. rewrite assert_Ok; [done|]. unfold UndoSeqNumber.IsValid, UndoSeqNumber.Invalid, UndoSeqNumber.Max.
       change ((2 ^ 64 - 1) / 4) with 4611686018427387903.
       rewrite (proj2 (Z.eqb_neq _ _)), (proj2 (Z.leb_le _ _)) by lia. done. }
  erewrite M_bind_Ok by (unfold lift; by rewrite File.Open_ok).
  unfold on_file. erewrite read_record_ok; [by destruct l | apply alloc_ok | done | lia].
Qed.

Lemma InsertUndoRecord_ok path xid r l :
  wf l -> valid r -> in_u 64 xid = true ->
  exists bs, InsertUndoRecord path xid r l =
      (Ok (zlen (log_file l) + 1),
       mkUndoLog (log_size l + record_size r) (log_file l ++ bs)) /\
    format_undo_record xid r = Ok bs /\ zlen bs = record_size r.
Proof.
  intros Hwf Hv Hx. destruct (format_ok xid r Hv Hx) as (bs & Hfmt & Hbs & _).
  exists bs. split_and!; try done. unfold InsertUndoRecord.
  erewrite M_bind_Ok by (unfold lift; by rewrite File.Open_ok).
  erewrite M_bind_Ok by (unfold lift; by rewrite Hfmt).
  erewrite M_bind_Ok by done. pose proof (zlen_nonneg (log_file l)).
  erewrite M_bind_Ok.
  2: { unfold on_file. rewrite File.Write_ok by (rewrite Hwf; lia). done. }
  erewrite M_bind_Ok by (unfold on_file; by rewrite File.Fsync_ok).
  erewrite M_bind_Ok by done. erewrite M_bind_Ok by done.
  cbn [log_size log_file]. unfold getCurrentUSN. cbn [log_size].
  rewrite Hwf, File.file_write_end, Hbs. done.
Qed.

(** What is stored stays stored when the file grows. *)
Lemma holds_grow l l' usn r :
  holds l usn r -> log_file l `prefix_of` log_file l' -> holds l' usn r.
Proof.
  intros (Hv & Hu & Hend & xid & Hx & Hfmt) [suf Hsuf]. unfold holds. rewrite Hsuf, zlen_app.
  pose proof (zlen_nonneg suf). split_and!; [done | done | lia |].
  exists xid. split; [done|]. rewrite slice_app_l by lia. done.
Qed.

Lemma inserted_holds path xid r l :
  wf l -> valid r -> in_u 64 xid = true ->
  exists l', InsertUndoRecord path xid r l = (Ok (zlen (log_file l) + 1), l') /\ wf l' /\
    log_file l `prefix_of` log_file l' /\ holds l' (zlen (log_file l) + 1) r /\
    zlen (log_file l') = zlen (log_file l) + record_size r.
Proof.
  intros Hwf Hv Hx. destruct (InsertUndoRecord_ok path xid r l Hwf Hv Hx) as (bs & -> & Hfmt & Hbs).
  eexists. split; [done|]. pose proof (zlen_nonneg (log_file l)). unfold wf, holds in *. cbn [log_size log_file].
  rewrite zlen_app. split_and!; try lia; try done; [by exists bs|].
  exists xid. split; [done|]. replace (zlen (log_file l) + 1 - 1) with (zlen (log_file l)) by lia.
  by rewrite <-Hbs, slice_app_exact.
Qed.

(** ** Properties *)

(** Insertions of several records, by any transactions, in order. *)
Fixpoint insert_all (path : string) (rs : list (Z * R)) : M UndoLog (list Z) :=
  match rs with
  | [] => mret []
  | (xid, r) :: rs' =>
      usn ← InsertUndoRecord path xid r;
      usns ← insert_all path rs';
      mret (usn :: usns)
  end.

Definition insertable (rs : list (Z * R)) : Prop :=
  Forall (fun p => valid p.2 /\ in_u 64 p.1 = true) rs.

Lemma insert_all_holds path rs l :
  wf l -> insertable rs ->
  exists usns l', insert_all path rs l = (Ok usns, l') /\ wf l' /\
    log_file l `prefix_of` log_file l' /\
    Forall2 (holds l') usns (map snd rs) /\
    Forall (fun u => zlen (log_file l) < u) usns /\ StronglySorted Z.lt usns.
Proof.
  intros Hwf Hrs. revert l Hwf. induction Hrs as [|[xid r] rs [Hv Hx] _ IH]; intros l Hwf.
  - exists [], l. split_and!; try done. constructor.
  - cbn [insert_all fst snd map] in *.
    destruct (inserted_holds path xid r l Hwf Hv Hx) as (l1 & E1 & Hwf1 & Hpre1 & Hh1 & Hz1).
    destruct (IH l1 Hwf1) as (usns & l2 & E2 & Hwf2 & Hpre2 & Hh2 & Hgt & Hs).
    assert (Hrs : 0 < record_size r) by (unfold record_size; pose proof (undo_size r Hv); zdm).
    exists (zlen (log_file l) + 1 :: usns), l2. split_and!; try done.
    + erewrite M_bind_Ok by exact E1. by erewrite M_bind_Ok by exact E2.
    + by transitivity (log_file l1).
    + constructor; [by eapply holds_grow | done].
    + constructor; [lia|]. eapply Forall_impl; [exact Hgt|]. simpl. lia.
    + constructor; [done|]. eapply Forall_impl; [exact Hgt|]. simpl. intros u Hu.
      unfold record_size in *. pose proof (undo_size r Hv). zdm.
Qed.

(** C24: the undo log as a map that only grows. Whatever records are inserted, in
    sequence, by whatever transactions, every USN that an insertion returned gives that
    very record back at the end, the records stored before are still there, and the
    USNs strictly increase. *)
Theorem undo_log_history path rs l u0 r0 :
  wf l -> insertable rs -> holds l u0 r0 ->
  exists usns l', insert_all path rs l = (Ok usns, l') /\ wf l' /\ StronglySorted Z.lt usns /\
    (zlen (log_file l') < UndoSeqNumber.Max ->
      GetRecord path u0 l' = (Ok r0, l') /\
      Forall2 (fun u p => GetRecord path u l' = (Ok p.2, l')) usns rs).
Proof.
  intros Hwf Hrs Hh0. destruct (insert_all_holds path rs l Hwf Hrs)
    as (usns & l' & E & Hwf' & Hpre & Hh & _ & Hs).
  exists usns, l'. split_and!; try done. intros Hmax. split.
  - apply GetRecord_ok; [by apply (holds_grow l) | done].
  - change (map snd rs) with (snd <$> rs) in Hh. rewrite Forall2_fmap_r in Hh. eapply Forall2_impl; [exact Hh|].
    intros u p Hup. by apply GetRecord_ok.
Qed.

Section apply.
Context {S : Type} (ApplyUndo : R -> Z -> M S unit).

Lemma PerformUndo_ok path l s usn r :
  holds l usn r -> zlen (log_file l) < 2 ^ 62 ->
  PerformUndo ApplyUndo path usn (l, s) =
    let '(res, s') := ApplyUndo r usn s in (res, (l, s')).
Proof.
  intros Hh Hf. unfold PerformUndo.
  erewrite M_bind_Ok by (unfold lift; by rewrite File.Open_ok).
  unfold on_file. erewrite read_record_ok; [by destruct l | | done | done].
  intros n Hn. unfold new_array. by rewrite (proj2 (Z.ltb_lt _ _)).
Qed.

Lemma mapM_PerformUndo path l s us rs :
  Forall2 (holds l) us rs -> zlen (log_file l) < 2 ^ 62 ->
  mapM_ (PerformUndo ApplyUndo path) us (l, s) =
    let '(res, s') := mapM_ (fun p => ApplyUndo p.2 p.1) (combine us rs) s in (res, (l, s')).
Proof.
  intros Hh Hf. revert s. induction Hh as [|u r us rs Hur _ IH]; intros s; [done|].
  cbn [mapM_ combine fst snd]. unfold mbind, M_bind.
  rewrite (PerformUndo_ok path l s u r) by done.
  destruct (ApplyUndo r u s) as [[[]|e] s']; [apply IH | done].
Qed.

(** C25: rolling a transaction back applies exactly the records it inserted, each with
    its own USN, from the newest to the oldest, and empties the history; the undo log
    itself is not changed. When a record cannot be applied, the ones before it are not
    touched and the history is kept. *)
Theorem undo_all_backward path history rs l s :
  Forall2 (holds l) history rs -> zlen (log_file l) < 2 ^ 62 ->
  UndoAllRecords ApplyUndo path (history, (l, s)) =
    match mapM_ (fun p => ApplyUndo p.2 p.1) (combine (rev history) (rev rs)) s with
    | (Ok _, s') => (Ok tt, ([], (l, s')))
    | (Fault e, s') => (Fault e, (history, (l, s')))
    end.
Proof.
  intros Hh Hf. unfold UndoAllRecords.
  assert (Hr : Forall2 (holds l) (rev history) (rev rs)) by by apply Forall2_rev.
  rewrite (mapM_PerformUndo path l s _ _ Hr Hf).
  by destruct (mapM_ _ (combine _ _) s) as [[|] ?].
Qed.

End apply.
End records.
End UndoLog.

(** ** The heap's records *)
Section examples.
#[local] Existing Instance RamFile.
#[local] Existing Instance RamFile_ok.

Definition ex_managers : list (option (IResourceManager HeapUndoRecord)) :=
  match setupResourceManagers Heap_manager with Ok m => m | Fault _ => [] end.

Lemma ex_registered r :
  HeapUndo.valid r = true -> GetManager ex_managers (GetRMgrId r) = Ok Heap_manager.
Proof. intros _. reflexivity. Qed.

Definition ex_r1 : HeapUndoRecord := DeleteUndoRecord 1 (mkTupleId 0 4).
Definition ex_r2 : HeapUndoRecord := UndoRecord.InsertUndoRecord 1 (mkTupleId 0 5) [x01; x02; x03].
Definition ex_r3 : HeapUndoRecord := UpdateUndoRecord 1 (mkTupleId 0 1) (mkTupleId 0 1) [x09].

Definition ex_log : UndoLog :=
  snd (InsertUndoRecord (Hrec := Heap_record) "undo" 7 ex_r1 (mkUndoLog 0 [])).

Lemma ex_log_holds : wf ex_log /\ holds (fun r => HeapUndo.valid r = true) ex_log 1 ex_r1.
Proof.
  assert (Hwf : wf (mkUndoLog 0 [])) by done.
  destruct (inserted_holds (fun r => HeapUndo.valid r = true) "undo" 7 ex_r1 (mkUndoLog 0 []) Hwf)
    as (l' & E & Hwf' & _ & Hh & _); [done | done |].
  unfold ex_log. rewrite E. done.
Qed.

Lemma undo_log_history_witness :
  exists usns l', insert_all "undo" [(8, ex_r2); (7, ex_r3)] ex_log = (Ok usns, l') /\
    wf l' /\ StronglySorted Z.lt usns /\
    (zlen (log_file l') < UndoSeqNumber.Max ->
      GetRecord (H := DebugBuild) ex_managers "undo" 1 l' = (Ok ex_r1, l') /\
      Forall2 (fun u p => GetRecord (H := DebugBuild) ex_managers "undo" u l' = (Ok p.2, l')) usns
        [(8, ex_r2); (7, ex_r3)]).
Proof.
  destruct ex_log_holds as [Hwf Hh].
  apply (undo_log_history (H := DebugBuild) ex_managers (fun r => HeapUndo.valid r = true)
    ex_registered "undo" _ ex_log 1 ex_r1).
  - exact Hwf.
  - repeat constructor.
  - exact Hh.
Defined.

Lemma undo_all_backward_witness :
  UndoAllRecords ex_managers (fun r usn s => (Ok tt, (usn, r) :: s)) "undo" ([1], (ex_log, [])) =
    (Ok tt, ([], (ex_log, [(1, ex_r1)]))).
Proof.
  destruct ex_log_holds as [Hwf Hh].
  rewrite (undo_all_backward ex_managers (fun r => HeapUndo.valid r = true) ex_registered
    (fun r usn s => (Ok tt, (usn, r) :: s)) "undo" [1] [ex_r1] ex_log []).
  - reflexivity.
  - repeat constructor; apply Hh.
  - vm_compute. reflexivity.
Defined.
End examples.
