(* ===== verification/WAL.v ===== *)
(** [storage/wal/WriteAheadLog.cpp], [storage/wal/IRMgrWalRecord.hpp] and the heap's WAL
    records [access/heap/wal/*.hpp].

    The log is the file, the position of its end, the position that is known to be on
    disk, and (for the specification) the contents that the last [fdatasync] made
    durable. *)
From S2P Require Import Prelude Types File UndoRecord.

(** ** The interface and the heap's records *)
Class IRMgrWalRecord (R : Type) := {
  wal_rmgr : R -> Z;
  wal_type : R -> Z;
  wal_size : R -> Z;
  wal_serialize : R -> list byte -> result (list byte)
}.

Class WalRecordLaws (R : Type) `{IRMgrWalRecord R} (valid : R -> Prop) := {
  wal_size_range r : valid r -> 0 <= wal_size r < 2 ^ 32;
  wal_serialize_ok r buffer : valid r -> zlen buffer = wal_size r ->
    exists bs, wal_serialize r buffer = Ok bs /\ zlen bs = wal_size r
}.

Inductive HeapWALRecord :=
| InsertHeapWALRecord (TupId : TupleId) (TupleData : list byte)
| UpdateHeapWALRecord (TableId : Z) (OldTupleId NewTupleId : TupleId) (TupleData : list byte)
| DeleteHeapWALRecord (TableId : Z) (Location : TupleId).

Module HeapWAL.
Definition GetType (r : HeapWALRecord) : Z :=
  match r with
  | InsertHeapWALRecord _ _ => 1
  | UpdateHeapWALRecord _ _ _ _ => 2
  | DeleteHeapWALRecord _ _ => 3
  end.

Definition CalculateSize (r : HeapWALRecord) : Z :=
  match r with
  | InsertHeapWALRecord _ data => wrap 64 (sizeof_TupleId + zlen data)
  | UpdateHeapWALRecord _ _ _ data => wrap 64 (sizeof_Oid + sizeof_TupleId + sizeof_TupleId + zlen data)
  | DeleteHeapWALRecord _ _ => sizeof_Oid + sizeof_TupleId
  end.

Definition Serialize (r : HeapWALRecord) (buffer : list byte) : result (list byte) :=
  match r with
  | InsertHeapWALRecord t data =>
      buffer ← wr_TupleId buffer 0 t;
      wr buffer 8 data
  | UpdateHeapWALRecord t o n data =>
      buffer ← wr buffer 0 (enc_le 4 t);
      buffer ← wr_TupleId buffer 4 o;
      buffer ← wr_TupleId buffer 12 n;
      wr buffer 20 data
  | DeleteHeapWALRecord t l =>
      buffer ← wr buffer 0 (enc_le 4 t);
      wr_TupleId buffer 4 l
  end.

Definition valid (r : HeapWALRecord) : bool :=
  match r with
  | InsertHeapWALRecord _ data | UpdateHeapWALRecord _ _ _ data => zlen data <? 2 ^ 31
  | DeleteHeapWALRecord _ _ => true
  end.
End HeapWAL.

#[export] Instance HeapWAL_record : IRMgrWalRecord HeapWALRecord := {
  wal_rmgr _ := HeapUndo.Heap;
  wal_type := HeapWAL.GetType;
  wal_size := HeapWAL.CalculateSize;
  wal_serialize := HeapWAL.Serialize
}.

#[export] Instance HeapWAL_laws : WalRecordLaws HeapWALRecord (fun r => HeapWAL.valid r = true).
Proof.
  split; [intros r | intros r buffer]; destruct r as [t data|t o n data|t l];
    simpl wal_size; unfold HeapWAL.CalculateSize, sizeof_Oid, sizeof_TupleId; cbn [HeapWAL.valid];
    rewrite ?Z.ltb_lt; intros Hv; rewrite ?wrap_small by zl; try zl;
    intros Hz; cbn [wal_serialize HeapWAL_record HeapWAL.Serialize];
    try rewrite wr_Ok, bind_Ok by zbt; rewrite wr_TupleId_ok by zbt.
  - rewrite bind_Ok, wr_Ok by zbt. eexists. split; [done | zbt].
  - rewrite bind_Ok, wr_TupleId_ok, bind_Ok, wr_Ok by zbt. eexists. split; [done | zbt].
  - eexists. split; [done | zbt].
Qed.

(** ** The log *)
Section WriteAheadLog.
Context `{Build, Posix}.
Context {R : Type} `{Hrec : IRMgrWalRecord R}.

(** The 4 bytes of padding of [WALRecordHeader], which are written to the file. *)
Context (padding : list byte).

Record WriteAheadLog := mkWAL { file : list byte; fend : Z; flushed : Z; durable : list byte }.

Definition sizeof_WALRecordHeader : Z := 24.

Definition header_bytes (xid rmgr length : Z) : list byte :=
  enc_le 8 xid ++ enc_le 4 rmgr ++ padding ++ enc_le 8 length.

Definition on_file {A} (m : M (list byte) A) : M WriteAheadLog A := fun w =>
  let '(r, f) := m (file w) in (r, mkWAL f (fend w) (flushed w) (durable w)).

Definition WriteLogRecord (xid : Z) (record : R) : M WriteAheadLog Z :=
  let length := wal_size record in
  length ← lift (alloc length);
  buffer ← lift (wal_serialize record (zeros length));
  w ← get;
  let offset := fend w in
  _ ← on_file (File.Write (header_bytes xid (wal_rmgr record) length) offset);
  let offset := wrap 64 (offset + sizeof_WALRecordHeader) in
  _ ← on_file (File.Write buffer offset);
  let offset := wrap 64 (offset + zlen buffer) in
  _ ← modify (fun w => mkWAL (file w) offset (flushed w) (durable w));
  w ← get;
  mret (wrap 64 (fend w + 1)).

(** [fdatasync] makes the contents of the file durable when it succeeds. *)
Definition Fsync : M WriteAheadLog unit :=
  _ ← on_file File.Fsync;
  modify (fun w => mkWAL (file w) (fend w) (flushed w) (file w)).

Definition Flush (lsn : Z) : M WriteAheadLog unit :=
  _ ← lift (assert_ (LogSeqNumber.IsValid lsn) "lsn.IsValid()");
  let pos := wrap 64 (lsn - 1) in
  w ← get;
  if flushed w <=? pos then mret tt
  else
    _ ← Fsync;
    modify (fun w => mkWAL (file w) (fend w) (fend w) (durable w)).

Definition Open (path : string) (f : list byte) : result WriteAheadLog :=
  _ ← File.Open path 66;
  size ← fst (File.Size f);
  Ok (mkWAL f (wrap 64 size) (wrap 64 size) f).

(** ** Properties *)
Context `{!PosixOk} (valid : R -> Prop) `{!WalRecordLaws R valid}.
Hypothesis Hpad : zlen padding = 4.

Definition wf (w : WriteAheadLog) : Prop :=
  fend w = zlen (file w) /\ 0 <= flushed w <= fend w.

Lemma WriteLogRecord_ok xid r w :
  wf w -> valid r -> zlen (file w) < 2 ^ 62 ->
  exists payload, wal_serialize r (zeros (wal_size r)) = Ok payload /\
    WriteLogRecord xid r w =
      (Ok (zlen (file w) + 24 + wal_size r + 1),
       mkWAL (file w ++ header_bytes xid (wal_rmgr r) (wal_size r) ++ payload)
         (zlen (file w) + 24 + wal_size r) (flushed w) (durable w)).
Proof.
  intros [He Hf] Hv Hz. pose proof (wal_size_range r Hv) as Hs.
  destruct (wal_serialize_ok r (zeros (wal_size r)) Hv) as (payload & Hser & Hpl); [rewrite zlen_zeros; lia|].
  exists payload. split; [done|]. unfold WriteLogRecord. pose proof (zlen_nonneg (file w)).
  erewrite M_bind_Ok by (unfold lift; by rewrite alloc_ok by lia).
  erewrite M_bind_Ok by (unfold lift; by rewrite Hser).
  erewrite M_bind_Ok by done.
  assert (Hh : zlen (header_bytes xid (wal_rmgr r) (wal_size r)) = 24).
  { unfold header_bytes. rewrite !zlen_app, !zlen_enc_le. lia. }
  cbv beta zeta. erewrite M_bind_Ok by (unfold on_file; by rewrite File.Write_ok by lia).
  rewrite He, File.file_write_end. unfold sizeof_WALRecordHeader. rewrite (wrap_small 64 (zlen (file w) + 24)) by lia.
  erewrite M_bind_Ok.
  2: { unfold on_file. cbn [file]. rewrite File.Write_ok by lia.
       rewrite <-Hh, <-zlen_app, File.file_write_end. done. }
  erewrite M_bind_Ok by done. erewrite M_bind_Ok by done. cbn [file fend flushed durable].
  rewrite Hpl, (wrap_small 64 (zlen (file w) + 24 + wal_size r)), wrap_small by lia.
  by rewrite <-app_assoc.
Qed.

Lemma WriteLogRecord_wf xid r w lsn w' :
  wf w -> valid r -> zlen (file w) < 2 ^ 62 -> WriteLogRecord xid r w = (Ok lsn, w') ->
  wf w' /\ file w `prefix_of` file w' /\ lsn = fend w' + 1 /\ fend w < fend w' /\
  flushed w' = flushed w /\ durable w' = durable w.
Proof.
  intros Hwf Hv Hz Hw. destruct (WriteLogRecord_ok xid r w Hwf Hv Hz) as (payload & Hser & E).
  rewrite E in Hw. simplify_eq. pose proof (wal_size_range r Hv) as Hs. destruct Hwf as [He Hf].
  destruct (wal_serialize_ok r (zeros (wal_size r)) Hv) as (payload' & Hser' & Hpl); [rewrite zlen_zeros; lia|].
  rewrite Hser in Hser'. simplify_eq. cbn [file fend flushed durable].
  unfold wf, header_bytes. cbn [file fend flushed]. rewrite !zlen_app, !zlen_enc_le.
  split_and!; try lia; [by eexists | done].
Qed.

Lemma WriteLogRecord_step xid r w :
  wf w -> valid r -> zlen (file w) < 2 ^ 62 ->
  exists lsn w', WriteLogRecord xid r w = (Ok lsn, w') /\ wf w' /\ lsn = fend w' + 1 /\
    zlen (file w') = zlen (file w) + 24 + wal_size r /\ flushed w' = flushed w /\
    durable w' = durable w.
Proof.
  intros Hwf Hv Hz. destruct (WriteLogRecord_ok xid r w Hwf Hv Hz) as (payload & Hser & E).
  destruct (WriteLogRecord_wf xid r w _ _ Hwf Hv Hz E) as (Hwf' & _ & Hl & Hlt & Hf & Hd).
  eexists _, _. split_and!; [exact E | exact Hwf' | exact Hl | | exact Hf | exact Hd].
  destruct Hwf' as [He _]. cbn [fend] in He. lia.
Qed.

(** C27: a record is appended: nothing that the log holds changes, the record is the
    24-byte header followed by the serialized record, and the LSN that is returned is
    the position after the record plus 1, so LSNs increase strictly. *)
Theorem wal_append xid r w :
  wf w -> valid r -> zlen (file w) < 2 ^ 62 ->
  exists lsn w' payload, WriteLogRecord xid r w = (Ok lsn, w') /\ wf w' /\
    wal_serialize r (zeros (wal_size r)) = Ok payload /\
    file w' = file w ++ header_bytes xid (wal_rmgr r) (wal_size r) ++ payload /\
    lsn = zlen (file w') + 1 /\ zlen (file w) + 1 < lsn.
Proof.
  intros Hwf Hv Hz. destruct (WriteLogRecord_ok xid r w Hwf Hv Hz) as (payload & Hser & E).
  destruct (WriteLogRecord_wf xid r w _ _ Hwf Hv Hz E) as (Hwf' & _ & Hl & Hlt & _).
  pose proof Hwf as [He _]. pose proof Hwf' as [He' _]. eexists _, _, payload.
  split_and!; [exact E | exact Hwf' | exact Hser | reflexivity | lia | lia].
Qed.

(** Uses of the log: records are written, and LSNs that writes returned are flushed. *)
Inductive op := WriteOp (xid : Z) (r : R) | FlushOp (k : nat).

Fixpoint run (ops : list op) (lsns : list Z) : M WriteAheadLog (list Z) :=
  match ops with
  | [] => mret lsns
  | WriteOp xid r :: ops' => lsn ← WriteLogRecord xid r; run ops' (lsns ++ [lsn])
  | FlushOp k :: ops' =>
      match lsns !! k with
      | Some lsn => _ ← Flush lsn; run ops' lsns
      | None => run ops' lsns
      end
  end.

Definition op_valid (o : op) : Prop := match o with WriteOp _ r => valid r | FlushOp _ => True end.

(** The total size of the records that a sequence writes. *)
Fixpoint written (ops : list op) : Z :=
  match ops with
  | [] => 0
  | WriteOp _ r :: ops' => 24 + wal_size r + written ops'
  | FlushOp _ :: ops' => written ops'
  end.

Lemma written_nonneg ops : Forall op_valid ops -> 0 <= written ops.
Proof.
  induction 1 as [|o ops Ho _ IH]; [done|]. destruct o; simpl in *; [|done].
  pose proof (wal_size_range r Ho). lia.
Qed.

(** Flushing an LSN at or after the flushed position does nothing. *)
Lemma Flush_noop w lsn : 0 <= flushed w < lsn -> lsn < 2 ^ 64 -> Flush lsn w = (Ok tt, w).
Proof.
  intros Hf Hl. unfold Flush. erewrite M_bind_Ok.
  2: { unfold lift. rewrite assert_Ok; [done|]. unfold LogSeqNumber.IsValid, LogSeqNumber.InvalidValue.
       rewrite (proj2 (Z.eqb_neq _ _)) by lia. done. }
  erewrite M_bind_Ok by done. rewrite wrap_small by lia.
  by rewrite (proj2 (Z.leb_le _ _)) by lia.
Qed.

Lemma run_never_syncs ops lsns w :
  wf w -> Forall op_valid ops -> Forall (fun l => flushed w < l < 2 ^ 64) lsns ->
  zlen (file w) + written ops < 2 ^ 62 ->
  exists lsns' w', run ops lsns w = (Ok lsns', w') /\ durable w' = durable w /\
    flushed w' = flushed w /\ zlen (file w') = zlen (file w) + written ops.
Proof.
  intros Hwf Hops. revert lsns w Hwf. induction Hops as [|o ops Ho Hops IH]; intros lsns w Hwf Hl Hz.
  - exists lsns, w. simpl. split_and!; try done. lia.
  - pose proof (written_nonneg ops Hops). destruct o as [xid r|k]; simpl in Hz |- *.
    + simpl in Ho. pose proof (wal_size_range r Ho).
      destruct (WriteLogRecord_step xid r w Hwf Ho) as (lsn & w1 & E & Hwf1 & Hlsn & Hz1 & Hf1 & Hd1);
        [lia|]. pose proof Hwf1 as [He1 Hr1].
      destruct (IH (lsns ++ [lsn]) w1) as (lsns' & w' & Er & Hd' & Hf' & Hz'); [done | | lia |].
      * apply Forall_app; split; [by rewrite Hf1|]. constructor; [|done]. lia.
      * exists lsns', w'. split_and!; [by erewrite M_bind_Ok by exact E | congruence | congruence | lia].
    + destruct (lsns !! k) as [lsn|] eqn:Ek; [|by apply IH].
      pose proof (proj1 (Forall_lookup _ _) Hl k lsn Ek) as Hr. simpl in Hr.
      destruct Hwf as [He Hf]. erewrite M_bind_Ok by (apply Flush_noop; lia). by apply IH.
Qed.

(** the condition of [Flush] is inverted: it returns when the LSN is NOT yet on disk.
    Whatever records are written and whichever of the returned LSNs are flushed, in any
    order and number, nothing is ever made durable and the flushed position never
    moves: a flush after a commit record does not put that record on disk. *)
Theorem wal_flush_never_syncs ops w :
  wf w -> Forall op_valid ops -> zlen (file w) + written ops < 2 ^ 62 ->
  exists lsns w', run ops [] w = (Ok lsns, w') /\ durable w' = durable w /\
    flushed w' = flushed w /\ zlen (file w') = zlen (file w) + written ops.
Proof. intros. by apply run_never_syncs. Qed.
End WriteAheadLog.

(** ** Concrete logs *)
Section examples.
#[local] Existing Instance RamFile.
#[local] Existing Instance RamFile_ok.

(** the header of a WAL record does not hold the type of the record ([GetType] is
    never written), so records of different types can have the same bytes in the log:
    here an insertion and a deletion. *)
Theorem wal_record_type_lost w :
  exists r1 r2, HeapWAL.GetType r1 <> HeapWAL.GetType r2 /\
    WriteLogRecord (zeros 4) 7 r1 w = WriteLogRecord (zeros 4) 7 r2 w.
Proof.
  exists (InsertHeapWALRecord (mkTupleId 1 0) (zeros 4)), (DeleteHeapWALRecord 1 (mkTupleId 0 0)).
  split; [done|]. unfold WriteLogRecord.
  assert (E : wal_serialize (InsertHeapWALRecord (mkTupleId 1 0) (zeros 4)) (zeros 12) =
              wal_serialize (DeleteHeapWALRecord 1 (mkTupleId 0 0)) (zeros 12)) by reflexivity.
  change (wal_size (InsertHeapWALRecord (mkTupleId 1 0) (zeros 4))) with 12.
  change (wal_size (DeleteHeapWALRecord 1 (mkTupleId 0 0))) with 12.
  cbv zeta. rewrite !(M_bind_Ok (lift (alloc 12)) _ w 12 w eq_refl). by rewrite E.
Qed.

Lemma wal_append_witness :
  exists lsn w', WriteLogRecord (zeros 4) 7 (DeleteHeapWALRecord 1 (mkTupleId 2 3)) (mkWAL [] 0 0 []) =
      (Ok lsn, w') /\ lsn = 37.
Proof.
  destruct (wal_append (zeros 4) (fun r => HeapWAL.valid r = true) eq_refl 7
    (DeleteHeapWALRecord 1 (mkTupleId 2 3)) (mkWAL [] 0 0 [])) as (lsn & w' & p & E & _ & _ & Hf & Hl & _).
  - split; [reflexivity | simpl; lia].
  - reflexivity.
  - vm_compute. reflexivity.
  - exists lsn, w'. split; [exact E|]. vm_compute in E. congruence.
Defined.

Lemma wal_flush_never_syncs_witness :
  exists lsns w',
    run (H := DebugBuild) (zeros 4) [WriteOp 7 (DeleteHeapWALRecord 1 (mkTupleId 2 3)); FlushOp 0] []
      (mkWAL [] 0 0 []) = (Ok lsns, w') /\ durable w' = [] /\ flushed w' = 0 /\ zlen (file w') = 36.
Proof.
  destruct (wal_flush_never_syncs (H := DebugBuild) (zeros 4) (fun r => HeapWAL.valid r = true) eq_refl
    [WriteOp 7 (DeleteHeapWALRecord 1 (mkTupleId 2 3)); FlushOp 0] (mkWAL [] 0 0 []))
    as (lsns & w' & E & Hd & Hf & Hz).
  - split; [reflexivity | simpl; lia].
  - repeat constructor.
  - vm_compute. reflexivity.
  - exists lsns, w'. split_and!; [exact E | exact Hd | exact Hf | rewrite Hz; reflexivity].
Defined.
End examples.
