(* ===== verification/Transactions.v ===== *)
(** [trans/TransactionManager.cpp], [trans/Transaction.cpp], [trans/Snapshot.hpp]: the
    life cycle of transactions and the snapshot that decides what a reader sees.

    Each handler is a sequence of atomic parts (an atomic counter operation, or a
    critical section of [_mutex]); the handlers compose the parts in the code's order,
    and the step relation of [Interleaving] interleaves the same parts of different
    workers. *)
From stdpp Require Import relations.
From S2P Require Import Prelude Types.

(** ** Snapshots and transactions *)
Record Snapshot := mkSnapshot { snap_csn : Z; CommandId : Z }.

Inductive TransactionStatus := RUNNING | COMMITTED | ABORTED.

Record Transaction := mkTransaction {
  t_xid : Z;
  t_latch : bool;  (* held in exclusive mode by the owner *)
  t_snapshot : option Snapshot;
  t_status : TransactionStatus;
  t_csn : Z;
  t_undoLog : option (list Z);
  t_lastLsn : Z;
  t_workerId : Z
}.

(** The constructor locks the latch. *)
Definition newTransaction (xid workerId : Z) : Transaction :=
  mkTransaction xid true None RUNNING CommitSeqNumber.Invalid None LogSeqNumber.InvalidValue workerId.

Section Transactions.
Context `{Build}.

(** The write-ahead log and the undo log, as the handlers use them. *)
Context {W : Type} (Flush : Z -> M W unit) (UndoAllRecords : list Z -> M W unit).

(** ** The transaction manager

    [mutex] is true when a shared lock of [_mutex] was acquired and never released; the
    critical sections themselves are atomic here. *)
Record TransactionManager := mkTM {
  tm_csn : Z;
  tm_xid : Z;
  tm_mutex : bool;
  tm_transactions : gmap Z Transaction;
  tm_xidToWorker : gmap Z Z;
  tm_history : gmap Z Z;
  tm_world : W
}.
#[local] Notation TM := TransactionManager.

Definition init (w : W) : TM :=
  mkTM CommitSeqNumber.Min TransactionId.Min false ∅ ∅ ∅ w.

Definition set_csn (v : Z) (s : TM) : TM :=
  mkTM v (tm_xid s) (tm_mutex s) (tm_transactions s) (tm_xidToWorker s) (tm_history s) (tm_world s).
Definition set_xid (v : Z) (s : TM) : TM :=
  mkTM (tm_csn s) v (tm_mutex s) (tm_transactions s) (tm_xidToWorker s) (tm_history s) (tm_world s).
Definition set_mutex (v : bool) (s : TM) : TM :=
  mkTM (tm_csn s) (tm_xid s) v (tm_transactions s) (tm_xidToWorker s) (tm_history s) (tm_world s).
Definition set_transactions (v : gmap Z Transaction) (s : TM) : TM :=
  mkTM (tm_csn s) (tm_xid s) (tm_mutex s) v (tm_xidToWorker s) (tm_history s) (tm_world s).
Definition set_xidToWorker (v : gmap Z Z) (s : TM) : TM :=
  mkTM (tm_csn s) (tm_xid s) (tm_mutex s) (tm_transactions s) v (tm_history s) (tm_world s).
Definition set_history (v : gmap Z Z) (s : TM) : TM :=
  mkTM (tm_csn s) (tm_xid s) (tm_mutex s) (tm_transactions s) (tm_xidToWorker s) v (tm_world s).
Definition set_world (v : W) (s : TM) : TM :=
  mkTM (tm_csn s) (tm_xid s) (tm_mutex s) (tm_transactions s) (tm_xidToWorker s) (tm_history s) v.

Definition on_world {A} (m : M W A) : M TM A := fun s =>
  let '(r, w) := m (tm_world s) in (r, set_world w s).

(** A critical section: it waits for as long as the mutex is held. *)
Definition locked {A} (body : M TM A) : M TM A := fun s =>
  if tm_mutex s then (Fault (Blocked "_mutex"), s) else body s.

Definition GetCurrentCSN : M TM Z := gets tm_csn.
Definition GetCurrentXID : M TM Z := gets tm_xid.

Definition fetch_add_csn : M TM Z := fun s => (Ok (tm_csn s), set_csn (wrap 64 (tm_csn s + 1)) s).
Definition fetch_add_xid : M TM Z := fun s => (Ok (tm_xid s), set_xid (wrap 64 (tm_xid s + 1)) s).

(** *** GetTransactionCsn

    One turn of the loop. [operator[]] inserts the default CSN for an unknown xid. When
    the transaction is committing the lock is given up with [release], which forgets
    the lock without unlocking it. *)
Definition csn_attempt (xid : Z) : M TM (option Z) := locked (fun s =>
  let csn := default CommitSeqNumber.Invalid (tm_history s !! xid) in
  let s := set_history (<[xid := csn]> (tm_history s)) s in
  if negb (CommitSeqNumber.IsCommitting csn) then (Ok (Some csn), s)
  else (Ok None, set_mutex true s)).

Fixpoint GetTransactionCsn (fuel : nat) (xid : Z) : M TM Z :=
  match fuel with
  | O => throw NoFuel
  | S k =>
      r ← csn_attempt xid;
      match r with Some csn => mret csn | None => GetTransactionCsn k xid end
  end.

(** *** BeginNewTransaction

    The object that the worker's slot held is destroyed, with the latch in it, which asserts
    that nobody holds it. The model destroys it in any case; in the code another worker that waits for the old
    transaction has a copy of the pointer, which puts the destruction off until it lets go. *)
Definition begin_create (workerId : Z) : M TM Z :=
  xid ← fetch_add_xid;
  old ← gets (fun s => tm_transactions s !! workerId);
  _ ← modify (fun s => set_transactions (<[workerId := newTransaction xid workerId]> (tm_transactions s)) s);
  _ ← lift (assert_ (match old with Some t => negb (t_latch t) | None => true end) "(this->_state.load() & LockCountMask) == 0");
  mret xid.

Definition begin_publish (workerId xid : Z) : M TM unit := locked (modify (fun s =>
  set_history (<[xid := CommitSeqNumber.InProgress]> (tm_history s))
    (set_xidToWorker (<[xid := workerId]> (tm_xidToWorker s)) s))).

Definition BeginNewTransaction (workerId : Z) : M TM Z :=
  xid ← begin_create workerId;
  _ ← begin_publish workerId xid;
  mret xid.

(** *** CommitTransaction *)
Definition get_own (workerId : Z) : M TM Transaction :=
  s ← get;
  match tm_transactions s !! workerId with
  | None => _ ← lift (assert_ false "transaction != nullptr"); throw (UB "null pointer")
  | Some t =>
      _ ← lift (assert_ (t_workerId t =? workerId) "transaction->GetWorkerId() == MyWorker->GetId()");
      mret t
  end.

Definition commit_mark (xid : Z) : M TM unit := locked (modify (fun s =>
  set_history (<[xid := CommitSeqNumber.Committing]> (tm_history s)) s)).

(** The entry of [_xidToWorker] goes; its absence is an exception. *)
Definition end_entry (xid : Z) (msg : string) : M TM unit :=
  s ← get;
  match tm_xidToWorker s !! xid with
  | None => throw (Throw msg)
  | Some _ => put (set_xidToWorker (delete xid (tm_xidToWorker s)) s)
  end.

Definition commit_publish (xid csn : Z) : M TM unit := locked (
  _ ← modify (fun s => set_history (<[xid := csn]> (tm_history s)) s);
  end_entry xid "XidToWorker transaction table is broken - no entry found").

(** [Transaction::Commit] and [Transaction::Abort]: the status, then the latch. *)
Definition Commit (csn : Z) (t : Transaction) : result Transaction :=
  _ ← assert_ (CommitSeqNumber.IsNormal csn) "csn.IsNormal()";
  Ok (mkTransaction (t_xid t) false (t_snapshot t) COMMITTED csn (t_undoLog t) (t_lastLsn t) (t_workerId t)).
Definition TAbort (t : Transaction) : Transaction :=
  mkTransaction (t_xid t) false (t_snapshot t) ABORTED (t_csn t) (t_undoLog t) (t_lastLsn t) (t_workerId t).

(** The end of the commit: the latch of the transaction is given back and the slot is cleared, which is one step in the interleavings. *)
Definition commit_finish (workerId csn : Z) : M TM unit :=
  t ← get_own workerId;
  _ ← lift (Commit csn t);
  modify (fun s => set_transactions (delete workerId (tm_transactions s)) s).

Definition CommitTransaction (workerId : Z) : M TM unit :=
  t ← get_own workerId;
  _ ← (if LogSeqNumber.IsValid (t_lastLsn t) then on_world (Flush (t_lastLsn t)) else mret tt);
  _ ← commit_mark (t_xid t);
  csn ← fetch_add_csn;
  _ ← commit_publish (t_xid t) csn;
  commit_finish workerId csn.

(** *** AbortTransaction *)
Definition abort_publish (xid : Z) : M TM unit := locked (
  _ ← modify (fun s => set_history (<[xid := CommitSeqNumber.Aborted]> (tm_history s)) s);
  end_entry xid "XidToWorker tnx table is broken - no transaction entry found").

Definition abort_finish (workerId : Z) : M TM unit :=
  modify (fun s => set_transactions (delete workerId (tm_transactions s)) s).

Definition AbortTransaction (workerId : Z) : M TM unit :=
  s ← get;
  t ← lift (of_option (UB "MyTransaction is null") (tm_transactions s !! workerId));
  _ ← (match t_undoLog t with Some history => on_world (UndoAllRecords history) | None => mret tt end);
  t ← get_own workerId;
  _ ← abort_publish (t_xid t);
  abort_finish workerId.

(** *** WaitTransactionEnd

    [true] when the call returns, [false] while it waits for the owner's latch; [me] is
    the caller's own transaction. *)
Definition wait_lookup (xid : Z) : M TM (option Z) := locked (gets (fun s => tm_xidToWorker s !! xid)).

Definition wait_latch (me xid workerId : Z) : M TM bool := fun s =>
  match tm_transactions s !! workerId with
  | None => (Ok true, s)
  | Some t =>
      if negb (t_xid t =? xid) then (Ok true, s)
      else
        (_ ← assert_ (t_workerId t =? workerId) "transaction->GetWorkerId() == workerId";
         _ ← assert_ (negb (t_xid t =? me)) "this->_xid != MyTransaction->GetXID()";
         Ok (negb (t_latch t)), s)
  end.

Definition WaitTransactionEnd (me xid : Z) : M TM bool :=
  r ← wait_lookup xid;
  match r with
  | None => mret true
  | Some workerId => wait_latch me xid workerId
  end.

(** *** BeginNewStatement: the snapshot of the transaction's next statement *)
Definition LastUSN (history : list Z) : Z := default UndoSeqNumber.Invalid (last history).

Definition set_snapshot (t : Transaction) (sn : Snapshot) : Transaction :=
  mkTransaction (t_xid t) (t_latch t) (Some sn) (t_status t) (t_csn t) (t_undoLog t) (t_lastLsn t) (t_workerId t).

Definition BeginNewStatement (t : Transaction) : M TM Transaction :=
  match t_snapshot t with
  | None =>
      csn ← GetCurrentCSN;
      mret (set_snapshot t (mkSnapshot csn UndoSeqNumber.Invalid))
  | Some sn =>
      match t_undoLog t with
      | None => mret t
      | Some history =>
          let l := LastUSN history in
          if UndoSeqNumber.IsValid l then mret (set_snapshot t (mkSnapshot (snap_csn sn) (l + 1)))
          else mret t
      end
  end.

(** *** The verdict on a transaction's CSN

    The part of [tuple_is_visible] ([HeapTableScan.cpp]) that follows the lookup. *)
Definition csn_verdict (snap csn : Z) : result bool :=
  _ ← assert_ (negb (CommitSeqNumber.IsInvalid csn || CommitSeqNumber.IsCommitting csn))
        "!(csn.IsInvalid() || csn.IsCommitting())";
  if CommitSeqNumber.IsInProgress csn || CommitSeqNumber.IsAborted csn then Ok false
  else
    _ ← assert_ (CommitSeqNumber.IsFrozen csn || CommitSeqNumber.IsNormal csn)
          "csn.IsFrozen() || csn.IsNormal()";
    Ok (CommitSeqNumber.IsFrozen csn || (csn <? snap)).

(** ** Interleaving of the workers

    A worker is at one of the points between the atomic parts of its handler. *)
Inductive pc :=
| Idle
| Created (xid : Z)
| Running (xid : Z)
| Marked (xid : Z)
| Numbered (xid csn : Z)
| Published (xid csn : Z)
| AbortPublished (xid : Z).

Record config := mkConfig { tm : TM; pcs : gmap Z pc }.

Definition pc_of (c : config) (w : Z) : pc := default Idle (pcs c !! w).

(** The counters have not reached the end of their type. *)
Definition in_range (c : config) : Prop :=
  0 <= tm_csn (tm c) < 2 ^ 64 - 1 /\ 0 <= tm_xid (tm c) < 2 ^ 64 - 1.

Inductive part_step (w : Z) : pc -> TM -> pc -> TM -> Prop :=
| step_create s x s' :
    begin_create w s = (Ok x, s') -> part_step w Idle s (Created x) s'
| step_begin s x s' :
    begin_publish w x s = (Ok tt, s') -> part_step w (Created x) s (Running x) s'
| step_statement s x t t' s' :
    tm_transactions s !! w = Some t -> BeginNewStatement t s = (Ok t', s') ->
    part_step w (Running x) s (Running x) (set_transactions (<[w := t']> (tm_transactions s')) s')
| step_work s x t undo lsn world :
    tm_transactions s !! w = Some t ->
    part_step w (Running x) s (Running x)
      (set_world world (set_transactions (<[w := mkTransaction (t_xid t) (t_latch t) (t_snapshot t)
        (t_status t) (t_csn t) undo lsn (t_workerId t)]> (tm_transactions s)) s))
| step_mark s x s' :
    commit_mark x s = (Ok tt, s') -> part_step w (Running x) s (Marked x) s'
| step_number s x n s' :
    fetch_add_csn s = (Ok n, s') -> part_step w (Marked x) s (Numbered x n) s'
| step_publish s x n s' :
    commit_publish x n s = (Ok tt, s') -> part_step w (Numbered x n) s (Published x n) s'
| step_finish s x n s' :
    commit_finish w n s = (Ok tt, s') -> part_step w (Published x n) s Idle s'
| step_abort s x s' :
    abort_publish x s = (Ok tt, s') -> part_step w (Running x) s (AbortPublished x) s'
| step_abort_finish s x s' :
    abort_finish w s = (Ok tt, s') -> part_step w (AbortPublished x) s Idle s'
| step_lookup p s y r s' :
    csn_attempt y s = (Ok r, s') -> part_step w p s p s'.

Definition step (c c' : config) : Prop :=
  in_range c /\ exists w p', part_step w (pc_of c w) (tm c) p' (tm c') /\ pcs c' = <[w := p']> (pcs c).

Definition start (world : W) : config := mkConfig (init world) ∅.

Definition reachable (c : config) : Prop := exists world, rtc step (start world) c.
End Transactions.

(** ** The abstract machine: each transaction has a status

    What the workers do to the shared tables, without the workers, the latch and the
    transaction objects. *)
Module Spec.
Inductive status :=
| Unknown | New | Active | Committing | Numbered (csn : Z) | Committed (csn : Z) | Aborted.

Record state := mk { next_xid : Z; next_csn : Z; status_of : Z -> status }.

Definition upd (f : Z -> status) (x : Z) (v : status) : Z -> status :=
  fun y => if decide (y = x) then v else f y.

Definition init : state := mk TransactionId.Min CommitSeqNumber.Min (fun _ => Unknown).

Inductive step : state -> state -> Prop :=
| create xid csn f : f xid = Unknown ->
    step (mk xid csn f) (mk (xid + 1) csn (upd f xid New))
| begin xid csn f x : f x = New -> step (mk xid csn f) (mk xid csn (upd f x Active))
| mark xid csn f x : f x = Active -> step (mk xid csn f) (mk xid csn (upd f x Committing))
| number xid csn f x : f x = Committing ->
    step (mk xid csn f) (mk xid (csn + 1) (upd f x (Numbered csn)))
| publish xid csn f x n : f x = Numbered n -> step (mk xid csn f) (mk xid csn (upd f x (Committed n)))
| abort xid csn f x : f x = Active -> step (mk xid csn f) (mk xid csn (upd f x Aborted)).

(** What the history table shows of a status. *)
Definition csn_of (s : status) : Z :=
  match s with
  | Unknown | New => CommitSeqNumber.Invalid
  | Active => CommitSeqNumber.InProgress
  | Committing | Numbered _ => CommitSeqNumber.Committing
  | Committed n => n
  | Aborted => CommitSeqNumber.Aborted
  end.

Definition assigned (s : status) : option Z :=
  match s with Numbered n | Committed n => Some n | _ => None end.

(** Every commit number is at least [Min], below the counter, and belongs to one
    transaction; xids at and above the counter are unused. *)
Record inv (a : state) : Prop := mk_inv {
  inv_min : CommitSeqNumber.Min <= next_csn a;
  inv_range x n : assigned (status_of a x) = Some n -> CommitSeqNumber.Min <= n < next_csn a;
  inv_unique x y n :
    assigned (status_of a x) = Some n -> assigned (status_of a y) = Some n -> x = y;
  inv_fresh x : next_xid a <= x -> status_of a x = Unknown
}.

Lemma upd_eq f x v : upd f x v x = v.
Proof. unfold upd. by rewrite decide_True. Qed.

Lemma upd_ne f x y v : y <> x -> upd f x v y = f y.
Proof. intros. unfold upd. by rewrite decide_False. Qed.

Lemma init_inv : inv init.
Proof. by split. Qed.

(** A change that does not assign a number, of an xid below the counter. *)
Lemma inv_upd xid csn f x v :
  inv (mk xid csn f) -> x < xid -> assigned v = None \/ assigned v = assigned (f x) ->
  inv (mk xid csn (upd f x v)).
Proof.
  intros [Hm Hr Hu Hf] Hx Hv. simpl in *. split; simpl; [done | | |].
  - intros y n. unfold upd. case_decide; [subst y|by apply Hr].
    destruct Hv as [-> | ->]; [done | apply Hr].
  - intros y z n. unfold upd. repeat case_decide; subst; try done.
    + destruct Hv as [-> | ->]; [done | apply Hu].
    + destruct Hv as [-> | ->]; [done | intros; by apply (Hu y x n)].
    + apply Hu.
  - intros y Hy. unfold upd. rewrite decide_False by lia. by apply Hf.
Qed.

Lemma known_below a x : inv a -> status_of a x <> Unknown -> x < next_xid a.
Proof.
  intros Hi Hn. destruct (Z_lt_le_dec x (next_xid a)) as [|Hge]; [done|].
  by apply (inv_fresh a Hi) in Hge.
Qed.

Lemma step_inv a a' : inv a -> step a a' -> inv a'.
Proof.
  intros Hi Hs. destruct Hs as [xid csn f Hx|xid csn f x Hx|xid csn f x Hx|xid csn f x Hx
    |xid csn f x n Hx|xid csn f x Hx].
  - destruct Hi as [Hm Hr Hu Hf]. simpl in *. split; simpl; [done | | |].
    + intros y n. unfold upd. case_decide; [done | apply Hr].
    + intros y z n. unfold upd. repeat case_decide; try done. apply Hu.
    + intros y Hy. unfold upd. rewrite decide_False by lia. apply Hf. lia.
  - apply inv_upd; [done | apply (known_below (mk xid csn f) x Hi); simpl; by rewrite Hx | by left].
  - apply inv_upd; [done | apply (known_below (mk xid csn f) x Hi); simpl; by rewrite Hx | by left].
  - pose proof (known_below (mk xid csn f) x Hi) as Hlt. simpl in Hlt. rewrite Hx in Hlt.
    specialize (Hlt ltac:(done)). destruct Hi as [Hm Hr Hu Hf]. simpl in *. split; simpl; [lia | | |].
    + intros y n. unfold upd. case_decide; [intros [= <-]; lia | intros E; apply Hr in E; lia].
    + intros y z n. unfold upd. repeat case_decide; subst; try done; simpl.
      * intros [= <-] E. apply Hr in E. lia.
      * intros E [= <-]. apply Hr in E. lia.
      * apply Hu.
    + intros y Hy. unfold upd. rewrite decide_False by lia. by apply Hf.
  - apply inv_upd; [done | apply (known_below (mk xid csn f) x Hi); simpl; by rewrite Hx | right; simpl; by rewrite Hx].
  - apply inv_upd; [done | apply (known_below (mk xid csn f) x Hi); simpl; by rewrite Hx | by left].
Qed.

Lemma steps_inv a a' : inv a -> rtc step a a' -> inv a'.
Proof. intros Hi. induction 1; eauto using step_inv. Qed.

Lemma step_csn_mono a a' : step a a' -> next_csn a <= next_csn a'.
Proof. destruct 1; simpl; lia. Qed.

Lemma steps_csn_mono a a' : rtc step a a' -> next_csn a <= next_csn a'.
Proof. induction 1 as [|? ? ? Hs _ IH]; [lia|]. apply step_csn_mono in Hs. lia. Qed.

(** Finished transactions do not change; one that is not numbered yet gets a number that
    is at least the present counter. *)
Definition future (a : state) (x : Z) (v : status) : Prop :=
  match status_of a x with
  | Committed n => v = Committed n
  | Aborted => v = Aborted
  | Numbered n => v = Numbered n \/ v = Committed n
  | Active | Committing =>
      v <> Unknown /\ v <> New /\ forall n, assigned v = Some n -> next_csn a <= n
  | _ => forall n, assigned v = Some n -> next_csn a <= n
  end.

Lemma step_future a b c x :
  next_csn a <= next_csn b -> future a x (status_of b x) -> step b c -> future a x (status_of c x).
Proof.
  intros Hle Hf Hs.
  assert (Hupd : forall f y v, status_of b = f -> status_of c = upd f y v ->
    (y = x -> future a x v) -> future a x (status_of c x)).
  { intros f y v Eb Ec Hv. rewrite Ec. destruct (decide (x = y)) as [->|Hne].
    - rewrite upd_eq. by apply Hv.
    - by rewrite upd_ne, <-Eb by done. }
  destruct Hs as [xid csn f Hx|xid csn f y Hx|xid csn f y Hx|xid csn f y Hx|xid csn f y n Hx|xid csn f y Hx];
    (eapply Hupd; [reflexivity | reflexivity |]); intros <-; cbn [status_of next_csn] in *;
    rewrite Hx in Hf; unfold future in *; destruct (status_of a _); simpl in *;
    try discriminate; try (destruct Hf; discriminate);
    repeat match goal with H : _ /\ _ |- _ => destruct H end; try done;
    try (split_and!; [discriminate | discriminate |]);
    try (intros m E; discriminate E); try (intros m [= <-]); try lia; try (by auto).
  destruct Hf as [Hf|Hf]; [right; congruence | discriminate].
Qed.

Lemma steps_future a a' x : rtc step a a' -> future a x (status_of a' x).
Proof.
  apply (rtc_ind_r (fun c => future a x (status_of c x))).
  - unfold future. destruct (status_of a x); simpl; try done; by left.
  - intros b c Hab Hbc IH. eapply step_future; [by apply steps_csn_mono | done | done].
Qed.

(** A transaction that has begun stays so. *)
Lemma begun_stays a a' x :
  inv a -> rtc step a a' -> csn_of (status_of a x) <> CommitSeqNumber.Invalid ->
  csn_of (status_of a' x) <> CommitSeqNumber.Invalid.
Proof.
  intros Hi Hs Hx. pose proof (steps_future a a' x Hs) as Hf.
  pose proof (inv_range a' (steps_inv a a' Hi Hs) x) as Hr. unfold CommitSeqNumber.Min in Hr.
  assert (Hn : status_of a' x <> Unknown /\ status_of a' x <> New).
  { unfold future in Hf. destruct (status_of a x); simpl in Hx; try (by destruct Hx); try tauto;
      try (rewrite Hf; done). by destruct Hf as [-> | ->]. }
  destruct (status_of a' x) as [| | | |n|n|]; simpl; try tauto; try done.
  specialize (Hr n eq_refl). unfold CommitSeqNumber.Invalid. lia.
Qed.

(** The verdict of a snapshot on a transaction that has begun. *)
Lemma verdict_stable `{Build} a a' x snap b b' :
  rtc step a a' -> snap <= next_csn a -> csn_of (status_of a x) <> CommitSeqNumber.Invalid ->
  csn_of (status_of a x) <> CommitSeqNumber.Committing ->
  csn_of (status_of a' x) <> CommitSeqNumber.Committing ->
  inv a -> csn_verdict snap (csn_of (status_of a x)) = Ok b ->
  csn_verdict snap (csn_of (status_of a' x)) = Ok b' -> b = b'.
Proof.
  intros Hs Hsnap Hk Hc Hc' Hi. pose proof (steps_future a a' x Hs) as Hf. unfold future in Hf.
  pose proof (inv_range a' (steps_inv a a' Hi Hs) x) as Hr'. pose proof (inv_min a Hi) as Hmin.
  destruct (status_of a x) as [| | | |n|n|] eqn:E; simpl in Hk, Hc;
    try (by destruct Hk); try (by destruct Hc); [| rewrite Hf; congruence | rewrite Hf; congruence].
  cbn [csn_of]. unfold csn_verdict at 1. simpl. rewrite assert_true. intros [= <-].
  destruct Hf as (Hu & Hn & Hf).
  destruct (status_of a' x) as [| | | |n|n|] eqn:E'; simpl in Hc'; try (by destruct Hc');
    try done; unfold csn_verdict; simpl; rewrite ?assert_true; try (by intros [= <-]).
  specialize (Hf n eq_refl). specialize (Hr' n eq_refl). unfold CommitSeqNumber.Min in *.
  unfold CommitSeqNumber.IsInvalid, CommitSeqNumber.IsCommitting, CommitSeqNumber.IsInProgress,
    CommitSeqNumber.IsAborted, CommitSeqNumber.IsFrozen, CommitSeqNumber.IsNormal,
    CommitSeqNumber.Invalid, CommitSeqNumber.Committing, CommitSeqNumber.InProgress,
    CommitSeqNumber.Aborted, CommitSeqNumber.Frozen, CommitSeqNumber.Min.
  rewrite !(proj2 (Z.eqb_neq n _)) by lia. rewrite (proj2 (Z.geb_le _ _)) by lia. simpl.
  rewrite !assert_true. simpl. intros [= <-]. symmetry. apply Z.ltb_ge. lia.
Qed.
End Spec.

(** ** The transaction manager implements the abstract machine *)
Section refinement.
Context `{Build} {W : Type}.
#[local] Notation config := (config (W := W)).
#[local] Notation TM := (TransactionManager (W := W)).
Implicit Type c : config.

Definition view (s : TM) (x : Z) : Z := default CommitSeqNumber.Invalid (tm_history s !! x).

(** The transaction of a worker and its status. *)
Definition pc_status (p : pc) : option (Z * Spec.status) :=
  match p with
  | Idle => None
  | Created x => Some (x, Spec.New)
  | Running x => Some (x, Spec.Active)
  | Marked x => Some (x, Spec.Committing)
  | Numbered x n => Some (x, Spec.Numbered n)
  | Published x n => Some (x, Spec.Committed n)
  | AbortPublished x => Some (x, Spec.Aborted)
  end.

(** Statuses of a transaction that is in the table of running transactions. *)
Definition live (s : Spec.status) : bool :=
  match s with Spec.Active | Spec.Committing | Spec.Numbered _ => true | _ => false end.

(** The entries of a worker in the tables. *)
Definition tables_ok (s : TM) (w : Z) (p : pc) : Prop :=
  match pc_status p with
  | None => tm_transactions s !! w = None
  | Some (x, st) =>
      (exists t, tm_transactions s !! w = Some t /\ t_xid t = x /\ t_workerId t = w /\ t_latch t = true) /\
      (live st = true -> tm_xidToWorker s !! x = Some w)
  end.

Record Rel (c : config) (a : Spec.state) : Prop := mk_Rel {
  r_xid : Spec.next_xid a = tm_xid (tm c);
  r_csn : Spec.next_csn a = tm_csn (tm c);
  r_view x : view (tm c) x = Spec.csn_of (Spec.status_of a x);
  r_pc w x s : pc_status (pc_of c w) = Some (x, s) -> Spec.status_of a x = s;
  r_inj w w' x s s' : pc_status (pc_of c w) = Some (x, s) -> pc_status (pc_of c w') = Some (x, s') -> w = w';
  r_owner x : live (Spec.status_of a x) = true ->
    exists w, pc_status (pc_of c w) = Some (x, Spec.status_of a x);
  r_tables w : tables_ok (tm c) w (pc_of c w);
  r_tab x w : tm_xidToWorker (tm c) !! x = Some w -> live (Spec.status_of a x) = true
}.

Lemma pc_of_insert c (s : TM) w p w' :
  pc_of (mkConfig s (<[w := p]> (pcs c))) w' = if decide (w' = w) then p else pc_of c w'.
Proof.
  unfold pc_of. simpl. case_decide; [subst; by rewrite lookup_insert_eq | by rewrite lookup_insert_ne by done].
Qed.

Lemma view_insert (s : TM) h x v y :
  tm_history s = <[x := v]> h ->
  view s y = if decide (y = x) then v else default CommitSeqNumber.Invalid (h !! y).
Proof.
  unfold view. intros ->. case_decide; [subst; by rewrite lookup_insert_eq | by rewrite lookup_insert_ne by done].
Qed.

(** A step of the owner of [x] that changes the status of [x]. *)
Lemma Rel_change c a w p p' x st st' (s' : TM) xid' csn' :
  Rel c a -> pc_of c w = p ->
  (pc_status p = Some (x, st) \/ (p = Idle /\ Spec.status_of a x = Spec.Unknown)) ->
  pc_status p' = Some (x, st') ->
  tm_xid s' = xid' -> tm_csn s' = csn' ->
  (forall y, view s' y = if decide (y = x) then Spec.csn_of st' else view (tm c) y) ->
  (forall w', w' <> w -> tm_transactions s' !! w' = tm_transactions (tm c) !! w') ->
  (forall y, y <> x -> tm_xidToWorker s' !! y = tm_xidToWorker (tm c) !! y) ->
  (live st' = false -> tm_xidToWorker s' !! x = None) ->
  tables_ok s' w p' ->
  Rel (mkConfig s' (<[w := p']> (pcs c))) (Spec.mk xid' csn' (Spec.upd (Spec.status_of a) x st')).
Proof.
  intros HR Ep Hx Hp' Hxid Hcsn Hview Htr Htab Hdead Hok.
  assert (Hother : forall w' s, w' <> w -> pc_status (pc_of c w') <> Some (x, s)).
  { intros w' s Hne E. destruct Hx as [Hx|[-> Hu]].
    - apply Hne. by eapply (r_inj c a HR); [exact E | rewrite Ep].
    - apply (r_pc c a HR) in E as Es. rewrite Hu in Es. subst s.
      unfold pc_status in E. by destruct (pc_of c w'). }
  split; cbn [Spec.next_xid Spec.next_csn Spec.status_of tm]; try done.
  - intros y. rewrite Hview. unfold Spec.upd. case_decide; [done | apply (r_view c a HR)].
  - intros w' y s. rewrite pc_of_insert. case_decide; intros E.
    + rewrite Hp' in E. simplify_eq. by rewrite Spec.upd_eq.
    + rewrite Spec.upd_ne; [by apply (r_pc c a HR) in E|]. intros ->. by eapply Hother.
  - intros w1 w2 y s1 s2. rewrite !pc_of_insert. repeat case_decide; subst; intros E1 E2; try done.
    + rewrite Hp' in E1. simplify_eq. by destruct (Hother w2 s2).
    + rewrite Hp' in E2. simplify_eq. by destruct (Hother w1 s1).
    + by eapply (r_inj c a HR).
  - intros y. unfold Spec.upd. case_decide as Hy.
    + intros _. subst y. exists w. by rewrite pc_of_insert, decide_True.
    + intros Hl. destruct (r_owner c a HR y Hl) as [w' E]. exists w'. rewrite pc_of_insert.
      case_decide; [|done]. subst w'. destruct Hx as [Hx|[-> _]]; rewrite Ep in E; [congruence | done].
  - intros w'. rewrite pc_of_insert. case_decide; [by subst|].
    pose proof (r_tables c a HR w') as Ht. unfold tables_ok in *.
    destruct (pc_status (pc_of c w')) as [[y s]|] eqn:E; rewrite Htr by done; [|done].
    destruct Ht as [Ht Hl]. split; [done|]. intros Hlv. rewrite Htab; [by apply Hl|].
    intros ->. by eapply Hother.
  - intros y w'. unfold Spec.upd. case_decide as Hy.
    + subst y. destruct (live st'); [done|]. by rewrite Hdead.
    + rewrite Htab by done. apply (r_tab c a HR).
Qed.

(** A step that changes no status. *)
Lemma Rel_same c a w p' (s' : TM) :
  Rel c a -> tm_xid s' = tm_xid (tm c) -> tm_csn s' = tm_csn (tm c) ->
  (forall y, view s' y = view (tm c) y) ->
  (pc_status p' = pc_status (pc_of c w) \/
   (p' = Idle /\ forall x s, pc_status (pc_of c w) = Some (x, s) -> live s = false)) ->
  (forall w', w' <> w -> tm_transactions s' !! w' = tm_transactions (tm c) !! w') ->
  tm_xidToWorker s' = tm_xidToWorker (tm c) -> tables_ok s' w p' ->
  Rel (mkConfig s' (<[w := p']> (pcs c))) a.
Proof.
  intros HR Hxid Hcsn Hview Hp Htr Htab Hok.
  assert (Hsub : forall w' x s, pc_status (pc_of (mkConfig s' (<[w := p']> (pcs c))) w') = Some (x, s) ->
    pc_status (pc_of c w') = Some (x, s)).
  { intros w' x s. rewrite pc_of_insert. case_decide; [subst w'|done].
    destruct Hp as [-> | [-> _]]; done. }
  split; cbn [tm]; try rewrite ?Hxid, ?Hcsn; try apply HR.
  - intros x. rewrite Hview. apply HR.
  - intros w' x s E. apply Hsub in E. by eapply (r_pc c a HR).
  - intros w1 w2 x s1 s2 E1 E2. apply Hsub in E1, E2. by eapply (r_inj c a HR).
  - intros x Hl. destruct (r_owner c a HR x Hl) as [w' E]. exists w'. rewrite pc_of_insert.
    case_decide; [subst w'|done]. destruct Hp as [-> | [-> Hdead]]; [done|].
    apply Hdead in E. congruence.
  - intros w'. rewrite pc_of_insert. case_decide; [by subst|].
    pose proof (r_tables c a HR w') as Ht. unfold tables_ok in *. by rewrite Htr, Htab by done.
  - intros x w'. rewrite Htab. apply (r_tab c a HR).
Qed.

Lemma locked_inv {A} (body : M TM A) s r s' :
  locked body s = (Ok r, s') -> tm_mutex s = false /\ body s = (Ok r, s').
Proof. unfold locked. by destruct (tm_mutex s). Qed.

Lemma get_own_inv w (s : TM) t s' :
  get_own w s = (Ok t, s') -> s' = s /\ tm_transactions s !! w = Some t.
Proof.
  unfold get_own. intros E. apply M_bind_inv in E as (s1 & s2 & [= <- <-] & E).
  destruct (tm_transactions s !! w) as [t'|]; apply M_bind_inv in E as ([] & s3 & E & E'); [|done].
  injection E as _ <-. by injection E' as <- <-.
Qed.

Lemma end_entry_inv x msg (s s' : TM) :
  end_entry x msg s = (Ok tt, s') ->
  s' = set_xidToWorker (delete x (tm_xidToWorker s)) s.
Proof.
  unfold end_entry. intros E. apply M_bind_inv in E as (s1 & s2 & [= <- <-] & E).
  destruct (tm_xidToWorker s !! x); [|done]. by injection E.
Qed.

Lemma begin_create_inv workerId (s : TM) x (s' : TM) :
  begin_create workerId s = (Ok x, s') ->
  x = tm_xid s /\
  s' = set_transactions (<[workerId := newTransaction (tm_xid s) workerId]> (tm_transactions s)) (set_xid (wrap 64 (tm_xid s + 1)) s).
Proof.
  unfold begin_create. cbn. unfold mbind, M_bind. cbn. unfold lift.
  destruct (assert_ _ _) as [[]|e]; cbn; [|done]. intros [= <- <-]. done.
Qed.

Lemma publish_inv x v msg (s s' : TM) :
  locked (_ ← modify (fun s => set_history (<[x := v]> (tm_history s)) s); end_entry x msg) s = (Ok tt, s') ->
  s' = set_xidToWorker (delete x (tm_xidToWorker s)) (set_history (<[x := v]> (tm_history s)) s).
Proof.
  intros [_ E]%locked_inv. apply M_bind_inv in E as ([] & s1 & [= <-] & E). apply end_entry_inv in E. exact E.
Qed.

Lemma view_upd (s s' : TM) h x v y :
  tm_history s' = <[x := v]> h -> h = tm_history s ->
  view s' y = if decide (y = x) then v else view s y.
Proof. intros E ->. by rewrite (view_insert s' (tm_history s) x v y E). Qed.

(** Each part of a handler, as a step of the abstract machine. *)
Section parts.
Context (c : config) (a : Spec.state) (w : Z).
Hypotheses (HR : Rel c a) (Hinv : Spec.inv a).

Lemma sim_create x s' :
  pc_of c w = Idle -> 0 <= tm_xid (tm c) < 2 ^ 64 - 1 -> begin_create w (tm c) = (Ok x, s') ->
  exists a', Spec.step a a' /\ Rel (mkConfig s' (<[w := Created x]> (pcs c))) a'.
Proof.
  intros Ep Hr [-> ->]%begin_create_inv. pose proof (r_xid c a HR) as Hx. pose proof (r_csn c a HR) as Hc.
  assert (Hu : Spec.status_of a (tm_xid (tm c)) = Spec.Unknown) by (apply (Spec.inv_fresh a Hinv); lia).
  destruct a as [nx nc f] eqn:Ea. simpl in Hx, Hc, Hu. subst nx nc.
  eexists. split; [by apply Spec.create|].
  change f with (Spec.status_of (Spec.mk (tm_xid (tm c)) (tm_csn (tm c)) f)) at 1.
  eapply (Rel_change c _ w Idle _ _ Spec.Unknown Spec.New); try done. 
  - by right.
  - simpl. by rewrite wrap_small by lia.
  - intros y. case_decide; [|done]. subst y. change (view (tm c) (tm_xid (tm c)) = 0).
    rewrite (r_view c _ HR). simpl. by rewrite Hu.
  - intros w' Hne. simpl. by rewrite lookup_insert_ne.
  - intros _. simpl. destruct (tm_xidToWorker (tm c) !! tm_xid (tm c)) eqn:E; [|done].
    apply (r_tab c _ HR) in E. simpl in E. by rewrite Hu in E.
  - unfold tables_ok. simpl. rewrite lookup_insert_eq. split; [by eexists|done].
Qed.

(** A part that moves the worker's transaction from one status to the next. *)
Lemma sim_next p p' x st st' csn' s' :
  pc_of c w = p -> pc_status p = Some (x, st) -> pc_status p' = Some (x, st') ->
  Spec.step (Spec.mk (Spec.next_xid a) (Spec.next_csn a) (Spec.status_of a))
    (Spec.mk (Spec.next_xid a) csn' (Spec.upd (Spec.status_of a) x st')) ->
  tm_xid s' = tm_xid (tm c) -> tm_csn s' = csn' ->
  (forall y, view s' y = if decide (y = x) then Spec.csn_of st' else view (tm c) y) ->
  tm_transactions s' = tm_transactions (tm c) ->
  (forall y, y <> x -> tm_xidToWorker s' !! y = tm_xidToWorker (tm c) !! y) ->
  (live st' = true -> (live st = true /\ tm_xidToWorker s' = tm_xidToWorker (tm c)) \/
                      tm_xidToWorker s' !! x = Some w) ->
  (live st' = false -> tm_xidToWorker s' !! x = None) ->
  exists a', Spec.step a a' /\ Rel (mkConfig s' (<[w := p']> (pcs c))) a'.
Proof.
  intros Ep Hp Hp' Hstep Hx Hc Hv Ht Htab Hl Hdead. pose proof (r_tables c a HR w) as Hok.
  destruct a as [nx nc f] eqn:Ea. simpl in Hstep. eexists. split; [exact Hstep|].
  change f with (Spec.status_of (Spec.mk nx nc f)) at 1.
  eapply (Rel_change c _ w p p' x st st'); try done; [by left | | by intros; rewrite Ht |].
  - by rewrite Hx, <-(r_xid c _ HR).
  - unfold tables_ok in *. rewrite Ep, Hp in Hok. rewrite Hp', Ht. destruct Hok as [Hok1 Hok2].
    split; [done|]. intros Hlv. destruct (Hl Hlv) as [[Hlv' ->]|]; auto.
Qed.

Lemma owner_status p x st : pc_of c w = p -> pc_status p = Some (x, st) -> Spec.status_of a x = st.
Proof. intros <- E. by apply (r_pc c a HR) in E. Qed.

Lemma sim_begin x s' :
  pc_of c w = Created x -> begin_publish w x (tm c) = (Ok tt, s') ->
  exists a', Spec.step a a' /\ Rel (mkConfig s' (<[w := Running x]> (pcs c))) a'.
Proof.
  intros Ep [_ [= <-]]%locked_inv. pose proof (owner_status _ _ _ Ep eq_refl) as Hst.
  eapply (sim_next _ (Running x) x Spec.New Spec.Active (Spec.next_csn a)); try done.
  - by apply Spec.begin.
  - simpl. by rewrite (r_csn c a HR).
  - intros y. by eapply view_upd.
  - intros y Hne. simpl. by rewrite lookup_insert_ne.
  - right. simpl. by rewrite lookup_insert_eq.
Qed.

Lemma sim_mark x s' :
  pc_of c w = Running x -> commit_mark x (tm c) = (Ok tt, s') ->
  exists a', Spec.step a a' /\ Rel (mkConfig s' (<[w := Marked x]> (pcs c))) a'.
Proof.
  intros Ep [_ [= <-]]%locked_inv. pose proof (owner_status _ _ _ Ep eq_refl) as Hst.
  eapply (sim_next _ (Marked x) x Spec.Active Spec.Committing (Spec.next_csn a)); try done.
  - by apply Spec.mark.
  - simpl. by rewrite (r_csn c a HR).
  - intros y. by eapply view_upd.
  - by left.
Qed.

Lemma sim_number x n s' :
  pc_of c w = Marked x -> 0 <= tm_csn (tm c) < 2 ^ 64 - 1 -> fetch_add_csn (tm c) = (Ok n, s') ->
  exists a', Spec.step a a' /\ Rel (mkConfig s' (<[w := Numbered x n]> (pcs c))) a'.
Proof.
  intros Ep Hr [= <- <-]. pose proof (owner_status _ _ _ Ep eq_refl) as Hst.
  eapply (sim_next _ (Numbered x _) x Spec.Committing (Spec.Numbered (tm_csn (tm c)))
    (tm_csn (tm c) + 1)); try done.
  - rewrite <-(r_csn c a HR). by apply Spec.number.
  - simpl. by rewrite wrap_small by lia.
  - intros y. case_decide; [|done]. subst y. change (view (tm c) x = CommitSeqNumber.Committing).
    by rewrite (r_view c a HR), Hst.
  - by left.
Qed.

Lemma sim_publish x n s' :
  pc_of c w = Numbered x n -> commit_publish x n (tm c) = (Ok tt, s') ->
  exists a', Spec.step a a' /\ Rel (mkConfig s' (<[w := Published x n]> (pcs c))) a'.
Proof.
  intros Ep ->%publish_inv. pose proof (owner_status _ _ _ Ep eq_refl) as Hst.
  eapply (sim_next _ (Published x n) x (Spec.Numbered n) (Spec.Committed n) (Spec.next_csn a)); try done.
  - by apply Spec.publish.
  - simpl. by rewrite (r_csn c a HR).
  - intros y. by eapply view_upd.
  - intros y Hne. simpl. by rewrite lookup_delete_ne.
  - intros _. simpl. by rewrite lookup_delete_eq.
Qed.

Lemma sim_abort x s' :
  pc_of c w = Running x -> abort_publish x (tm c) = (Ok tt, s') ->
  exists a', Spec.step a a' /\ Rel (mkConfig s' (<[w := AbortPublished x]> (pcs c))) a'.
Proof.
  intros Ep ->%publish_inv. pose proof (owner_status _ _ _ Ep eq_refl) as Hst.
  eapply (sim_next _ (AbortPublished x) x Spec.Active Spec.Aborted (Spec.next_csn a)); try done.
  - by apply Spec.abort.
  - simpl. by rewrite (r_csn c a HR).
  - intros y. by eapply view_upd.
  - intros y Hne. simpl. by rewrite lookup_delete_ne.
  - intros _. simpl. by rewrite lookup_delete_eq.
Qed.

(** The end of a handler: the worker is idle again. *)
Lemma sim_finish p x s st :
  pc_of c w = p -> pc_status p = Some (x, st) -> live st = false ->
  s = set_transactions (delete w (tm_transactions (tm c))) (tm c) ->
  Rel (mkConfig s (<[w := Idle]> (pcs c))) a.
Proof.
  intros Ep Hp Hl ->. apply Rel_same; try done.
  - right. split; [done|]. intros y st'. rewrite Ep, Hp. congruence.
  - intros w' Hne. simpl. by rewrite lookup_delete_ne.
  - unfold tables_ok. simpl. by rewrite lookup_delete_eq.
Qed.

(** The work of a running transaction changes its own object only. *)
Lemma sim_running x t t' s :
  pc_of c w = Running x -> tm_transactions (tm c) !! w = Some t ->
  t_xid t' = t_xid t -> t_workerId t' = t_workerId t -> t_latch t' = t_latch t ->
  (exists world, s = set_world world (set_transactions (<[w := t']> (tm_transactions (tm c))) (tm c))) ->
  Rel (mkConfig s (<[w := Running x]> (pcs c))) a.
Proof.
  intros Ep Et Hx Hw Hl [world ->]. pose proof (r_tables c a HR w) as Hok.
  unfold tables_ok in Hok. rewrite Ep in Hok. simpl in Hok.
  destruct Hok as [(t0 & Et0 & Hx0 & Hw0 & Hl0) Htab]. rewrite Et in Et0. simplify_eq.
  apply Rel_same; try done.
  - left. by rewrite Ep.
  - intros w' Hne. simpl. by rewrite lookup_insert_ne.
  - unfold tables_ok. simpl. rewrite lookup_insert_eq. split; [|done].
    exists t'. split_and!; congruence.
Qed.

Lemma sim_lookup y r s' :
  csn_attempt y (tm c) = (Ok r, s') -> Rel (mkConfig s' (<[w := pc_of c w]> (pcs c))) a.
Proof.
  intros [_ E]%locked_inv.
  assert (Hv : forall z, default CommitSeqNumber.Invalid
    (<[y := default CommitSeqNumber.Invalid (tm_history (tm c) !! y)]> (tm_history (tm c)) !! z) = view (tm c) z).
  { intros z. unfold view. destruct (decide (z = y)) as [->|];
      [by rewrite lookup_insert_eq | by rewrite lookup_insert_ne]. }
  pose proof (r_tables c a HR w) as Hok. cbv zeta in E.
  destruct (negb _); simplify_eq; apply Rel_same; try done; by left.
Qed.
End parts.

(** A statement changes the snapshot only, and takes it from the counter once. *)
Lemma BeginNewStatement_inv t (s : TM) t' s' :
  BeginNewStatement t s = (Ok t', s') ->
  s' = s /\ t_xid t' = t_xid t /\ t_workerId t' = t_workerId t /\ t_latch t' = t_latch t /\
  exists sn, t_snapshot t' = Some sn /\
    snap_csn sn = match t_snapshot t with None => tm_csn s | Some sn0 => snap_csn sn0 end.
Proof.
  unfold BeginNewStatement. destruct (t_snapshot t) as [sn|] eqn:Es.
  - destruct (t_undoLog t) as [h|]; [destruct (UndoSeqNumber.IsValid _)|]; intros [= <- <-];
      (split_and!; try done); eauto.
  - intros [= <- <-]. split_and!; eauto.
Qed.

Lemma simulation c c' a :
  step c c' -> Rel c a -> Spec.inv a -> exists a', rtc Spec.step a a' /\ Rel c' a'.
Proof.
  intros [[Hcr Hxr] (w & p' & Hs & Hpcs)] HR Hinv. destruct c' as [s' pcs']. simpl in Hpcs. subst pcs'.
  simpl in Hs. remember (pc_of c w) as p eqn:Ep. symmetry in Ep.
  assert (Hone : (exists a', Spec.step a a' /\ Rel (mkConfig s' (<[w := p']> (pcs c))) a') ->
    exists a', rtc Spec.step a a' /\ Rel (mkConfig s' (<[w := p']> (pcs c))) a').
  { intros (a' & H1 & H2). exists a'. split; [by apply rtc_once | done]. }
  assert (Hzero : Rel (mkConfig s' (<[w := p']> (pcs c))) a ->
    exists a', rtc Spec.step a a' /\ Rel (mkConfig s' (<[w := p']> (pcs c))) a').
  { intros H1. by exists a. }
  remember (tm c) as s eqn:Es. destruct Hs; subst s.
  - apply Hone. by apply (sim_create c a w HR Hinv).
  - apply Hone. by apply (sim_begin c a w HR).
  - apply BeginNewStatement_inv in H1 as (-> & Hx & Hw & Hl & _).
    apply Hzero. eapply (sim_running c a w HR x t t'); try done.
    exists (tm_world (tm c)). by destruct (tm c).
  - apply Hzero. eapply (sim_running c a w HR x t (mkTransaction _ _ _ _ _ _ _ _)); try done; eauto.
  - apply Hone. by apply (sim_mark c a w HR).
  - apply Hone. apply (sim_number c a w HR); (done || lia).
  - apply Hone. by apply (sim_publish c a w HR).
  - apply Hzero. eapply (sim_finish c a w HR _ x _ (Spec.Committed n)); try done.
    unfold commit_finish in H0. apply M_bind_inv in H0 as (t & s1 & [-> _]%get_own_inv & E).
    apply M_bind_inv in E as (t1 & s2 & E1 & E2). injection E1 as _ <-. by injection E2 as <-.
  - apply Hone. by apply (sim_abort c a w HR).
  - apply Hzero. eapply (sim_finish c a w HR _ x _ Spec.Aborted); try done. by injection H0 as <-.
  - apply Hzero. rewrite <-Ep. by eapply (sim_lookup c a w HR).
Qed.

Lemma start_Rel world : Rel (start world) Spec.init.
Proof.
  by split.
Qed.

Lemma refinement c : reachable c -> exists a, rtc Spec.step Spec.init a /\ Rel c a.
Proof.
  intros [world Hs]. revert c Hs. apply (rtc_ind_r (fun c => exists a, rtc Spec.step Spec.init a /\ Rel c a)).
  - exists Spec.init. split; [done | apply start_Rel].
  - intros c c' _ Hs (a & Ha & HR).
    destruct (simulation c c' a Hs HR) as (a' & Ha' & HR').
    { eapply Spec.steps_inv; [apply Spec.init_inv | done]. }
    exists a'. split; [by etrans | done].
Qed.

Lemma simulation_steps c c' a :
  rtc step c c' -> Rel c a -> Spec.inv a -> exists a', rtc Spec.step a a' /\ Rel c' a'.
Proof.
  intros Hs. revert a. induction Hs as [c|c c1 c2 H1 _ IH]; intros a HR Hi; [by exists a|].
  destruct (simulation c c1 a H1 HR Hi) as (a1 & Ha1 & HR1).
  destruct (IH a1 HR1) as (a2 & Ha2 & HR2); [by eapply Spec.steps_inv|].
  exists a2. split; [by etrans | done].
Qed.
End refinement.

(** ** Properties *)
Section properties.
Context `{Build} {W : Type}.
#[local] Notation config := (config (W := W)).
Implicit Type c : config.

(** The tables of a reachable state are those of a run of the abstract machine. *)
Lemma reachable_Rel c : reachable c -> exists a, Rel c a /\ Spec.inv a.
Proof.
  intros Hc. destruct (refinement c Hc) as (a & Ha & HR). exists a. split; [done|].
  eapply Spec.steps_inv; [apply Spec.init_inv | exact Ha].
Qed.

Lemma csn_attempt_view x (s : TransactionManager (W := W)) v s' :
  csn_attempt x s = (Ok (Some v), s') -> v = view s x /\ v <> CommitSeqNumber.Committing.
Proof.
  intros [_ E]%locked_inv. cbv zeta in E.
  destruct (CommitSeqNumber.IsCommitting _) eqn:Ec; simpl in E; [done|]. injection E as <- <-.
  split; [done|]. by apply Z.eqb_neq in Ec.
Qed.

(** The verdict on a begun transaction is defined. *)
Lemma verdict_defined a x snap :
  Spec.inv a -> Spec.csn_of (Spec.status_of a x) <> CommitSeqNumber.Invalid ->
  Spec.csn_of (Spec.status_of a x) <> CommitSeqNumber.Committing ->
  exists b, csn_verdict snap (Spec.csn_of (Spec.status_of a x)) = Ok b.
Proof.
  intros Hi H0 H4. pose proof (Spec.inv_range a Hi x) as Hr. unfold csn_verdict.
  destruct (Spec.status_of a x) as [| | | |n|n|]; simpl in *; try done.
  - rewrite assert_true. by eexists.
  - specialize (Hr n eq_refl). unfold CommitSeqNumber.Min in Hr.
    unfold CommitSeqNumber.IsInvalid, CommitSeqNumber.IsCommitting, CommitSeqNumber.IsInProgress,
      CommitSeqNumber.IsAborted, CommitSeqNumber.IsFrozen, CommitSeqNumber.IsNormal,
      CommitSeqNumber.Invalid, CommitSeqNumber.Committing, CommitSeqNumber.InProgress,
      CommitSeqNumber.Aborted, CommitSeqNumber.Frozen, CommitSeqNumber.Min.
    rewrite !(proj2 (Z.eqb_neq n _)) by lia. rewrite (proj2 (Z.geb_le _ _)) by lia. simpl.
    rewrite !assert_true. by eexists.
  - rewrite assert_true. by eexists.
Qed.

(** C1: the transaction manager refines the abstract machine of [Spec], in which a
    transaction is one value (new, running, committing, committed with a number, ended):
    what the workers do from a reachable state on, in any interleaving, is a run of the
    machine from a state that it can reach, and the tables agree with it at both ends. *)
Theorem transaction_manager_refines c c' :
  reachable c -> rtc step c c' ->
  exists a a', rtc Spec.step Spec.init a /\ Rel c a /\ rtc Spec.step a a' /\ Rel c' a'.
Proof.
  intros Hc Hs. destruct (refinement c Hc) as (a & Ha & HR).
  assert (Hi : Spec.inv a) by (eapply Spec.steps_inv; [apply Spec.init_inv | exact Ha]).
  destruct (simulation_steps c c' a Hs HR Hi) as (a' & Ha' & HR'). by exists a, a'.
Qed.

(** C3: snapshot isolation. A transaction takes its snapshot in some state of the system;
    from then on, however the workers interleave, two lookups of another transaction
    give the same verdict, visible or not: a transaction that was running, or between
    its two commit steps, at the time of the snapshot never becomes visible later, and
    one that was visible stays so. *)
Theorem snapshot_verdict_stable c0 t t' snap s0 c1 c2 x v1 v2 s1 s2 :
  reachable c0 -> t_snapshot t = None -> BeginNewStatement t (tm c0) = (Ok t', s0) ->
  t_snapshot t' = Some snap -> rtc step c0 c1 -> rtc step c1 c2 ->
  csn_attempt x (tm c1) = (Ok (Some v1), s1) -> csn_attempt x (tm c2) = (Ok (Some v2), s2) ->
  v1 <> CommitSeqNumber.Invalid ->
  exists b, csn_verdict (snap_csn snap) v1 = Ok b /\ csn_verdict (snap_csn snap) v2 = Ok b.
Proof.
  intros Hc0 Ht Hb Hsn H01 H12 E1 E2 Hv1.
  apply BeginNewStatement_inv in Hb as (_ & _ & _ & _ & snap' & Esn & Ecsn).
  rewrite Hsn in Esn. injection Esn as <-.
  rewrite Ht in Ecsn. destruct (reachable_Rel c0 Hc0) as (a0 & HR0 & Hi0).
  destruct (simulation_steps c0 c1 a0 H01 HR0 Hi0) as (a1 & Ha1 & HR1).
  pose proof (Spec.steps_inv a0 a1 Hi0 Ha1) as Hi1.
  destruct (simulation_steps c1 c2 a1 H12 HR1 Hi1) as (a2 & Ha2 & HR2).
  pose proof (Spec.steps_inv a1 a2 Hi1 Ha2) as Hi2.
  apply csn_attempt_view in E1 as [-> Hn1], E2 as [-> Hn2].
  rewrite (r_view c1 a1 HR1) in Hv1, Hn1 |- *. rewrite (r_view c2 a2 HR2) in Hn2 |- *.
  assert (Hsnap : snap_csn snap <= Spec.next_csn a1).
  { rewrite Ecsn, <-(r_csn c0 a0 HR0). by apply Spec.steps_csn_mono. }
  assert (Hv2 : Spec.csn_of (Spec.status_of a2 x) <> CommitSeqNumber.Invalid).
  { exact (Spec.begun_stays a1 a2 x Hi1 Ha2 Hv1). }
  destruct (verdict_defined a1 x (snap_csn snap)) as [b1 Hb1]; try done.
  destruct (verdict_defined a2 x (snap_csn snap)) as [b2 Hb2]; try done.
  exists b1. split; [done|]. rewrite Hb2. f_equal. symmetry.
  by eapply (Spec.verdict_stable a1 a2 x).
Qed.

(** C4: commit sequence numbers: in every reachable state, two transactions never have the
    same one, and each lies between [Min] and the counter, so a snapshot taken now sees
    every transaction that is committed now. *)
Theorem commit_numbers_unique c x y :
  reachable c -> CommitSeqNumber.Min <= view (tm c) x ->
  view (tm c) x < tm_csn (tm c) /\ (view (tm c) x = view (tm c) y -> x = y).
Proof.
  intros Hc Hx. destruct (reachable_Rel c Hc) as (a & HR & Hi).
  rewrite !(r_view c a HR) in *. rewrite <-(r_csn c a HR). unfold CommitSeqNumber.Min in Hx.
  destruct (Spec.status_of a x) as [| | | |n|n|] eqn:Ex; simpl in Hx;
    try (by destruct Hx); try (cbv in Hx; lia).
  pose proof (Spec.inv_range a Hi x n) as Hr. rewrite Ex in Hr. specialize (Hr eq_refl).
  split; [simpl; lia|]. intros Ey. simpl in Ey. unfold CommitSeqNumber.Min in Hr.
  apply (Spec.inv_unique a Hi x y n); [by rewrite Ex|].
  destruct (Spec.status_of a y); simpl in *; try (cbv in Ey; lia). by subst.
Qed.

(** [WaitTransactionEnd] returns exactly when it should: in every reachable state in
    which the mutex is free, for a transaction other than the caller's, it returns if
    and only if that transaction is neither in progress nor committing, and changes
    nothing. *)
Theorem wait_returns_when_ended c me x :
  reachable c -> tm_mutex (tm c) = false -> x <> me ->
  WaitTransactionEnd me x (tm c) =
    (Ok (negb (CommitSeqNumber.IsInProgress (view (tm c) x) || CommitSeqNumber.IsCommitting (view (tm c) x))),
     tm c).
Proof.
  intros Hc Hm Hme. destruct (reachable_Rel c Hc) as (a & HR & Hi).
  pose proof (Spec.inv_range a Hi x) as Hr. rewrite (r_view c a HR).
  assert (Hlive : CommitSeqNumber.IsInProgress (Spec.csn_of (Spec.status_of a x)) ||
      CommitSeqNumber.IsCommitting (Spec.csn_of (Spec.status_of a x)) = live (Spec.status_of a x)).
  { destruct (Spec.status_of a x) as [| | | |n|n|]; try done. simpl. specialize (Hr n eq_refl).
    unfold CommitSeqNumber.Min, CommitSeqNumber.IsInProgress, CommitSeqNumber.IsCommitting,
      CommitSeqNumber.InProgress, CommitSeqNumber.Committing in *.
    by rewrite !(proj2 (Z.eqb_neq n _)) by lia. }
  rewrite Hlive. unfold WaitTransactionEnd, wait_lookup, locked.
  erewrite M_bind_Ok by (rewrite Hm; reflexivity).
  destruct (tm_xidToWorker (tm c) !! x) as [w|] eqn:Ew.
  - pose proof (r_tab c a HR x w Ew) as Hl. rewrite Hl.
    destruct (r_owner c a HR x Hl) as [w' Ep]. pose proof (r_tables c a HR w') as Hok.
    unfold tables_ok in Hok. rewrite Ep in Hok. destruct Hok as [(t & Et & Hx & Hw & Hlt) Htab].
    rewrite (Htab Hl) in Ew. injection Ew as <-. unfold wait_latch. rewrite Et, Hx, Hw, !Z.eqb_refl.
    simpl. rewrite assert_true, (proj2 (Z.eqb_neq _ _) Hme). simpl. by rewrite assert_true, Hlt.
  - destruct (live (Spec.status_of a x)) eqn:Hl; [|done].
    destruct (r_owner c a HR x Hl) as [w' Ep]. pose proof (r_tables c a HR w') as Hok.
    unfold tables_ok in Hok. rewrite Ep in Hok. destruct Hok as [_ Htab].
    by rewrite (Htab Hl) in Ew.
Qed.

(** A step taken while the mutex is held forever. *)
Lemma stuck_step c c' :
  step c c' -> tm_mutex (tm c) = true ->
  tm_mutex (tm c') = true /\ tm_history (tm c') = tm_history (tm c) /\
  tm_xidToWorker (tm c') = tm_xidToWorker (tm c).
Proof.
  intros [_ (w & p' & Hs & _)] Hm. remember (tm c) as s. remember (tm c') as s'. clear Heqs Heqs'.
  assert (Hlk : forall A (body : M (TransactionManager (W := W)) A) r s1, locked body s <> (Ok r, s1)).
  { intros A body r s1. unfold locked. by rewrite Hm. }
  destruct Hs as [s x s1 E|s x s1 E|s x t t' s1 Et E|s x t undo lsn world Et|s x s1 E|s x n s1 E
    |s x n s1 E|s x n s1 E|s x s1 E|s x s1 E|p s y r s1 E]; try (by apply Hlk in E).
  - by apply begin_create_inv in E as [_ ->].
  - by apply BeginNewStatement_inv in E as (-> & _).
  - done.
  - by injection E as <- <-.
  - unfold commit_finish in E. apply M_bind_inv in E as (t & s2 & [-> _]%get_own_inv & E).
    apply M_bind_inv in E as (t1 & s3 & E1 & E2). injection E1 as _ <-. by injection E2 as <-.
  - by injection E as <-.
Qed.

(** the lock that [GetTransactionCsn] gives up with [release] instead of unlocking
    stays held forever. One reader that meets a committing transaction is enough: from
    then on, whatever the workers do, no transaction can begin, be marked committed or
    aborted, or be looked up any more; the tables never change again. *)
Theorem spin_leaks_lock c c' x v s' :
  rtc step (mkConfig s' (pcs c)) c' -> csn_attempt x (tm c) = (Ok v, s') ->
  view (tm c) x = CommitSeqNumber.Committing ->
  v = None /\ tm_mutex (tm c') = true /\ tm_history (tm c') = tm_history s' /\
  tm_xidToWorker (tm c') = tm_xidToWorker s' /\
  forall A (body : M (TransactionManager (W := W)) A),
    locked body (tm c') = (Fault (Blocked "_mutex"), tm c').
Proof.
  intros Hs E Hv. apply locked_inv in E as [_ E]. cbv zeta in E. fold (view (tm c) x) in E.
  rewrite Hv in E. simpl in E. injection E as <- <-. split; [done|].
  assert (Hinv : tm_mutex (tm c') = true /\ tm_history (tm c') = tm_history (set_mutex true
    (set_history (<[x:=CommitSeqNumber.Committing]> (tm_history (tm c))) (tm c))) /\
    tm_xidToWorker (tm c') = tm_xidToWorker (tm c)).
  { revert c' Hs. refine (rtc_ind_r _ _ _ _); [done|].
    intros c1 c2 _ H1 (Hm & Hh & Ht). destruct (stuck_step c1 c2 H1 Hm) as (-> & -> & ->). done. }
  destruct Hinv as (Hm & Hh & Ht). split_and!; try done.
  intros A body. unfold locked. by rewrite Hm.
Qed.
End properties.

(** ** Concrete executions *)
Section examples.
#[local] Existing Instance DebugBuild.
#[local] Notation config := (config (W := unit)).

(** The state after a part of worker [w] that leads to [p]. *)
Definition ex_next {A} (w : Z) (p : pc) (m : M (TransactionManager (W := unit)) A) (c : config) : config :=
  mkConfig (snd (m (tm c))) (<[w := p]> (pcs c)).

(** Worker 0 begins transaction 1, and then commits it in three parts. *)
Definition ex_c1 : config := ex_next 0 (Created 1) (begin_create 0) (start tt).
Definition ex_c2 : config := ex_next 0 (Running 1) (begin_publish 0 1) ex_c1.
Definition ex_c3 : config := ex_next 0 (Marked 1) (commit_mark 1) ex_c2.
Definition ex_c4 : config := ex_next 0 (Numbered 1 5) fetch_add_csn ex_c3.
Definition ex_c5 : config := ex_next 0 (Published 1 5) (commit_publish 1 5) ex_c4.

Lemma ex_step1 : step (start tt) ex_c1.
Proof. split; [by vm_compute | exists 0, (Created 1)]. split; [by apply step_create | done]. Qed.
Lemma ex_step2 : step ex_c1 ex_c2.
Proof. split; [by vm_compute | exists 0, (Running 1)]. split; [by apply step_begin | done]. Qed.
Lemma ex_step3 : step ex_c2 ex_c3.
Proof. split; [by vm_compute | exists 0, (Marked 1)]. split; [by apply step_mark | done]. Qed.
Lemma ex_step4 : step ex_c3 ex_c4.
Proof. split; [by vm_compute | exists 0, (Numbered 1 5)]. split; [by apply step_number | done]. Qed.
Lemma ex_step5 : step ex_c4 ex_c5.
Proof.
  split; [by vm_compute | exists 0, (Published 1 5)].
  split; [apply (step_publish 0 (tm ex_c4)); vm_compute; reflexivity | done].
Qed.

Lemma ex_reach2 : reachable ex_c2.
Proof. exists tt. eapply rtc_l; [apply ex_step1 | eapply rtc_l; [apply ex_step2 | apply rtc_refl]]. Qed.
Lemma ex_run : rtc step ex_c2 ex_c5.
Proof.
  eapply rtc_l; [apply ex_step3 | eapply rtc_l; [apply ex_step4 | eapply rtc_l; [apply ex_step5 | apply rtc_refl]]].
Qed.

Lemma transaction_manager_refines_witness :
  exists a a', rtc Spec.step Spec.init a /\ Rel ex_c2 a /\ rtc Spec.step a a' /\ Rel ex_c5 a'.
Proof. exact (transaction_manager_refines ex_c2 ex_c5 ex_reach2 ex_run). Defined.

(** Transaction 1 runs when the snapshot is taken and commits with number 5 later. *)
Lemma snapshot_verdict_stable_witness :
  exists b, csn_verdict 5 CommitSeqNumber.InProgress = Ok b /\ csn_verdict 5 5 = Ok b.
Proof.
  apply (snapshot_verdict_stable ex_c2 (newTransaction 2 1)
    (set_snapshot (newTransaction 2 1) (mkSnapshot 5 0)) (mkSnapshot 5 0) (tm ex_c2) ex_c2 ex_c5 1
    CommitSeqNumber.InProgress 5 (snd (csn_attempt 1 (tm ex_c2))) (snd (csn_attempt 1 (tm ex_c5)))).
  - exact ex_reach2.
  - reflexivity.
  - reflexivity.
  - reflexivity.
  - apply rtc_refl.
  - exact ex_run.
  - vm_compute. reflexivity.
  - vm_compute. reflexivity.
  - discriminate.
Defined.

Lemma commit_numbers_unique_witness :
  view (tm ex_c5) 1 < tm_csn (tm ex_c5) /\ (view (tm ex_c5) 1 = view (tm ex_c5) 2 -> 1 = 2).
Proof.
  apply commit_numbers_unique.
  - exists tt. destruct ex_reach2 as [[] H]. etrans; [exact H | exact ex_run].
  - vm_compute. congruence.
Defined.

Lemma wait_returns_when_ended_witness : WaitTransactionEnd 2 1 (tm ex_c2) = (Ok false, tm ex_c2).
Proof.
  rewrite (wait_returns_when_ended ex_c2 2 1).
  - reflexivity.
  - exact ex_reach2.
  - reflexivity.
  - discriminate.
Defined.

(** A reader that meets the committing transaction of [ex_c3] stops the system. *)
Lemma spin_leaks_lock_witness :
  exists c', rtc step (mkConfig (snd (csn_attempt 1 (tm ex_c3))) (pcs ex_c3)) c' /\ tm_mutex (tm c') = true /\
    pc_of c' 0 = Numbered 1 5 /\ commit_publish 1 5 (tm c') = (Fault (Blocked "_mutex"), tm c').
Proof.
  set (s' := snd (csn_attempt 1 (tm ex_c3))).
  set (c' := ex_next 0 (Numbered 1 5) fetch_add_csn (mkConfig s' (pcs ex_c3))).
  assert (Hrun : rtc step (mkConfig s' (pcs ex_c3)) c').
  { apply rtc_once. split; [by vm_compute | exists 0, (Numbered 1 5)]. split; [by apply step_number | done]. }
  destruct (spin_leaks_lock ex_c3 c' 1 None s' Hrun) as (_ & Hm & _ & _ & Hl).
  - reflexivity.
  - reflexivity.
  - exists c'. split_and!; [exact Hrun | exact Hm | reflexivity | apply Hl].
Defined.
End examples.
