(* ===== verification/World.v ===== *)
(** The world in which the table code runs, behind interfaces: the pages that the buffer
    pool gives access to, the buffer latches that the worker holds in exclusive mode, the
    undo log of its transaction, the write-ahead log and the transaction table.

    A client proves its theorems against the laws of these interfaces; [Mem_pages],
    [Mem_undo], [Mem_wal] and [Fixed_txns] at the end of the file are in-memory instances
    of them that the examples run on. *)
From S2P Require Import Prelude Types WAL UndoRecord HeapPage.

(** ** Interfaces *)
Class PageStore (P : Type) := {
  ps_get : P -> PageTag -> result (list byte);
  ps_put : P -> PageTag -> list byte -> P;
  ps_extend : P -> Z -> result (Z * P);
  ps_count : P -> Z -> Z
}.

(** The pages of a table are numbered from 0; a page that was written is read back; an
    extension adds a page of zeros at the end. *)
Class PageStoreLaws (P : Type) `{PageStore P} := {
  ps_get_put : forall p t b, ps_get (ps_put p t b) t = Ok b;
  ps_get_put_ne : forall p t t' b, t <> t' -> ps_get (ps_put p t b) t' = ps_get p t';
  ps_count_put : forall p t b r, ps_count (ps_put p t b) r = ps_count p r;
  ps_extend_Ok : forall p r n p', ps_extend p r = Ok (n, p') ->
    n = ps_count p r /\ ps_count p' r = n + 1 /\
    ps_get p' (mkPageTag r n) = Ok (zeros Config.PageSize) /\
    forall t, t <> mkPageTag r n -> ps_get p' t = ps_get p t
}.

Class UndoStore (U : Type) := {
  us_insert : Z -> HeapUndoRecord -> M U Z;
  us_get : Z -> M U HeapUndoRecord
}.

Class WalStore (L : Type) := { wl_write : Z -> HeapWALRecord -> M L Z }.

Class TxnTable (T : Type) := { tx_csn : Z -> M T Z }.

(** ** The world *)
Section World.
Context {P U L T : Type} `{PageStore P, UndoStore U, WalStore L, TxnTable T}.

Record World := mkWorld {
  w_pages : P; w_latches : gset PageTag; w_undo : U; w_wal : L; w_txn : T }.

Definition GetBuffer (tag : PageTag) : M World (list byte) := fun w => (ps_get (w_pages w) tag, w).
Definition set_page (tag : PageTag) (page : list byte) : M World unit := fun w =>
  (Ok tt, mkWorld (ps_put (w_pages w) tag page) (w_latches w) (w_undo w) (w_wal w) (w_txn w)).
Definition set_latches (s : gset PageTag) (w : World) : World :=
  mkWorld (w_pages w) s (w_undo w) (w_wal w) (w_txn w).

(** [MyTransaction->GetUndoLog().InsertRecord] *)
Definition InsertRecord (xid : Z) (r : HeapUndoRecord) : M World Z := fun w =>
  let '(res, u) := us_insert xid r (w_undo w) in
  (res, mkWorld (w_pages w) (w_latches w) u (w_wal w) (w_txn w)).
Definition GetRecord (usn : Z) : M World HeapUndoRecord := fun w =>
  let '(res, u) := us_get usn (w_undo w) in
  (res, mkWorld (w_pages w) (w_latches w) u (w_wal w) (w_txn w)).
Definition WriteLogRecord (xid : Z) (r : HeapWALRecord) : M World Z := fun w =>
  let '(res, l) := wl_write xid r (w_wal w) in
  (res, mkWorld (w_pages w) (w_latches w) (w_undo w) l (w_txn w)).
Definition GetTransactionCsn (xid : Z) : M World Z := fun w =>
  let '(res, t) := tx_csn xid (w_txn w) in
  (res, mkWorld (w_pages w) (w_latches w) (w_undo w) (w_wal w) t).

(** The content latch of a buffer is not reentrant: a worker that holds it in exclusive
    mode waits for itself, in either mode. *)
Definition Lock (tag : PageTag) : M World unit := fun w =>
  if decide (tag ∈ w_latches w) then (Fault (Blocked "buffer latch"), w)
  else (Ok tt, set_latches ({[tag]} ∪ w_latches w) w).
Definition Unlock (tag : PageTag) : M World unit := fun w =>
  (Ok tt, set_latches (w_latches w ∖ {[tag]}) w).
Definition lock_shared (tag : PageTag) : M World unit := fun w =>
  if decide (tag ∈ w_latches w) then (Fault (Blocked "buffer latch"), w) else (Ok tt, w).

(** A block whose local variables own latches: leaving it, normally or by an exception,
    releases those it took ([~BufferLockBase], [~unique_lock]). *)
Definition scope {A} (body : M World A) : M World A := fun w =>
  let '(r, w') := body w in (r, set_latches (w_latches w) w').

Definition GetPageCount (tableId : Z) : M World Z :=
  gets (fun w => wrap 32 (ps_count (w_pages w) tableId)).

Definition ExtendRelation (tableId : Z) : M World Z := fun w =>
  match ps_extend (w_pages w) tableId with
  | Ok (pageno, p) => (Ok pageno, mkWorld p (w_latches w) (w_undo w) (w_wal w) (w_txn w))
  | Fault e => (Fault e, w)
  end.

(** Steps of a handler in the world. *)
Lemma GetBuffer_Ok {A} (k : list byte -> M World A) w tag p :
  ps_get (w_pages w) tag = Ok p -> mbind k (GetBuffer tag) w = k p w.
Proof. unfold mbind, M_bind, GetBuffer. by intros ->. Qed.

Lemma Lock_Ok {A} (k : unit -> M World A) w tag :
  tag ∉ w_latches w -> mbind k (Lock tag) w = k tt (set_latches ({[tag]} ∪ w_latches w) w).
Proof. intros. unfold mbind, M_bind, Lock. by rewrite decide_False by done. Qed.

Lemma Lock_blocked {A} (k : unit -> M World A) w tag :
  tag ∈ w_latches w -> mbind k (Lock tag) w = (Fault (Blocked "buffer latch"), w).
Proof. intros. unfold mbind, M_bind, Lock. by rewrite decide_True by done. Qed.

Lemma lock_shared_Ok {A} (k : unit -> M World A) w tag :
  tag ∉ w_latches w -> mbind k (lock_shared tag) w = k tt w.
Proof. intros. unfold mbind, M_bind, lock_shared. by rewrite decide_False by done. Qed.

Lemma lock_shared_blocked {A} (k : unit -> M World A) w tag :
  tag ∈ w_latches w -> mbind k (lock_shared tag) w = (Fault (Blocked "buffer latch"), w).
Proof. intros. unfold mbind, M_bind, lock_shared. by rewrite decide_True by done. Qed.

Lemma scope_run {A} (body : M World A) w r w' :
  body w = (r, w') -> scope body w = (r, set_latches (w_latches w) w').
Proof. unfold scope. by intros ->. Qed.

Lemma InsertRecord_Ok {A} (k : Z -> M World A) w xid r usn u' :
  us_insert xid r (w_undo w) = (Ok usn, u') ->
  mbind k (InsertRecord xid r) w = k usn (mkWorld (w_pages w) (w_latches w) u' (w_wal w) (w_txn w)).
Proof. unfold mbind, M_bind, InsertRecord. by intros ->. Qed.

Lemma WriteLogRecord_Ok {A} (k : Z -> M World A) w xid r lsn l' :
  wl_write xid r (w_wal w) = (Ok lsn, l') ->
  mbind k (WriteLogRecord xid r) w = k lsn (mkWorld (w_pages w) (w_latches w) (w_undo w) l' (w_txn w)).
Proof. unfold mbind, M_bind, WriteLogRecord. by intros ->. Qed.

Lemma GetTransactionCsn_Ok {A} (k : Z -> M World A) w xid csn t' :
  tx_csn xid (w_txn w) = (Ok csn, t') ->
  mbind k (GetTransactionCsn xid) w = k csn (mkWorld (w_pages w) (w_latches w) (w_undo w) (w_wal w) t').
Proof. unfold mbind, M_bind, GetTransactionCsn. by intros ->. Qed.

Lemma GetRecord_Ok {A} (k : HeapUndoRecord -> M World A) w usn r :
  us_get usn (w_undo w) = (Ok r, w_undo w) -> mbind k (GetRecord usn) w = k r w.
Proof. unfold mbind, M_bind, GetRecord. intros ->. by destruct w. Qed.
End World.
#[global] Arguments World : clear implicits.

(** ** In-memory instances *)
Record MemPages := mkMemPages { mp_pages : gmap PageTag (list byte); mp_count : gmap Z Z }.

#[export] Instance Mem_pages : PageStore MemPages := {
  ps_get p t := of_option (Throw "no such page") (mp_pages p !! t);
  ps_put p t b := mkMemPages (<[t := b]> (mp_pages p)) (mp_count p);
  ps_extend p r :=
    let n := default 0 (mp_count p !! r) in
    Ok (n, mkMemPages (<[mkPageTag r n := zeros Config.PageSize]> (mp_pages p)) (<[r := n + 1]> (mp_count p)));
  ps_count p r := default 0 (mp_count p !! r)
}.

#[export] Instance Mem_pages_laws : PageStoreLaws MemPages.
Proof.
  split; cbn [ps_get ps_put ps_count ps_extend Mem_pages mp_pages mp_count].
  - intros. by rewrite lookup_insert_eq.
  - intros. by rewrite lookup_insert_ne.
  - done.
  - intros p r n p' [= <- <-]. cbn [mp_count mp_pages]. rewrite !lookup_insert_eq. split_and!; [done..|].
    intros t Ht. by rewrite lookup_insert_ne.
Qed.

(** The undo log as the list of its records, numbered from 1. *)
#[export] Instance Mem_undo : UndoStore (list HeapUndoRecord) := {
  us_insert _ r u := (Ok (zlen u + 1), u ++ [r]);
  us_get usn u :=
    (of_option (Throw "no such record") (if 1 <=? usn then u !! Z.to_nat (usn - 1) else None), u)
}.

#[export] Instance Mem_wal : WalStore (list HeapWALRecord) := {
  wl_write _ r l := (Ok (zlen l + 1), l ++ [r])
}.

(** The status of each transaction, as a CSN. *)
#[export] Instance Fixed_txns : TxnTable (gmap Z Z) := {
  tx_csn xid t := (Ok (default CommitSeqNumber.Aborted (t !! xid)), t)
}.
