(* ===== verification/HeapTable.v ===== *)
(** [access/heap/HeapTable.cpp], [HeapTupleSerializer.cpp] and [HeapTuple.cpp]: the
    operations of a table on its pages. *)
From S2P Require Import Prelude Types WAL UndoRecord TupleSerializer HeapPage World.

(** ** Tuples in memory *)
Record HeapPageTuple := mkHPT {
  Header : HeapPageTupleHeader.t; hpt_values : list Datum; hpt_isnull : list bool }.

Record HeapTuple := mkHeapTuple {
  ht_descriptor : TupleDescriptor; ht_tuple : HeapPageTuple; GetTID : TupleId }.

(** [ITuple]: the attributes by number. *)
Record ITuple := mkITuple { GetAttribute : Z -> result (option Datum); GetMaxAttno : Z }.

Section tuples.
Context `{Build}.

Definition HeapTuple_GetAttribute (t : HeapTuple) (attno : Z) : result (option Datum) :=
  if GetMaxAttrNumber (ht_descriptor t) <? attno
  then Fault (Throw "provided attribute number greater than available")
  else
    i ← AttrNumber.ToIndex attno;
    n ← vec_get (hpt_isnull (ht_tuple t)) i;
    if n : bool then Ok None else Some <$> vec_get (hpt_values (ht_tuple t)) i.

Definition HeapTuple_ITuple (t : HeapTuple) : ITuple :=
  mkITuple (HeapTuple_GetAttribute t) (GetMaxAttrNumber (ht_descriptor t)).

(** [HeapTupleSerializer] *)
Definition HTS_Serialize (tuple : HeapPageTuple) (desc : TupleDescriptor) : result (list byte) :=
  sti ← TupleSerializer.Serialize desc (hpt_values tuple) (hpt_isnull tuple);
  let buffer := zeros (wrap 64 (zlen (Tuple sti) + HeapPageTupleHeader.size)) in
  let h := Header tuple in
  let flags := if HasNulls sti then HeapPageTupleHeader.HasNulls else 0 in
  buffer ← HeapPageTupleHeader.store buffer 0
    (HeapPageTupleHeader.mk (HeapPageTupleHeader.xid h) (HeapPageTupleHeader.undo h) flags);
  wr buffer HeapPageTupleHeader.size (Tuple sti).

Definition HTS_Deserialize (array : list byte) (desc : TupleDescriptor) : result HeapPageTuple :=
  h ← HeapPageTupleHeader.load array 0;
  dt ← TupleSerializer.Deserialize desc (drop (Z.to_nat HeapPageTupleHeader.size) array)
         (HeapPageTupleHeader.has_flag h HeapPageTupleHeader.HasNulls);
  Ok (mkHPT h (Values dt) (IsNull dt)).

(** [formHeapPageTuple]; [xid] is [MyTransaction->GetXID()]. The null bitmap size that the
    code computes for [dataStart] is not used. *)
Definition form_step (tuple : ITuple) (acc : list Datum * list bool * bool) (idx : nat)
    : result (list Datum * list bool * bool) :=
  let '(values, isnull, anyNull) := acc in
  datum ← GetAttribute tuple (Z.of_nat idx + 1);
  match datum with
  | Some v => values ← vec_set values idx v; Ok (values, isnull, anyNull)
  | None => isnull ← vec_set isnull idx true; Ok (values, isnull, true)
  end.

Definition formHeapPageTuple (desc : TupleDescriptor) (xid : Z) (tuple : ITuple) : result HeapPageTuple :=
  let maxAttr := GetMaxAttrNumber desc in
  let values := replicate (Z.to_nat maxAttr) (Scalar 0) in
  let isnull := replicate (Z.to_nat maxAttr) false in
  '(values, isnull, anyNull) ← AttrNumber.for_each maxAttr (form_step tuple) (values, isnull, false);
  let flags := if anyNull : bool then HeapPageTupleHeader.HasNulls else 0 in
  Ok (mkHPT (HeapPageTupleHeader.mk xid UndoSeqNumber.Invalid flags) values isnull).

Definition set_undo (usn : Z) (t : HeapPageTuple) : HeapPageTuple :=
  mkHPT (HeapPageTupleHeader.mk (HeapPageTupleHeader.xid (Header t)) usn
    (HeapPageTupleHeader.flags (Header t))) (hpt_values t) (hpt_isnull t).
End tuples.

Section HeapTable.
Context `{Build} {P U L T : Type} `{PageStore P, UndoStore U, WalStore L, TxnTable T}.
#[local] Notation World := (World P U L T).

(** [TransactionManagerGlobal->WaitTransactionEnd]: while it waits, the other workers
    change the world. *)
Context (WaitTransactionEnd : Z -> M World unit).

(** [_tableId], [_tupleDescriptor] and the xid of [MyTransaction]. *)
Context (tableId : Z) (desc : TupleDescriptor) (my_xid : Z).

Definition tag_of (pageno : Z) : PageTag := mkPageTag tableId pageno.

(** ** searchPageFreeSpace *)
Fixpoint search_from (fuel : nat) (pageno npages freeSpace : Z) : M World (option Z) :=
  match fuel with
  | O => throw NoFuel
  | S k =>
      if pageno <? npages then
        page ← GetBuffer (tag_of pageno);
        _ ← lock_shared (tag_of pageno);
        free ← lift (Page.GetFreeSpace page);
        if free <? freeSpace then search_from k (PageNumber.add pageno 1) npages freeSpace
        else mret (Some pageno)
      else mret None
  end.

(** The end of [searchPageFreeSpace]: a new page. *)
Definition start_page (freeSpace : Z) : M World Z :=
  pageno ← ExtendRelation tableId;
  page ← GetBuffer (tag_of pageno);
  _ ← scope (
    _ ← Lock (tag_of pageno);
    is_new ← lift (Page.IsNew page);
    if is_new : bool then
      page ← lift (Page.Init page);
      set_page (tag_of pageno) page
    else mret tt);
  page ← GetBuffer (tag_of pageno);
  _ ← lock_shared (tag_of pageno);
  free ← lift (Page.GetFreeSpace page);
  _ ← lift (assert_ (free <? freeSpace) "page.GetFreeSpace() < freeSpace");
  mret pageno.

Definition searchPageFreeSpace (freeSpace : Z) : M World Z :=
  npages ← GetPageCount tableId;
  found ← search_from (Z.to_nat npages + 1) PageNumber.MinValue npages freeSpace;
  match found with
  | Some pageno => mret pageno
  | None => start_page freeSpace
  end.

(** ** InsertTuple *)

(** The body of the loop; its result is [inserted]. *)
Definition insert_attempt (heapTuple : list byte) (freeSpace : Z) : M World bool := scope (
  pageno ← searchPageFreeSpace freeSpace;
  let tag := tag_of pageno in
  _ ← Lock tag;
  page ← GetBuffer tag;
  free ← lift (Page.GetFreeSpace page);
  if free <? freeSpace then mret false
  else
    n ← lift (Page.ItemsCount page);
    let newTupId := mkTupleId pageno n in
    usn ← InsertRecord my_xid (DeleteUndoRecord tableId newTupId);
    lsn ← WriteLogRecord my_xid (InsertHeapWALRecord newTupId heapTuple);
    page ← lift (Page.insert_tuple page lsn heapTuple);
    _ ← set_page tag page;
    mret true).

Fixpoint insert_loop (fuel : nat) (heapTuple : list byte) (freeSpace : Z) : M World unit :=
  match fuel with
  | O => throw NoFuel
  | S k =>
      inserted ← insert_attempt heapTuple freeSpace;
      if inserted : bool then mret tt else insert_loop k heapTuple freeSpace
  end.

(** The tuple's undo field is set in [heapPageTuple] only after [heapTuple], the bytes
    that are written, was made from it. *)
Definition InsertTuple (fuel : nat) (tuple : ITuple) : M World unit :=
  heapPageTuple ← lift (formHeapPageTuple desc my_xid tuple);
  heapTuple ← lift (HTS_Serialize heapPageTuple desc);
  let freeSpace := wrap 64 (zlen heapTuple + Page.sizeof_ItemId) in
  insert_loop fuel heapTuple freeSpace.

(** ** wait_tnx_end *)
Definition wait_tnx_end (xid : Z) : M World unit :=
  csn ← GetTransactionCsn xid;
  csn ← (if CommitSeqNumber.IsInProgress csn then
           _ ← WaitTransactionEnd xid;
           GetTransactionCsn xid
         else mret csn);
  _ ← lift (assert_ (negb (CommitSeqNumber.IsInvalid csn || CommitSeqNumber.IsCommitting csn))
        "!(csn.IsInvalid() || csn.IsCommitting())");
  if CommitSeqNumber.IsAborted csn then mret tt
  else if CommitSeqNumber.IsFrozen csn || CommitSeqNumber.IsNormal csn
  then throw (Throw "tuple was concurrently modified")
  else
    _ ← lift (assert_ false "false");
    throw (Throw "invalid status for transaction").

(** [UpdateTuple] and [DeleteTuple]: if the tuple on the page is of another transaction
    than the one that was read, wait for that transaction without the latch. *)
Definition check_concurrent (tag : PageTag) (page_xid read_xid : Z) : M World unit :=
  if negb (page_xid =? read_xid) then
    _ ← Unlock tag;
    _ ← wait_tnx_end page_xid;
    Lock tag
  else mret tt.

(** ** UpdateTuple *)

(** The search for another page; [searchPageFreeSpace] runs with the latches that the
    handler holds, and the page that it finds stays latched. *)
Fixpoint update_search (fuel : nat) (newSize : Z) (newLock : option PageTag) : M World TupleId :=
  match fuel with
  | O => throw NoFuel
  | S k =>
      pageno ← searchPageFreeSpace (wrap 64 (newSize + Page.sizeof_ItemId));
      let tag := tag_of pageno in
      _ ← Lock tag;
      _ ← (match newLock with Some t => Unlock t | None => mret tt end);
      newPage ← GetBuffer tag;
      free ← lift (Page.GetFreeSpace newPage);
      if wrap 64 (newSize + Page.sizeof_ItemId) <=? free then
        n ← lift (Page.ItemsCount newPage);
        mret (mkTupleId pageno n)
      else update_search k newSize (Some tag)
  end.

Definition choose_location (fuel : nat) (oldPage : list byte) (oldItemId : ItemId.t) (oldTID : TupleId)
    (newSize : Z) : M World TupleId :=
  if newSize <=? ItemId.getLength oldItemId then mret oldTID
  else
    free ← lift (Page.GetFreeSpace oldPage);
    if wrap 64 (newSize + Page.sizeof_ItemId) <=? free then
      n ← lift (Page.ItemsCount oldPage);
      mret (mkTupleId (pageno oldTID) n)
    else update_search fuel newSize None.

Definition overwrite (page : list byte) (index : Z) (bytes : list byte) : result (list byte) :=
  lp ← Page.GetItemId page index;
  i ← Page.load_itemid page lp;
  addr ← Page.GetTuple i;
  wr page addr bytes.

(** A tuple in a new slot: [lower] is moved, [upper] is not. *)
Definition add_moved (page : list byte) (index : Z) (bytes : list byte) : result (list byte) :=
  lp ← Page.GetItemId page index;
  upper ← Page.get_upper page;
  let offset := wrap 16 (upper - zlen bytes) in
  i ← Page.load_itemid page lp;
  i ← ItemId.setNormal i (wrap 16 (zlen bytes)) offset;
  page ← Page.store_itemid page lp i;
  lower ← Page.get_lower page;
  page ← Page.set_lower page (wrap 16 (lower + Page.sizeof_ItemId));
  addr ← Page.GetTuple i;
  wr page addr bytes.

Definition mark_updated (page : list byte) (index usn : Z) : result (list byte) :=
  lp ← Page.GetItemId page index;
  i ← Page.load_itemid page lp;
  addr ← Page.GetTuple i;
  h ← HeapPageTupleHeader.load page addr;
  HeapPageTupleHeader.store page addr
    (HeapPageTupleHeader.mk my_xid usn (Z.lor (HeapPageTupleHeader.flags h) HeapPageTupleHeader.Deleted)).

Definition UpdateTuple (fuel : nat) (oldHeapTuple : HeapTuple) (newTuple : ITuple) : M World unit := scope (
  newHeapPageTuple ← lift (formHeapPageTuple desc my_xid newTuple);
  newTup ← lift (HTS_Serialize newHeapPageTuple desc);
  let oldTID := GetTID oldHeapTuple in
  let tag := tag_of (pageno oldTID) in
  oldPage ← GetBuffer tag;
  _ ← Lock tag;
  lp ← lift (Page.GetItemId oldPage (itemid oldTID));
  i ← lift (Page.load_itemid oldPage lp);
  addr ← lift (Page.GetTuple i);
  h ← lift (HeapPageTupleHeader.load oldPage addr);
  _ ← check_concurrent tag (HeapPageTupleHeader.xid h) (HeapPageTupleHeader.xid (Header (ht_tuple oldHeapTuple)));
  oldPage ← GetBuffer tag;
  i ← lift (Page.load_itemid oldPage lp);
  newTID ← choose_location fuel oldPage i oldTID (zlen newTup);
  buffer ← lift (HTS_Serialize (ht_tuple oldHeapTuple) desc);
  usn ← InsertRecord my_xid (UpdateUndoRecord tableId oldTID newTID buffer);
  let newHeapPageTuple := set_undo usn newHeapPageTuple in
  bytes ← lift (HTS_Serialize newHeapPageTuple desc);
  _ ← lift (assert_ (zlen bytes <? 2 ^ 16 - 1) "newHeapPageTupleSerialized.size() < UINT16_MAX");
  lsn ← WriteLogRecord my_xid (UpdateHeapWALRecord tableId newTID oldTID bytes);
  let newTag := tag_of (pageno newTID) in
  _ ← (if TupleId_eqb newTID oldTID then
         page ← lift (overwrite oldPage (itemid newTID) bytes);
         set_page tag page
       else
         newPage ← GetBuffer newTag;
         page ← lift (add_moved newPage (itemid newTID) bytes);
         set_page newTag page);
  _ ← (if TupleId_eqb newTID oldTID then mret tt
       else
         oldPage ← GetBuffer tag;
         page ← lift (mark_updated oldPage (itemid oldTID) usn);
         set_page tag page);
  oldPage ← GetBuffer tag;
  page ← lift (Page.set_lsn oldPage lsn);
  _ ← set_page tag page;
  if negb (pageno newTID =? pageno oldTID) then
    newPage ← GetBuffer newTag;
    page ← lift (Page.set_lsn newPage lsn);
    set_page newTag page
  else mret tt).

(** ** DeleteTuple *)
Definition DeleteTuple (heapTuple : HeapTuple) : M World unit := scope (
  let tid := GetTID heapTuple in
  let tag := tag_of (pageno tid) in
  page ← GetBuffer tag;
  _ ← Lock tag;
  lp ← lift (Page.GetItemId page (itemid tid));
  i ← lift (Page.load_itemid page lp);
  addr ← lift (Page.GetTuple i);
  h ← lift (HeapPageTupleHeader.load page addr);
  _ ← check_concurrent tag (HeapPageTupleHeader.xid h) (HeapPageTupleHeader.xid (Header (ht_tuple heapTuple)));
  page ← GetBuffer tag;
  i ← lift (Page.load_itemid page lp);
  oldTupleSer ← lift (rd page addr (ItemId.getLength i));
  usn ← InsertRecord my_xid (UndoRecord.InsertUndoRecord tableId tid oldTupleSer);
  let newTupleHeader := HeapPageTupleHeader.mk my_xid usn HeapPageTupleHeader.Deleted in
  lsn ← WriteLogRecord my_xid (DeleteHeapWALRecord tableId tid);
  page ← lift (HeapPageTupleHeader.store page addr newTupleHeader);
  page ← lift (Page.set_lsn page lsn);
  set_page tag page).
End HeapTable.

(** ** The bytes of a row *)
Section row_proofs.
Context `{Build}.

Definition row_flags (sti : SerializedTupleInfo) : Z := if HasNulls sti then HeapPageTupleHeader.HasNulls else 0.

(** The header and the attributes written to a buffer of the size [n]. *)
Lemma write_row n h (data : list byte) :
  0 <= n < 2 ^ 64 -> n = wrap 64 (zlen data + 24) ->
  (buffer ← HeapPageTupleHeader.store (zeros n) 0 h; wr buffer 24 data) =
    if zlen data + 24 <? 2 ^ 64 then Ok (HeapPageTupleHeader.encode h ++ data)
    else Fault (UB "write outside of the object").
Proof.
  intros Hn Hw. unfold HeapPageTupleHeader.store. set (bs := HeapPageTupleHeader.encode h).
  assert (Hh : zlen bs = 24) by apply HeapPageTupleHeader.zlen_encode. pose proof (zlen_nonneg data).
  change (wr (zeros n) 0 bs) with (wr ([] ++ zeros n) (zlen (@nil byte)) bs).
  destruct (Z.ltb_spec (zlen data + 24) (2 ^ 64)).
  - rewrite wrap_small in Hw by lia. rewrite (wr_frontier [] bs n) by lia. rewrite bind_Ok, app_nil_l.
    rewrite <-Hh at 1. rewrite wr_frontier by lia. replace (n - zlen bs - zlen data) with 0 by lia.
    unfold zeros. cbn [Z.to_nat replicate]. by rewrite app_nil_r.
  - destruct (Z.ltb_spec n 24).
    + rewrite wr_outside; [done|]. rewrite app_nil_l, zlen_nil, zlen_zeros; lia.
    + rewrite (wr_frontier [] bs n) by lia. rewrite bind_Ok, app_nil_l.
      apply wr_outside. rewrite zlen_app, zlen_zeros; lia.
Qed.

(** The header, with the flags computed anew, and the serialized attributes. *)
Lemma HTS_Serialize_inv t desc bs :
  HTS_Serialize t desc = Ok bs ->
  exists sti, TupleSerializer.Serialize desc (hpt_values t) (hpt_isnull t) = Ok sti /\
    zlen (Tuple sti) + 24 < 2 ^ 64 /\
    bs = HeapPageTupleHeader.encode (HeapPageTupleHeader.mk (HeapPageTupleHeader.xid (Header t))
           (HeapPageTupleHeader.undo (Header t)) (row_flags sti)) ++ Tuple sti.
Proof.
  unfold HTS_Serialize. destruct (TupleSerializer.Serialize _ _ _) as [sti|e]; [|done].
  rewrite bind_Ok. cbv zeta. unfold HeapPageTupleHeader.size.
  rewrite write_row by (done || (apply wrap_range; lia)).
  destruct (Z.ltb_spec (zlen (Tuple sti) + 24) (2 ^ 64)); intros [= <-]. by exists sti.
Qed.

Lemma HTS_Serialize_ok t desc sti :
  TupleSerializer.Serialize desc (hpt_values t) (hpt_isnull t) = Ok sti ->
  zlen (Tuple sti) + 24 < 2 ^ 64 ->
  HTS_Serialize t desc = Ok (HeapPageTupleHeader.encode (HeapPageTupleHeader.mk
    (HeapPageTupleHeader.xid (Header t)) (HeapPageTupleHeader.undo (Header t)) (row_flags sti)) ++ Tuple sti).
Proof.
  intros Hs Hb. unfold HTS_Serialize. rewrite Hs, bind_Ok. cbv zeta. unfold HeapPageTupleHeader.size.
  rewrite write_row by (done || (apply wrap_range; lia)). by rewrite (proj2 (Z.ltb_lt _ _)) by lia.
Qed.

(** The undo field is the only part of a row's bytes that depends on the USN. *)
Lemma HTS_Serialize_set_undo t desc bs usn :
  HTS_Serialize t desc = Ok bs ->
  exists bs', HTS_Serialize (set_undo usn t) desc = Ok bs' /\ zlen bs' = zlen bs.
Proof.
  intros (sti & Hs & Hb & ->)%HTS_Serialize_inv. eexists. split.
  - apply HTS_Serialize_ok; [exact Hs | done].
  - rewrite !zlen_app, !HeapPageTupleHeader.zlen_encode. done.
Qed.

Lemma decode_header_row t desc bs :
  HTS_Serialize t desc = Ok bs -> 0 <= HeapPageTupleHeader.xid (Header t) < 2 ^ 64 ->
  - 2 ^ 63 <= HeapPageTupleHeader.undo (Header t) < 2 ^ 63 ->
  exists flags, decode_header bs = HeapPageTupleHeader.mk (HeapPageTupleHeader.xid (Header t))
    (HeapPageTupleHeader.undo (Header t)) flags /\ 24 <= zlen bs.
Proof.
  intros (sti & Hs & Hb & ->)%HTS_Serialize_inv Hx Hu. exists (row_flags sti).
  set (h := HeapPageTupleHeader.mk _ _ _). pose proof (zlen_nonneg (Tuple sti)).
  rewrite zlen_app, HeapPageTupleHeader.zlen_encode. split; [|lia].
  assert (Hr : HeapPageTupleHeader.in_range h).
  { split_and!; simpl; try lia; unfold row_flags, HeapPageTupleHeader.HasNulls; case_match; lia. }
  pose proof (HeapPageTupleHeader.load_encode h [] (Tuple sti) Hr) as Hl. rewrite app_nil_l, zlen_nil in Hl.
  set (bs := _ ++ _) in *. assert (Hz : zlen bs = 24 + zlen (Tuple sti))
    by (unfold bs; rewrite zlen_app, HeapPageTupleHeader.zlen_encode; done).
  rewrite (load_header_slice bs 0 (zlen bs)) in Hl by lia. rewrite slice_all in Hl. congruence.
Qed.

(** A prefix of a tuple's bytes that covers the header decides the header. *)
Lemma decode_header_prefix bs old :
  24 <= zlen bs <= zlen old -> decode_header (blit 0 bs old) = decode_header bs.
Proof.
  intros Hb. unfold decode_header.
  rewrite !(slice_blit_inside 0 bs old) by lia. by rewrite !Z.sub_0_r.
Qed.
End row_proofs.

(** ** Search and insertion *)
Section insertion_proofs.
Context `{Build} {P U L T : Type} `{PageStoreLaws P, UndoStore U, WalStore L, TxnTable T}.
#[local] Notation World := (World P U L T).
Context (WaitTransactionEnd : Z -> M World unit) (tableId : Z) (desc : TupleDescriptor) (my_xid : Z).
Implicit Type w : World.

(** A page of the table that the worker can read, with its room. *)
Definition readable w (j : Z) (p : list byte) : Prop :=
  ps_get (w_pages w) (mkPageTag tableId j) = Ok p /\ wf p /\ mkPageTag tableId j ∉ w_latches w.

Definition lacks w (freeSpace j : Z) : Prop :=
  exists p, readable w j p /\ upper p - lower p < freeSpace.

(** The search passes the pages that lack room and stops at the first that has it. *)
Lemma search_from_ok w freeSpace npages k p :
  npages < 2 ^ 32 -> k < npages -> readable w k p -> freeSpace <= upper p - lower p ->
  forall fuel j, 0 <= j <= k -> (Z.to_nat (k - j) < fuel)%nat ->
  (forall i, j <= i < k -> lacks w freeSpace i) ->
  search_from tableId fuel j npages freeSpace w = (Ok (Some k), w).
Proof.
  intros Hn Hk (Hg & Hwf & Hl) Hroom. induction fuel as [|fuel IH]; intros j Hj Hf Hlack; [lia|].
  cbn [search_from]. rewrite (proj2 (Z.ltb_lt j npages)) by lia.
  destruct (decide (j = k)) as [->|Hne].
  - erewrite GetBuffer_Ok by exact Hg. rewrite lock_shared_Ok by done.
    erewrite lift_Ok by (apply GetFreeSpace_ok, Hwf). by rewrite (proj2 (Z.ltb_ge _ _)) by lia.
  - destruct (Hlack j) as (q & (Hgq & Hwq & Hlq) & Hq); [lia|].
    erewrite GetBuffer_Ok by exact Hgq. rewrite lock_shared_Ok by done.
    erewrite lift_Ok by (apply GetFreeSpace_ok, Hwq). rewrite (proj2 (Z.ltb_lt _ _)) by lia.
    unfold PageNumber.add. rewrite wrap_small by lia. apply IH; [lia | lia |].
    intros i Hi. apply Hlack. lia.
Qed.

Lemma search_from_none w freeSpace npages :
  npages < 2 ^ 32 ->
  forall fuel j, 0 <= j <= npages -> (Z.to_nat (npages - j) < fuel)%nat ->
  (forall i, j <= i < npages -> lacks w freeSpace i) ->
  search_from tableId fuel j npages freeSpace w = (Ok None, w).
Proof.
  intros Hn. induction fuel as [|fuel IH]; intros j Hj Hf Hlack; [lia|]. cbn [search_from].
  destruct (decide (j = npages)) as [->|Hne]; [by rewrite Z.ltb_irrefl|].
  rewrite (proj2 (Z.ltb_lt j npages)) by lia.
  destruct (Hlack j) as (q & (Hgq & Hwq & Hlq) & Hq); [lia|].
  erewrite GetBuffer_Ok by exact Hgq. rewrite lock_shared_Ok by done.
  erewrite lift_Ok by (apply GetFreeSpace_ok, Hwq). rewrite (proj2 (Z.ltb_lt _ _)) by lia.
  destruct (decide (j + 1 = 2 ^ 32)) as [E|E]; [lia|].
  unfold PageNumber.add. rewrite wrap_small by lia. apply IH; [lia | lia |].
  intros i Hi. apply Hlack. lia.
Qed.

(** The first page with room for [freeSpace] bytes is [k]. *)
Definition first_room w (freeSpace k : Z) (p : list byte) : Prop :=
  0 <= ps_count (w_pages w) tableId < 2 ^ 32 /\ 0 <= k < ps_count (w_pages w) tableId /\
  readable w k p /\ freeSpace <= upper p - lower p /\ forall i, 0 <= i < k -> lacks w freeSpace i.

Lemma searchPageFreeSpace_ok w freeSpace k p :
  first_room w freeSpace k p -> searchPageFreeSpace tableId freeSpace w = (Ok k, w).
Proof.
  intros (Hc & Hk & Hr & Hroom & Hl). unfold searchPageFreeSpace, GetPageCount.
  erewrite M_bind_Ok by (unfold gets; reflexivity). rewrite wrap_small by lia.
  erewrite M_bind_Ok.
  2: { apply (search_from_ok w freeSpace _ k p); try done; unfold PageNumber.MinValue; try lia. }
  done.
Qed.

(** The page and the records of an insertion. *)
Lemma insert_attempt_ok w bytes k p usn u' lsn l' :
  first_room w (zlen bytes + 4) k p -> fits p (zlen bytes) ->
  us_insert my_xid (DeleteUndoRecord tableId (mkTupleId k (nitems p))) (w_undo w) = (Ok usn, u') ->
  wl_write my_xid (InsertHeapWALRecord (mkTupleId k (nitems p)) bytes) (w_wal w) = (Ok lsn, l') ->
  insert_attempt tableId my_xid bytes (zlen bytes + 4) w =
    (Ok true, mkWorld (ps_put (w_pages w) (mkPageTag tableId k) (inserted p lsn bytes))
                (w_latches w) u' l' (w_txn w)).
Proof.
  intros Hr (H24 & Hfit & H16) Hu Hw. unfold insert_attempt.
  unfold scope.
  erewrite M_bind_Ok by (by eapply searchPageFreeSpace_ok). cbv zeta. unfold tag_of.
  destruct Hr as (_ & _ & (Hg & Hwf & Hl) & Hroom & _).
  rewrite Lock_Ok by done. erewrite GetBuffer_Ok by exact Hg.
  erewrite lift_Ok by (apply GetFreeSpace_ok, Hwf). rewrite (proj2 (Z.ltb_ge _ _)) by lia.
  erewrite lift_Ok by (apply ItemsCount_ok, Hwf).
  erewrite InsertRecord_Ok by exact Hu. erewrite WriteLogRecord_Ok by exact Hw.
  erewrite lift_Ok by (apply insert_tuple_inserted; try done; lia).
  erewrite M_bind_Ok by reflexivity. reflexivity.
Qed.

(** The bytes that [InsertTuple] writes for a row. *)
Definition row_bytes (tuple : ITuple) : result (list byte) :=
  t ← formHeapPageTuple desc my_xid tuple; HTS_Serialize t desc.

Lemma InsertTuple_row fuel tuple bytes w :
  row_bytes tuple = Ok bytes -> zlen bytes + 4 < 2 ^ 64 ->
  InsertTuple tableId desc my_xid fuel tuple w = insert_loop tableId my_xid fuel bytes (zlen bytes + 4) w.
Proof.
  unfold row_bytes. intros Hb Hs. inv_bind Hb. unfold InsertTuple.
  erewrite lift_Ok by eassumption. erewrite lift_Ok by eassumption.
  unfold Page.sizeof_ItemId. rewrite wrap_small; [done|]. pose proof (zlen_nonneg bytes). lia.
Qed.

(** C8: an insertion puts the row at the end of the first page with room for it: the
    rows of that page stay as they are, the other pages are not changed, the undo log
    has the record that would delete the row and the write-ahead log the row. *)
Theorem heap_insert_appends fuel tuple w bytes k p usn u' lsn l' :
  row_bytes tuple = Ok bytes -> first_room w (zlen bytes + 4) k p -> fits p (zlen bytes) ->
  us_insert my_xid (DeleteUndoRecord tableId (mkTupleId k (nitems p))) (w_undo w) = (Ok usn, u') ->
  wl_write my_xid (InsertHeapWALRecord (mkTupleId k (nitems p)) bytes) (w_wal w) = (Ok lsn, l') ->
  (1 <= fuel)%nat ->
  exists p' w', InsertTuple tableId desc my_xid fuel tuple w = (Ok tt, w') /\
    ps_get (w_pages w') (mkPageTag tableId k) = Ok p' /\ wf p' /\ tuples p' = tuples p ++ [Some bytes] /\
    dec_le (slice 0 8 p') = lsn mod 2 ^ 64 /\
    (forall t, t <> mkPageTag tableId k -> ps_get (w_pages w') t = ps_get (w_pages w) t) /\
    w_latches w' = w_latches w /\ w_undo w' = u' /\ w_wal w' = l' /\ w_txn w' = w_txn w.
Proof.
  intros Hb Hr Hfit Hu Hw Hf.
  pose proof Hr as (_ & _ & (Hg & Hwf & _) & Hroom & _).
  pose proof (wf_upper p Hwf). pose proof (wf_bounds p Hwf). unfold Config.PageSize in *.
  rewrite (InsertTuple_row fuel tuple bytes) by (done || lia).
  destruct fuel as [|fuel]; [lia|]. cbn [insert_loop].
  erewrite M_bind_Ok by (eapply insert_attempt_ok; done).
  eexists (inserted p lsn bytes), _. split; [reflexivity|]. cbn [w_pages w_latches w_undo w_wal w_txn].
  split_and!; try done.
  - apply ps_get_put.
  - by apply inserted_wf.
  - by apply inserted_tuples.
  - by apply inserted_fields.
  - intros t Ht. by apply ps_get_put_ne.
Qed.
End insertion_proofs.

(** ** A new page *)
Section new_page_proofs.
Context `{Build} {P U L T : Type} `{PageStoreLaws P, UndoStore U, WalStore L, TxnTable T}.
#[local] Notation World := (World P U L T).
Context (tableId : Z) (desc : TupleDescriptor) (my_xid : Z).
Implicit Type w : World.

(** No page of the table has room for [freeSpace] bytes. *)
Definition all_lack w (freeSpace : Z) : Prop :=
  0 <= ps_count (w_pages w) tableId < 2 ^ 32 /\
  forall i, 0 <= i < ps_count (w_pages w) tableId -> lacks tableId w freeSpace i.

(** The world after [start_page]: the new page is empty. *)
Definition extended w w' : Prop :=
  let n := ps_count (w_pages w) tableId in
  ps_count (w_pages w') tableId = n + 1 /\
  (forall i p, 0 <= i < n -> readable tableId w i p -> readable tableId w' i p) /\
  w_latches w' = w_latches w /\ w_undo w' = w_undo w /\ w_wal w' = w_wal w /\ w_txn w' = w_txn w /\
  exists p, ps_get (w_pages w') (mkPageTag tableId n) = Ok p /\ wf p /\ tuples p = [] /\
    upper p - lower p = 8180 /\ upper p = 8192.

Lemma zlen_new_page : zlen (zeros Config.PageSize) = Config.PageSize.
Proof. vm_compute. reflexivity. Qed.

Lemma zeros_new : Page.IsNew (zeros Config.PageSize) = Ok true.
Proof. vm_compute. reflexivity. Qed.

Lemma empty_page p :
  wf p -> tuples p = [] -> Page.GetFreeSpace p = Ok (Config.PageSize - 12) ->
  upper p - lower p = 8180 /\ upper p = 8192.
Proof.
  intros Hwf Ht Hf. rewrite GetFreeSpace_ok in Hf by done. injection Hf as Hf. unfold Config.PageSize in Hf.
  pose proof (length_tuples p) as Hn. rewrite Ht, zlen_nil in Hn. pose proof (wf_lower p Hwf).
  pose proof (page_nitems_ok p Hwf). lia.
Qed.

Lemma start_page_ok w freeSpace pages n :
  ps_extend (w_pages w) tableId = Ok (n, pages) ->
  mkPageTag tableId (ps_count (w_pages w) tableId) ∉ w_latches w ->
  exists w', extended w w' /\ start_page tableId freeSpace w =
    (_ ← assert_ (8180 <? freeSpace) "page.GetFreeSpace() < freeSpace"; Ok (ps_count (w_pages w) tableId), w').
Proof.
  intros Hx Hl. destruct (ps_extend_Ok _ _ _ _ Hx) as (-> & Hc & Hz & Hother).
  set (n := ps_count (w_pages w) tableId) in *. set (tag := mkPageTag tableId n) in *.
  destruct (Init_ok (zeros Config.PageSize)) as (p & Hi & Hwf & Ht & Hf & _); [exact zlen_new_page|].
  destruct (empty_page p Hwf Ht Hf) as [Hroom Hu].
  exists (mkWorld (ps_put pages tag p) (w_latches w) (w_undo w) (w_wal w) (w_txn w)). split.
  - unfold extended. cbn [w_pages w_latches w_undo w_wal w_txn]. fold n.
    split; [by rewrite ps_count_put|]. split; [|do 4 (split; [reflexivity|])].
    + intros i q Hi' (Hg & Hq & Hlq). split; [|exact (conj Hq Hlq)]. cbn [w_pages].
      assert (tag <> mkPageTag tableId i) by (unfold tag; intros [= E]; lia).
      rewrite ps_get_put_ne, Hother by done. done.
    + exists p. rewrite ps_get_put. repeat (split; [assumption || reflexivity|]). assumption.
  - unfold start_page. erewrite M_bind_Ok by (unfold ExtendRelation; by rewrite Hx).
    change (tag_of tableId n) with tag. erewrite GetBuffer_Ok by exact Hz.
    erewrite M_bind_Ok.
    2: { unfold scope. rewrite Lock_Ok by done. erewrite lift_Ok by exact zeros_new.
         cbv iota. erewrite lift_Ok by exact Hi. reflexivity. }
    erewrite GetBuffer_Ok by apply ps_get_put. rewrite lock_shared_Ok by done.
    erewrite lift_Ok by (apply GetFreeSpace_ok, Hwf). rewrite Hroom. unfold mbind at 1, M_bind, lift.
    by destruct (assert_ _ _).
Qed.

Lemma searchPageFreeSpace_new w freeSpace pages n :
  all_lack w freeSpace -> ps_extend (w_pages w) tableId = Ok (n, pages) ->
  mkPageTag tableId (ps_count (w_pages w) tableId) ∉ w_latches w ->
  exists w', extended w w' /\ searchPageFreeSpace tableId freeSpace w =
    (_ ← assert_ (8180 <? freeSpace) "page.GetFreeSpace() < freeSpace"; Ok (ps_count (w_pages w) tableId), w').
Proof.
  intros (Hc & Hlack) Hx Hl. destruct (start_page_ok w freeSpace pages n Hx Hl) as (w' & He & Hs).
  exists w'. split; [done|]. unfold searchPageFreeSpace, GetPageCount.
  erewrite M_bind_Ok by (unfold gets; reflexivity). rewrite wrap_small by lia.
  erewrite M_bind_Ok.
  2: { apply search_from_none; unfold PageNumber.MinValue; try lia. done. }
  exact Hs.
Qed.

(** with assertions on, the first row of every page aborts the process: when no page
    has room, [searchPageFreeSpace] starts a page and then asserts that the row does not
    fit it, and every row that fits a page fails this assertion. *)
Theorem heap_insert_new_page_aborts fuel tuple w bytes pages n :
  asserts_on = true -> row_bytes desc my_xid tuple = Ok bytes -> zlen bytes + 4 <= 8180 ->
  all_lack w (zlen bytes + 4) -> ps_extend (w_pages w) tableId = Ok (n, pages) ->
  mkPageTag tableId (ps_count (w_pages w) tableId) ∉ w_latches w -> (1 <= fuel)%nat ->
  (InsertTuple tableId desc my_xid fuel tuple w).1 = Fault (Abort "page.GetFreeSpace() < freeSpace").
Proof.
  intros Ha Hb Hs Hlack Hx Hl Hf. rewrite (InsertTuple_row tableId desc my_xid fuel tuple bytes) by (done || lia).
  destruct fuel as [|fuel]; [lia|]. cbn [insert_loop].
  destruct (searchPageFreeSpace_new w _ pages n Hlack Hx Hl) as (w' & _ & He).
  rewrite (assert_fails (8180 <? _)) in He by (done || (apply Z.ltb_ge; lia)).
  unfold insert_attempt, scope, mbind, M_bind. by rewrite He.
Qed.

(** An attempt to insert a row that does not fit an empty page only adds a page. *)
Lemma insert_attempt_oversized w bytes pages n :
  8180 < zlen bytes + 4 -> all_lack w (zlen bytes + 4) ->
  ps_extend (w_pages w) tableId = Ok (n, pages) ->
  mkPageTag tableId (ps_count (w_pages w) tableId) ∉ w_latches w ->
  exists w', extended w w' /\ insert_attempt tableId my_xid bytes (zlen bytes + 4) w = (Ok false, w').
Proof.
  intros Hs Hlack Hx Hl. destruct (searchPageFreeSpace_new w _ pages n Hlack Hx Hl) as (w' & He & Hr).
  exists w'. split; [done|]. rewrite (assert_Ok (8180 <? _)) in Hr by (apply Z.ltb_lt; lia).
  destruct He as (Hc & Hold & Hlat & Hu & Hw & Ht & p & Hg & Hwf & Htu & Hroom & Hup).
  unfold insert_attempt, scope. erewrite M_bind_Ok by exact Hr. cbv zeta. unfold tag_of.
  rewrite Lock_Ok by (by rewrite Hlat). erewrite GetBuffer_Ok by exact Hg.
  erewrite lift_Ok by (apply GetFreeSpace_ok, Hwf). rewrite (proj2 (Z.ltb_lt _ _)) by lia.
  unfold mret, M_ret, set_latches. cbn [w_pages w_latches w_undo w_wal w_txn].
  rewrite <-Hlat. by destruct w'.
Qed.

Lemma extended_lacks w w' freeSpace :
  extended w w' -> all_lack w freeSpace -> 8180 < freeSpace ->
  mkPageTag tableId (ps_count (w_pages w) tableId) ∉ w_latches w ->
  ps_count (w_pages w) tableId + 1 < 2 ^ 32 -> all_lack w' freeSpace.
Proof.
  intros (Hc & Hold & Hlat & _ & _ & _ & p & Hg & Hwf & _ & Hroom & _) [Hn Hl] Hs Hlt Hb.
  split; [lia|]. rewrite Hc. intros i Hi. destruct (decide (i = ps_count (w_pages w) tableId)) as [->|Hne].
  - exists p. split; [|lia]. split_and!; [done | done | by rewrite Hlat].
  - destruct (Hl i) as (q & Hq & Hfree); [lia|]. exists q. split; [|done]. apply Hold; [lia | done].
Qed.

(** a row that does not fit an empty page is never refused: however often the loop of
    [InsertTuple] runs, it has not ended, and each round has added a page. *)
Theorem heap_insert_oversized_never_ends fuel tuple w bytes :
  row_bytes desc my_xid tuple = Ok bytes -> 8180 < zlen bytes + 4 -> zlen bytes + 4 < 2 ^ 64 ->
  all_lack w (zlen bytes + 4) -> w_latches w = ∅ ->
  (forall pages, exists pages', ps_extend pages tableId = Ok (ps_count pages tableId, pages')) ->
  ps_count (w_pages w) tableId + Z.of_nat fuel < 2 ^ 32 ->
  exists w', InsertTuple tableId desc my_xid fuel tuple w = (Fault NoFuel, w') /\
    ps_count (w_pages w') tableId = ps_count (w_pages w) tableId + Z.of_nat fuel.
Proof.
  intros Hb Hs Hs' Hlack Hlat Hext Hn. rewrite (InsertTuple_row tableId desc my_xid fuel tuple bytes) by done.
  revert w Hlack Hlat Hn. induction fuel as [|fuel IH]; intros w Hlack Hlat Hn.
  - exists w. split; [done | lia].
  - destruct (Hext (w_pages w)) as (pages & Hx).
    assert (Hfree : mkPageTag tableId (ps_count (w_pages w) tableId) ∉ w_latches w) by (rewrite Hlat; set_solver).
    destruct (insert_attempt_oversized w bytes pages _ Hs Hlack Hx Hfree) as (w1 & He & Ha).
    cbn [insert_loop]. erewrite M_bind_Ok by exact Ha. cbv iota.
    pose proof He as (Hc & _ & Hl1 & _).
    destruct (IH w1) as (w' & Hr & Hc').
    + eapply extended_lacks; try done. lia.
    + congruence.
    + lia.
    + exists w'. split; [exact Hr | lia].
Qed.
End new_page_proofs.

(** ** Deletion and update in place *)
Section change_proofs.
Context `{Build} {P U L T : Type} `{PageStoreLaws P, UndoStore U, WalStore L, TxnTable T}.
#[local] Notation World := (World P U L T).
Context (WaitTransactionEnd : Z -> M World unit) (tableId : Z) (desc : TupleDescriptor) (my_xid : Z).
Implicit Type w : World.

(** The row that a scan read is still on the page: [old] are its bytes there. *)
Definition unchanged w (t : HeapTuple) (k i : Z) (p : list byte) (addr : Z) (old : list byte) : Prop :=
  GetTID t = mkTupleId k i /\ readable tableId w k p /\ has_tuple p i addr old /\
  HeapPageTupleHeader.xid (decode_header old) = HeapPageTupleHeader.xid (Header (ht_tuple t)).

(** What a handler leaves behind that changed only the tuples of page [k]. *)
Definition changed w w' (k : Z) (p' : list byte) (ts : list (option (list byte))) : Prop :=
  readable tableId w' k p' /\ tuples p' = ts /\
  (forall t, t <> mkPageTag tableId k -> ps_get (w_pages w') t = ps_get (w_pages w) t) /\
  w_latches w' = w_latches w /\ w_txn w' = w_txn w.

Lemma has_tuple_set_lsn p p' i addr old :
  wf p' -> has_tuple p i addr old -> tuples p' = tuples p -> nitems p' = nitems p ->
  (forall j, 0 <= j < nitems p -> item p' j = item p j) -> has_tuple p' i addr old.
Proof.
  intros Hwf Hh Ht Hn Hi. pose proof Hh as [Hr _ -> Hb _ _ _ _].
  rewrite <-(Hi i) by done. apply item_has_tuple; [done | lia |].
  pose proof (tuples_lookup p i Hr) as Hlk. rewrite <-Ht, tuples_lookup in Hlk by lia. congruence.
Qed.

Lemma check_concurrent_same tag x w :
  check_concurrent WaitTransactionEnd tag x x w = (Ok tt, w).
Proof. unfold check_concurrent. by rewrite Z.eqb_refl. Qed.

Definition deleted_header (usn : Z) : HeapPageTupleHeader.t :=
  HeapPageTupleHeader.mk my_xid usn HeapPageTupleHeader.Deleted.

Lemma DeleteTuple_ok w t k i p addr old usn u' lsn l' :
  unchanged w t k i p addr old ->
  us_insert my_xid (UndoRecord.InsertUndoRecord tableId (mkTupleId k i) old) (w_undo w) = (Ok usn, u') ->
  wl_write my_xid (DeleteHeapWALRecord tableId (mkTupleId k i)) (w_wal w) = (Ok lsn, l') ->
  exists p' w', DeleteTuple WaitTransactionEnd tableId my_xid t w = (Ok tt, w') /\
    changed w w' k p'
      (<[Z.to_nat i := Some (blit 0 (HeapPageTupleHeader.encode (deleted_header usn)) old)]> (tuples p)) /\
    has_tuple p' i addr (blit 0 (HeapPageTupleHeader.encode (deleted_header usn)) old) /\
    w_undo w' = u' /\ w_wal w' = l'.
Proof.
  intros (Ht & (Hg & Hwf & Hl) & Hh & Hx) Hu Hw.
  destruct (access_ok p i addr old Hwf Hh) as (A1 & A2 & A3 & A4 & A5 & A6).
  destruct (overwrite_ok p i addr old 0 (HeapPageTupleHeader.encode (deleted_header usn)) Hwf Hh)
    as (p1 & Hwr & Hwf1 & Hh1 & Ht1 & Hn1 & Hu1 & Hi1); [lia | |].
  { rewrite HeapPageTupleHeader.zlen_encode. destruct Hh. lia. }
  destruct (set_lsn_ok p1 lsn Hwf1) as (p2 & Hs & Hwf2 & Ht2 & Hn2 & _ & Hi2).
  exists p2. eexists. split; [|split].
  - unfold DeleteTuple, scope. rewrite Ht. cbn [pageno itemid]. cbv zeta. unfold tag_of.
    erewrite GetBuffer_Ok by exact Hg. rewrite Lock_Ok by done.
    erewrite lift_Ok by exact A1. erewrite lift_Ok by exact A2. erewrite lift_Ok by exact A3.
    erewrite lift_Ok by exact A4. rewrite Hx.
    erewrite M_bind_Ok by apply check_concurrent_same.
    erewrite GetBuffer_Ok by exact Hg. erewrite lift_Ok by exact A2. rewrite A5.
    erewrite lift_Ok by exact A6. erewrite InsertRecord_Ok by exact Hu. erewrite WriteLogRecord_Ok by exact Hw.
    erewrite lift_Ok by (unfold HeapPageTupleHeader.store; rewrite <-(Z.add_0_r addr); exact Hwr).
    erewrite lift_Ok by exact Hs. reflexivity.
  - unfold changed, readable, set_latches. cbn [w_pages w_latches w_txn]. split_and!; try done.
    + apply ps_get_put.
    + by rewrite Ht2, Ht1.
    + intros tg Htg. by apply ps_get_put_ne.
  - split; [|done]. apply (has_tuple_set_lsn p1); try done.
Qed.

(** The bytes of a row with the transaction's header. *)
Lemma formHeapPageTuple_header tuple ht :
  formHeapPageTuple desc my_xid tuple = Ok ht ->
  HeapPageTupleHeader.xid (Header ht) = my_xid /\ HeapPageTupleHeader.undo (Header ht) = 0.
Proof.
  unfold formHeapPageTuple. cbv zeta.
  destruct (AttrNumber.for_each _ _ _) as [[[vs ns] an]|e]; [|done]. by intros [= <-].
Qed.

Lemma UpdateTuple_in_place fuel w t k i p addr old newTuple ht new oldrec usn u' new' lsn l' :
  unchanged w t k i p addr old ->
  formHeapPageTuple desc my_xid newTuple = Ok ht -> HTS_Serialize ht desc = Ok new ->
  zlen new <= zlen old -> zlen new < 2 ^ 16 - 1 -> HTS_Serialize (ht_tuple t) desc = Ok oldrec ->
  us_insert my_xid (UpdateUndoRecord tableId (mkTupleId k i) (mkTupleId k i) oldrec) (w_undo w) = (Ok usn, u') ->
  HTS_Serialize (set_undo usn ht) desc = Ok new' ->
  wl_write my_xid (UpdateHeapWALRecord tableId (mkTupleId k i) (mkTupleId k i) new') (w_wal w) = (Ok lsn, l') ->
  exists p' w', UpdateTuple WaitTransactionEnd tableId desc my_xid fuel t newTuple w = (Ok tt, w') /\
    changed w w' k p' (<[Z.to_nat i := Some (blit 0 new' old)]> (tuples p)) /\
    has_tuple p' i addr (blit 0 new' old) /\ w_undo w' = u' /\ w_wal w' = l'.
Proof.
  intros (Ht & (Hg & Hwf & Hl) & Hh & Hx) Hform Hnew Hfit Hmax Hold Hu Hnew' Hw.
  assert (Hz' : zlen new' = zlen new).
  { destruct (HTS_Serialize_set_undo ht desc new usn Hnew) as (b & Hb & Hz). congruence. }
  destruct (access_ok p i addr old Hwf Hh) as (A1 & A2 & A3 & A4 & A5 & A6).
  destruct (overwrite_ok p i addr old 0 new' Hwf Hh)
    as (p1 & Hwr & Hwf1 & Hh1 & Ht1 & Hn1 & Hu1 & Hi1); [lia | lia |].
  destruct (set_lsn_ok p1 lsn Hwf1) as (p2 & Hs & Hwf2 & Ht2 & Hn2 & _ & Hi2).
  exists p2. eexists. split; [|split].
  - unfold UpdateTuple, scope. erewrite lift_Ok by exact Hform. erewrite lift_Ok by exact Hnew.
    rewrite Ht. cbn [pageno itemid]. cbv zeta. unfold tag_of.
    erewrite GetBuffer_Ok by exact Hg. rewrite Lock_Ok by done.
    erewrite lift_Ok by exact A1. erewrite lift_Ok by exact A2. erewrite lift_Ok by exact A3.
    erewrite lift_Ok by exact A4. rewrite Hx.
    erewrite M_bind_Ok by apply check_concurrent_same.
    erewrite GetBuffer_Ok by exact Hg. erewrite lift_Ok by exact A2.
    erewrite M_bind_Ok.
    2: { unfold choose_location. rewrite A5, (proj2 (Z.leb_le _ _)) by lia. reflexivity. }
    erewrite lift_Ok by exact Hold. erewrite InsertRecord_Ok by exact Hu.
    erewrite lift_Ok by exact Hnew'.
    erewrite lift_Ok by (apply assert_Ok, Z.ltb_lt; lia).
    erewrite WriteLogRecord_Ok by exact Hw. cbn [pageno itemid].
    rewrite (proj2 (TupleId_eqb_spec _ _)) by done. cbv iota.
    erewrite M_bind_Ok.
    2: { erewrite lift_Ok; [reflexivity|]. unfold overwrite. rewrite A1, bind_Ok, A2, bind_Ok, A3, bind_Ok.
         rewrite <-(Z.add_0_r addr). exact Hwr. }
    erewrite M_bind_Ok by reflexivity.
    erewrite GetBuffer_Ok by apply ps_get_put. erewrite lift_Ok by exact Hs.
    erewrite M_bind_Ok by reflexivity. rewrite Z.eqb_refl. reflexivity.
  - unfold changed, readable, set_latches. cbn [w_pages w_latches w_txn]. split_and!; try done.
    + apply ps_get_put.
    + by rewrite Ht2, Ht1.
    + intros tg Htg. rewrite !ps_get_put_ne by done. done.
  - split; [|done]. apply (has_tuple_set_lsn p1); try done.
Qed.
End change_proofs.

(** ** Conflicts and updates that move the row *)
Section conflict_proofs.
Context `{Build} {P U L T : Type} `{PageStoreLaws P, UndoStore U, WalStore L, TxnTable T}.
#[local] Notation World := (World P U L T).
Context (WaitTransactionEnd : Z -> M World unit) (tableId : Z) (desc : TupleDescriptor) (my_xid : Z).
Implicit Type w : World.

(** The world in which the transaction table was looked up. *)
Definition with_txn w (x : T) : World := mkWorld (w_pages w) (w_latches w) (w_undo w) (w_wal w) x.

Lemma wait_tnx_end_committed xid csn t' w :
  tx_csn xid (w_txn w) = (Ok csn, t') -> CommitSeqNumber.IsFrozen csn || CommitSeqNumber.IsNormal csn = true ->
  wait_tnx_end WaitTransactionEnd xid w = (Fault (Throw "tuple was concurrently modified"), with_txn w t').
Proof.
  intros Hx Hc. unfold wait_tnx_end. erewrite GetTransactionCsn_Ok by exact Hx.
  unfold CommitSeqNumber.IsFrozen, CommitSeqNumber.IsNormal, CommitSeqNumber.IsInProgress,
    CommitSeqNumber.IsInvalid, CommitSeqNumber.IsCommitting, CommitSeqNumber.IsAborted,
    CommitSeqNumber.Frozen, CommitSeqNumber.Min, CommitSeqNumber.InProgress, CommitSeqNumber.Invalid,
    CommitSeqNumber.Committing, CommitSeqNumber.Aborted in *.
  apply orb_true_iff in Hc. rewrite Z.eqb_eq, Z.geb_le in Hc.
  rewrite (proj2 (Z.eqb_neq csn 2)) by lia. cbv iota. erewrite M_bind_Ok by reflexivity.
  rewrite (proj2 (Z.eqb_neq csn 0)), (proj2 (Z.eqb_neq csn 4)) by lia.
  erewrite lift_Ok by apply assert_true. rewrite (proj2 (Z.eqb_neq csn 3)) by lia.
  destruct Hc as [->|Hc]; [done|]. rewrite Z.geb_leb, (proj2 (Z.leb_le _ _)), orb_true_r by lia. done.
Qed.

Lemma check_concurrent_conflict tag x read csn t' w :
  x <> read -> tx_csn x (w_txn w) = (Ok csn, t') ->
  CommitSeqNumber.IsFrozen csn || CommitSeqNumber.IsNormal csn = true ->
  check_concurrent WaitTransactionEnd tag x read w =
    (Fault (Throw "tuple was concurrently modified"), with_txn (set_latches (w_latches w ∖ {[tag]}) w) t').
Proof.
  intros Hne Hx Hc. unfold check_concurrent. rewrite (proj2 (Z.eqb_neq x read)) by done. cbn [negb].
  erewrite M_bind_Ok by reflexivity. erewrite M_bind_fault; [reflexivity|].
  by rewrite (wait_tnx_end_committed x csn t') by done.
Qed.

(** C19: the first committer wins. When the row on the page is of another transaction than
    the version that was read, and that transaction has committed, [DeleteTuple] and
    [UpdateTuple] are refused with an exception, and pages, undo log and write-ahead log
    are as before and no latch stays held. *)
Theorem heap_first_committer_wins w t k i p addr old csn t' fuel newTuple bytes :
  GetTID t = mkTupleId k i -> readable tableId w k p -> has_tuple p i addr old ->
  HeapPageTupleHeader.xid (decode_header old) <> HeapPageTupleHeader.xid (Header (ht_tuple t)) ->
  tx_csn (HeapPageTupleHeader.xid (decode_header old)) (w_txn w) = (Ok csn, t') ->
  CommitSeqNumber.IsFrozen csn || CommitSeqNumber.IsNormal csn = true ->
  row_bytes desc my_xid newTuple = Ok bytes ->
  DeleteTuple WaitTransactionEnd tableId my_xid t w =
    (Fault (Throw "tuple was concurrently modified"), with_txn w t') /\
  UpdateTuple WaitTransactionEnd tableId desc my_xid fuel t newTuple w =
    (Fault (Throw "tuple was concurrently modified"), with_txn w t').
Proof.
  intros Ht (Hg & Hwf & Hl) Hh Hne Hx Hc Hrow.
  destruct (access_ok p i addr old Hwf Hh) as (A1 & A2 & A3 & A4 & _).
  unfold row_bytes in Hrow. inv_bind Hrow.
  split; [unfold DeleteTuple | unfold UpdateTuple]; unfold scope;
    try (erewrite lift_Ok by eassumption; erewrite lift_Ok by eassumption);
    rewrite Ht; cbn [pageno itemid]; cbv zeta; unfold tag_of;
    (erewrite GetBuffer_Ok by exact Hg); rewrite Lock_Ok by done;
    (erewrite lift_Ok by exact A1); (erewrite lift_Ok by exact A2); (erewrite lift_Ok by exact A3);
    (erewrite lift_Ok by exact A4);
    (erewrite M_bind_fault by (by apply (check_concurrent_conflict _ _ _ csn t')));
    reflexivity.
Qed.

(** The handler up to the choice of the location. *)
Lemma UpdateTuple_choose fuel w t k i p addr old newTuple ht new r w1 :
  unchanged tableId w t k i p addr old ->
  formHeapPageTuple desc my_xid newTuple = Ok ht -> HTS_Serialize ht desc = Ok new ->
  choose_location tableId fuel p (item p i) (mkTupleId k i) (zlen new)
    (set_latches ({[mkPageTag tableId k]} ∪ w_latches w) w) = (Fault r, w1) ->
  (UpdateTuple WaitTransactionEnd tableId desc my_xid fuel t newTuple w).1 = Fault r.
Proof.
  intros (Ht & (Hg & Hwf & Hl) & Hh & Hx) Hform Hnew Hch.
  destruct (access_ok p i addr old Hwf Hh) as (A1 & A2 & A3 & A4 & A5 & A6).
  unfold UpdateTuple, scope. erewrite lift_Ok by exact Hform. erewrite lift_Ok by exact Hnew.
  rewrite Ht. cbn [pageno itemid]. cbv zeta. unfold tag_of.
  erewrite GetBuffer_Ok by exact Hg. rewrite Lock_Ok by done.
  erewrite lift_Ok by exact A1. erewrite lift_Ok by exact A2. erewrite lift_Ok by exact A3.
  erewrite lift_Ok by exact A4. rewrite Hx.
  erewrite M_bind_Ok by apply check_concurrent_same.
  erewrite GetBuffer_Ok by exact Hg. erewrite lift_Ok by exact A2.
  by erewrite M_bind_fault by exact Hch.
Qed.

Lemma search_from_blocked w freeSpace npages k :
  npages < 2 ^ 32 -> k < npages -> mkPageTag tableId k ∈ w_latches w ->
  (exists p, ps_get (w_pages w) (mkPageTag tableId k) = Ok p) ->
  forall fuel j, 0 <= j <= k -> (Z.to_nat (k - j) < fuel)%nat ->
  (forall i, j <= i < k -> lacks tableId w freeSpace i) ->
  search_from tableId fuel j npages freeSpace w = (Fault (Blocked "buffer latch"), w).
Proof.
  intros Hn Hk Hl [p Hg]. induction fuel as [|fuel IH]; intros j Hj Hf Hlack; [lia|].
  cbn [search_from]. rewrite (proj2 (Z.ltb_lt j npages)) by lia.
  destruct (decide (j = k)) as [->|Hne].
  - erewrite GetBuffer_Ok by exact Hg. by rewrite lock_shared_blocked by done.
  - destruct (Hlack j) as (q & (Hgq & Hwq & Hlq) & Hq); [lia|].
    erewrite GetBuffer_Ok by exact Hgq. rewrite lock_shared_Ok by done.
    erewrite lift_Ok by (apply GetFreeSpace_ok, Hwq). rewrite (proj2 (Z.ltb_lt _ _)) by lia.
    unfold PageNumber.add. rewrite wrap_small by lia. apply IH; [lia | lia |].
    intros i Hi. apply Hlack. lia.
Qed.

(** C29: an update to a larger row that no page before its own has room for never ends: the
    search asks for the latch of the page that the handler itself holds. *)
Theorem heap_update_search_deadlocks fuel w t k i p addr old newTuple ht new :
  unchanged tableId w t k i p addr old ->
  formHeapPageTuple desc my_xid newTuple = Ok ht -> HTS_Serialize ht desc = Ok new ->
  zlen old < zlen new -> upper p - lower p < zlen new + 4 -> zlen new + 4 < 2 ^ 64 ->
  0 <= k < ps_count (w_pages w) tableId -> ps_count (w_pages w) tableId < 2 ^ 32 ->
  (forall j, 0 <= j < k -> lacks tableId w (zlen new + 4) j) -> (1 <= fuel)%nat ->
  (UpdateTuple WaitTransactionEnd tableId desc my_xid fuel t newTuple w).1 = Fault (Blocked "buffer latch").
Proof.
  intros Hun Hform Hnew Hbig Hroom Hmax Hk Hn Hlack Hf.
  pose proof Hun as (_ & (Hg & Hwf & Hl) & Hh & _).
  destruct (access_ok p i addr old Hwf Hh) as (_ & _ & _ & _ & A5 & _).
  set (wl := set_latches ({[mkPageTag tableId k]} ∪ w_latches w) w).
  apply (UpdateTuple_choose fuel w t k i p addr old newTuple ht new (Blocked "buffer latch") wl); try done.
  fold wl. unfold choose_location. rewrite A5, (proj2 (Z.leb_gt _ _)) by lia.
  pose proof (zlen_nonneg new). unfold Page.sizeof_ItemId.
  erewrite lift_Ok by (by apply GetFreeSpace_ok). rewrite wrap_small by lia.
  rewrite (proj2 (Z.leb_gt _ _)) by lia. destruct fuel as [|fuel]; [lia|]. cbn [update_search].
  unfold Page.sizeof_ItemId. rewrite wrap_small by lia. erewrite M_bind_fault; [reflexivity|].
  unfold searchPageFreeSpace, GetPageCount. erewrite M_bind_Ok by (unfold gets; reflexivity).
  cbn [w_pages wl set_latches]. rewrite wrap_small by lia.
  erewrite M_bind_fault; [reflexivity|].
  apply (search_from_blocked wl _ _ k); unfold PageNumber.MinValue; try lia.
  - unfold wl, set_latches. cbn [w_latches]. apply elem_of_union. left. by apply elem_of_singleton.
  - exists p. exact Hg.
  - intros j Hj. destruct (Hlack j Hj) as (q & (Hgq & Hwq & Hlq) & Hq).
    exists q. split; [|done]. split_and!; [exact Hgq | done |].
    unfold wl, set_latches. cbn [w_latches].
    rewrite not_elem_of_union, elem_of_singleton. split; [|done]. intros [= E]. lia.
Qed.

(** with assertions on, an update to a larger row that fits the free space of the
    page aborts the process, after the undo and the WAL record were written: the line
    pointer of the new slot is asked for before [lower] covers it. *)
Theorem heap_update_move_aborts fuel w t k i p addr old newTuple ht new oldrec usn u' lsn l' new' :
  asserts_on = true -> unchanged tableId w t k i p addr old ->
  formHeapPageTuple desc my_xid newTuple = Ok ht -> HTS_Serialize ht desc = Ok new ->
  zlen old < zlen new -> zlen new + 4 <= upper p - lower p -> HTS_Serialize (ht_tuple t) desc = Ok oldrec ->
  us_insert my_xid (UpdateUndoRecord tableId (mkTupleId k i) (mkTupleId k (nitems p)) oldrec) (w_undo w)
    = (Ok usn, u') ->
  HTS_Serialize (set_undo usn ht) desc = Ok new' ->
  wl_write my_xid (UpdateHeapWALRecord tableId (mkTupleId k (nitems p)) (mkTupleId k i) new') (w_wal w)
    = (Ok lsn, l') ->
  UpdateTuple WaitTransactionEnd tableId desc my_xid fuel t newTuple w =
    (Fault (Abort "index < page_nitems(header)"), mkWorld (w_pages w) (w_latches w) u' l' (w_txn w)).
Proof.
  intros Ha (Ht & (Hg & Hwf & Hl) & Hh & Hx) Hform Hnew Hbig Hroom Hold Hu Hnew' Hw.
  assert (Hz' : zlen new' = zlen new).
  { destruct (HTS_Serialize_set_undo ht desc new usn Hnew) as (b & Hb & Hz). congruence. }
  destruct (access_ok p i addr old Hwf Hh) as (A1 & A2 & A3 & A4 & A5 & A6).
  pose proof (wf_upper p Hwf) as Hup. pose proof (wf_bounds p Hwf) as Hb. unfold Config.PageSize in Hup.
  pose proof (ht_index p i addr old Hh) as Hi. pose proof (zlen_nonneg new).
  unfold UpdateTuple, scope. erewrite lift_Ok by exact Hform. erewrite lift_Ok by exact Hnew.
  rewrite Ht. cbn [pageno itemid]. cbv zeta. unfold tag_of.
  erewrite GetBuffer_Ok by exact Hg. rewrite Lock_Ok by done.
  erewrite lift_Ok by exact A1. erewrite lift_Ok by exact A2. erewrite lift_Ok by exact A3.
  erewrite lift_Ok by exact A4. rewrite Hx.
  erewrite M_bind_Ok by apply check_concurrent_same.
  erewrite GetBuffer_Ok by exact Hg. erewrite lift_Ok by exact A2.
  erewrite M_bind_Ok.
  2: { unfold choose_location. rewrite A5, (proj2 (Z.leb_gt _ _)) by lia.
       erewrite lift_Ok by (by apply GetFreeSpace_ok). unfold Page.sizeof_ItemId.
       rewrite wrap_small, (proj2 (Z.leb_le _ _)) by lia.
       erewrite lift_Ok by (by apply ItemsCount_ok). reflexivity. }
  cbn [pageno itemid].
  erewrite lift_Ok by exact Hold. erewrite InsertRecord_Ok by exact Hu. erewrite lift_Ok by exact Hnew'.
  erewrite lift_Ok by (apply assert_Ok, Z.ltb_lt; lia). erewrite WriteLogRecord_Ok by exact Hw.
  assert (Hne : TupleId_eqb (mkTupleId k (nitems p)) (mkTupleId k i) = false).
  { apply not_true_iff_false. rewrite TupleId_eqb_spec. intros [= E]. lia. }
  rewrite Hne. erewrite M_bind_fault; [|erewrite GetBuffer_Ok by exact Hg;
    erewrite lift_fault by (unfold add_moved; by rewrite GetItemId_beyond by (done || lia)); reflexivity].
  reflexivity.
Qed.
End conflict_proofs.
