(* ===== verification/HeapScan.v ===== *)
(** [access/heap/HeapTableScan.cpp]: the scan of a table under a snapshot. *)
From S2P Require Import Prelude Types Transactions WAL UndoRecord TupleSerializer HeapPage World HeapTable.

Record HeapTableScan := mkScan {
  sc_snapshot : Snapshot; sc_lastPageNumber : Z; sc_tupleId : TupleId; sc_end : bool }.

Section scan.
Context `{Build} {P U L T : Type} `{PageStore P, UndoStore U, WalStore L, TxnTable T}.
#[local] Notation World := (World P U L T).

(** The table's oid and descriptor, and the xid of [MyTransaction]. *)
Context (tableId : Z) (desc : TupleDescriptor) (my_xid : Z).

Definition StartScan (snapshot : Snapshot) : HeapTableScan :=
  mkScan snapshot PageNumber.InvalidValue (mkTupleId PageNumber.InvalidValue 0) false.

Definition BeginScan (s : HeapTableScan) : M World HeapTableScan :=
  n ← GetPageCount tableId;
  _ ← lift (assert_ (PageNumber.IsValid n) "this->_lastPageNumber.IsValid()");
  mret (mkScan (sc_snapshot s) n (mkTupleId PageNumber.MinValue 0) (if n =? 0 then true else sc_end s)).

Definition EndScan (s : HeapTableScan) : HeapTableScan :=
  mkScan (sc_snapshot s) (sc_lastPageNumber s) (mkTupleId PageNumber.InvalidValue 0) true.

Definition build_heap_tuple (bytes : list byte) (tid : TupleId) : result HeapTuple :=
  tuple ← HTS_Deserialize bytes desc;
  Ok (mkHeapTuple desc tuple tid).

Definition tuple_is_visible (snapshot : Snapshot) (header : HeapPageTupleHeader.t) : M World bool :=
  if HeapPageTupleHeader.xid header =? my_xid then
    mret (negb (CommandId snapshot <=? HeapPageTupleHeader.undo header))
  else
    csn ← World.GetTransactionCsn (HeapPageTupleHeader.xid header);
    lift (csn_verdict (snap_csn snapshot) csn).

(** The loop along the undo chain, from [usn]. *)
Fixpoint find_visible_from (fuel : nat) (snapshot : Snapshot) (usn : Z) : M World (option HeapTuple) :=
  match fuel with
  | O => throw NoFuel
  | S k =>
      if UndoSeqNumber.IsValid usn then
        record ← World.GetRecord usn;
        if negb (GetRMgrId record =? HeapUndo.Heap) then throw (Throw "invalid rmgrid")
        else
          match record with
          | DeleteUndoRecord _ _ => find_visible_from k snapshot UndoSeqNumber.Invalid
          | UpdateUndoRecord _ OldLocation NewLocation TupleData =>
              if negb (TupleId_eqb NewLocation OldLocation) then mret None
              else
                h ← lift (HeapPageTupleHeader.load TupleData 0);
                visible ← tuple_is_visible snapshot h;
                if visible : bool then (tuple ← lift (build_heap_tuple TupleData NewLocation); mret (Some tuple))
                else find_visible_from k snapshot (HeapPageTupleHeader.undo h)
          | UndoRecord.InsertUndoRecord _ Location TupleData =>
              h ← lift (HeapPageTupleHeader.load TupleData 0);
              visible ← tuple_is_visible snapshot h;
              if visible : bool then (tuple ← lift (build_heap_tuple TupleData Location); mret (Some tuple))
              else find_visible_from k snapshot (HeapPageTupleHeader.undo h)
          end
      else mret None
  end.

Definition find_visible_tuple_page (fuel : nat) (header : HeapPageTupleHeader.t) (snapshot : Snapshot)
    : M World (option HeapTuple) :=
  find_visible_from fuel snapshot (HeapPageTupleHeader.undo header).

(** The body of the loop of [GetNextTuple] for one line pointer. *)
Definition scan_item (fuel : nat) (snapshot : Snapshot) (page : list byte) (pageno index : Z)
    : M World (option HeapTuple) :=
  lp ← lift (Page.GetItemId page index);
  i ← lift (Page.load_itemid page lp);
  if negb (ItemId.isNormal i) then mret None
  else
    _ ← lift (assert_ (ItemId.hasHeader i) "itemid->hasHeader()");
    addr ← lift (Page.GetTuple i);
    header ← lift (HeapPageTupleHeader.load page addr);
    visible ← tuple_is_visible snapshot header;
    if visible : bool then
      if HeapPageTupleHeader.has_flag header HeapPageTupleHeader.Deleted then mret None
      else
        bytes ← lift (rd page addr (ItemId.getLength i));
        (tuple ← lift (build_heap_tuple bytes (mkTupleId pageno index)); mret (Some tuple))
    else find_visible_tuple_page fuel header snapshot.

(** The loop: the index at which it stops, with the tuple that was found there. *)
Fixpoint scan_from (items : nat) (fuel : nat) (snapshot : Snapshot) (page : list byte) (pageno index : Z)
    : M World (Z * option HeapTuple) :=
  n ← lift (Page.ItemsCount page);
  if negb (index <? n) then mret (index, None)
  else
    match items with
    | O => throw NoFuel
    | S k =>
        tuple ← scan_item fuel snapshot page pageno index;
        match tuple with
        | Some t => mret (index, Some t)
        | None => scan_from k fuel snapshot page pageno (index + 1)
        end
    end.

Definition GetNextTuple (fuel : nat) (s : HeapTableScan) : M World (option HeapTuple * HeapTableScan) :=
  if sc_end s then mret (None, s)
  else
    let no := pageno (sc_tupleId s) in
    page ← GetBuffer (mkPageTag tableId no);
    _ ← lock_shared (mkPageTag tableId no);
    n ← lift (Page.ItemsCount page);
    '(index, tuple) ← scan_from (Z.to_nat n) fuel (sc_snapshot s) page no (itemid (sc_tupleId s));
    if n <=? index then
      let newPageno := PageNumber.add no 1 in
      mret (tuple, mkScan (sc_snapshot s) (sc_lastPageNumber s) (mkTupleId newPageno 0)
                     (if sc_lastPageNumber s <=? newPageno then true else sc_end s))
    else
      mret (tuple, mkScan (sc_snapshot s) (sc_lastPageNumber s)
                     (mkTupleId no (wrap 16 (index + 1))) (sc_end s)).
End scan.

(** ** The versions of a row *)
Section version_proofs.
Context `{Build} {P U L T : Type} `{PageStore P, UndoStore U, WalStore L, TxnTable T}.
#[local] Notation World := (World P U L T).
Context (tableId : Z) (desc : TupleDescriptor) (my_xid : Z).
Implicit Type w : World.

(** The older versions of a row at its place, from the newest, with their location and
    header: the chain ends where the row did not exist, or where an update moved it. *)
Inductive versions w : Z -> list (list byte * TupleId * HeapPageTupleHeader.t) -> Prop :=
| versions_end usn : UndoSeqNumber.IsValid usn = false -> versions w usn []
| versions_inserted usn t l :
    UndoSeqNumber.IsValid usn = true -> us_get usn (w_undo w) = (Ok (DeleteUndoRecord t l), w_undo w) ->
    versions w usn []
| versions_moved usn t o n d :
    UndoSeqNumber.IsValid usn = true -> us_get usn (w_undo w) = (Ok (UpdateUndoRecord t o n d), w_undo w) ->
    n <> o -> versions w usn []
| versions_updated usn t o d h vs :
    UndoSeqNumber.IsValid usn = true -> us_get usn (w_undo w) = (Ok (UpdateUndoRecord t o o d), w_undo w) ->
    HeapPageTupleHeader.load d 0 = Ok h -> versions w (HeapPageTupleHeader.undo h) vs ->
    versions w usn ((d, o, h) :: vs)
| versions_deleted usn t l d h vs :
    UndoSeqNumber.IsValid usn = true ->
    us_get usn (w_undo w) = (Ok (UndoRecord.InsertUndoRecord t l d), w_undo w) ->
    HeapPageTupleHeader.load d 0 = Ok h -> versions w (HeapPageTupleHeader.undo h) vs ->
    versions w usn ((d, l, h) :: vs).

(** A transaction table that lookups do not change. *)
Definition stable_txns w (csn_of : Z -> Z) : Prop := forall x, tx_csn x (w_txn w) = (Ok (csn_of x), w_txn w).

(** The visibility of a header under a snapshot. *)
Definition visible (csn_of : Z -> Z) (snap : Snapshot) (h : HeapPageTupleHeader.t) : bool :=
  if HeapPageTupleHeader.xid h =? my_xid then HeapPageTupleHeader.undo h <? CommandId snap
  else
    let c := csn_of (HeapPageTupleHeader.xid h) in
    CommitSeqNumber.IsFrozen c || (CommitSeqNumber.IsNormal c && (c <? snap_csn snap)).

(** What the table may answer: not that the status is unknown or about to change. *)
Definition settled (csn_of : Z -> Z) : Prop :=
  forall x, 0 < csn_of x /\ csn_of x <> CommitSeqNumber.Committing.

Lemma tuple_is_visible_ok w csn_of snap h :
  stable_txns w csn_of -> settled csn_of ->
  tuple_is_visible my_xid snap h w = (Ok (visible csn_of snap h), w).
Proof.
  intros Ht Hs. unfold tuple_is_visible, visible. destruct (_ =? my_xid).
  - unfold mret, M_ret. by rewrite Z.ltb_antisym.
  - erewrite GetTransactionCsn_Ok by apply Ht.
    set (c := csn_of _). destruct (Hs (HeapPageTupleHeader.xid h)) as [Hpos Hcom]. fold c in Hpos, Hcom.
    unfold lift, csn_verdict, CommitSeqNumber.IsInvalid, CommitSeqNumber.IsCommitting, CommitSeqNumber.IsInProgress,
      CommitSeqNumber.IsAborted, CommitSeqNumber.IsFrozen, CommitSeqNumber.IsNormal, CommitSeqNumber.Invalid,
      CommitSeqNumber.Committing, CommitSeqNumber.InProgress, CommitSeqNumber.Aborted, CommitSeqNumber.Frozen,
      CommitSeqNumber.Min in *.
    rewrite (proj2 (Z.eqb_neq c 0)), (proj2 (Z.eqb_neq c 4)) by lia. rewrite assert_true, bind_Ok.
    destruct (Z.eqb_spec c 2) as [->|Hc2]; [by destruct w|]. destruct (Z.eqb_spec c 3) as [->|Hc3]; [by destruct w|].
    cbn [orb]. destruct (Z.eqb_spec c 1) as [->|Hc1]; [rewrite assert_true; by destruct w|].
    rewrite Z.geb_leb, (proj2 (Z.leb_le 5 c)) by lia. rewrite assert_true. by destruct w.
Qed.

(** The newest version that the snapshot sees. *)
Fixpoint first_visible (csn_of : Z -> Z) (snap : Snapshot) (vs : list (list byte * TupleId * HeapPageTupleHeader.t))
    : option (list byte * TupleId) :=
  match vs with
  | [] => None
  | (d, l, h) :: vs => if visible csn_of snap h then Some (d, l) else first_visible csn_of snap vs
  end.

(** One round of the loop for each version is enough. *)
Lemma find_visible_versions w csn_of snap h vs fuel :
  stable_txns w csn_of -> settled csn_of -> versions w (HeapPageTupleHeader.undo h) vs ->
  (length vs + 1 < fuel)%nat ->
  find_visible_tuple_page desc my_xid fuel h snap w =
    (match first_visible csn_of snap vs with
     | Some (d, l) => Some <$> build_heap_tuple desc d l
     | None => Ok None
     end, w).
Proof.
  intros Ht Hs. unfold find_visible_tuple_page. generalize (HeapPageTupleHeader.undo h). intros usn Hv. revert fuel.
  assert (Hend : forall fuel u, UndoSeqNumber.IsValid u = false ->
    find_visible_from desc my_xid (S fuel) snap u w = (Ok None, w)) by (intros fuel u Hu; cbn; by rewrite Hu).
  induction Hv as [usn Hu | usn t l Hu Hg | usn t o n d Hu Hg Hne | usn t o d h' vs Hu Hg Hl _ IH
                  | usn t l d h' vs Hu Hg Hl _ IH];
    intros [|fuel] Hf; cbn [length] in Hf; try lia.
  - by rewrite Hend.
  - cbn [find_visible_from]. rewrite Hu. erewrite GetRecord_Ok by exact Hg.
    destruct fuel as [|fuel]; [lia|]. by apply Hend.
  - cbn [find_visible_from]. rewrite Hu. erewrite GetRecord_Ok by exact Hg. cbv iota.
    replace (TupleId_eqb n o) with false by (symmetry; apply not_true_iff_false; by rewrite TupleId_eqb_spec).
    done.
  - cbn [find_visible_from first_visible]. rewrite Hu. erewrite GetRecord_Ok by exact Hg. cbv iota.
    rewrite (proj2 (TupleId_eqb_spec o o)) by done. cbn [GetRMgrId Heap_record]; rewrite ?Z.eqb_refl; cbn [negb]; cbv iota.
    erewrite lift_Ok by exact Hl. erewrite M_bind_Ok by (by apply tuple_is_visible_ok).
    destruct (visible csn_of snap h').
    + unfold mbind, M_bind, lift. by destruct (build_heap_tuple _ _ _).
    + apply IH. lia.
  - cbn [find_visible_from first_visible]. rewrite Hu. erewrite GetRecord_Ok by exact Hg. cbv iota.
    cbn [GetRMgrId Heap_record]; rewrite ?Z.eqb_refl; cbn [negb]; cbv iota.
    erewrite lift_Ok by exact Hl. erewrite M_bind_Ok by (by apply tuple_is_visible_ok).
    destruct (visible csn_of snap h').
    + unfold mbind, M_bind, lift. by destruct (build_heap_tuple _ _ _).
    + apply IH. lia.
Qed.

(** Records point backwards: an old version in the record at [usn] has a smaller undo
    field. *)
Definition backward w : Prop := forall usn r,
  UndoSeqNumber.IsValid usn = true -> us_get usn (w_undo w) = (Ok r, w_undo w) ->
  match r with
  | DeleteUndoRecord _ _ => True
  | UpdateUndoRecord _ _ _ d | UndoRecord.InsertUndoRecord _ _ d =>
      exists h, HeapPageTupleHeader.load d 0 = Ok h /\ 0 <= HeapPageTupleHeader.undo h < usn
  end.

Lemma versions_exist w usn :
  backward w -> 0 <= usn ->
  (forall u, UndoSeqNumber.IsValid u = true -> 0 <= u <= usn -> exists r, us_get u (w_undo w) = (Ok r, w_undo w)) ->
  exists vs, versions w usn vs /\ Z.of_nat (length vs) <= usn.
Proof.
  intros Hb Hn0 Hr.
  enough (Hall : forall n : nat, forall u, 0 <= u <= usn -> u <= Z.of_nat n ->
    exists vs, versions w u vs /\ Z.of_nat (length vs) <= u) by (apply (Hall (Z.to_nat usn)); lia).
  induction n as [|n IH]; intros u Hu Hn.
  - replace u with 0 by lia. exists []. split; [by constructor | done].
  - destruct (UndoSeqNumber.IsValid u) eqn:Hv; [|exists []; split; [by constructor | cbn; lia]].
    destruct (Hr u Hv Hu) as [r Hg]. pose proof (Hb u r Hv Hg) as Hback.
    destruct r as [t l|t o n' d|t l d].
    + exists []. split; [by eapply versions_inserted | cbn; lia].
    + destruct Hback as (h & Hl & Hlt). destruct (decide (n' = o)) as [->|Hne].
      * destruct (IH (HeapPageTupleHeader.undo h)) as (vs & Hvs & Hlen); [lia | lia |].
        exists ((d, o, h) :: vs). split; [by eapply versions_updated | cbn [length]; lia].
      * exists []. split; [by eapply versions_moved | cbn; lia].
    + destruct Hback as (h & Hl & Hlt).
      destruct (IH (HeapPageTupleHeader.undo h)) as (vs & Hvs & Hlen); [lia | lia |].
      exists ((d, l, h) :: vs). split; [by eapply versions_deleted | cbn [length]; lia].
Qed.

End version_proofs.

(** ** The rows of a page *)
Lemma length_omap_le {A B} (f : A -> option B) l : (length (omap f l) <= length l)%nat.
Proof. induction l as [|x l IH]; cbn; [lia|]. destruct (f x); cbn in *; lia. Qed.

Section page_proofs.
Context `{Build} {P U L T : Type} `{PageStore P, UndoStore U, WalStore L, TxnTable T}.
#[local] Notation World := (World P U L T).
Context (tableId : Z) (desc : TupleDescriptor) (my_xid : Z).

(** [res i] is the version of the row at item [i] that the scan returns, if any. *)
Context (fuel : nat) (snap : Snapshot) (w : World) (k : Z) (p : list byte) (res : Z -> option HeapTuple).
Hypothesis Hread : readable tableId w k p.
Hypothesis Hres : forall i, 0 <= i < nitems p -> scan_item desc my_xid fuel snap p k i w = (Ok (res i), w).

(** The rows of the items from [j] on. *)
Definition rows (j : Z) : list HeapTuple :=
  omap res (map (fun d => j + Z.of_nat d) (seq 0 (Z.to_nat (nitems p - j)))).

Lemma rows_end : rows (nitems p) = [].
Proof. unfold rows. by rewrite Z.sub_diag. Qed.

Lemma rows_step j : 0 <= j < nitems p -> rows j = option_list (res j) ++ rows (j + 1).
Proof.
  intros Hj. unfold rows. replace (Z.to_nat (nitems p - j)) with (S (Z.to_nat (nitems p - (j + 1)))) by lia.
  cbn [seq map]. rewrite Z.add_0_r. rewrite <-seq_shift, map_map.
  rewrite (map_ext (fun x => j + Z.of_nat (S x)) (fun d => j + 1 + Z.of_nat d)) by (intros; lia).
  cbn. by destruct (res j).
Qed.

Lemma scan_from_rows items j :
  0 <= j <= nitems p -> (Z.to_nat (nitems p - j) <= items)%nat ->
  exists idx r, scan_from desc my_xid items fuel snap p k j w = (Ok (idx, r), w) /\
    match r with
    | None => idx = nitems p /\ rows j = []
    | Some t => j <= idx < nitems p /\ rows j = t :: rows (idx + 1)
    end.
Proof.
  destruct Hread as (_ & Hwf & _). revert j.
  induction items as [|items IH]; intros j Hj Hi; cbn [scan_from];
    erewrite lift_Ok by (by apply ItemsCount_ok); destruct (Z.ltb_spec j (nitems p)) as [Hlt|Hge]; cbn [negb].
  - lia.
  - exists j, None. split; [done|]. split; [lia|]. replace j with (nitems p) by lia. apply rows_end.
  - erewrite M_bind_Ok by (apply Hres; lia). rewrite (rows_step j) by lia. destruct (res j) as [t|] eqn:E.
    + exists j, (Some t). split; [done|]. split; [lia | done].
    + destruct (IH (j + 1)) as (idx & r & Hs & Hr); [lia | lia |]. exists idx, r. split; [exact Hs|].
      destruct r as [t|]; cbn [option_list app]; [|done]. split; [lia | apply Hr].
  - exists j, None. split; [done|]. split; [lia|]. replace j with (nitems p) by lia. apply rows_end.
Qed.

(** A scan that stands at item [j] of the page. *)
Definition at_item (last : Z) (j : Z) : HeapTableScan := mkScan snap last (mkTupleId k j) false.
Definition past_page (last : Z) : HeapTableScan :=
  mkScan snap last (mkTupleId (k + 1) 0) (last <=? k + 1).

Lemma GetNextTuple_rows last j :
  0 <= j <= nitems p -> 0 <= k < 2 ^ 32 - 1 ->
  match rows j with
  | t :: ts => exists j', 0 <= j' <= nitems p /\ rows j' = ts /\
      GetNextTuple tableId desc my_xid fuel (at_item last j) w = (Ok (Some t, at_item last j'), w)
  | [] => GetNextTuple tableId desc my_xid fuel (at_item last j) w = (Ok (None, past_page last), w)
  end.
Proof.
  intros Hj Hk. pose proof Hread as (Hg & Hwf & Hl). destruct (page_nitems_ok p Hwf) as [_ Hn].
  destruct (scan_from_rows (Z.to_nat (nitems p)) j Hj) as (idx & r & Hs & Hr); [lia|].
  assert (Hrun : GetNextTuple tableId desc my_xid fuel (at_item last j) w =
    (if nitems p <=? idx then mret (r, past_page last) else mret (r, at_item last (wrap 16 (idx + 1))) : M World (option HeapTuple * HeapTableScan)) w).
  { unfold GetNextTuple. cbn [at_item sc_end sc_tupleId sc_snapshot sc_lastPageNumber pageno itemid].
    erewrite GetBuffer_Ok by exact Hg. rewrite lock_shared_Ok by done.
    erewrite lift_Ok by (by apply ItemsCount_ok). erewrite M_bind_Ok by exact Hs. cbv beta iota.
    destruct (_ <=? idx); [|done]. unfold PageNumber.add. rewrite wrap_small by lia.
    unfold past_page. by destruct (last <=? k + 1). }
  destruct r as [t|]; destruct Hr as [Hidx ->]; rewrite Hrun.
  - rewrite (proj2 (Z.leb_gt _ _)) by lia. exists (idx + 1). split; [lia|]. split; [done|].
    rewrite wrap_small by lia. done.
  - rewrite (proj2 (Z.leb_le _ _)) by lia. done.
Qed.

(** The loop [while (tuple = scan->GetNextTuple())] of a consumer. *)
Fixpoint drain (n : nat) (s : HeapTableScan) : M World (list HeapTuple * HeapTableScan) :=
  match n with
  | O => throw NoFuel
  | S n =>
      '(t, s) ← GetNextTuple tableId desc my_xid fuel s;
      match t with
      | None => mret ([], s)
      | Some t => '(ts, s) ← drain n s; mret (t :: ts, s)
      end
  end.

Lemma drain_rows last n j :
  0 <= j <= nitems p -> 0 <= k < 2 ^ 32 - 1 -> (length (rows j) < n)%nat ->
  drain n (at_item last j) w = (Ok (rows j, past_page last), w).
Proof.
  intros Hj Hk. revert j Hj. induction n as [|n IH]; intros j Hj Hn; [lia|]. cbn [drain].
  pose proof (GetNextTuple_rows last j Hj Hk) as Hg. destruct (rows j) as [|t ts] eqn:E.
  - by erewrite M_bind_Ok by exact Hg.
  - destruct Hg as (j' & Hj' & <- & Hg). erewrite M_bind_Ok by exact Hg. cbv beta iota.
    erewrite M_bind_Ok by (apply IH; [done | cbn [length] in Hn; lia]). done.
Qed.

Lemma length_rows j : 0 <= j <= nitems p -> (length (rows j) <= Z.to_nat (nitems p - j))%nat.
Proof.
  intros Hj. unfold rows. etransitivity; [apply length_omap_le|]. by rewrite length_map, length_seq.
Qed.
End page_proofs.

Section scan_proofs.
Context `{Build} {P U L T : Type} `{PageStore P, UndoStore U, WalStore L, TxnTable T}.
#[local] Notation World := (World P U L T).
Context (tableId : Z) (desc : TupleDescriptor) (my_xid : Z).

(** a consumer that reads tuples until [GetNextTuple] gives none, as all the plan nodes
    do, gets the rows of the first page that its snapshot sees, in the order of their
    items, and no row of any other page: the null pointer at the end of the page, with
    [_end] not set when there are more pages, looks like the end of the scan. *)
Theorem scan_stops_after_first_page fuel snap (w : World) p res n :
  readable tableId w 0 p ->
  (forall i, 0 <= i < nitems p -> scan_item desc my_xid fuel snap p 0 i w = (Ok (res i), w)) ->
  let last := ps_count (w_pages w) tableId in
  1 <= last < 2 ^ 32 - 1 -> (Z.to_nat (nitems p) < n)%nat ->
  exists s, BeginScan tableId (StartScan snap) w = (Ok s, w) /\
    drain tableId desc my_xid fuel n s w =
      (Ok (rows p res 0, mkScan snap last (mkTupleId 1 0) (last <=? 1)), w).
Proof.
  intros Hr Hres last Hc Hn. pose proof Hr as (_ & Hwf & _). destruct (page_nitems_ok p Hwf) as [_ Hb].
  exists (at_item snap 0 last 0). split.
  - unfold BeginScan, GetPageCount. erewrite M_bind_Ok by (unfold gets; reflexivity).
    fold last. rewrite wrap_small by lia.
    erewrite lift_Ok.
    2: { apply assert_Ok. unfold PageNumber.IsValid, PageNumber.InvalidValue.
         rewrite (proj2 (Z.eqb_neq _ _)) by lia. done. }
    rewrite (proj2 (Z.eqb_neq last 0)) by lia. done.
  - apply (drain_rows tableId desc my_xid fuel snap w 0 p res Hr Hres last n 0); [lia | lia |].
    pose proof (length_rows p res 0 ltac:(lia)). lia.
Qed.
End scan_proofs.
