(* ===== verification/HeapUndoApply.v ===== *)
(** [access/heap/undo/UndoApplierVisitor.cpp] and [HeapResourceManager::ApplyUndo]: undoing
    the changes of an aborted transaction on the pages of a table. *)
From S2P Require Import Prelude Types WAL UndoRecord TupleSerializer HeapPage World HeapTable.

Section apply.
Context `{Build} {P U L T : Type} `{PageStore P, UndoStore U, WalStore L, TxnTable T}.
#[local] Notation World := (World P U L T).

(** [_usn] of the visitor. *)
Context (usn : Z).

(** The tuple of a line pointer: where it is and its header. *)
Definition tuple_at (page : list byte) (index : Z) : result (Z * ItemId.t * Z * HeapPageTupleHeader.t) :=
  lp ← Page.GetItemId page index;
  i ← Page.load_itemid page lp;
  addr ← Page.GetTuple i;
  h ← HeapPageTupleHeader.load page addr;
  Ok (lp, i, addr, h).

Definition Visit_Delete (TableId : Z) (TupId : TupleId) : M World unit := scope (
  let tag := mkPageTag TableId (pageno TupId) in
  page ← GetBuffer tag;
  _ ← Lock tag;
  lp ← lift (Page.GetItemId page (itemid TupId));
  i ← lift (Page.load_itemid page lp);
  if negb (ItemId.isNormal i) then mret tt
  else
    addr ← lift (Page.GetTuple i);
    h ← lift (HeapPageTupleHeader.load page addr);
    if negb (HeapPageTupleHeader.undo h =? usn) then mret tt
    else
      page ← lift (Page.store_itemid page lp (ItemId.setDead i));
      set_page tag page).

(** [oldTuple == currentTuple] compares the address of the record's data with an address
    on the page, which are never equal. *)
Definition same_address : bool := false.

Definition Visit_Update (TableId : Z) (OldLocation NewLocation : TupleId) (TupleData : list byte)
    : M World unit :=
  let tag := mkPageTag TableId (pageno OldLocation) in
  if TupleId_eqb NewLocation OldLocation then scope (
    page ← GetBuffer tag;
    _ ← Lock tag;
    '(_, _, addr, current) ← lift (tuple_at page (itemid OldLocation));
    if same_address then mret tt
    else if negb (HeapPageTupleHeader.undo current =? usn)
    then throw (Throw "can not undo update: tuple was concurrently modified")
    else
      page ← lift (wr page addr TupleData);
      set_page tag page)
  else if pageno NewLocation =? pageno OldLocation then scope (
    page ← GetBuffer tag;
    _ ← Lock tag;
    '(_, _, addr, currentOld) ← lift (tuple_at page (itemid OldLocation));
    if same_address then mret tt
    else if negb (HeapPageTupleHeader.undo currentOld =? usn)
    then throw (Throw "can not undo update: old tuple was concurrently modified")
    else
      '(newLp, newItemId, _, currentNew) ← lift (tuple_at page (itemid NewLocation));
      if negb (HeapPageTupleHeader.undo currentNew =? usn)
      then throw (Throw "can not undo update: new tuple was concurrently modified")
      else
        page ← lift (wr page addr TupleData);
        page ← lift (Page.store_itemid page newLp (ItemId.setDead newItemId));
        set_page tag page)
  else scope (
    let newTag := mkPageTag TableId (pageno NewLocation) in
    oldPage ← GetBuffer tag;
    _ ← Lock tag;
    '(_, _, addr, currentOld) ← lift (tuple_at oldPage (itemid OldLocation));
    if same_address then mret tt
    else if negb (HeapPageTupleHeader.undo currentOld =? usn)
    then throw (Throw "can not undo update: old tuple was concurrently modified")
    else
      newPage ← GetBuffer newTag;
      _ ← Lock newTag;
      '(newLp, newItemId, _, currentNew) ← lift (tuple_at newPage (itemid NewLocation));
      if negb (HeapPageTupleHeader.undo currentNew =? usn)
      then throw (Throw "can not undo update: new tuple was concurrently modified")
      else
        oldPage ← lift (wr oldPage addr TupleData);
        _ ← set_page tag oldPage;
        newPage ← lift (Page.store_itemid newPage newLp (ItemId.setDead newItemId));
        set_page newTag newPage).

Definition Visit_Insert (TableId : Z) (Location : TupleId) (TupleData : list byte) : M World unit := scope (
  let tag := mkPageTag TableId (pageno Location) in
  page ← GetBuffer tag;
  _ ← Lock tag;
  '(_, i, addr, h) ← lift (tuple_at page (itemid Location));
  if negb (HeapPageTupleHeader.undo h =? usn) then mret tt
  else
    _ ← lift (assert_ (zlen TupleData <=? ItemId.getLength i) "record.TupleData.size() <= itemId->getLength()");
    page ← lift (wr page addr TupleData);
    set_page tag page).

(** [HeapResourceManager::ApplyUndo]: [Accept] calls the [Visit] of the record's class. *)
Definition ApplyUndo (record : HeapUndoRecord) : M World unit :=
  _ ← lift (assert_ (GetRMgrId record =? HeapUndo.Heap) "record.GetRMgrId() == ResourceManagerId::Heap");
  match record with
  | DeleteUndoRecord t l => Visit_Delete t l
  | UpdateUndoRecord t o n d => Visit_Update t o n d
  | UndoRecord.InsertUndoRecord t l d => Visit_Insert t l d
  end.
End apply.

(** ** What an undo does to the page *)
Section apply_proofs.
Context `{Build} {P U L T : Type} `{PageStoreLaws P, UndoStore U, WalStore L, TxnTable T}.
#[local] Notation World := (World P U L T).
Context (tableId my_xid usn : Z).
Implicit Type w : World.

Lemma tuple_at_ok p i addr old :
  wf p -> has_tuple p i addr old ->
  tuple_at p i = Ok (12 + 4 * i, item p i, addr, decode_header old).
Proof.
  intros Hwf Hh. destruct (access_ok p i addr old Hwf Hh) as (A1 & A2 & A3 & A4 & _).
  unfold tuple_at. by rewrite A1, bind_Ok, A2, bind_Ok, A3, bind_Ok, A4, bind_Ok.
Qed.

Lemma ApplyUndo_heap r w :
  ApplyUndo usn r w = match r with
  | DeleteUndoRecord t l => Visit_Delete usn t l
  | UpdateUndoRecord t o n d => Visit_Update usn t o n d
  | UndoRecord.InsertUndoRecord t l d => Visit_Insert usn t l d
  end w.
Proof. unfold ApplyUndo. erewrite lift_Ok by (by apply assert_Ok). done. Qed.

Lemma changed_put w k p' ts :
  wf p' -> tuples p' = ts -> mkPageTag tableId k ∉ w_latches w ->
  changed tableId w (mkWorld (ps_put (w_pages w) (mkPageTag tableId k) p') (w_latches w) (w_undo w) (w_wal w) (w_txn w))
    k p' ts.
Proof.
  intros Hwf Ht Hl. unfold changed, readable. cbn [w_pages w_latches w_txn]. split_and!; try done.
  - apply ps_get_put.
  - intros tg Htg. by apply ps_get_put_ne.
Qed.

(** The tuple is overwritten if it still is the version that the record's operation made. *)
Lemma Visit_Insert_ok w k i p addr cur data :
  readable tableId w k p -> has_tuple p i addr cur ->
  HeapPageTupleHeader.undo (decode_header cur) = usn -> zlen data <= zlen cur ->
  exists p' w', Visit_Insert usn tableId (mkTupleId k i) data w = (Ok tt, w') /\
    changed tableId w w' k p' (<[Z.to_nat i := Some (blit 0 data cur)]> (tuples p)) /\
    w_undo w' = w_undo w /\ w_wal w' = w_wal w.
Proof.
  intros (Hg & Hwf & Hl) Hh Hu Hz. destruct (access_ok p i addr cur Hwf Hh) as (_ & _ & _ & _ & A5 & _).
  destruct (overwrite_ok p i addr cur 0 data Hwf Hh) as (p1 & Hwr & Hwf1 & _ & Ht1 & _); [lia | lia |].
  exists p1. eexists. split.
  - unfold Visit_Insert, scope. cbn [pageno itemid]. erewrite GetBuffer_Ok by exact Hg.
    rewrite Lock_Ok by done. erewrite lift_Ok by (by apply tuple_at_ok).
    cbv beta iota. rewrite Hu, Z.eqb_refl. cbn [negb]. cbv iota.
    erewrite lift_Ok by (apply assert_Ok; rewrite A5; apply Z.leb_le; lia).
    erewrite lift_Ok by (rewrite <-(Z.add_0_r addr); exact Hwr). reflexivity.
  - split; [exact (changed_put w k p1 _ Hwf1 Ht1 Hl) | done].
Qed.

Lemma Visit_Update_in_place_ok w k i p addr cur data :
  readable tableId w k p -> has_tuple p i addr cur ->
  HeapPageTupleHeader.undo (decode_header cur) = usn -> zlen data <= zlen cur ->
  exists p' w', Visit_Update usn tableId (mkTupleId k i) (mkTupleId k i) data w = (Ok tt, w') /\
    changed tableId w w' k p' (<[Z.to_nat i := Some (blit 0 data cur)]> (tuples p)) /\
    w_undo w' = w_undo w /\ w_wal w' = w_wal w.
Proof.
  intros (Hg & Hwf & Hl) Hh Hu Hz.
  destruct (overwrite_ok p i addr cur 0 data Hwf Hh) as (p1 & Hwr & Hwf1 & _ & Ht1 & _); [lia | lia |].
  exists p1. eexists. split.
  - unfold Visit_Update. rewrite (proj2 (TupleId_eqb_spec _ _)) by done. unfold scope.
    cbn [pageno itemid]. erewrite GetBuffer_Ok by exact Hg.
    rewrite Lock_Ok by done. erewrite lift_Ok by (by apply tuple_at_ok).
    cbv beta iota. unfold same_address. rewrite Hu, Z.eqb_refl. cbn [negb]. cbv iota.
    erewrite lift_Ok by (rewrite <-(Z.add_0_r addr); exact Hwr). reflexivity.
  - split; [exact (changed_put w k p1 _ Hwf1 Ht1 Hl) | done].
Qed.

Lemma Visit_Delete_skips w k i p addr cur :
  readable tableId w k p -> has_tuple p i addr cur ->
  HeapPageTupleHeader.undo (decode_header cur) <> usn ->
  Visit_Delete usn tableId (mkTupleId k i) w = (Ok tt, w).
Proof.
  intros (Hg & Hwf & Hl) Hh Hu. destruct (access_ok p i addr cur Hwf Hh) as (A1 & A2 & A3 & A4 & _).
  unfold Visit_Delete, scope. cbn [pageno itemid]. erewrite GetBuffer_Ok by exact Hg.
  rewrite Lock_Ok by done. erewrite lift_Ok by exact A1. erewrite lift_Ok by exact A2.
  rewrite (ht_normal p i addr cur Hh). cbn [negb]. cbv iota.
  erewrite lift_Ok by exact A3. erewrite lift_Ok by exact A4.
  rewrite (proj2 (Z.eqb_neq _ usn)) by done. cbn [negb]. by destruct w.
Qed.

Lemma Visit_Delete_dead w k i p addr cur :
  readable tableId w k p -> has_tuple p i addr cur ->
  HeapPageTupleHeader.undo (decode_header cur) = usn ->
  exists p' w', Visit_Delete usn tableId (mkTupleId k i) w = (Ok tt, w') /\
    readable tableId w' k p' /\ item_tuple p' i = None /\
    (forall j, 0 <= j < nitems p -> j <> i -> item_tuple p' j = item_tuple p j).
Proof.
  intros (Hg & Hwf & Hl) Hh Hu. destruct (access_ok p i addr cur Hwf Hh) as (A1 & A2 & A3 & A4 & _).
  destruct (set_dead_ok p i Hwf (ht_index p i addr cur Hh)) as (p' & Hs & Hwf' & Hn & Hd & Ho).
  exists p'. eexists. split.
  - unfold Visit_Delete, scope. cbn [pageno itemid]. erewrite GetBuffer_Ok by exact Hg.
    rewrite Lock_Ok by done. erewrite lift_Ok by exact A1. erewrite lift_Ok by exact A2.
    rewrite (ht_normal p i addr cur Hh). cbn [negb]. cbv iota.
    erewrite lift_Ok by exact A3. erewrite lift_Ok by exact A4.
    rewrite Hu, Z.eqb_refl. cbn [negb]. cbv iota. erewrite lift_Ok by exact Hs. reflexivity.
  - unfold readable, set_latches. cbn [w_pages w_latches]. split_and!; try done.
    + apply ps_get_put.
    + intros j Hj Hne. by apply Ho.
Qed.
End apply_proofs.

(** ** Operations and their undo *)
Section undone.
Context `{Build} {P U L T : Type} `{PageStoreLaws P, UndoStore U, WalStore L, TxnTable T}.
#[local] Notation World := (World P U L T).
Context (WaitTransactionEnd : Z -> M World unit) (tableId : Z) (desc : TupleDescriptor) (my_xid : Z).
Implicit Type w : World.

Lemma restored (ts : list (option (list byte))) p k i addr old :
  wf p -> has_tuple p i addr old -> k = Z.to_nat i -> ts = <[k := Some old]> (tuples p) -> ts = tuples p.
Proof.
  intros Hwf Hh -> ->. apply list_insert_id. pose proof (ht_index p i addr old Hh).
  rewrite tuples_lookup by done. by rewrite (ht_bytes p i addr old Hh).
Qed.

Lemma blit_whole (a b : list byte) : zlen b <= zlen a -> zlen a = zlen b -> blit 0 a b = a.
Proof.
  intros _ Hz. unfold blit, zlen in *. cbn [Z.to_nat]. rewrite take_0, app_nil_l.
  rewrite drop_ge by lia. apply app_nil_r.
Qed.

(** aborting a transaction that deleted a row gives the row back: after [DeleteTuple]
    and the undo of the record that it wrote, every row of the page has its bytes again,
    and no other page was touched. *)
Theorem heap_delete_undone w t k i p addr old usn u' lsn l' :
  unchanged tableId w t k i p addr old ->
  0 <= my_xid < 2 ^ 64 -> - 2 ^ 63 <= usn < 2 ^ 63 ->
  us_insert my_xid (UndoRecord.InsertUndoRecord tableId (mkTupleId k i) old) (w_undo w) = (Ok usn, u') ->
  wl_write my_xid (DeleteHeapWALRecord tableId (mkTupleId k i)) (w_wal w) = (Ok lsn, l') ->
  exists w1 w2 p', DeleteTuple WaitTransactionEnd tableId my_xid t w = (Ok tt, w1) /\ w_undo w1 = u' /\
    ApplyUndo usn (UndoRecord.InsertUndoRecord tableId (mkTupleId k i) old) w1 = (Ok tt, w2) /\
    changed tableId w w2 k p' (tuples p).
Proof.
  intros Hun Hx Hus Hu Hw. pose proof Hun as (_ & (Hg & Hwf & Hl) & Hh & _).
  destruct (DeleteTuple_ok WaitTransactionEnd tableId my_xid w t k i p addr old usn u' lsn l' Hun Hu Hw)
    as (p1 & w1 & Hd & (Hr1 & Ht1 & Ho1 & Hl1 & Hx1) & Hh1 & Hu1 & _).
  assert (Hin : HeapPageTupleHeader.in_range (deleted_header my_xid usn)).
  { split_and!; simpl; unfold HeapPageTupleHeader.Deleted; lia. }
  pose proof (ht_header p i addr old Hh) as H24.
  pose proof (HeapPageTupleHeader.zlen_encode (deleted_header my_xid usn)) as He.
  destruct (Visit_Insert_ok tableId usn w1 k i p1 addr _ old Hr1 Hh1)
    as (p2 & w2 & Hv & (Hr2 & Ht2 & Ho2 & Hl2 & Hx2) & _).
  { rewrite decode_header_blit by done. done. }
  { rewrite zlen_blit by lia. lia. }
  exists w1, w2, p2. split_and!; try done.
  - by rewrite ApplyUndo_heap.
  - split; [done|]. split; [|split_and!; [intros tg Htg; by rewrite Ho2, Ho1 | congruence | congruence]].
    rewrite Ht2, Ht1, list_insert_insert_eq. apply (restored _ p (Z.to_nat i) i addr old); try done.
    do 2 f_equal. apply blit_whole; rewrite zlen_blit by lia; lia.
Qed.

(** the same of an update that replaces the row in place. *)
Theorem heap_update_undone fuel w t k i p addr old newTuple ht new usn u' new' lsn l' :
  unchanged tableId w t k i p addr old ->
  0 <= my_xid < 2 ^ 64 -> - 2 ^ 63 <= usn < 2 ^ 63 ->
  formHeapPageTuple desc my_xid newTuple = Ok ht -> HTS_Serialize ht desc = Ok new ->
  zlen new <= zlen old -> zlen new < 2 ^ 16 - 1 -> HTS_Serialize (ht_tuple t) desc = Ok old ->
  us_insert my_xid (UpdateUndoRecord tableId (mkTupleId k i) (mkTupleId k i) old) (w_undo w) = (Ok usn, u') ->
  HTS_Serialize (set_undo usn ht) desc = Ok new' ->
  wl_write my_xid (UpdateHeapWALRecord tableId (mkTupleId k i) (mkTupleId k i) new') (w_wal w) = (Ok lsn, l') ->
  exists w1 w2 p1 p2, UpdateTuple WaitTransactionEnd tableId desc my_xid fuel t newTuple w = (Ok tt, w1) /\
    changed tableId w w1 k p1 (<[Z.to_nat i := Some (blit 0 new' old)]> (tuples p)) /\ w_undo w1 = u' /\
    ApplyUndo usn (UpdateUndoRecord tableId (mkTupleId k i) (mkTupleId k i) old) w1 = (Ok tt, w2) /\
    changed tableId w w2 k p2 (tuples p).
Proof.
  intros Hun Hx Hus Hform Hnew Hfit Hmax Hold Hu Hnew' Hw. pose proof Hun as (_ & (Hg & Hwf & Hl) & Hh & _).
  destruct (UpdateTuple_in_place WaitTransactionEnd tableId desc my_xid fuel w t k i p addr old newTuple ht new
    old usn u' new' lsn l' Hun Hform Hnew Hfit Hmax Hold Hu Hnew' Hw)
    as (p1 & w1 & Hup & Hch & Hh1 & Hu1 & _).
  pose proof Hch as (Hr1 & Ht1 & Ho1 & Hl1 & Hx1).
  destruct (formHeapPageTuple_header desc my_xid newTuple ht Hform) as [Hxid _].
  destruct (decode_header_row (set_undo usn ht) desc new' Hnew') as (flags & Hdec & H24);
    [cbn; lia | cbn; lia |].
  assert (Hz' : zlen new' = zlen new).
  { destruct (HTS_Serialize_set_undo ht desc new usn Hnew) as (b & Hb & Hz). congruence. }
  destruct (Visit_Update_in_place_ok tableId usn w1 k i p1 addr _ old Hr1 Hh1)
    as (p2 & w2 & Hv & (Hr2 & Ht2 & Ho2 & Hl2 & Hx2) & _).
  { rewrite decode_header_prefix by lia. by rewrite Hdec. }
  { rewrite zlen_blit by lia. lia. }
  exists w1, w2, p1, p2. split_and!; try done.
  - by rewrite ApplyUndo_heap.
  - split; [done|]. split; [|split_and!; [intros tg Htg; by rewrite Ho2, Ho1 | congruence | congruence]].
    rewrite Ht2, Ht1, list_insert_insert_eq. apply (restored _ p (Z.to_nat i) i addr old); try done.
    do 2 f_equal. apply blit_whole; rewrite zlen_blit by lia; lia.
Qed.

(** C28: the undo of an insertion does nothing. The bytes of the row were made before its
    undo record, with the undo field 0, so the record's check that the row is still the
    one it describes fails: the row of an aborted transaction stays on the page. *)
Theorem heap_insert_not_undone tuple w bytes k p usn u' lsn l' fuel :
  row_bytes desc my_xid tuple = Ok bytes -> first_room tableId w (zlen bytes + 4) k p -> fits p (zlen bytes) ->
  0 <= my_xid < 2 ^ 64 -> usn <> 0 ->
  us_insert my_xid (DeleteUndoRecord tableId (mkTupleId k (nitems p))) (w_undo w) = (Ok usn, u') ->
  wl_write my_xid (InsertHeapWALRecord (mkTupleId k (nitems p)) bytes) (w_wal w) = (Ok lsn, l') ->
  (1 <= fuel)%nat ->
  exists p' w', InsertTuple tableId desc my_xid fuel tuple w = (Ok tt, w') /\
    ApplyUndo usn (DeleteUndoRecord tableId (mkTupleId k (nitems p))) w' = (Ok tt, w') /\
    readable tableId w' k p' /\ tuples p' = tuples p ++ [Some bytes].
Proof.
  intros Hb Hroom Hfit Hx Hus Hu Hw Hf.
  pose proof Hroom as (_ & _ & (Hg & Hwf & Hl) & Hfree & _).
  pose proof (wf_upper p Hwf). pose proof (wf_bounds p Hwf). unfold Config.PageSize in *.
  destruct fuel as [|fuel]; [lia|]. exists (inserted p lsn bytes). eexists. split.
  { rewrite (InsertTuple_row tableId desc my_xid (S fuel) tuple bytes) by (done || lia). cbn [insert_loop].
    erewrite M_bind_Ok by (eapply insert_attempt_ok; done). reflexivity. }
  set (w' := mkWorld _ _ _ _ _). pose proof (inserted_wf p lsn bytes Hwf Hfit) as Hwf'.
  assert (Hr : readable tableId w' k (inserted p lsn bytes)).
  { split_and!; [apply ps_get_put | done | done]. }
  split; [|split; [done | by apply inserted_tuples]].
  rewrite ApplyUndo_heap. pose proof (inserted_tuple_new p lsn bytes Hwf Hfit) as Hnew.
  pose proof (page_nitems_ok p Hwf) as [_ Hn].
  eapply (Visit_Delete_skips tableId usn w' k (nitems p)); [exact Hr | |].
  - apply item_has_tuple; [done | rewrite inserted_nitems by done; lia | done].
  - unfold row_bytes in Hb. inv_bind Hb.
    match goal with E : formHeapPageTuple _ _ _ = Ok ?a |- _ =>
      destruct (formHeapPageTuple_header desc my_xid tuple a E) as [Hx' Hu'];
      destruct (decode_header_row a desc bytes Hb) as (fl & Hdec & _); [lia | lia |] end.
    rewrite Hdec. cbn [HeapPageTupleHeader.undo]. congruence.
Qed.
End undone.
