(* ===== verification/HeapExamples.v ===== *)
(** A table of two columns with one page in memory, on which the theorems of [HeapTable],
    [HeapScan] and [HeapUndoApply] are applied. *)
From S2P Require Import Prelude Types Transactions WAL UndoRecord TupleSerializer HeapPage World HeapTable HeapScan HeapUndoApply.

#[local] Existing Instance DebugBuild.
#[local] Notation World := (World MemPages (list HeapUndoRecord) (list HeapWALRecord) (gmap Z Z)).

Definition ex_table : Z := 16384.
Definition ex_desc : TupleDescriptor := [mkAttr 3 4 true; mkAttr 2 2 true].
(** The row (7, NULL). *)
Definition ex_tuple : ITuple :=
  mkITuple (fun a => Ok (if a =? 1 then Some (Scalar 7) else None)) 2.
(** A table of one text column, its rows of 1, 11 and 9000 characters. *)
Definition ex_text : TupleDescriptor := [mkAttr 4 (-1) false].
Definition ex_a : ITuple := mkITuple (fun _ => Ok (Some (Ptr (enc_le 4 1 ++ [x61])))) 1.
Definition ex_long : ITuple := mkITuple (fun _ => Ok (Some (Ptr (enc_le 4 11 ++ replicate 11 x61)))) 1.
Definition ex_huge : ITuple := mkITuple (fun _ => Ok (Some (Ptr (enc_le 4 9000 ++ replicate (Z.to_nat 9000) x61)))) 1.
Definition ex_wait : Z -> M World unit := fun _ => mret tt.


Definition bytes_of (r : result (list byte)) : list byte := match r with Ok b => b | Fault _ => [] end.
Definition form_of (desc : TupleDescriptor) (tuple : ITuple) : HeapPageTuple :=
  match formHeapPageTuple desc 9 tuple with
  | Ok t => t
  | Fault _ => mkHPT (HeapPageTupleHeader.mk 0 0 0) [] []
  end.
Definition ex_row : list byte := bytes_of (row_bytes ex_desc 9 ex_tuple).
Definition ex_row_a : list byte := bytes_of (row_bytes ex_text 9 ex_a).
Definition ex_row_long : list byte := bytes_of (row_bytes ex_text 9 ex_long).
Definition ex_row_huge : list byte := bytes_of (row_bytes ex_text 9 ex_huge).

(** Transaction 5 has committed with number 6, transaction 9 is running. *)
Definition ex_txns : gmap Z Z := {[5 := 6; 9 := 2]}.
Definition ex_csn (x : Z) : Z := default CommitSeqNumber.Aborted (ex_txns !! x).

(** The table has [n] pages, of which the first is [p]. *)
Definition ex_world (n : Z) (p : list byte) (u : list HeapUndoRecord) : World :=
  mkWorld (mkMemPages {[mkPageTag ex_table 0 := p]} {[ex_table := n]}) ∅ u [] ex_txns.

Lemma ex_readable n p u : wf p -> readable ex_table (ex_world n p u) 0 p.
Proof.
  intros Hwf. split_and!; [|done | cbn; set_solver].
  cbn [w_pages ex_world ps_get Mem_pages mp_pages]. by rewrite lookup_singleton_eq.
Qed.

Lemma ex_count n p u : ps_count (w_pages (ex_world n p u)) ex_table = n.
Proof. cbn [w_pages ex_world ps_count Mem_pages mp_count]. by rewrite lookup_singleton_eq. Qed.

Lemma ex_first_room p u size : wf p -> size <= upper p - lower p -> first_room ex_table (ex_world 1 p u) size 0 p.
Proof.
  intros Hwf Hs. unfold first_room. rewrite ex_count. split; [lia|]. split; [lia|].
  split; [by apply ex_readable|]. split; [done | lia].
Qed.

(** An empty page, and a page with one row. *)
Lemma ex_empty : exists p, wf p /\ tuples p = [] /\ lower p = 12 /\ upper p = 8192 /\ nitems p = 0.
Proof.
  destruct ex_new as (p & _ & Hwf & Ht & Hl & Hu). exists p. split_and!; try assumption.
  unfold nitems. by rewrite Hl.
Qed.

Lemma ex_one_row row :
  24 <= zlen row -> zlen row < 1000 ->
  exists p, wf p /\ tuples p = [Some row] /\ nitems p = 1 /\ lower p = 16 /\ upper p = 8192 - aligned (zlen row) /\
    has_tuple p 0 (ItemId.offset (item p 0)) row.
Proof.
  intros H24 Hmax. destruct ex_empty as (p & Hwf & Ht & Hl & Hu & Hn).
  pose proof (aligned_spec (zlen row)) as [Ha _].
  assert (Hfit : fits p (zlen row)) by (unfold fits; lia). exists (inserted p 0 row).
  pose proof (inserted_wf p 0 row Hwf Hfit) as Hwf'. pose proof (inserted_tuples p 0 row Hwf Hfit) as Ht'.
  pose proof (inserted_fields p 0 row Hwf Hfit) as (Hl' & Hu' & _).
  pose proof (inserted_nitems p 0 row Hwf Hfit) as Hn'. rewrite Ht in Ht'.
  split_and!; [exact Hwf' | exact Ht' | lia | lia | lia |].
  apply tuples_has_tuple; [exact Hwf' | lia | by rewrite Ht'].
Qed.

(** ** Insertion *)
Lemma heap_insert_appends_witness :
  exists p p' w', InsertTuple ex_table ex_desc 9 1 ex_tuple (ex_world 1 p []) = (Ok tt, w') /\
    tuples p = [] /\ ps_get (w_pages w') (mkPageTag ex_table 0) = Ok p' /\ tuples p' = [Some ex_row] /\
    w_undo w' = [DeleteUndoRecord ex_table (mkTupleId 0 0)].
Proof.
  destruct ex_empty as (p & Hwf & Ht & Hl & Hu & Hn).
  destruct (heap_insert_appends ex_table ex_desc 9 1 ex_tuple (ex_world 1 p []) ex_row 0 p
    1 [DeleteUndoRecord ex_table (mkTupleId 0 0)] 1 [InsertHeapWALRecord (mkTupleId 0 0) ex_row])
    as (p' & w' & Hi & Hg & _ & Ht' & _ & _ & _ & Hu' & _).
  - vm_compute. reflexivity.
  - apply ex_first_room; [exact Hwf|]. rewrite Hl, Hu. vm_compute. congruence.
  - unfold fits. rewrite Hl, Hu. vm_compute. split_and!; congruence.
  - rewrite Hn. reflexivity.
  - rewrite Hn. reflexivity.
  - lia.
  - exists p, p', w'. rewrite Ht in Ht'. auto.
Defined.

Lemma heap_insert_new_page_aborts_witness :
  (InsertTuple ex_table ex_desc 9 1 ex_tuple (ex_world 0 [] [])).1 = Fault (Abort "page.GetFreeSpace() < freeSpace").
Proof.
  eapply (heap_insert_new_page_aborts ex_table ex_desc 9 1 ex_tuple (ex_world 0 [] []) ex_row).
  - reflexivity.
  - vm_compute. reflexivity.
  - vm_compute. congruence.
  - split; rewrite ex_count; [lia | intros; lia].
  - vm_compute. reflexivity.
  - cbn. set_solver.
  - lia.
Defined.

Lemma heap_insert_oversized_never_ends_witness :
  exists w', InsertTuple ex_table ex_text 9 1000 ex_huge (ex_world 0 [] []) = (Fault NoFuel, w') /\
    ps_count (w_pages w') ex_table = 1000.
Proof.
  destruct (heap_insert_oversized_never_ends ex_table ex_text 9 1000 ex_huge (ex_world 0 [] []) ex_row_huge)
    as (w' & Hr & Hc).
  - vm_compute. reflexivity.
  - vm_compute. reflexivity.
  - vm_compute. reflexivity.
  - split; rewrite ex_count; [lia | intros; lia].
  - reflexivity.
  - intros pages. eexists. reflexivity.
  - rewrite ex_count. vm_compute. reflexivity.
  - exists w'. split; [exact Hr|]. rewrite Hc, ex_count. reflexivity.
Defined.

(** ** Conflicts *)

(** The row of [tuple] as transaction [xid] wrote it, read by a scan. *)
Definition read_row (desc : TupleDescriptor) (row : list byte) : HeapTuple :=
  match build_heap_tuple desc row (mkTupleId 0 0) with
  | Ok t => t
  | Fault _ => mkHeapTuple desc (mkHPT (HeapPageTupleHeader.mk 0 0 0) [] []) (mkTupleId 0 0)
  end.
(** The row that the committed transaction 5 wrote. *)
Definition ex_old : list byte := bytes_of (row_bytes ex_text 5 ex_a).

Lemma ex_old_page : exists p, wf p /\ tuples p = [Some ex_old] /\ nitems p = 1 /\ lower p = 16 /\
  upper p = 8160 /\ has_tuple p 0 (ItemId.offset (item p 0)) ex_old.
Proof.
  destruct (ex_one_row ex_old) as (p & ? & ? & ? & ? & Hu & ?); [vm_compute; congruence | vm_compute; reflexivity |].
  exists p. split_and!; try assumption.
Qed.

Lemma ex_unchanged p u :
  wf p -> has_tuple p 0 (ItemId.offset (item p 0)) ex_old ->
  unchanged ex_table (ex_world 1 p u) (read_row ex_text ex_old) 0 0 p (ItemId.offset (item p 0)) ex_old.
Proof.
  intros Hwf Hh. split; [vm_compute; reflexivity|]. split; [by apply ex_readable|].
  split; [exact Hh | vm_compute; reflexivity].
Qed.

(** A scan read the row of transaction 1, which transaction 5 has since replaced. *)
Lemma heap_first_committer_wins_witness :
  exists p, DeleteTuple ex_wait ex_table 9 (read_row ex_text (bytes_of (row_bytes ex_text 1 ex_a))) (ex_world 1 p []) =
    (Fault (Throw "tuple was concurrently modified"), ex_world 1 p []).
Proof.
  destruct ex_old_page as (p & Hwf & _ & _ & _ & _ & Hh). exists p.
  destruct (heap_first_committer_wins ex_wait ex_table ex_text 9 (ex_world 1 p [])
    (read_row ex_text (bytes_of (row_bytes ex_text 1 ex_a))) 0 0 p (ItemId.offset (item p 0)) ex_old 6 ex_txns
    1 ex_a ex_row_a) as [Hd _].
  - vm_compute. reflexivity.
  - by apply ex_readable.
  - exact Hh.
  - vm_compute. congruence.
  - vm_compute. reflexivity.
  - reflexivity.
  - vm_compute. reflexivity.
  - exact Hd.
Defined.

(** ** Updates *)
Lemma heap_update_search_deadlocks_witness :
  exists p, (UpdateTuple ex_wait ex_table ex_text 9 1 (read_row ex_text ex_old) ex_huge (ex_world 1 p [])).1 =
    Fault (Blocked "buffer latch").
Proof.
  destruct ex_old_page as (p & Hwf & _ & _ & Hl & Hu & Hh). exists p.
  apply (heap_update_search_deadlocks ex_wait ex_table ex_text 9 1 (ex_world 1 p []) (read_row ex_text ex_old) 0 0 p
    (ItemId.offset (item p 0)) ex_old ex_huge (form_of ex_text ex_huge) ex_row_huge).
  - by apply ex_unchanged.
  - vm_compute. reflexivity.
  - vm_compute. reflexivity.
  - vm_compute. reflexivity.
  - rewrite Hl, Hu. vm_compute. reflexivity.
  - vm_compute. reflexivity.
  - rewrite ex_count. lia.
  - rewrite ex_count. lia.
  - intros; lia.
  - lia.
Defined.

Definition ex_moved : HeapUndoRecord := UpdateUndoRecord ex_table (mkTupleId 0 0) (mkTupleId 0 1) ex_old.
Definition ex_updated : HeapUndoRecord := UpdateUndoRecord ex_table (mkTupleId 0 0) (mkTupleId 0 0) ex_old.
(** The new row with the USN of its undo record. *)
Definition ex_new_row (desc : TupleDescriptor) (tuple : ITuple) : list byte :=
  bytes_of (HTS_Serialize (set_undo 1 (form_of desc tuple)) desc).

Lemma heap_update_move_aborts_witness :
  exists p w', UpdateTuple ex_wait ex_table ex_text 9 1 (read_row ex_text ex_old) ex_long (ex_world 1 p []) =
    (Fault (Abort "index < page_nitems(header)"), w') /\ w_undo w' = [ex_moved].
Proof.
  destruct ex_old_page as (p & Hwf & _ & Hn & Hl & Hu & Hh). exists p. eexists. split.
  - apply (heap_update_move_aborts ex_wait ex_table ex_text 9 1 (ex_world 1 p []) (read_row ex_text ex_old) 0 0 p
      (ItemId.offset (item p 0)) ex_old ex_long (form_of ex_text ex_long) ex_row_long ex_old 1 [ex_moved] 1
      [UpdateHeapWALRecord ex_table (mkTupleId 0 1) (mkTupleId 0 0) (ex_new_row ex_text ex_long)]
      (ex_new_row ex_text ex_long)).
    + reflexivity.
    + by apply ex_unchanged.
    + vm_compute. reflexivity.
    + vm_compute. reflexivity.
    + vm_compute. reflexivity.
    + rewrite Hl, Hu. vm_compute. congruence.
    + vm_compute. reflexivity.
    + rewrite Hn. vm_compute. reflexivity.
    + vm_compute. reflexivity.
    + rewrite Hn. vm_compute. reflexivity.
  - reflexivity.
Defined.

(** ** Undo *)
Definition ex_deleted : HeapUndoRecord := UndoRecord.InsertUndoRecord ex_table (mkTupleId 0 0) ex_old.

Lemma heap_delete_undone_witness :
  exists p w1 w2 p', DeleteTuple ex_wait ex_table 9 (read_row ex_text ex_old) (ex_world 1 p []) = (Ok tt, w1) /\
    ApplyUndo 1 ex_deleted w1 = (Ok tt, w2) /\ ps_get (w_pages w2) (mkPageTag ex_table 0) = Ok p' /\
    tuples p' = [Some ex_old].
Proof.
  destruct ex_old_page as (p & Hwf & Ht & Hn & Hl & Hu & Hh).
  destruct (heap_delete_undone ex_wait ex_table 9 (ex_world 1 p []) (read_row ex_text ex_old) 0 0 p
    (ItemId.offset (item p 0)) ex_old 1 [ex_deleted] 1 [DeleteHeapWALRecord ex_table (mkTupleId 0 0)])
    as (w1 & w2 & p' & Hd & _ & Ha & (Hg & _) & Ht' & _).
  - by apply ex_unchanged.
  - lia.
  - lia.
  - vm_compute. reflexivity.
  - vm_compute. reflexivity.
  - exists p, w1, w2, p'. rewrite Ht in Ht'. auto.
Defined.

Lemma heap_update_undone_witness :
  exists p w1 w2 p1 p2, UpdateTuple ex_wait ex_table ex_text 9 1 (read_row ex_text ex_old) ex_a (ex_world 1 p []) = (Ok tt, w1) /\
    tuples p1 = [Some (ex_new_row ex_text ex_a)] /\
    ApplyUndo 1 ex_updated w1 = (Ok tt, w2) /\ ps_get (w_pages w2) (mkPageTag ex_table 0) = Ok p2 /\
    tuples p2 = [Some ex_old].
Proof.
  destruct ex_old_page as (p & Hwf & Ht & Hn & Hl & Hu & Hh).
  destruct (heap_update_undone ex_wait ex_table ex_text 9 1 (ex_world 1 p []) (read_row ex_text ex_old) 0 0 p
    (ItemId.offset (item p 0)) ex_old ex_a (form_of ex_text ex_a) ex_row_a 1 [ex_updated] (ex_new_row ex_text ex_a) 1
    [UpdateHeapWALRecord ex_table (mkTupleId 0 0) (mkTupleId 0 0) (ex_new_row ex_text ex_a)])
    as (w1 & w2 & p1 & p2 & Hd & (_ & Ht1 & _) & _ & Ha & (Hg & _) & Ht' & _).
  - by apply ex_unchanged.
  - lia.
  - lia.
  - vm_compute. reflexivity.
  - vm_compute. reflexivity.
  - vm_compute. congruence.
  - vm_compute. reflexivity.
  - vm_compute. reflexivity.
  - vm_compute. reflexivity.
  - vm_compute. reflexivity.
  - vm_compute. reflexivity.
  - exists p, w1, w2, p1, p2. rewrite Ht in Ht', Ht1. auto.
Defined.

Lemma heap_insert_not_undone_witness :
  exists p p' w', InsertTuple ex_table ex_desc 9 1 ex_tuple (ex_world 1 p []) = (Ok tt, w') /\
    ApplyUndo 1 (DeleteUndoRecord ex_table (mkTupleId 0 0)) w' = (Ok tt, w') /\
    ps_get (w_pages w') (mkPageTag ex_table 0) = Ok p' /\ tuples p' = [Some ex_row].
Proof.
  destruct ex_empty as (p & Hwf & Ht & Hl & Hu & Hn).
  destruct (heap_insert_not_undone ex_table ex_desc 9 ex_tuple (ex_world 1 p []) ex_row 0 p
    1 [DeleteUndoRecord ex_table (mkTupleId 0 0)] 1 [InsertHeapWALRecord (mkTupleId 0 0) ex_row] 1)
    as (p' & w' & Hi & Ha & (Hg & _) & Ht').
  - vm_compute. reflexivity.
  - apply ex_first_room; [exact Hwf|]. rewrite Hl, Hu. vm_compute. congruence.
  - unfold fits. rewrite Hl, Hu. vm_compute. split_and!; congruence.
  - lia.
  - lia.
  - rewrite Hn. reflexivity.
  - rewrite Hn. reflexivity.
  - lia.
  - exists p, p', w'. rewrite Hn in Ha. rewrite Ht in Ht'. auto.
Defined.

(** ** Scans *)

(** The row of transaction 5, deleted by transaction 9, which is running: transaction 8
    with snapshot 7 sees the old version. *)
Definition ex_snap : Snapshot := mkSnapshot 7 0.
Definition ex_gone : HeapPageTupleHeader.t := HeapPageTupleHeader.mk 9 1 HeapPageTupleHeader.Deleted.

Lemma ex_stable n p u : stable_txns (ex_world n p u) ex_csn.
Proof. intros x. reflexivity. Qed.

Lemma ex_settled : settled ex_csn.
Proof.
  intros x. unfold ex_csn, ex_txns. destruct (decide (x = 5)) as [->|H5]; [vm_compute; split; congruence|].
  destruct (decide (x = 9)) as [->|H9]; [vm_compute; split; congruence|].
  rewrite lookup_insert_ne, lookup_singleton_ne by done. vm_compute. split; congruence.
Qed.

Lemma ex_log_only u r :
  UndoSeqNumber.IsValid u = true ->
  us_get u [ex_deleted] = (Ok r, [ex_deleted]) -> u = 1 /\ r = ex_deleted.
Proof.
  intros _. cbn [us_get Mem_undo]. destruct (Z.leb_spec 1 u) as [H1|]; [|done].
  destruct (decide (u = 1)) as [->|Hne]; [vm_compute; intros [= <-]; done|].
  rewrite lookup_ge_None_2; [done|]. cbn [length]. lia.
Qed.


(** A table of two pages, of which the first has one row that the snapshot sees. *)
Lemma ex_scan_page :
  exists p, readable ex_table (ex_world 2 p []) 0 p /\ nitems p = 1 /\
    forall i, 0 <= i < nitems p ->
      scan_item ex_text 8 3 ex_snap p 0 i (ex_world 2 p []) = (Ok (Some (read_row ex_text ex_old)), ex_world 2 p []).
Proof.
  destruct ex_old_page as (p & Hwf & Ht & Hn & Hl & Hu & Hh).
  destruct (access_ok p 0 _ ex_old Hwf Hh) as (A1 & A2 & A3 & A4 & A5 & A6).
  exists p. split; [by apply ex_readable|]. split; [done|].
  intros i Hi. assert (i = 0) as -> by lia. unfold scan_item.
  erewrite lift_Ok by exact A1. erewrite lift_Ok by exact A2. rewrite (ht_normal _ _ _ _ Hh). cbn [negb]. cbv iota.
  erewrite lift_Ok.
  2: { apply assert_Ok. unfold ItemId.hasHeader. apply orb_true_iff. left. exact (ht_normal _ _ _ _ Hh). }
  erewrite lift_Ok by exact A3. erewrite lift_Ok by exact A4.
  erewrite M_bind_Ok by (apply (tuple_is_visible_ok 8 (ex_world 2 p []) ex_csn); [apply ex_stable | apply ex_settled]).
  rewrite A5. change (visible 8 ex_csn ex_snap (decode_header ex_old)) with true.
  change (HeapPageTupleHeader.has_flag (decode_header ex_old) HeapPageTupleHeader.Deleted) with false. cbv iota.
  erewrite lift_Ok by exact A6.
  change (build_heap_tuple ex_text ex_old (mkTupleId 0 0)) with (Ok (read_row ex_text ex_old)). reflexivity.
Qed.

(** The scan returns the row of the first page, and stops there. *)
Lemma scan_stops_after_first_page_witness :
  exists p s s', BeginScan ex_table (StartScan ex_snap) (ex_world 2 p []) = (Ok s, ex_world 2 p []) /\
    drain ex_table ex_text 8 3 2 s (ex_world 2 p []) = (Ok ([read_row ex_text ex_old], s'), ex_world 2 p []) /\
    sc_end s' = false.
Proof.
  destruct ex_scan_page as (p & Hr & Hn & Hs).
  destruct (scan_stops_after_first_page ex_table ex_text 8 3 ex_snap (ex_world 2 p []) p
    (fun _ => Some (read_row ex_text ex_old)) 2 Hr Hs) as (s & Hb & Hd).
  - rewrite ex_count. lia.
  - rewrite Hn. vm_compute. lia.
  - exists p, s. eexists. split; [exact Hb|]. split.
    + rewrite Hd. unfold rows. rewrite Hn. reflexivity.
    + rewrite ex_count. reflexivity.
Defined.
