(* ===== verification/HeapConfined.v ===== *)
(** What the changes of a heap table may touch: [UpdateTuple] and [DeleteTuple] of [access/heap/HeapTable.cpp] keep every page well
    formed and change no row but their own, whatever their arguments are and however they end. *)
From S2P Require Import Prelude Types WAL UndoRecord TupleSerializer HeapPage World HeapTable HeapExamples.

(** ** Pages that keep their rows *)

(** The page [p'] is well formed and has the line pointers of [p], and its rows except those that [S] allows to change. *)
Record grown (S : Z -> bool) (p p' : list byte) : Prop := {
  gr_wf : wf p';
  gr_nitems : nitems p <= nitems p';
  gr_item j : 0 <= j < nitems p -> item p' j = item p j;
  gr_row j : 0 <= j < nitems p -> S j = false -> item_tuple p' j = item_tuple p j
}.

Lemma grown_refl S p : wf p -> grown S p p.
Proof. by split. Qed.

Lemma grown_trans S p p' p'' : grown S p p' -> grown S p' p'' -> grown S p p''.
Proof.
  intros [W N I R] [W' N' I' R']. split; [done | lia | |]; intros j Hj; [rewrite I', I by lia; done | intros Hs; rewrite R', R by (lia || done); done].
Qed.

Lemma grown_lsn `{Build} S p p' lsn : wf p -> Page.set_lsn p lsn = Ok p' -> grown S p p'.
Proof.
  intros Hwf E. destruct (set_lsn_ok p lsn Hwf) as (q & E' & Hq & Ht & Hn & _ & Hi). rewrite E in E'. injection E' as <-. split; [done | lia | done |].
  intros j Hj _. pose proof (tuples_lookup p j Hj) as Hl. rewrite <-Ht, tuples_lookup in Hl by lia. congruence.
Qed.

(** A write inside of a row that may change. *)
Lemma grown_write `{Build} S p i addr old bs p' :
  wf p -> has_tuple p i addr old -> zlen bs <= zlen old -> wr p addr bs = Ok p' -> S i = true -> grown S p p'.
Proof.
  intros Hwf [Hi En -> _ Hl _ _ _] Hb E Hs. destruct (write_tuple_ok p i 0 bs Hwf Hi En) as (q & E' & Hq & Hn & Hit & _ & Ho); [lia | lia |].
  rewrite Z.add_0_r, E in E'. injection E' as <-. split; [done | lia | done |]. intros j Hj Hf. apply Ho; [done|]. intros ->. congruence.
Qed.

(** What the accessors have found where assertions are on. *)
Lemma GetItemId_inv `{Build} p i lp : asserts_on = true -> wf p -> 0 <= i -> Page.GetItemId p i = Ok lp -> i < nitems p /\ lp = 12 + 4 * i.
Proof.
  intros Ha Hwf Hi E. destruct (Z.lt_ge_cases i (nitems p)) as [Hl|Hg]; [|by rewrite GetItemId_beyond in E by done].
  rewrite GetItemId_ok in E by (done || lia). by injection E as <-.
Qed.

Lemma GetTuple_inv `{Build} it addr : asserts_on = true -> Page.GetTuple it = Ok addr -> ItemId.isNormal it = true.
Proof. intros Ha. unfold Page.GetTuple, assert_. rewrite Ha. by destruct (ItemId.isNormal it). Qed.

(** The row that the handlers reach from a line pointer. *)
Lemma reached `{Build} p i lp it addr : asserts_on = true -> wf p -> 0 <= i -> Page.GetItemId p i = Ok lp -> Page.load_itemid p lp = Ok it ->
  Page.GetTuple it = Ok addr -> lp = 12 + 4 * i /\ it = item p i /\ exists old, has_tuple p i addr old.
Proof.
  intros Ha Hwf Hi El Eit Ea. destruct (GetItemId_inv p i lp Ha Hwf Hi El) as [Hn ->]. pose proof (wf_lower p Hwf). pose proof (wf_bounds p Hwf).
  pose proof (wf_upper p Hwf). unfold Config.PageSize in *. rewrite load_itemid_ok in Eit by (unfold Config.PageSize; (lia || apply Hwf)).
  injection Eit as <-. pose proof (GetTuple_inv _ _ Ha Ea) as En. rewrite GetTuple_ok in Ea by (done || lia). injection Ea as <-.
  split; [done|]. split; [done|]. eexists. apply item_has_tuple; [done | lia|]. unfold item_tuple. by rewrite En.
Qed.

(** The row is still there on a page that has kept it. *)
Lemma has_tuple_grown S p p' i addr old : grown S p p' -> has_tuple p i addr old -> exists old', has_tuple p' i addr old' /\ zlen old' = zlen old.
Proof.
  intros [W N I _] [Hi En -> _ Hl _ _ _]. rewrite <-(I i Hi) in *. eexists. split; [apply item_has_tuple; [done | lia | unfold item_tuple; by rewrite En]|].
  destruct (wf_items p' W i ltac:(lia) En) as (_ & H16 & H24 & He). pose proof (wf_size p' W) as Hz. rewrite zlen_slice by lia. done.
Qed.

Section confined.
Context `{Build} {P U L T : Type} `{PageStoreLaws P, UndoStore U, WalStore L, TxnTable T}.
#[local] Notation World := (World P U L T).
Context (tableId : Z) (S : PageTag -> Z -> bool).
Implicit Type w : World.

(** The pages that the table has; those of the other tables are not numbered by its count. *)
Definition known w (tag : PageTag) : Prop := Relid tag = tableId -> PageNo tag < ps_count (w_pages w) tableId.

(** The world [w'] has the pages of [w], and their rows except those that may change. *)
Definition confined w w' : Prop :=
  ps_count (w_pages w) tableId <= ps_count (w_pages w') tableId /\
  forall tag p, known w tag -> ps_get (w_pages w) tag = Ok p -> wf p -> exists p', ps_get (w_pages w') tag = Ok p' /\ grown (S tag) p p'.

#[export] Instance confined_preorder : PreOrder confined.
Proof.
  split.
  - intros w. split; [done|]. intros tag p _ Hg Hwf. exists p. split; [done | by apply grown_refl].
  - intros w w' w'' [Hc Hp] [Hc' Hp']. split; [lia|]. intros tag p Hk Hg Hwf. destruct (Hp tag p Hk Hg Hwf) as (p' & Hg' & Hgr).
    destruct (Hp' tag p') as (p'' & Hg'' & Hgr'); [intros Hr; specialize (Hk Hr); lia | done | apply Hgr |].
    exists p''. split; [done | by eapply grown_trans].
Qed.

Lemma confined_same w w' : w_pages w' = w_pages w -> confined w w'.
Proof. intros E. unfold confined. rewrite E. split; [done|]. intros tag p _ Hg Hwf. exists p. split; [done | by apply grown_refl]. Qed.

Lemma confined_put w0 w w' tag page : confined w0 w -> w_pages w' = ps_put (w_pages w) tag page ->
  (forall p0, known w0 tag -> ps_get (w_pages w0) tag = Ok p0 -> wf p0 -> grown (S tag) p0 page) -> confined w0 w'.
Proof.
  intros [Hc Hp] E Hpage. unfold confined. rewrite E, ps_count_put. split; [done|]. intros tag' p Hk Hg Hwf.
  destruct (decide (tag' = tag)) as [->|Hne]; [exists page; rewrite ps_get_put; auto|]. rewrite ps_get_put_ne by done. by apply Hp.
Qed.

(** ** Computations that change only what they may

    Whatever the outcome is, and with [Q] for the result of one that is normal. *)
Definition safe {A} w0 (m : M World A) (Q : A -> World -> Prop) w : Prop :=
  confined w0 (m w).2 /\ match (m w).1 with Ok a => Q a (m w).2 | Fault _ => True end.
Definition steps {A} (m : M World A) : Prop := forall w, confined w (m w).2.
Definition quiet {A} (m : M World A) : Prop := forall w, w_pages (m w).2 = w_pages w.

Lemma safe_bind {A B} w0 (m : M World A) (k : A -> M World B) Q w :
  safe w0 m (fun a w' => safe w0 (k a) Q w') w -> safe w0 (m ≫= k) Q w.
Proof. unfold safe, mbind, M_bind. intros [Hc Hr]. destruct (m w) as [[a|e] w']; [exact Hr | by split]. Qed.

Lemma safe_ret {A} w0 (a : A) (Q : A -> World -> Prop) w : confined w0 w -> Q a w -> safe w0 (mret a) Q w.
Proof. by split. Qed.

Lemma safe_lift {A B} w0 (r : result A) (k : A -> M World B) Q w :
  confined w0 w -> (forall a, r = Ok a -> safe w0 (k a) Q w) -> safe w0 (lift r ≫= k) Q w.
Proof. intros Hc Hk. apply safe_bind. unfold lift. split; [done|]. cbn. destruct r; auto. Qed.

Lemma safe_get {B} w0 tag (k : list byte -> M World B) Q w :
  confined w0 w -> (forall p, ps_get (w_pages w) tag = Ok p -> safe w0 (k p) Q w) -> safe w0 (GetBuffer tag ≫= k) Q w.
Proof. intros Hc Hk. apply safe_bind. unfold GetBuffer. split; [done|]. cbn. destruct (ps_get _ _); auto. Qed.

Lemma safe_quiet {A B} w0 (m : M World A) (k : A -> M World B) Q w : quiet m -> confined w0 w ->
  (forall a w', w_pages w' = w_pages w -> confined w0 w' -> safe w0 (k a) Q w') -> safe w0 (m ≫= k) Q w.
Proof.
  intros Hm Hc Hk. specialize (Hm w). assert (Hc' : confined w0 (m w).2) by (etrans; [exact Hc | by apply confined_same]).
  apply safe_bind. split; [done|]. destruct (m w) as [[a|e] w']; cbn in *; auto.
Qed.

Lemma safe_steps {A B} w0 (m : M World A) (k : A -> M World B) Q w : steps m -> confined w0 w ->
  (forall a w', confined w0 w' -> safe w0 (k a) Q w') -> safe w0 (m ≫= k) Q w.
Proof.
  intros Hm Hc Hk. specialize (Hm w). assert (Hc' : confined w0 (m w).2) by (etrans; [exact Hc | exact Hm]).
  apply safe_bind. split; [done|]. destruct (m w) as [[a|e] w']; cbn in *; auto.
Qed.

Lemma safe_put {B} w0 tag page (k : unit -> M World B) Q w : confined w0 w ->
  (forall p0, known w0 tag -> ps_get (w_pages w0) tag = Ok p0 -> wf p0 -> grown (S tag) p0 page) ->
  (forall w', w_pages w' = ps_put (w_pages w) tag page -> confined w0 w' -> safe w0 (k tt) Q w') -> safe w0 (set_page tag page ≫= k) Q w.
Proof.
  intros Hc Hp Hk. unfold safe. erewrite !M_bind_Ok by reflexivity. apply Hk; [done|]. by eapply confined_put.
Qed.

Lemma safe_last_put w0 tag page (Q : unit -> World -> Prop) w : confined w0 w ->
  (forall p0, known w0 tag -> ps_get (w_pages w0) tag = Ok p0 -> wf p0 -> grown (S tag) p0 page) -> (forall w', Q tt w') -> safe w0 (set_page tag page) Q w.
Proof. intros Hc Hp HQ. split; [by eapply confined_put | apply HQ]. Qed.

Lemma safe_scope {A} (m : M World A) w : safe w m (fun _ _ => True) w -> confined w (scope m w).2.
Proof. intros [Hc _]. unfold scope. destruct (m w) as [r w']. cbn in *. etrans; [exact Hc | by apply confined_same]. Qed.

Lemma safe_scope_bind {A B} w0 (m : M World A) (k : A -> M World B) Q w : safe w0 m (fun _ _ => True) w ->
  (forall a w', confined w0 w' -> safe w0 (k a) Q w') -> safe w0 (scope m ≫= k) Q w.
Proof.
  intros [Hc _] Hk. assert (Hc' : confined w0 (scope m w).2).
  { unfold scope. destruct (m w) as [r w']. cbn in *. etrans; [exact Hc | by apply confined_same]. }
  apply safe_bind. split; [done|]. destruct (scope m w) as [[a|e] w']; cbn in *; auto.
Qed.

Lemma safe_weaken {A} w0 (m : M World A) (Q Q' : A -> World -> Prop) w :
  safe w0 m Q w -> (forall a w', confined w0 w' -> Q a w' -> Q' a w') -> safe w0 m Q' w.
Proof. intros [Hc Hr] HQ. split; [done|]. destruct (m w).1; auto. Qed.

(** The page that an extension adds is not one that the table has had. *)
Lemma safe_extend w : safe w (ExtendRelation tableId) (fun n _ => n = ps_count (w_pages w) tableId) w.
Proof.
  unfold safe, ExtendRelation. destruct (ps_extend (w_pages w) tableId) as [[n p]|e] eqn:E; [|by split].
  destruct (ps_extend_Ok _ _ _ _ E) as (-> & Hc & _ & Ho). cbn. split; [|done]. split; [cbn; lia|]. intros tag q Hk Hg Hwf. exists q.
  split; [|by apply grown_refl]. cbn. rewrite Ho; [done|]. intros ->. specialize (Hk eq_refl). cbn in Hk. lia.
Qed.

Lemma steps_safe {A} (m : M World A) : (forall w, safe w m (fun _ _ => True) w) -> steps m.
Proof. intros Hm w. apply Hm. Qed.

Lemma steps_bind {A B} (m : M World A) (k : A -> M World B) : steps m -> (forall a, steps (k a)) -> steps (m ≫= k).
Proof.
  intros Hm Hk w. specialize (Hm w). unfold mbind, M_bind. destruct (m w) as [[a|e] w']; [|done]. etrans; [exact Hm | apply Hk].
Qed.
Lemma steps_quiet {A} (m : M World A) : quiet m -> steps m.
Proof. intros Hm w. apply confined_same, Hm. Qed.
Lemma quiet_bind {A B} (m : M World A) (k : A -> M World B) : quiet m -> (forall a, quiet (k a)) -> quiet (m ≫= k).
Proof. intros Hm Hk w. specialize (Hm w). unfold mbind, M_bind. destruct (m w) as [[a|e] w']; [|done]. cbn in *. by rewrite Hk. Qed.

Lemma quiet_Lock tag : quiet (Lock tag).
Proof. intros w. unfold Lock. by case_decide. Qed.
Lemma quiet_lock_shared tag : quiet (lock_shared tag).
Proof. intros w. unfold lock_shared. by case_decide. Qed.
Lemma quiet_Unlock tag : quiet (Unlock tag).
Proof. done. Qed.
Lemma quiet_InsertRecord xid r : quiet (InsertRecord xid r).
Proof. intros w. unfold InsertRecord. by destruct (us_insert _ _ _). Qed.
Lemma quiet_WriteLogRecord xid r : quiet (WriteLogRecord xid r).
Proof. intros w. unfold WriteLogRecord. by destruct (wl_write _ _ _). Qed.
Lemma quiet_GetTransactionCsn xid : quiet (GetTransactionCsn xid).
Proof. intros w. unfold GetTransactionCsn. by destruct (tx_csn _ _). Qed.
Lemma quiet_GetBuffer tag : quiet (GetBuffer tag).
Proof. done. Qed.
Lemma quiet_pure {A} (r : result A) : quiet (lift r).
Proof. done. Qed.
Lemma quiet_ret {A} (a : A) : quiet (mret a).
Proof. done. Qed.
Lemma quiet_throw {A} e : quiet (throw e : M World A).
Proof. done. Qed.
End confined.

Create HintDb quiet.
#[export] Hint Resolve quiet_bind quiet_Lock quiet_lock_shared quiet_Unlock quiet_InsertRecord quiet_WriteLogRecord quiet_GetTransactionCsn
  quiet_GetBuffer quiet_pure quiet_ret quiet_throw steps_quiet steps_bind : quiet.

(** ** The handlers *)
Section handlers.
Context `{Build} {P U L T : Type} `{PageStoreLaws P, UndoStore U, WalStore L, TxnTable T}.
#[local] Notation World := (World P U L T).
Context (WaitTransactionEnd : Z -> M World unit) (tableId : Z) (desc : TupleDescriptor) (my_xid : Z) (S : PageTag -> Z -> bool).
Implicit Type w : World.
#[local] Notation steps := (steps tableId S).
#[local] Notation safe := (safe tableId S).
#[local] Notation confined := (confined tableId S).

Context (Hasserts : asserts_on = true) (Hwait : forall xid, steps (WaitTransactionEnd xid)).

Lemma check_concurrent_steps tag x y : steps (check_concurrent WaitTransactionEnd tag x y).
Proof.
  unfold check_concurrent, wait_tnx_end. destruct (negb _); [|by auto with quiet].
  apply steps_bind; [by auto with quiet|]. intros _. apply steps_bind; [|by auto with quiet].
  apply steps_bind; [by auto with quiet|]. intros csn. apply steps_bind.
  - destruct (CommitSeqNumber.IsInProgress csn); [|by auto with quiet]. apply steps_bind; [done | by auto with quiet].
  - intros csn'. apply steps_bind; [by auto with quiet|]. intros _. destruct (CommitSeqNumber.IsAborted csn'); [by auto with quiet|].
    destruct (_ || _); [by auto with quiet|]. apply steps_bind; by auto with quiet.
Qed.

Lemma search_from_quiet fuel j n f : quiet (search_from tableId fuel j n f : M World (option Z)).
Proof.
  revert j. induction fuel as [|fuel IH]; intros j; cbn [search_from]; [by auto with quiet|]. destruct (j <? n); [|by auto with quiet].
  do 3 (apply quiet_bind; [by auto with quiet | intros ?]). destruct (_ <? f); by auto with quiet.
Qed.

Lemma start_page_steps f : steps (start_page tableId f : M World Z).
Proof.
  apply steps_safe. intros w. unfold start_page.
  apply safe_bind. eapply safe_weaken; [apply safe_extend|]. intros n w1 Hc ->. set (tag := tag_of tableId _).
  assert (Hn : forall p0 page, known tableId w tag -> ps_get (w_pages w) tag = Ok p0 -> wf p0 -> grown (S tag) p0 page).
  { intros p0 page Hk. specialize (Hk eq_refl). cbn in Hk. lia. }
  apply safe_get; [done|]. intros page _. apply safe_scope_bind.
  - apply safe_quiet; [by auto with quiet | done |]. intros _ w2 _ Hc2. apply safe_lift; [done|]. intros [] _; [|by apply safe_ret].
    apply safe_lift; [done|]. intros page' _. apply safe_last_put; [done | by auto | done].
  - intros _ w2 Hc2. apply safe_get; [done|]. intros page' _. apply safe_quiet; [by auto with quiet | done |]. intros _ w3 _ Hc3.
    apply safe_lift; [done|]. intros free _. apply safe_lift; [done|]. intros _ _. by apply safe_ret.
Qed.

Lemma searchPageFreeSpace_steps f : steps (searchPageFreeSpace tableId f : M World Z).
Proof.
  unfold searchPageFreeSpace. apply steps_bind; [by apply steps_quiet|]. intros n. apply steps_bind; [apply steps_quiet, search_from_quiet|].
  intros [k|]; [by auto with quiet | apply start_page_steps].
Qed.

(** A location that is not the old one is the slot after the last of its page. *)
Definition next_slot w (tid : TupleId) : Prop :=
  exists page, ps_get (w_pages w) (tag_of tableId (pageno tid)) = Ok page /\ Page.ItemsCount page = Ok (itemid tid).

Lemma update_search_safe w0 fuel size lock w : confined w0 w ->
  safe w0 (update_search tableId fuel size lock) (fun tid w' => next_slot w' tid) w.
Proof.
  revert lock w. induction fuel as [|fuel IH]; intros lock w Hc; cbn [update_search]; [by split|].
  apply safe_steps; [apply searchPageFreeSpace_steps | done |]. intros k w1 Hc1. apply safe_quiet; [by auto with quiet | done |].
  intros _ w2 _ Hc2. apply safe_quiet; [destruct lock; by auto with quiet | done |]. intros _ w3 _ Hc3.
  apply safe_get; [done|]. intros page Hg. apply safe_lift; [done|]. intros free _. destruct (_ <=? free); [|by apply IH].
  apply safe_lift; [done|]. intros n Hn. apply safe_ret; [done|]. by exists page.
Qed.

Lemma choose_location_safe w0 fuel page it tid size w : confined w0 w -> ps_get (w_pages w) (tag_of tableId (pageno tid)) = Ok page ->
  safe w0 (choose_location tableId fuel page it tid size)
    (fun tid' w' => tid' = tid /\ size <= ItemId.getLength it /\ w_pages w' = w_pages w \/ next_slot w' tid') w.
Proof.
  intros Hc Hg. unfold choose_location. destruct (Z.leb_spec size (ItemId.getLength it)); [apply safe_ret; auto|].
  apply safe_lift; [done|]. intros free _. destruct (_ <=? free).
  - apply safe_lift; [done|]. intros n Hn. apply safe_ret; [done|]. right. by exists page.
  - eapply safe_weaken; [by apply update_search_safe|]. auto.
Qed.

(** A new slot is never filled: its line pointer is asked for before the page counts it. *)
Lemma add_moved_fails page n bytes r : Page.ItemsCount page = Ok n -> add_moved page n bytes = Ok r -> False.
Proof.
  intros Hn. unfold add_moved, Page.GetItemId. rewrite Hn, bind_Ok. by rewrite assert_fails by (done || (apply Z.ltb_ge; lia)).
Qed.

Lemma confined_page w w' tag p : confined w w' -> known tableId w tag -> ps_get (w_pages w) tag = Ok p -> wf p ->
  forall p', ps_get (w_pages w') tag = Ok p' -> grown (S tag) p p'.
Proof. intros [_ Hp] Hk Hg Hwf p' Hg'. destruct (Hp tag p Hk Hg Hwf) as (q & Hq & Hgr). congruence. Qed.

(** Writing the LSN, as the last thing that is done to a page. *)
Lemma lsn_safe w0 tag lsn w : confined w0 w ->
  safe w0 (page ← GetBuffer tag; page ← lift (Page.set_lsn page lsn); set_page tag page) (fun _ _ => True) w.
Proof.
  intros Hc. apply safe_get; [done|]. intros page Hg. apply safe_lift; [done|]. intros page' E. apply safe_last_put; [done | | done].
  intros p0 Hk Hg0 Hwf. pose proof (confined_page w0 w tag p0 Hc Hk Hg0 Hwf page Hg) as Hgr.
  eapply grown_trans; [exact Hgr|]. eapply grown_lsn; [apply Hgr | exact E].
Qed.

Lemma DeleteTuple_confined t w : 0 <= itemid (GetTID t) -> S (tag_of tableId (pageno (GetTID t))) (itemid (GetTID t)) = true ->
  confined w (DeleteTuple WaitTransactionEnd tableId my_xid t w).2.
Proof.
  intros Hi HS. unfold DeleteTuple. apply safe_scope. cbv zeta. set (tag := tag_of _ _) in *. set (i := itemid _) in *.
  apply safe_get; [done|]. intros p0 Hg0. apply safe_quiet; [by auto with quiet | done |]. intros _ w1 _ Hc1.
  apply safe_lift; [done|]. intros lp Hlp. apply safe_lift; [done|]. intros it Hit. apply safe_lift; [done|]. intros addr Haddr.
  apply safe_lift; [done|]. intros h Hh. apply safe_steps; [apply check_concurrent_steps | done |]. intros _ w2 Hc2.
  apply safe_get; [done|]. intros p2 Hg2. apply safe_lift; [done|]. intros it2 _. apply safe_lift; [done|]. intros ser _.
  apply safe_quiet; [by auto with quiet | done |]. intros usn w3 _ Hc3. apply safe_quiet; [by auto with quiet | done |]. intros lsn w4 _ Hc4.
  apply safe_lift; [done|]. intros p3 E3. apply safe_lift; [done|]. intros p4 E4. apply safe_last_put; [done | | done].
  intros q Hk Hq Hwf. rewrite Hg0 in Hq. injection Hq as <-.
  pose proof (confined_page w w2 tag p0 Hc2 Hk Hg0 Hwf p2 Hg2) as Hgr.
  destruct (reached p0 i lp it addr Hasserts Hwf Hi Hlp Hit Haddr) as (_ & _ & old & Hold).
  destruct (has_tuple_grown _ _ _ _ _ _ Hgr Hold) as (old2 & Hold2 & _).
  assert (Hgr3 : grown (S tag) p2 p3).
  { eapply grown_write; [apply Hgr | exact Hold2 | | exact E3 | done]. rewrite HeapPageTupleHeader.zlen_encode. apply Hold2. }
  eapply grown_trans; [exact Hgr|]. eapply grown_trans; [exact Hgr3|]. eapply grown_lsn; [apply Hgr3 | exact E4].
Qed.

Lemma overwrite_grown S' p i bytes p' n : wf p -> 0 <= i -> Page.load_itemid p (12 + 4 * i) = Ok n -> zlen bytes <= ItemId.getLength n ->
  overwrite p i bytes = Ok p' -> S' i = true -> grown S' p p'.
Proof.
  intros Hwf Hi Hn Hb E HS. unfold overwrite in E. destruct (Page.GetItemId p i) as [lp|] eqn:El; [|done]. rewrite bind_Ok in E.
  destruct (Page.load_itemid p lp) as [it|] eqn:Eit; [|done]. rewrite bind_Ok in E. destruct (Page.GetTuple it) as [addr|] eqn:Ea; [|done].
  rewrite bind_Ok in E. destruct (reached p i lp it addr Hasserts Hwf Hi El Eit Ea) as (-> & -> & old & Hold). rewrite Hn in Eit. injection Eit as En.
  destruct (access_ok p i addr old Hwf Hold) as (_ & _ & _ & _ & A5 & _). eapply grown_write; [done | exact Hold | etrans; [exact Hb | by rewrite En, A5] | exact E | done].
Qed.

Lemma UpdateTuple_confined fuel t new w : 0 <= itemid (GetTID t) -> S (tag_of tableId (pageno (GetTID t))) (itemid (GetTID t)) = true ->
  confined w (UpdateTuple WaitTransactionEnd tableId desc my_xid fuel t new w).2.
Proof.
  intros Hi HS. unfold UpdateTuple. apply safe_scope. cbv zeta. set (tag := tag_of _ (pageno (GetTID t))) in *. set (i := itemid _) in *.
  apply safe_lift; [done|]. intros ht Hform. apply safe_lift; [done|]. intros nw Hnw. apply safe_get; [done|]. intros p0 Hg0.
  apply safe_quiet; [by auto with quiet | done |]. intros _ w1 _ Hc1.
  apply safe_lift; [done|]. intros lp Hlp. apply safe_lift; [done|]. intros it Hit. apply safe_lift; [done|]. intros addr Haddr.
  apply safe_lift; [done|]. intros h Hh. apply safe_steps; [apply check_concurrent_steps | done |]. intros _ w2 Hc2.
  apply safe_get; [done|]. intros p2 Hg2. apply safe_lift; [done|]. intros it2 Hit2.
  apply safe_bind. eapply safe_weaken; [by apply choose_location_safe|]. intros tid w3 Hc3 Hloc.
  apply safe_lift; [done|]. intros ser _. apply safe_quiet; [by auto with quiet | done |]. intros usn w4 E4 Hc4.
  apply safe_lift; [done|]. intros bytes Hbytes. apply safe_lift; [done|]. intros _ _. apply safe_quiet; [by auto with quiet | done |].
  intros lsn w5 E5 Hc5.
  assert (Hz : zlen bytes = zlen nw). { destruct (HTS_Serialize_set_undo ht desc nw usn Hnw) as (b & Hb & Hz). congruence. }
  (* the old page, if the table had it when the handler began *)
  assert (Hold : known tableId w tag -> wf p0 -> i < nitems p0 /\ grown (S tag) p0 p2 /\ lp = 12 + 4 * i).
  { intros Hk Hwf. destruct (reached p0 i lp it addr Hasserts Hwf Hi Hlp Hit Haddr) as (-> & _ & old & Ho). split; [apply Ho|].
    split; [by apply (confined_page w w2 tag p0) | done]. }
  destruct (TupleId_eqb tid (GetTID t)) eqn:Etid.
  - apply TupleId_eqb_spec in Etid as ->. apply safe_bind. apply safe_lift; [done|]. intros p3 E3.
    assert (Hput : forall q, known tableId w tag -> ps_get (w_pages w) tag = Ok q -> wf q -> grown (S tag) q p3).
    { intros q Hk Hq Hwf. rewrite Hg0 in Hq. injection Hq as <-. destruct (Hold Hk Hwf) as (Hn & Hgr & ->).
      destruct Hloc as [(_ & Hfit & _)|(page & Hgp & Hcnt)].
      - eapply grown_trans; [exact Hgr|]. eapply overwrite_grown; [apply Hgr | done | exact Hit2 | rewrite Hz; exact Hfit | exact E3 | done].
      - pose proof (confined_page w w3 tag p0 Hc3 Hk Hg0 Hwf page Hgp) as Hgr3. rewrite ItemsCount_ok in Hcnt by apply Hgr3.
        injection Hcnt as Hcnt. pose proof (gr_nitems _ _ _ Hgr3). fold i in Hcnt. lia. }
    split; [by eapply confined_put|]. cbn [fst snd set_page]. apply safe_quiet; [by auto with quiet | by eapply confined_put |].
    intros _ w6 _ Hc6. rewrite Z.eqb_refl. cbn [negb].
    apply safe_get; [done|]. intros p4 Hg4. apply safe_lift; [done|]. intros p5 E5'. apply safe_put; [done | | intros w7 _ Hc7; by apply safe_ret].
    intros q Hk Hq Hwf. pose proof (confined_page w w6 tag q Hc6 Hk Hq Hwf p4 Hg4) as Hgr. eapply grown_trans; [exact Hgr|].
    eapply grown_lsn; [apply Hgr | exact E5'].
  - apply safe_bind. destruct Hloc as [(-> & _)|(page & Hgp & Hcnt)]; [by rewrite (proj2 (TupleId_eqb_spec _ _)) in Etid|].
    apply safe_get; [done|]. intros page' Hg'. rewrite E5, E4, Hgp in Hg'. injection Hg' as <-.
    apply safe_lift; [done|]. intros p3 E3. by destruct (add_moved_fails _ _ _ _ Hcnt E3).
Qed.

(** C23: What [DeleteTuple] and [UpdateTuple] may touch in a build with assertions, for any tuple, any new version, any logs and whatever
    the outcome is, an exception, a failed assertion or a wait for ever included: every well-formed page of the table, and of
    the other tables, stays one, keeps its line pointers, and keeps the bytes of all rows but the one that is deleted or
    updated, and those that other transactions may change while the handler waits for one of them ([S]). In particular a new version that is larger
    than the old one is never written over the next row, and none is ever written to another slot. *)
Theorem heap_changes_confined fuel t new w :
  0 <= itemid (GetTID t) -> S (tag_of tableId (pageno (GetTID t))) (itemid (GetTID t)) = true ->
  confined w (DeleteTuple WaitTransactionEnd tableId my_xid t w).2 /\
  confined w (UpdateTuple WaitTransactionEnd tableId desc my_xid fuel t new w).2.
Proof. intros Hi HS. split; [by apply DeleteTuple_confined | by apply UpdateTuple_confined]. Qed.
End handlers.

(** ** A page of two rows, the first of which is updated to a larger version *)
Section example.
#[local] Existing Instance DebugBuild.
#[local] Notation World := (World MemPages (list HeapUndoRecord) (list HeapWALRecord) (gmap Z Z)).

Definition ex_first (tag : PageTag) (i : Z) : bool := i =? 0.

Lemma ex_two_rows : exists p, wf p /\ tuples p = [Some ex_old; Some ex_old] /\ nitems p = 2.
Proof.
  destruct ex_empty as (p & Hwf & Ht & Hl & Hu & Hn). destruct (fill_ok 2 p ex_old Hwf) as (p' & _ & Hwf' & Ht' & Hn' & _).
  - by vm_compute.
  - rewrite Hu. by vm_compute.
  - rewrite Hl, Hu. by vm_compute.
  - exists p'. rewrite Ht', Ht, Hn', Hn. done.
Qed.

Lemma ex_wait_steps xid : steps ex_table ex_first (ex_wait xid : M World unit).
Proof. intros w. by apply confined_same. Qed.

Lemma heap_changes_confined_witness :
  exists p w' p', tuples p = [Some ex_old; Some ex_old] /\
    (UpdateTuple ex_wait ex_table ex_text 9 1 (read_row ex_text ex_old) ex_long (ex_world 1 p [])).2 = w' /\
    ps_get (w_pages w') (mkPageTag ex_table 0) = Ok p' /\ wf p' /\ item_tuple p' 1 = Some ex_old.
Proof.
  destruct ex_two_rows as (p & Hwf & Ht & Hn). destruct (ex_readable 1 p [] Hwf) as (Hg & _).
  destruct (heap_changes_confined (H := DebugBuild) ex_wait ex_table ex_text 9 ex_first eq_refl ex_wait_steps 1 (read_row ex_text ex_old) ex_long (ex_world 1 p []))
    as [_ [_ Hc]]; [vm_compute; discriminate | reflexivity |].
  destruct (Hc (mkPageTag ex_table 0) p) as (p' & Hg' & [Hwf' _ _ Hr]); [intros _; rewrite ex_count; reflexivity | exact Hg | exact Hwf |].
  exists p, (UpdateTuple ex_wait ex_table ex_text 9 1 (read_row ex_text ex_old) ex_long (ex_world 1 p [])).2, p'.
  split; [exact Ht|]. split; [reflexivity|]. split; [exact Hg'|]. split; [exact Hwf'|]. rewrite Hr; [|lia | reflexivity].
  pose proof (tuples_lookup p 1) as Hl. rewrite Ht in Hl. specialize (Hl ltac:(lia)). injection Hl as Hl. symmetry. exact Hl.
Defined.
End example.
