(* ===== verification/Rollback.v ===== *)
(** Rollback across the components: the changes of a table ([HeapTable]), the undo log file and the history of
    a transaction ([UndoLog]), the write-ahead log ([WAL]), the undo of the records ([HeapUndoApply]) and the
    end of the transaction ([Transactions]), composed. *)
From S2P Require Import Prelude Types File UndoRecord UndoLog WAL Transactions TupleSerializer HeapPage World HeapTable HeapUndoApply HeapExamples.

(** ** The logs of a running transaction

    [MyTransaction->GetUndoLog()] is the history of the transaction over the shared undo log. *)
Section logs.
Context `{Build} `{Posix} (managers : list (option (IResourceManager HeapUndoRecord))) (undo_path : string) (padding : list byte).

Definition Log_undo : UndoStore (list Z * UndoLog.UndoLog) := {|
  us_insert xid r := UndoLog.InsertRecord undo_path xid r;
  us_get usn := fun '(history, l) => let '(r, l') := UndoLog.GetRecord managers undo_path usn l in (r, (history, l'))
|}.

Definition File_wal : WalStore WAL.WriteAheadLog := {| wl_write xid r := WAL.WriteLogRecord padding xid r |}.
End logs.

Section rollback.
Context `{Build} `{PosixOk} (managers : list (option (IResourceManager HeapUndoRecord))) (undo_path : string) (padding : list byte).
#[local] Instance undo_store : UndoStore (list Z * UndoLog.UndoLog) := Log_undo managers undo_path.
#[local] Instance wal_store : WalStore WAL.WriteAheadLog := File_wal padding.
Context {P T : Type} `{PageStoreLaws P} `{TxnTable T}.
#[local] Notation World := (World P (list Z * UndoLog.UndoLog) WAL.WriteAheadLog T).
Implicit Type w : World.

Definition set_undo_log (u : list Z * UndoLog.UndoLog) w : World := mkWorld (w_pages w) (w_latches w) u (w_wal w) (w_txn w).

(** [VirtualUndoLog::UndoAllRecords] in the world: it applies the records of the history to the pages. *)
Definition undo_all (history : list Z) : M World unit := fun w =>
  let '(r, (history', (l, w'))) :=
    UndoLog.UndoAllRecords managers (fun record usn => ApplyUndo usn record) undo_path (history, ((w_undo w).2, w)) in
  (r, set_undo_log (history', l) w').

Context (WaitTransactionEnd : Z -> M World unit) (tableId : Z) (desc : TupleDescriptor) (my_xid : Z) (fuel : nat).

(** What the statements of a transaction do to the rows that a scan gave them. *)
Inductive change := Remove (t : HeapTuple) | Replace (t : HeapTuple) (new : ITuple).

Definition apply_change (c : change) : M World unit :=
  match c with
  | Remove t => DeleteTuple WaitTransactionEnd tableId my_xid t
  | Replace t new => UpdateTuple WaitTransactionEnd tableId desc my_xid fuel t new
  end.

Fixpoint apply_changes (cs : list change) : M World unit :=
  match cs with [] => mret tt | c :: cs => _ ← apply_change c; apply_changes cs end.

(** The logs have room for another record. *)
Definition logs_ok w : Prop :=
  UndoLog.wf (w_undo w).2 /\ zlen (UndoLog.log_file (w_undo w).2) < 2 ^ 61 /\ WAL.wf (w_wal w) /\ zlen (WAL.file (w_wal w)) < 2 ^ 61.

(** A change that the transaction may make now: the row is the version that the scan has read, and the new
    version of an update fits in its place. *)
Inductive ready w : change -> Prop :=
| ready_remove t k i p addr old :
    unchanged tableId w t k i p addr old -> 0 <= k < 2 ^ 32 -> ready w (Remove t)
| ready_replace t newTuple k i p addr old ht new :
    unchanged tableId w t k i p addr old -> 0 <= k < 2 ^ 32 ->
    formHeapPageTuple desc my_xid newTuple = Ok ht -> HTS_Serialize ht desc = Ok new ->
    zlen new <= zlen old -> zlen new < 2 ^ 16 - 1 -> HTS_Serialize (ht_tuple t) desc = Ok old ->
    ready w (Replace t newTuple).

Fixpoint all_ready w (cs : list change) : Prop :=
  match cs with
  | [] => True
  | c :: cs => logs_ok w /\ ready w c /\ all_ready (apply_change c w).2 cs
  end.

(** Two worlds with the same rows: every page has the same bytes, or the same tuples. *)
Definition same_page (r r' : result (list byte)) : Prop :=
  r = r' \/ exists p p', r = Ok p /\ r' = Ok p' /\ wf p /\ wf p' /\ tuples p = tuples p'.
Definition same_rows w w' : Prop :=
  (forall tag, same_page (ps_get (w_pages w) tag) (ps_get (w_pages w') tag)) /\ w_latches w' = w_latches w /\ w_txn w' = w_txn w.

#[export] Instance same_page_equivalence : Equivalence same_page.
Proof.
  split.
  - by left.
  - intros r r' [->|(p & p' & -> & -> & Hp & Hp' & Ht)]; [by left|]. right. by exists p', p.
  - intros r r' r'' [->|(p & p' & -> & -> & Hp & Hp' & Ht)]; [done|]. intros [<-|(q & q' & [= <-] & -> & Hq & Hq' & Ht')]; right.
    + by exists p, p'.
    + exists p, q'. split_and!; try done. congruence.
Qed.

#[export] Instance same_rows_equivalence : Equivalence same_rows.
Proof.
  split.
  - done.
  - intros w w' (Hp & Hl & Hx). split_and!; [|done..]. intros tag. by symmetry.
  - intros w w' w'' (Hp & Hl & Hx) (Hp' & Hl' & Hx'). split_and!; [|congruence..]. intros tag. by transitivity (ps_get (w_pages w') tag).
Qed.

Lemma same_rows_undo w w' u u' : same_rows w w' -> same_rows (set_undo_log u w) (set_undo_log u' w').
Proof. done. Qed.

(** A page that has the rows of another one in the same place. *)
Lemma changed_same_rows w w' k p p' ts :
  readable tableId w k p -> ts = tuples p -> changed tableId w w' k p' ts -> same_rows w w'.
Proof.
  intros (Hg & Hwf & _) -> ((Hg' & Hwf' & _) & Ht & Ho & Hl & Hx). split_and!; [|done..]. intros tag.
  destruct (decide (tag = mkPageTag tableId k)) as [->|Hne]; [|left; by rewrite Ho].
  right. exists p, p'. by split_and!.
Qed.

Lemma readable_same w w' k p : same_rows w w' -> readable tableId w k p -> exists p', readable tableId w' k p' /\ tuples p' = tuples p.
Proof.
  intros (Hp & Hl & _) (Hg & Hwf & Hlk). destruct (Hp (mkPageTag tableId k)) as [E|(q & q' & E & E' & Hq & Hq' & Ht)].
  - exists p. split; [|done]. split_and!; [congruence | done | congruence].
  - rewrite Hg in E. injection E as <-. exists q'. split; [|done]. split_and!; [done | done | congruence].
Qed.

(** ** One change and the record that undoes it *)

(** The record [r] at [usn] brings the row [i] of page [k] back from [cur] to [old]. *)
Definition restores (r : HeapUndoRecord) (usn k i : Z) (old cur : list byte) : Prop :=
  HeapPageTupleHeader.undo (decode_header cur) = usn /\ exists data, zlen data <= zlen cur /\ blit 0 data cur = old /\
    (r = UndoRecord.InsertUndoRecord tableId (mkTupleId k i) data \/
     r = UpdateUndoRecord tableId (mkTupleId k i) (mkTupleId k i) data).

Lemma undo_change w w1 w' k i p addr old p1 cur usn r :
  readable tableId w k p -> has_tuple p i addr old -> changed tableId w w1 k p1 (<[Z.to_nat i := Some cur]> (tuples p)) ->
  restores r usn k i old cur -> same_rows w1 w' ->
  exists w'', ApplyUndo usn r w' = (Ok tt, w'') /\ same_rows w w'' /\ w_undo w'' = w_undo w'.
Proof.
  intros Hr Hh Hch (Hu & data & Hz & Hd & Hrec) Hs. pose proof Hch as (Hr1 & Ht1 & Ho1 & Hl1 & Hx1).
  destruct (readable_same w1 w' k p1 Hs Hr1) as (p' & Hr' & Ht'). pose proof (ht_index p i addr old Hh) as Hi.
  assert (Hh' : has_tuple p' i (ItemId.offset (item p' i)) cur).
  { apply tuples_has_tuple; [apply Hr' | lia|]. rewrite Ht', Ht1. apply list_lookup_insert_eq.
    pose proof (length_tuples p) as Hlen. unfold zlen in Hlen. lia. }
  assert (Hvis : exists p2 w2, ApplyUndo usn r w' = (Ok tt, w2) /\
    changed tableId w' w2 k p2 (<[Z.to_nat i := Some (blit 0 data cur)]> (tuples p')) /\ w_undo w2 = w_undo w').
  { rewrite ApplyUndo_heap. destruct Hrec as [-> | ->].
    - destruct (Visit_Insert_ok tableId usn w' k i p' _ cur data Hr' Hh' Hu Hz) as (p2 & w2 & E & Hc & Hun & _). by exists p2, w2.
    - destruct (Visit_Update_in_place_ok tableId usn w' k i p' _ cur data Hr' Hh' Hu Hz) as (p2 & w2 & E & Hc & Hun & _). by exists p2, w2. }
  destruct Hvis as (p2 & w2 & E & Hch2 & Hun). exists w2. split; [done|]. split; [|done].
  pose proof Hch2 as (Hr2 & Ht2 & Ho2 & Hl2 & Hx2). destruct Hs as (Hp & Hl & Hx). split_and!; [|congruence..]. intros tag.
  destruct (decide (tag = mkPageTag tableId k)) as [->|Hne].
  - right. exists p, p2. split_and!; [apply Hr | apply Hr2 | apply Hr | apply Hr2|]. rewrite Ht2, Ht', Ht1, list_insert_insert_eq, Hd.
    symmetry. by apply (restored _ p (Z.to_nat i) i addr old); [apply Hr|..].
  - rewrite Ho2, <-Ho1 by done. apply Hp.
Qed.

Context (Hreg : setupResourceManagers Heap_manager = Ok managers) (Hpad : zlen padding = 4).
Context (Htable : 0 <= tableId < 2 ^ 32) (Hxid : 0 <= my_xid < 2 ^ 64).
#[local] Notation holds := (UndoLog.holds (fun r => HeapUndo.valid r = true)).

Lemma registered r : HeapUndo.valid r = true -> GetManager managers (GetRMgrId r) = Ok Heap_manager.
Proof.
  intros _. assert (Hm : managers = match setupResourceManagers Heap_manager with Ok m => m | Fault _ => [] end) by by rewrite Hreg.
  rewrite Hm. reflexivity.
Qed.

Lemma log_undo_record w r : logs_ok w -> HeapUndo.valid r = true ->
  exists usn l, us_insert my_xid r (w_undo w) = (Ok usn, ((w_undo w).1 ++ [usn], l)) /\ UndoLog.log_file (w_undo w).2 `prefix_of` UndoLog.log_file l /\
    holds l usn r /\ - 2 ^ 63 <= usn < 2 ^ 63.
Proof.
  intros (Hwf & Hz & _) Hv. destruct (UndoLog.inserted_holds (fun r => HeapUndo.valid r = true) undo_path my_xid r (w_undo w).2 Hwf Hv)
    as (l & E & _ & Hpre & Hh & _); [by apply in_u_spec|].
  exists (zlen (UndoLog.log_file (w_undo w).2) + 1), l. pose proof (zlen_nonneg (UndoLog.log_file (w_undo w).2)). split; [|split; [done|split; [done|lia]]].
  cbn [us_insert undo_store Log_undo]. unfold UndoLog.InsertRecord. destruct (w_undo w) as [h l0]. cbn [fst snd] in *. by rewrite E.
Qed.

Lemma log_wal_record w r : logs_ok w -> HeapWAL.valid r = true -> exists lsn l, wl_write my_xid r (w_wal w) = (Ok lsn, l).
Proof.
  intros (_ & _ & Hwf & Hz) Hv. destruct (WAL.WriteLogRecord_step padding (fun r => HeapWAL.valid r = true) Hpad my_xid r (w_wal w) Hwf Hv)
    as (lsn & l & E & _); [lia|]. by exists lsn, l.
Qed.

Lemma row_id_valid k i p addr old : wf p -> has_tuple p i addr old -> 0 <= k < 2 ^ 32 ->
  valid_TupleId (mkTupleId k i) = true /\ (zlen old <? 2 ^ 31) = true.
Proof.
  intros Hwf Hh Hk. pose proof (page_nitems_ok p Hwf) as [_ Hn]. pose proof (ht_index p i addr old Hh). pose proof (ht_end p i addr old Hh).
  pose proof (wf_size p Hwf) as Hz. unfold Config.PageSize in Hz. unfold valid_TupleId. cbn [pageno itemid].
  rewrite (proj2 (in_u_spec 32 k)), (proj2 (in_u_spec 16 i)) by lia. split; [done | apply Z.ltb_lt; lia].
Qed.

Lemma change_ok w c : logs_ok w -> ready w c ->
  exists w1 usn r k i p addr old p1 cur l, apply_change c w = (Ok tt, w1) /\ readable tableId w k p /\ has_tuple p i addr old /\
    changed tableId w w1 k p1 (<[Z.to_nat i := Some cur]> (tuples p)) /\ restores r usn k i old cur /\
    w_undo w1 = ((w_undo w).1 ++ [usn], l) /\ UndoLog.log_file (w_undo w).2 `prefix_of` UndoLog.log_file l /\ holds l usn r.
Proof.
  intros Hlog [t k i p addr old Hun Hk | t newTuple k i p addr old ht new Hun Hk Hform Hnew Hfit Hmax Hold]; pose proof Hun as (_ & Hr & Hh & _);
    pose proof Hr as (_ & Hwf & _); destruct (row_id_valid k i p addr old Hwf Hh Hk) as [Hid Hlen]; pose proof (ht_header p i addr old Hh) as H24.
  - destruct (log_undo_record w (UndoRecord.InsertUndoRecord tableId (mkTupleId k i) old) Hlog) as (usn & l & Eu & Hpre & Hholds & Husn).
    { cbn [HeapUndo.valid]. by rewrite (proj2 (in_u_spec 32 tableId)), Hid, Hlen. }
    destruct (log_wal_record w (DeleteHeapWALRecord tableId (mkTupleId k i)) Hlog) as (lsn & l' & Ew); [done|].
    destruct (DeleteTuple_ok WaitTransactionEnd tableId my_xid w t k i p addr old usn _ lsn l' Hun Eu Ew) as (p1 & w1 & E & Hch & _ & Hu & _).
    pose proof (HeapPageTupleHeader.zlen_encode (deleted_header my_xid usn)) as He.
    eexists w1, usn, _, k, i, p, addr, old, p1, _, l. split_and!; [exact E | done | done | exact Hch | | exact Hu | done | exact Hholds]. split.
    + rewrite decode_header_blit; [done | | done]. split_and!; cbn; unfold HeapPageTupleHeader.Deleted; lia.
    + exists old. split; [rewrite zlen_blit by lia; lia|]. split; [|by left]. apply blit_whole; rewrite zlen_blit by lia; lia.
  - destruct (log_undo_record w (UpdateUndoRecord tableId (mkTupleId k i) (mkTupleId k i) old) Hlog) as (usn & l & Eu & Hpre & Hholds & Husn).
    { cbn [HeapUndo.valid]. by rewrite (proj2 (in_u_spec 32 tableId)), Hid, Hlen. }
    destruct (HTS_Serialize_set_undo ht desc new usn Hnew) as (new' & Hnew' & Hz').
    destruct (log_wal_record w (UpdateHeapWALRecord tableId (mkTupleId k i) (mkTupleId k i) new') Hlog) as (lsn & l' & Ew).
    { cbn [HeapWAL.valid]. apply Z.ltb_lt. lia. }
    destruct (UpdateTuple_in_place WaitTransactionEnd tableId desc my_xid fuel w t k i p addr old newTuple ht new old usn _ new' lsn l'
      Hun Hform Hnew Hfit Hmax Hold Eu Hnew' Ew) as (p1 & w1 & E & Hch & _ & Hu & _).
    destruct (formHeapPageTuple_header desc my_xid newTuple ht Hform) as [Hx _].
    destruct (decode_header_row (set_undo usn ht) desc new' Hnew') as (flags & Hdec & Hn24); [cbn; lia | cbn; lia |].
    eexists w1, usn, _, k, i, p, addr, old, p1, _, l. split_and!; [exact E | done | done | exact Hch | | exact Hu | done | exact Hholds]. split.
    + rewrite decode_header_prefix by lia. by rewrite Hdec.
    + exists old. split; [rewrite zlen_blit by lia; lia|]. split; [|by right]. apply blit_whole; rewrite zlen_blit by lia; lia.
Qed.

(** All changes of a transaction, and the records of its history. *)
Lemma changes_ok cs w : all_ready w cs ->
  exists w1 us rs, apply_changes cs w = (Ok tt, w1) /\ (w_undo w1).1 = (w_undo w).1 ++ us /\
    UndoLog.log_file (w_undo w).2 `prefix_of` UndoLog.log_file (w_undo w1).2 /\ Forall2 (holds (w_undo w1).2) us rs /\
    forall w', same_rows w1 w' -> exists w2, mapM_ (fun p => ApplyUndo p.1 p.2) (combine (rev us) (rev rs)) w' = (Ok tt, w2) /\
      same_rows w w2 /\ w_undo w2 = w_undo w'.
Proof.
  revert w. induction cs as [|c cs IH]; intros w; cbn [all_ready apply_changes].
  - intros _. exists w, [], []. rewrite app_nil_r. split_and!; [done..|constructor|]. intros w' Hs. by exists w'.
  - intros (Hlog & Hready & Hrest). destruct (change_ok w c Hlog Hready)
      as (w1 & usn & r & k & i & p & addr & old & p1 & cur & l & E & Hr & Hh & Hch & Hres & Hu & Hpre & Hholds).
    rewrite E in Hrest. cbn [snd] in Hrest. destruct (IH w1 Hrest) as (w2 & us & rs & E2 & Hu2 & Hpre2 & Hf & Hundo).
    rewrite Hu in Hu2, Hpre2. cbn [fst snd] in Hu2, Hpre2. exists w2, (usn :: us), (r :: rs). split_and!.
    + by erewrite M_bind_Ok by exact E.
    + by rewrite Hu2, <-app_assoc.
    + by transitivity (UndoLog.log_file l).
    + constructor; [by eapply UndoLog.holds_grow | done].
    + intros w' Hs. destruct (Hundo w' Hs) as (w3 & E3 & Hs3 & Hu3).
      destruct (undo_change w w1 w3 k i p addr old p1 cur usn r Hr Hh Hch Hres Hs3) as (w4 & E4 & Hs4 & Hu4).
      exists w4. split; [|split; [done | congruence]]. cbn [rev]. assert (Hlen : length (rev us) = length (rev rs)).
      { rewrite !length_rev. by apply Forall2_length in Hf. }
      rewrite combine_snoc, mapM_app by done. erewrite M_bind_Ok by exact E3. cbn [mapM_ fst snd]. by erewrite M_bind_Ok by exact E4.
Qed.

(** The undo of the whole history. *)
Lemma undo_all_ok cs w : all_ready w cs -> (w_undo w).1 = [] ->
  exists w1, apply_changes cs w = (Ok tt, w1) /\
    (zlen (UndoLog.log_file (w_undo w1).2) < 2 ^ 62 -> exists w2, undo_all (w_undo w1).1 w1 = (Ok tt, w2) /\ same_rows w w2 /\ (w_undo w2).1 = []).
Proof.
  intros Hready Hnil. destruct (changes_ok cs w Hready) as (w1 & us & rs & E & Hu & _ & Hf & Hundo). rewrite Hnil in Hu. cbn [app] in Hu.
  exists w1. split; [done|]. intros Hz. destruct (Hundo w1) as (w2 & E2 & Hs & Hu2); [done|].
  exists (set_undo_log ([], (w_undo w1).2) w2). split; [|split; [exact Hs | done]].
  unfold undo_all, UndoLog.UndoAllRecords. rewrite Hu.
  rewrite (UndoLog.mapM_PerformUndo managers (fun r => HeapUndo.valid r = true) registered (fun record usn => ApplyUndo usn record) undo_path
    (w_undo w1).2 w1 (rev us) (rev rs)) by (done || by apply Forall2_rev). by rewrite E2.
Qed.

(** ** The end of the transaction *)
Lemma abort_ends s worker t w2 :
  tm_transactions s !! worker = Some t -> t_workerId t = worker -> tm_mutex s = false -> is_Some (tm_xidToWorker s !! t_xid t) ->
  t_undoLog t = Some (w_undo (tm_world s)).1 -> undo_all (w_undo (tm_world s)).1 (tm_world s) = (Ok tt, w2) ->
  exists s', AbortTransaction undo_all worker s = (Ok tt, s') /\ tm_world s' = w2 /\ tm_transactions s' !! worker = None /\
    tm_history s' !! t_xid t = Some CommitSeqNumber.Aborted /\ tm_csn s' = tm_csn s.
Proof.
  intros Ht Hw Hm [x Hx] Hu E. eexists. split; [|split; [|split; [|split]]].
  - unfold AbortTransaction. erewrite M_bind_Ok by reflexivity. cbv beta. rewrite Ht. erewrite lift_Ok by reflexivity. rewrite Hu.
    erewrite M_bind_Ok by (unfold on_world; rewrite E; reflexivity).
    assert (Hg : get_own worker (set_world w2 s) = (Ok t, set_world w2 s)).
    { unfold get_own, mbind, M_bind, get. cbn [set_world tm_transactions]. rewrite Ht. unfold lift, assert_. rewrite Hw, Z.eqb_refl.
      by destruct asserts_on. }
    erewrite M_bind_Ok by exact Hg. unfold abort_publish, end_entry, abort_finish, locked, mbind, M_bind, modify, get, put. cbn. rewrite Hm. cbn.
    rewrite Hx. reflexivity.
  - done.
  - cbn. by rewrite lookup_delete_eq.
  - cbn. by rewrite lookup_insert_eq.
  - done.
Qed.

(** C2: Rollback: when a transaction has deleted rows and has updated rows in place, any number of them in any order, the same row
    several times too, then aborting it reads its records back from the undo log file and applies them backward, and every page
    has the rows that it had when the transaction began; the transaction is over and known as aborted. *)
Theorem rollback_restores_rows cs w : all_ready w cs -> (w_undo w).1 = [] ->
  exists w1, apply_changes cs w = (Ok tt, w1) /\
    forall s worker t, tm_world s = w1 -> zlen (UndoLog.log_file (w_undo w1).2) < 2 ^ 62 ->
      tm_transactions s !! worker = Some t -> t_workerId t = worker -> t_undoLog t = Some (w_undo w1).1 ->
      tm_mutex s = false -> is_Some (tm_xidToWorker s !! t_xid t) ->
      exists s', AbortTransaction undo_all worker s = (Ok tt, s') /\ same_rows w (tm_world s') /\
        tm_transactions s' !! worker = None /\ tm_history s' !! t_xid t = Some CommitSeqNumber.Aborted /\ tm_csn s' = tm_csn s.
Proof.
  intros Hready Hnil. destruct (undo_all_ok cs w Hready Hnil) as (w1 & E & Hundo). exists w1. split; [done|].
  intros s worker t <- Hz Ht Hw Hu Hm Hx. destruct (Hundo Hz) as (w2 & E2 & Hs & _).
  destruct (abort_ends s worker t w2 Ht Hw Hm Hx Hu E2) as (s' & Ea & <- & Hrest). by exists s'.
Qed.
End rollback.

(** ** A transaction on a table of one row: it updates the row, then deletes the new version *)
Section example.
#[local] Existing Instance DebugBuild.
#[local] Instance ram : Posix := File.RamFile.
#[local] Instance ram_ok : PosixOk := File.RamFile_ok.
#[local] Instance ex_undo : UndoStore (list Z * UndoLog.UndoLog) := Log_undo UndoLog.ex_managers "undo".
#[local] Instance ex_wal : WalStore WAL.WriteAheadLog := File_wal (zeros 4).
#[local] Notation World := (World MemPages (list Z * UndoLog.UndoLog) WAL.WriteAheadLog (gmap Z Z)).

Definition ex_begin (p : list byte) : World :=
  mkWorld (mkMemPages {[mkPageTag ex_table 0 := p]} {[ex_table := 1]}) ∅ ([], UndoLog.mkUndoLog 0 []) (WAL.mkWAL [] 0 0 []) ex_txns.
Definition ex_no_wait : Z -> M World unit := fun _ => mret tt.

Definition ex_undo1 := us_insert 9 (UpdateUndoRecord ex_table (mkTupleId 0 0) (mkTupleId 0 0) ex_old) ([], UndoLog.mkUndoLog 0 []).
Definition ex_wal1 := wl_write 9 (UpdateHeapWALRecord ex_table (mkTupleId 0 0) (mkTupleId 0 0) (ex_new_row ex_text ex_a)) (WAL.mkWAL [] 0 0 []).
Definition ex_cur : list byte := blit 0 (ex_new_row ex_text ex_a) ex_old.
Definition ex_undo2 := us_insert 9 (UndoRecord.InsertUndoRecord ex_table (mkTupleId 0 0) ex_cur) ex_undo1.2.
Definition ex_wal2 := wl_write 9 (DeleteHeapWALRecord ex_table (mkTupleId 0 0)) ex_wal1.2.

Definition ex_changes : list change := [Replace (read_row ex_text ex_old) ex_a; Remove (read_row ex_text ex_cur)].

#[local] Notation run_changes := (apply_changes UndoLog.ex_managers "undo" (zeros 4) ex_no_wait ex_table ex_text 9 1).
#[local] Notation ex_step := (apply_change UndoLog.ex_managers "undo" (zeros 4) ex_no_wait ex_table ex_text 9 1).
#[local] Notation ready_changes := (all_ready UndoLog.ex_managers "undo" (zeros 4) ex_no_wait ex_table ex_text 9 1).

Lemma ex_begin_readable p : wf p -> readable ex_table (ex_begin p) 0 p.
Proof.
  intros Hwf. split_and!; [|done | cbn; set_solver]. cbn [w_pages ex_begin ps_get Mem_pages mp_pages]. by rewrite lookup_singleton_eq.
Qed.

Lemma ex_changes_ready : exists p w2, wf p /\ tuples p = [Some ex_old] /\ ready_changes (ex_begin p) ex_changes /\
  run_changes ex_changes (ex_begin p) = (Ok tt, w2) /\ w_undo w2 = ex_undo2.2.
Proof.
  destruct ex_old_page as (p & Hwf & Ht & Hn & Hl & Hu & Hh). pose proof (ex_begin_readable p Hwf) as Hr.
  assert (Hun : unchanged ex_table (ex_begin p) (read_row ex_text ex_old) 0 0 p (ItemId.offset (item p 0)) ex_old).
  { split; [vm_compute; reflexivity|]. split; [exact Hr|]. split; [exact Hh | vm_compute; reflexivity]. }
  destruct (UpdateTuple_in_place ex_no_wait ex_table ex_text 9 1 (ex_begin p) (read_row ex_text ex_old) 0 0 p (ItemId.offset (item p 0)) ex_old
    ex_a (form_of ex_text ex_a) ex_row_a ex_old 1 ex_undo1.2 (ex_new_row ex_text ex_a) 74 ex_wal1.2 Hun) as (p1 & w1 & E1 & Hch & Hh1 & Hu1 & Hw1);
    [vm_compute; (reflexivity || congruence)..|].
  assert (Hun1 : unchanged ex_table w1 (read_row ex_text ex_cur) 0 0 p1 (ItemId.offset (item p 0)) ex_cur).
  { split; [vm_compute; reflexivity|]. split; [apply Hch|]. split; [exact Hh1 | vm_compute; reflexivity]. }
  destruct (DeleteTuple_ok ex_no_wait ex_table 9 w1 (read_row ex_text ex_cur) 0 0 p1 (ItemId.offset (item p 0)) ex_cur 81 ex_undo2.2 110 ex_wal2.2 Hun1)
    as (p2 & w2 & E2 & _ & _ & Hu2 & _); [rewrite Hu1; vm_compute; reflexivity | rewrite Hw1; vm_compute; reflexivity |].
  exists p, w2. split; [done|]. split; [done|]. split; [|split; [|done]].
  - cbn [all_ready ex_changes]. change (ex_step (Replace (read_row ex_text ex_old) ex_a) (ex_begin p) = (Ok tt, w1)) in E1. rewrite E1. cbn [snd]. split; [repeat split; vm_compute; (reflexivity || congruence)|]. split.
    + eapply (ready_replace _ _ _ _ _ _); [exact Hun | lia | vm_compute; (reflexivity || congruence)..].
    + split; [|split; [|done]].
      * unfold logs_ok. rewrite Hu1, Hw1. repeat split; vm_compute; (reflexivity || congruence).
      * eapply (ready_remove _ _ _ _ _ _); [exact Hun1 | lia].
  - cbn [apply_changes ex_changes]. erewrite M_bind_Ok by exact E1. by erewrite M_bind_Ok by exact E2.
Qed.
Definition ex_manager (w : World) : TransactionManager (W := World) :=
  mkTM 7 10 false {[3 := mkTransaction 9 true None RUNNING CommitSeqNumber.Invalid (Some (w_undo w).1) LogSeqNumber.InvalidValue 3]}
    {[9 := 3]} {[9 := CommitSeqNumber.InProgress]} w.

Lemma ex_table_range : 0 <= ex_table < 2 ^ 32.
Proof. by vm_compute. Qed.
Lemma ex_xid_range : 0 <= 9 < 2 ^ 64.
Proof. by vm_compute. Qed.

Lemma rollback_restores_rows_witness :
  exists p w1 s' p', tuples p = [Some ex_old] /\ run_changes ex_changes (ex_begin p) = (Ok tt, w1) /\
    AbortTransaction (undo_all UndoLog.ex_managers "undo") 3 (ex_manager w1) = (Ok tt, s') /\
    ps_get (w_pages (tm_world s')) (mkPageTag ex_table 0) = Ok p' /\ tuples p' = [Some ex_old].
Proof.
  destruct ex_changes_ready as (p & w2 & Hwf & Ht & Hready & E & Hu).
  destruct (rollback_restores_rows UndoLog.ex_managers "undo" (zeros 4) ex_no_wait ex_table ex_text 9 1 eq_refl eq_refl ex_table_range
    ex_xid_range ex_changes (ex_begin p) Hready eq_refl) as (w1 & E1 & Hab).
  assert (w1 = w2) as -> by congruence. exists p, w2.
  destruct (Hab (ex_manager w2) 3 _ eq_refl ltac:(rewrite Hu; vm_compute; reflexivity) (lookup_singleton_eq 3 _) eq_refl eq_refl eq_refl
    ltac:(exists 3; apply lookup_singleton_eq)) as (s' & Ea & Hs & _). exists s'.
  destruct (readable_same ex_table (ex_begin p) (tm_world s') 0 p Hs (ex_begin_readable p Hwf)) as (p' & (Hg & _) & Ht').
  exists p'. split; [exact Ht|]. split; [exact E|]. split; [exact Ea|]. split; [exact Hg | rewrite Ht'; exact Ht].
Defined.
End example.
