(* ===== verification/LockList.v ===== *)
(** [lock/LockList.cpp], [lock/WorkerLock.hpp] and [lock/LockManager.hpp]: the list of the
    workers that wait for a latch, a doubly linked list whose nodes are in the lock states
    of the workers. Against the specification of a list of worker ids. *)
From S2P Require Import Prelude Types.

Module WorkerId.
Definition Invalid : Z := -1.
Definition IsValid (id : Z) : bool := negb (id =? Invalid).
End WorkerId.

Inductive LockMode := Share | Exclusive.
Inductive WorkerLockState := NotWaiting | Waiting | PendingWakeup.

#[export] Instance LockMode_eq_dec : EqDecision LockMode.
Proof. solve_decision. Defined.
#[export] Instance WorkerLockState_eq_dec : EqDecision WorkerLockState.
Proof. solve_decision. Defined.

Record LockListNode := mkNode { Next : Z; Prev : Z }.

(** The binary semaphore is its counter. *)
Record WorkerLock := mkLock {
  sema : Z; lockState : WorkerLockState; lockMode : LockMode; lockNode : LockListNode }.

Definition newWorkerLock : WorkerLock :=
  mkLock 1 NotWaiting Share (mkNode WorkerId.Invalid WorkerId.Invalid).

Record LockListHead := mkHead { Head : Z; Tail : Z }.
Definition emptyHead : LockListHead := mkHead WorkerId.Invalid WorkerId.Invalid.

Definition IsEmpty (h : LockListHead) : bool := Head h =? WorkerId.Invalid.

Section locklist.
Context `{Build}.

(** [_states] of the [LockManager]. *)
Notation states := (list WorkerLock).

(** [GetWorkerLock]: an element of the vector. *)
Definition GetWorkerLock (id : Z) : M states WorkerLock := fun ws =>
  match assert_ (WorkerId.IsValid id) "id.IsValid()" with
  | Fault e => (Fault e, ws)
  | Ok _ =>
      if (0 <=? id) then (of_option (UB "vector index") (ws !! Z.to_nat id), ws)
      else (Fault (UB "vector index"), ws)
  end.

Definition put (id : Z) (f : WorkerLock -> WorkerLock) : M states unit :=
  w ← GetWorkerLock id;
  modify (fun ws => <[Z.to_nat id := f w]> ws).

Definition get_node (id : Z) : M states LockListNode := w ← GetWorkerLock id; mret (lockNode w).
Definition with_node (n : LockListNode) (w : WorkerLock) : WorkerLock :=
  mkLock (sema w) (lockState w) (lockMode w) n.
Definition set_node (id : Z) (n : LockListNode) : M states unit := put id (with_node n).
Definition set_Next (id v : Z) : M states unit := n ← get_node id; set_node id (mkNode v (Prev n)).
Definition set_Prev (id v : Z) : M states unit := n ← get_node id; set_node id (mkNode (Next n) v).

Definition PushTail (h : LockListHead) (id : Z) : M states LockListHead :=
  _ ← get_node id;
  if Tail h =? WorkerId.Invalid then
    _ ← set_node id (mkNode WorkerId.Invalid WorkerId.Invalid);
    mret (mkHead id id)
  else
    _ ← set_Prev id (Tail h);
    _ ← set_Next id WorkerId.Invalid;
    node ← get_node id;
    _ ← set_Next (Prev node) id;
    mret (mkHead (Head h) id).

Definition Delete (h : LockListHead) (id : Z) : M states LockListHead :=
  node ← get_node id;
  h ← (if Prev node =? WorkerId.Invalid then
         _ ← lift (assert_ (Head h =? id) "this->Head == id");
         mret (mkHead (Next node) (Tail h))
       else
         _ ← set_Next (Prev node) (Next node);
         mret h);
  node ← get_node id;
  h ← (if Next node =? WorkerId.Invalid then
         _ ← lift (assert_ (Tail h =? id) "this->Tail == id");
         mret (mkHead (Head h) (Prev node))
       else
         _ ← set_Prev (Next node) (Prev node);
         mret h);
  _ ← set_node id (mkNode WorkerId.Invalid WorkerId.Invalid);
  mret h.

(** The iterator: the current worker and the next one. *)
Record LockListIterator := mkIt { Current : Z; ItNext : Z }.

Definition it_incr (it : LockListIterator) : M states LockListIterator :=
  if negb (ItNext it =? WorkerId.Invalid) then
    node ← get_node (ItNext it);
    mret (mkIt (ItNext it) (Next node))
  else mret (mkIt (ItNext it) (ItNext it)).

Definition begin (h : LockListHead) : M states LockListIterator :=
  if WorkerId.IsValid (Head h) then
    node ← get_node (Head h);
    mret (mkIt (Head h) (Next node))
  else mret (mkIt (Head h) WorkerId.Invalid).

Definition at_end (it : LockListIterator) : bool := Current it =? WorkerId.Invalid.
End locklist.

(** ** The list as a sequence of ids *)
Section spec.
Context `{Build}.
Notation states := (list WorkerLock).
Implicit Type ws : states.
Implicit Type l : list Z.

Definition node_at ws (x : Z) (n : LockListNode) : Prop :=
  0 <= x /\ exists w, ws !! Z.to_nat x = Some w /\ lockNode w = n.

Definition hd_or (d : Z) l : Z := default d (head l).
Definition last_or (d : Z) l : Z := default d (last l).

(** The nodes of a segment of the list, between the ids [p] and [n]. *)
Fixpoint seg ws (p : Z) l (n : Z) : Prop :=
  match l with
  | [] => True
  | x :: l' => node_at ws x (mkNode (hd_or n l') p) /\ seg ws x l' n
  end.

Record repr (h : LockListHead) ws l : Prop := mk_repr {
  r_head : Head h = hd_or WorkerId.Invalid l;
  r_tail : Tail h = last_or WorkerId.Invalid l;
  r_seg : seg ws WorkerId.Invalid l WorkerId.Invalid;
  r_nodup : NoDup l
}.

Lemma repr_empty ws : repr emptyHead ws [].
Proof. split; [done | done | done | constructor]. Qed.

(** What list operations leave alone: everything but the nodes of the workers in [l]. *)
Definition strip (w : WorkerLock) : Z * WorkerLockState * LockMode := (sema w, lockState w, lockMode w).
Definition only_nodes l ws ws' : Prop :=
  length ws' = length ws /\ map strip ws' = map strip ws /\
  forall x, 0 <= x -> x ∉ l -> ws' !! Z.to_nat x = ws !! Z.to_nat x.

Lemma only_nodes_refl l ws : only_nodes l ws ws.
Proof. done. Qed.

Lemma only_nodes_trans l ws1 ws2 ws3 : only_nodes l ws1 ws2 -> only_nodes l ws2 ws3 -> only_nodes l ws1 ws3.
Proof.
  intros (L1 & S1 & E1) (L2 & S2 & E2). split; [congruence|]. split; [congruence|].
  intros x Hx Hl. by rewrite E2, E1.
Qed.

Lemma only_nodes_weaken l l' ws ws' : only_nodes l ws ws' -> l ⊆ l' -> only_nodes l' ws ws'.
Proof. intros (L1 & S1 & E1) Hs. split_and!; [done..|]. intros x Hx Hl. apply E1; set_solver. Qed.

(** Setting the node of one worker. *)
Definition upd (x : Z) (n : LockListNode) ws : states := alter (with_node n) (Z.to_nat x) ws.

Lemma node_nonneg ws x n : node_at ws x n -> 0 <= x.
Proof. by intros [? _]. Qed.

Lemma upd_only x n n' ws : node_at ws x n' -> only_nodes [x] ws (upd x n ws).
Proof.
  intros Hx0%node_nonneg. unfold upd. split; [by rewrite length_alter|]. split.
  - apply list_eq. intros i. rewrite !list_lookup_fmap. destruct (decide (i = Z.to_nat x)) as [->|Hne].
    + rewrite list_lookup_alter_eq. by destruct (ws !! Z.to_nat x).
    + by rewrite list_lookup_alter_ne.
  - intros y Hy Hn. apply list_lookup_alter_ne. intros E. apply Hn.
    assert (y = x) as -> by lia. set_solver.
Qed.

Lemma node_at_upd x n n' ws : node_at ws x n' -> node_at (upd x n ws) x n.
Proof.
  intros (Hx & w & Hw & _). split; [done|]. exists (with_node n w). unfold upd.
  by rewrite list_lookup_alter_eq, Hw.
Qed.

Lemma node_at_frame l x n ws ws' : only_nodes l ws ws' -> x ∉ l -> node_at ws x n -> node_at ws' x n.
Proof. intros (_ & _ & E) Hx (H0 & w & Hw & Hn). split; [done|]. exists w. by rewrite E. Qed.

Lemma seg_frame l' ws ws' p l n :
  only_nodes l' ws ws' -> (forall x, x ∈ l -> x ∉ l') -> seg ws p l n -> seg ws' p l n.
Proof.
  intros Ho. revert p. induction l as [|x l IH]; intros p Hd; [done|]. intros [Hx Hs]. split.
  - eapply node_at_frame; [done | | done]. apply Hd. set_solver.
  - apply IH; [set_solver | done].
Qed.

Lemma hd_or_app l1 l2 n : hd_or n (l1 ++ l2) = hd_or (hd_or n l2) l1.
Proof. by destruct l1. Qed.
Lemma last_or_app l1 l2 p : last_or p (l1 ++ l2) = last_or (last_or p l1) l2.
Proof. unfold last_or. rewrite last_app. by destruct (last l2). Qed.
Lemma last_or_cons x l p : last_or p (x :: l) = last_or x l.
Proof. unfold last_or. destruct l as [|y l]; [done|]. cbn. by destruct (last (y :: l)) eqn:E; [|apply last_None in E]. Qed.

Lemma seg_app ws p l1 l2 n : seg ws p (l1 ++ l2) n <-> seg ws p l1 (hd_or n l2) /\ seg ws (last_or p l1) l2 n.
Proof.
  revert p. induction l1 as [|x l1 IH]; intros p; [cbn; tauto|].
  cbn [app seg]. rewrite IH, hd_or_app, last_or_cons. tauto.
Qed.

(** Changing where a segment ends, and where it begins. *)
Lemma seg_end ws p l x n n' :
  NoDup (l ++ [x]) -> seg ws p (l ++ [x]) n -> seg (upd x (mkNode n' (last_or p l)) ws) p (l ++ [x]) n'.
Proof.
  intros Hd Hs. apply seg_app in Hs as [H1 [Hx _]]. cbn in H1, Hx.
  apply seg_app. split; [|split; [|done]].
  - eapply seg_frame; [by eapply upd_only | | exact H1]. intros y Hy.
    apply NoDup_app in Hd as (_ & Hd & _). specialize (Hd y Hy). set_solver.
  - by eapply node_at_upd.
Qed.

Lemma seg_start ws p p' x l n :
  x ∉ l -> seg ws p (x :: l) n -> seg (upd x (mkNode (hd_or n l) p') ws) p' (x :: l) n.
Proof.
  intros Hd [Hx Hs]. split; [by eapply node_at_upd|].
  eapply seg_frame; [by eapply upd_only | | exact Hs]. set_solver.
Qed.

Lemma node_in_range ws x n : node_at ws x n -> WorkerId.IsValid x = true.
Proof. intros [Hx _]. unfold WorkerId.IsValid, WorkerId.Invalid. by rewrite (proj2 (Z.eqb_neq _ _)) by lia. Qed.

Lemma GetWorkerLock_ok ws x n :
  node_at ws x n -> exists w, ws !! Z.to_nat x = Some w /\ lockNode w = n /\ GetWorkerLock x ws = (Ok w, ws).
Proof.
  intros Hn. pose proof (node_in_range ws x n Hn) as Hv. destruct Hn as (Hx & w & Hw & Hn).
  exists w. split_and!; [done..|]. unfold GetWorkerLock. rewrite assert_Ok by done.
  by rewrite (proj2 (Z.leb_le 0 x)), Hw by lia.
Qed.

Lemma get_node_ok ws x n : node_at ws x n -> get_node x ws = (Ok n, ws).
Proof.
  intros Hn. destruct (GetWorkerLock_ok ws x n Hn) as (w & _ & Hw & Hg).
  unfold get_node. erewrite M_bind_Ok by exact Hg. by rewrite <-Hw.
Qed.

Lemma set_node_ok ws x n n' : node_at ws x n -> set_node x n' ws = (Ok tt, upd x n' ws).
Proof.
  intros Hn. destruct (GetWorkerLock_ok ws x n Hn) as (w & Hx & _ & Hg).
  unfold set_node, put. erewrite M_bind_Ok by exact Hg. unfold modify, upd. do 2 f_equal.
  apply list_eq. intros i. destruct (decide (i = Z.to_nat x)) as [->|Hne].
  - rewrite list_lookup_insert_eq by (by eapply lookup_lt_Some). by rewrite list_lookup_alter_eq, Hx.
  - by rewrite list_lookup_insert_ne, list_lookup_alter_ne by done.
Qed.

Lemma set_Next_ok ws x n v : node_at ws x n -> set_Next x v ws = (Ok tt, upd x (mkNode v (Prev n)) ws).
Proof. intros Hn. unfold set_Next. erewrite M_bind_Ok by (by apply get_node_ok). by eapply set_node_ok. Qed.
Lemma set_Prev_ok ws x n v : node_at ws x n -> set_Prev x v ws = (Ok tt, upd x (mkNode (Next n) v) ws).
Proof. intros Hn. unfold set_Prev. erewrite M_bind_Ok by (by apply get_node_ok). by eapply set_node_ok. Qed.

Lemma seg_node ws p l n x : seg ws p l n -> x ∈ l -> exists m, node_at ws x m.
Proof.
  revert p. induction l as [|y l IH]; intros p; [set_solver|]. intros [Hy Hs] [->|Hx]%elem_of_cons; eauto.
Qed.

Lemma seg_valid ws p l n x : seg ws p l n -> x ∈ l -> x <> WorkerId.Invalid.
Proof.
  intros Hs Hx. destruct (seg_node ws p l n x Hs Hx) as [m [H0 _]]. unfold WorkerId.Invalid. lia.
Qed.

Lemma eqb_Invalid x : x <> WorkerId.Invalid -> (x =? WorkerId.Invalid) = false.
Proof. apply Z.eqb_neq. Qed.

(** Adding a worker that is in no list. *)
Lemma PushTail_ok h ws l id n0 :
  repr h ws l -> node_at ws id n0 -> id ∉ l ->
  exists h' ws', PushTail h id ws = (Ok h', ws') /\ repr h' ws' (l ++ [id]) /\ only_nodes (id :: l) ws ws'.
Proof.
  intros [Hh Ht Hs Hd] Hid Hnew. unfold PushTail. erewrite M_bind_Ok by (by apply get_node_ok). rewrite Ht.
  destruct l as [|t l0 _] using rev_ind.
  - cbn. erewrite M_bind_Ok by (by eapply set_node_ok). eexists _, _. split; [done|]. split.
    + split; [done | done | | apply NoDup_singleton]. split; [|done]. by eapply node_at_upd.
    + by eapply upd_only.
  - rewrite last_or_app. cbn [last_or last default]. assert (Hti : t <> WorkerId.Invalid).
    { eapply seg_valid; [exact Hs | set_solver]. }
    rewrite eqb_Invalid by exact Hti. erewrite M_bind_Ok by (by eapply set_Prev_ok).
    set (ws1 := upd id _ ws). assert (Hid1 : node_at ws1 id (mkNode (Next n0) t)) by (by eapply node_at_upd).
    erewrite M_bind_Ok by (by eapply set_Next_ok). cbn [Prev].
    set (ws2 := upd id _ ws1). assert (Hid2 : node_at ws2 id (mkNode WorkerId.Invalid t)) by (by eapply node_at_upd).
    erewrite M_bind_Ok by (by apply get_node_ok). cbn [Prev].
    assert (Hs2 : seg ws2 WorkerId.Invalid (l0 ++ [t]) WorkerId.Invalid).
    { eapply seg_frame; [eapply only_nodes_trans; by eapply upd_only | set_solver | exact Hs]. }
    pose proof Hs2 as Hs2'. apply seg_app in Hs2' as [_ [Htn _]]. cbn in Htn.
    erewrite M_bind_Ok by (eapply set_Next_ok; exact Htn). cbn [Prev].
    eexists _, _. split; [reflexivity|]. split.
    + split; cbn [Head Tail].
      * rewrite Hh, !hd_or_app. by destruct l0.
      * by rewrite last_or_app.
      * apply seg_app. split; [cbn; eapply seg_end; [exact Hd | exact Hs2]|]. split; [|done]. rewrite last_or_app. cbn.
        eapply node_at_frame; [by eapply upd_only | set_solver | exact Hid2].
      * apply NoDup_app. split_and!; [done | set_solver | apply NoDup_singleton].
    + eapply only_nodes_trans; [|eapply only_nodes_weaken; [by eapply upd_only | set_solver]].
      eapply only_nodes_trans; (eapply only_nodes_weaken; [by eapply upd_only | set_solver]).
Qed.

(** The first half of [Delete]: the nodes before [id] now lead to its successor. *)
Lemma unlink_before ws l1 id l2 :
  NoDup (l1 ++ id :: l2) -> seg ws WorkerId.Invalid (l1 ++ id :: l2) WorkerId.Invalid ->
  let n := hd_or WorkerId.Invalid l2 in
  let ws1 := if decide (l1 = []) then ws
             else upd (last_or WorkerId.Invalid l1) (mkNode n (last_or WorkerId.Invalid (removelast l1))) ws in
  (l1 <> [] -> set_Next (last_or WorkerId.Invalid l1) n ws = (Ok tt, ws1)) /\
  only_nodes l1 ws ws1 /\ seg ws1 WorkerId.Invalid l1 n /\
  seg ws1 (last_or WorkerId.Invalid l1) (id :: l2) WorkerId.Invalid.
Proof.
  intros Hd Hs n ws1. apply seg_app in Hs as [H1 H2]. apply NoDup_app in Hd as (Hd1 & Hdis & Hd2).
  destruct l1 as [|p l1 _] using rev_ind; subst ws1; [by rewrite decide_True|].
  rewrite decide_False by (by destruct l1). rewrite removelast_last, !last_or_app in *. cbn [last_or last default] in *.
  pose proof H1 as Hp. apply seg_app in Hp as [_ [Hp _]]. cbn in Hp.
  split_and!.
  - intros _. by erewrite set_Next_ok by exact Hp.
  - eapply only_nodes_weaken; [by eapply upd_only | set_solver].
  - by eapply seg_end.
  - eapply seg_frame; [by eapply upd_only | | exact H2].
    intros x Hx Hxp. assert (x = p) as -> by set_solver. apply (Hdis p); [set_solver | done].
Qed.

(** The second half: the nodes after [id] now lead back to its predecessor. *)
Lemma unlink_after ws p id l2 :
  NoDup (id :: l2) -> seg ws p (id :: l2) WorkerId.Invalid ->
  let ws1 := match l2 with [] => ws | y :: l => upd y (mkNode (hd_or WorkerId.Invalid l) p) ws end in
  (l2 <> [] -> set_Prev (hd_or WorkerId.Invalid l2) p ws = (Ok tt, ws1)) /\
  only_nodes l2 ws ws1 /\ seg ws1 p l2 WorkerId.Invalid /\
  node_at ws1 id (mkNode (hd_or WorkerId.Invalid l2) p).
Proof.
  intros Hd [Hid H2] ws1. apply NoDup_cons in Hd as [Hnid Hd].
  destruct l2 as [|y l]; subst ws1; [done|]. apply NoDup_cons in Hd as [Hy Hd]. cbn [hd_or head default] in *.
  pose proof H2 as [Hy2 _]. split_and!.
  - intros _. by erewrite set_Prev_ok by exact Hy2.
  - eapply only_nodes_weaken; [by eapply upd_only | set_solver].
  - by eapply seg_start.
  - eapply node_at_frame; [by eapply upd_only | set_solver | exact Hid].
Qed.

(** Removing a worker from the list it is in. *)
Lemma Delete_ok h ws l1 id l2 :
  repr h ws (l1 ++ id :: l2) ->
  exists h' ws', Delete h id ws = (Ok h', ws') /\ repr h' ws' (l1 ++ l2) /\
    only_nodes (l1 ++ id :: l2) ws ws' /\ node_at ws' id (mkNode WorkerId.Invalid WorkerId.Invalid).
Proof.
  intros [Hh Ht Hs Hd]. set (p := last_or WorkerId.Invalid l1). set (n := hd_or WorkerId.Invalid l2).
  assert (Hval : forall x, x ∈ l1 ++ id :: l2 -> x <> WorkerId.Invalid) by (intros x; by eapply seg_valid).
  pose proof Hs as Hs0. apply seg_app in Hs0 as [_ [Hid _]]. fold p n in Hid.
  destruct (unlink_before ws l1 id l2 Hd Hs) as (R1 & O1 & S1 & S2). fold p n in R1, S1, S2. set (ws1 := if decide _ then _ else _) in *.
  pose proof Hd as Hd'. apply NoDup_app in Hd' as (Hd1 & Hdis & Hd2).
  destruct (unlink_after ws1 p id l2 Hd2 S2) as (R2 & O2 & S3 & Hid2). fold n in R2, Hid2.
  set (ws2 := match l2 with [] => _ | _ => _ end) in *.
  assert (Hid1 : node_at ws1 id (mkNode n p)) by (by destruct S2).
  set (hd' := hd_or WorkerId.Invalid (l1 ++ l2)). set (tl' := last_or WorkerId.Invalid (l1 ++ l2)).
  exists (mkHead hd' tl'), (upd id (mkNode WorkerId.Invalid WorkerId.Invalid) ws2). split.
  - unfold Delete. erewrite M_bind_Ok by (apply get_node_ok; exact Hid). cbn [Prev Next].
    rewrite (M_bind_Ok _ _ ws (mkHead hd' (Tail h)) ws1).
    2: { destruct (decide (l1 = [])) as [->|Hne].
         - cbn [p last_or last default]. rewrite Z.eqb_refl, Hh. cbn [app hd_or head default].
           by erewrite lift_Ok by (apply assert_Ok, Z.eqb_refl).
         - rewrite eqb_Invalid; [erewrite M_bind_Ok by (by apply R1)|].
           + unfold mret, M_ret. do 2 f_equal. destruct h as [hh ht]; cbn in *. f_equal.
             rewrite Hh. unfold hd'. rewrite !hd_or_app. by destruct l1.
           + apply Hval. unfold p, last_or. destruct (last l1) as [y|] eqn:El; [|by apply last_None in El].
             apply last_Some_elem_of in El. set_solver. }
    erewrite M_bind_Ok by (apply get_node_ok; exact Hid1). cbn [Prev Next Head Tail].
    rewrite (M_bind_Ok _ _ ws1 (mkHead hd' tl') ws2).
    2: { destruct l2 as [|y l].
         - cbn [n hd_or head default]. rewrite Z.eqb_refl, Ht, last_or_app. cbn [last_or last default].
           erewrite lift_Ok by (apply assert_Ok, Z.eqb_refl). unfold tl', p. by rewrite app_nil_r.
         - rewrite eqb_Invalid by (apply Hval; unfold n; set_solver).
           erewrite M_bind_Ok by (by apply R2). unfold mret, M_ret. do 3 f_equal.
           rewrite Ht. unfold tl'. rewrite !last_or_app, last_or_cons. by rewrite !last_or_cons. }
    erewrite M_bind_Ok by (by eapply set_node_ok). done.
  - assert (O12 : only_nodes (l1 ++ l2) ws ws2).
    { eapply only_nodes_trans; (eapply only_nodes_weaken; [eassumption | set_solver]). }
    pose proof (upd_only id (mkNode WorkerId.Invalid WorkerId.Invalid) _ ws2 Hid2) as O3.
    split; [split|split].
    + done.
    + done.
    + apply NoDup_cons in Hd2 as [Hn2 Hd2]. apply seg_app. fold p n. split.
      * eapply seg_frame; [exact O3 | set_solver |]. eapply seg_frame; [exact O2 | set_solver | exact S1].
      * eapply seg_frame; [exact O3 | set_solver | exact S3].
    + apply NoDup_cons in Hd2 as [Hn2 Hd2]. apply NoDup_app. split_and!; [done | set_solver | done].
    + eapply only_nodes_trans; (eapply only_nodes_weaken; [eassumption | set_solver]).
    + by eapply node_at_upd.
Qed.

Lemma IsEmpty_ok h ws l : repr h ws l -> IsEmpty h = match l with [] => true | _ => false end.
Proof.
  intros [Hh _ Hs _]. unfold IsEmpty. rewrite Hh. destruct l as [|x l]; [done|].
  apply eqb_Invalid. eapply seg_valid; [exact Hs | set_solver].
Qed.

(** The iterator that stands at the first of the workers [l]; what follows it was read
    already, so the current worker may be deleted. *)
Definition it_at (it : LockListIterator) l : Prop :=
  match l with
  | [] => Current it = WorkerId.Invalid
  | x :: l => Current it = x /\ ItNext it = hd_or WorkerId.Invalid l
  end.

Lemma begin_ok h ws l : repr h ws l -> exists it, begin h ws = (Ok it, ws) /\ it_at it l.
Proof.
  intros [Hh _ Hs _]. unfold begin. rewrite Hh. destruct l as [|x l]; [by eexists|].
  destruct Hs as [Hx _]. change (hd_or WorkerId.Invalid (x :: l)) with x. rewrite (node_in_range ws x _ Hx).
  erewrite M_bind_Ok by (by apply get_node_ok). by eexists.
Qed.

Lemma it_incr_ok ws it x l :
  it_at it (x :: l) -> (match l with [] => True | y :: l' => exists m, node_at ws y (mkNode (hd_or WorkerId.Invalid l') m) end) ->
  exists it', it_incr it ws = (Ok it', ws) /\ it_at it' l.
Proof.
  intros [_ Hn] Hl. unfold it_incr. rewrite Hn. destruct l as [|y l].
  - cbn. by eexists.
  - destruct Hl as [m Hy]. change (hd_or WorkerId.Invalid (y :: l)) with y.
    rewrite eqb_Invalid by (destruct Hy; unfold WorkerId.Invalid; lia). cbn [negb].
    erewrite M_bind_Ok by (by apply get_node_ok). by eexists.
Qed.
End spec.
