(* ===== verification/LWLatch.v ===== *)
(** [lock/LWLatch.cpp]: the latch that every other lock of the program is built from.

    Its state is one atomic 32-bit word (the count of the lock in the lower 29 bits, three
    flags above) and the list of the workers that wait, which the flag [ListLocked]
    protects. The handlers are written as compositions of the parts between two accesses
    to shared memory; the interleaving of the workers is a step relation over these parts. *)
From stdpp Require Import relations.
From S2P Require Import Prelude Types LockList.

Definition ListLocked : Z := 2 ^ 29.
Definition UnlockWaiter : Z := 2 ^ 30.
Definition HasWaiters : Z := 2 ^ 31.
Definition ExclusiveLockValue : Z := 2 ^ 28.
Definition SharedLockValue : Z := 1.
Definition LockCountMask : Z := Z.lor ExclusiveLockValue (ExclusiveLockValue - 1).

Record LWLatch := mkLatch { l_state : Z; l_waiters : LockListHead; l_locks : list WorkerLock }.

Definition newLatch (workersCount : nat) : LWLatch :=
  mkLatch UnlockWaiter emptyHead (replicate workersCount newWorkerLock).

Section latch.
Context `{Build}.

(** ** Accesses to the word *)
Definition set_state (v : Z) (l : LWLatch) : LWLatch := mkLatch v (l_waiters l) (l_locks l).
Definition load : M LWLatch Z := gets l_state.
Definition fetch_or (f : Z) : M LWLatch Z := fun l => (Ok (l_state l), set_state (Z.lor (l_state l) f) l).
Definition fetch_and_not (f : Z) : M LWLatch Z := fun l => (Ok (l_state l), set_state (Z.land (l_state l) (2 ^ 32 - 1 - f)) l).
Definition fetch_sub (v : Z) : M LWLatch Z := fun l => (Ok (l_state l), set_state (wrap 32 (l_state l - v)) l).
(** Whether the exchange was made, and the value that was found. *)
Definition compare_exchange (old desired : Z) : M LWLatch (bool * Z) := fun l =>
  if l_state l =? old then (Ok (true, old), set_state desired l) else (Ok (false, l_state l), l).

Definition has (w f : Z) : bool := negb (Z.land w f =? 0).

(** Access to the lock states of the workers, and to the list of waiters. *)
Definition on_locks {A} (m : M (list WorkerLock) A) : M LWLatch A := fun l =>
  let '(r, ws) := m (l_locks l) in (r, mkLatch (l_state l) (l_waiters l) ws).
Definition on_waiters (m : LockListHead -> M (list WorkerLock) LockListHead) : M LWLatch unit := fun l =>
  match m (l_waiters l) (l_locks l) with
  | (Ok h, ws) => (Ok tt, mkLatch (l_state l) h ws)
  | (Fault e, ws) => (Fault e, mkLatch (l_state l) (l_waiters l) ws)
  end.

Definition SetLockState (s : WorkerLockState) (w : WorkerLock) : WorkerLock :=
  mkLock (sema w) s (lockMode w) (lockNode w).
Definition SetLockMode (m : LockMode) (w : WorkerLock) : WorkerLock :=
  mkLock (sema w) (lockState w) m (lockNode w).

(** [std::binary_semaphore]: a release beyond its maximum of 1 is undefined. *)
Definition sem_acquire (id : Z) : M LWLatch unit := on_locks (
  w ← GetWorkerLock id;
  if 0 <? sema w then put id (fun w => mkLock (sema w - 1) (lockState w) (lockMode w) (lockNode w))
  else throw (Blocked "semaphore")).
Definition sem_release (id n : Z) : M LWLatch unit := on_locks (
  w ← GetWorkerLock id;
  if sema w + n <=? 1 then put id (fun w => mkLock (sema w + n) (lockState w) (lockMode w) (lockNode w))
  else throw (UB "std::binary_semaphore::release beyond max()")).

(** ** attemptLock *)
Definition lock_free (old : Z) : bool := Z.land old LockCountMask =? 0.
Definition lock_value (mode : LockMode) : Z :=
  match mode with Exclusive => ExclusiveLockValue | Share => SharedLockValue end.
Definition desired_of (mode : LockMode) (old : Z) : Z :=
  if lock_free old then wrap 32 (old + lock_value mode) else old.

Fixpoint attempt_loop (fuel : nat) (mode : LockMode) (old : Z) : M LWLatch bool :=
  match fuel with
  | O => throw NoFuel
  | S k =>
      '(ok, old') ← compare_exchange old (desired_of mode old);
      if ok : bool then mret (lock_free old) else attempt_loop k mode old'
  end.

Definition attemptLock (fuel : nat) (mode : LockMode) : M LWLatch bool :=
  old ← load;
  attempt_loop fuel mode old.

(** ** The lock of the list *)

(** One attempt of the spinning loop. *)
Definition try_list_lock : M LWLatch bool :=
  old ← fetch_or ListLocked;
  mret (negb (has old ListLocked)).

Definition wait_list_lock : M LWLatch unit :=
  got ← try_list_lock;
  if got : bool then mret tt else throw (Blocked "waiters list").

Definition wait_list_unlock : M LWLatch unit :=
  old ← fetch_and_not ListLocked;
  lift (assert_ (has old ListLocked) "old & LWLatchFlag::ListLocked").

(** ** queueSelf *)
Definition enqueue (me : Z) (mode : LockMode) : M LWLatch unit :=
  _ ← on_locks (put me (SetLockState Waiting));
  _ ← on_locks (put me (SetLockMode mode));
  on_waiters (fun h => PushTail h me).

Definition queueSelf (me : Z) (mode : LockMode) : M LWLatch unit :=
  _ ← wait_list_lock;
  _ ← fetch_or HasWaiters;
  _ ← enqueue me mode;
  wait_list_unlock.

(** ** dequeueSelf *)
Definition dequeue_list (me : Z) : M LWLatch bool :=
  w ← on_locks (GetWorkerLock me);
  let isWaiting := bool_decide (lockState w = Waiting) in
  _ ← (if isWaiting then on_waiters (fun h => Delete h me) else mret tt);
  mret isWaiting.

Definition clear_has_waiters : M LWLatch unit :=
  h ← gets l_waiters;
  s ← load;
  if IsEmpty h && has s HasWaiters then
    _ ← fetch_and_not HasWaiters; mret tt
  else mret tt.

(** One round of the loops that wait on the semaphore: whether the worker was woken up. *)
Definition wait_once (me : Z) : M LWLatch bool :=
  _ ← sem_acquire me;
  w ← on_locks (GetWorkerLock me);
  mret (bool_decide (lockState w = NotWaiting)).

Fixpoint wait_loop (fuel : nat) (me extraWaits : Z) : M LWLatch Z :=
  match fuel with
  | O => throw NoFuel
  | S k =>
      woken ← wait_once me;
      if woken : bool then mret extraWaits else wait_loop k me (extraWaits + 1)
  end.

Definition return_waits (me extraWaits : Z) : M LWLatch unit :=
  if 0 <? extraWaits then sem_release me extraWaits else mret tt.

Definition dequeueSelf (fuel : nat) (me : Z) : M LWLatch unit :=
  _ ← wait_list_lock;
  isWaiting ← dequeue_list me;
  _ ← clear_has_waiters;
  _ ← wait_list_unlock;
  if isWaiting : bool then on_locks (put me (SetLockState NotWaiting))
  else
    _ ← fetch_or UnlockWaiter;
    extraWaits ← wait_loop fuel me 0;
    return_waits me extraWaits.

(** ** Lock *)
Fixpoint lock_loop (fuel : nat) (me : Z) (mode : LockMode) (extraWaits : Z) : M LWLatch Z :=
  match fuel with
  | O => throw NoFuel
  | S k =>
      got ← attemptLock fuel mode;
      if got : bool then mret extraWaits
      else
        _ ← queueSelf me mode;
        got ← attemptLock fuel mode;
        if got : bool then
          _ ← dequeueSelf fuel me;
          mret extraWaits
        else
          extraWaits ← wait_loop fuel me extraWaits;
          _ ← fetch_or UnlockWaiter;
          lock_loop k me mode extraWaits
  end.

Definition Lock (fuel : nat) (me : Z) (mode : LockMode) : M LWLatch unit :=
  extraWaits ← lock_loop fuel me mode 0;
  return_waits me extraWaits.

(** ** wakeup *)

(** The loop over the waiters: those that are woken up go to the list [wakeup]. *)
Fixpoint collect (fuel : nat) (it : LockListIterator) (wakeup : LockListHead) (wokeupSomebody : bool)
    : M LWLatch LockListHead :=
  match fuel with
  | O => throw NoFuel
  | S k =>
      if at_end it then mret wakeup
      else
        waiter ← on_locks (GetWorkerLock (Current it));
        if wokeupSomebody && bool_decide (lockMode waiter = Exclusive) then
          it ← on_locks (it_incr it);
          collect k it wakeup wokeupSomebody
        else
          _ ← on_waiters (fun h => Delete h (Current it));
          wakeup ← on_locks (PushTail wakeup (Current it));
          waiter ← on_locks (GetWorkerLock (Current it));
          _ ← lift (assert_ (bool_decide (lockState waiter = Waiting))
                "waiter->GetLockState() == WorkerLockState::Waiting");
          _ ← on_locks (put (Current it) (SetLockState PendingWakeup));
          if bool_decide (lockMode waiter = Exclusive) then mret wakeup
          else
            it ← on_locks (it_incr it);
            collect k it wakeup true
  end.

Definition wakeup_collect (fuel : nat) : M LWLatch LockListHead :=
  h ← gets l_waiters;
  it ← on_locks (begin h);
  wakeup ← collect fuel it emptyHead false;
  s ← load;
  _ ← lift (assert_ (IsEmpty wakeup || has s HasWaiters) "wakeup.IsEmpty() || (_state.load() & HasWaiters) != 0");
  mret wakeup.

(** The word that [wakeup] writes: the flags, and the lock of the list is released. *)
Definition wakeup_desired (empty : bool) (old : Z) : Z :=
  let d := Z.land old (2 ^ 32 - 1 - UnlockWaiter) in
  let d := if empty then Z.land d (2 ^ 32 - 1 - HasWaiters) else d in
  Z.land d (2 ^ 32 - 1 - ListLocked).

Definition wakeup_exchange (old : Z) : M LWLatch (bool * Z) :=
  h ← gets l_waiters;
  compare_exchange old (wakeup_desired (IsEmpty h) old).

Fixpoint wakeup_release (fuel : nat) (old : Z) : M LWLatch unit :=
  match fuel with
  | O => throw NoFuel
  | S k =>
      '(ok, old') ← wakeup_exchange old;
      if ok : bool then mret tt else wakeup_release k old'
  end.

(** One round of the last loop. In the interleavings it is one step: the node that is taken out is in the list of the worker that wakes
    up alone, and its owner looks at nothing before the semaphore is released. *)
Definition notify_one (wakeup : LockListHead) (id : Z) : M LWLatch LockListHead :=
  wakeup ← on_locks (Delete wakeup id);
  _ ← on_locks (put id (SetLockState NotWaiting));
  _ ← sem_release id 1;
  mret wakeup.

Fixpoint notify (fuel : nat) (it : LockListIterator) (wakeup : LockListHead) : M LWLatch unit :=
  match fuel with
  | O => throw NoFuel
  | S k =>
      if at_end it then mret tt
      else
        wakeup ← notify_one wakeup (Current it);
        it ← on_locks (it_incr it);
        notify k it wakeup
  end.

Definition wakeup (fuel : nat) : M LWLatch unit :=
  _ ← wait_list_lock;
  woken ← wakeup_collect fuel;
  old ← load;
  _ ← wakeup_release fuel old;
  it ← on_locks (begin woken);
  notify fuel it woken.

(** ** Unlock *)
Definition must_wakeup (mode : LockMode) (old : Z) : bool :=
  (Z.land old (Z.lor HasWaiters UnlockWaiter) =? Z.lor HasWaiters UnlockWaiter) &&
  (bool_decide (mode = Exclusive) || (Z.land old LockCountMask =? 1)).

(** The release; its result is whether to wake up waiters. *)
Definition release (mode : LockMode) : M LWLatch bool :=
  old ← fetch_sub (lock_value mode);
  _ ← (match mode with
       | Exclusive => lift (assert_ (has old ExclusiveLockValue) "old & ExclusiveLockValue")
       | Share => mret tt
       end);
  mret (must_wakeup mode old).

Definition check_released : M LWLatch unit :=
  s ← load;
  lift (assert_ (negb (has s ExclusiveLockValue)) "(_state.load() & ExclusiveLockValue) == 0").

Definition Unlock (fuel : nat) (mode : LockMode) : M LWLatch unit :=
  wake ← release mode;
  _ ← check_released;
  if wake : bool then wakeup fuel else mret tt.
End latch.

(** ** Interleaving of the workers

    Where a worker is in [Lock] and [Unlock], between two accesses to shared memory. The
    parameter [again] of an attempt tells the second one, after [queueSelf]; [extra] is
    [extraWaits]. *)
Inductive pc :=
| Outside
| Try (m : LockMode) (again : bool) (extra : Z)
| Cas (m : LockMode) (again : bool) (extra old : Z)
| Queue1 (m : LockMode) (extra : Z)
| Queue2 (m : LockMode) (extra : Z)
| Queue3 (m : LockMode) (extra : Z)
| Queue4 (m : LockMode) (extra : Z)
| Wait (m : LockMode) (extra : Z)
| Reopen (m : LockMode) (extra : Z)
| Dequeue1 (m : LockMode) (extra : Z)
| Dequeue2 (m : LockMode) (extra : Z)
| Dequeue3 (m : LockMode) (isWaiting : bool) (extra : Z)
| Dequeue4 (m : LockMode) (isWaiting : bool) (extra : Z)
| Dequeue5 (m : LockMode) (extra : Z)
| Absorb1 (m : LockMode) (extra : Z)
| Absorb2 (m : LockMode) (extra mine : Z)
| Absorb3 (m : LockMode) (extra mine : Z)
| Got (m : LockMode) (extra : Z)
| Held (m : LockMode)
| Released (wake : bool)
| Wake1
| Wake2
| Wake3 (woken : LockListHead)
| Wake4 (woken : LockListHead) (old : Z)
| Wake5 (woken : LockListHead)
| Notify (it : LockListIterator) (woken : LockListHead)
| NotifyNext (it : LockListIterator) (woken : LockListHead).

Section interleaving.
Context `{Build}.

Record config := mkConfig { latch : LWLatch; pcs : gmap Z pc }.
Definition pc_of (c : config) (w : Z) : pc := default Outside (pcs c !! w).

(** One part of the handler of worker [me]. *)
Inductive part_step (me : Z) : pc -> LWLatch -> pc -> LWLatch -> Prop :=
(* Lock *)
| step_lock m l : part_step me Outside l (Try m false 0) l
| step_load m a e old l l' : load l = (Ok old, l') -> part_step me (Try m a e) l (Cas m a e old) l'
| step_cas_retry m a e old old' l l' :
    compare_exchange old (desired_of m old) l = (Ok (false, old'), l') ->
    part_step me (Cas m a e old) l (Cas m a e old') l'
| step_cas_got m e old x l l' :
    compare_exchange old (desired_of m old) l = (Ok (true, x), l') -> lock_free old = true ->
    part_step me (Cas m false e old) l (Got m e) l'
| step_cas_got_again m e old x l l' :
    compare_exchange old (desired_of m old) l = (Ok (true, x), l') -> lock_free old = true ->
    part_step me (Cas m true e old) l (Dequeue1 m e) l'
| step_cas_failed m a e old x l l' :
    compare_exchange old (desired_of m old) l = (Ok (true, x), l') -> lock_free old = false ->
    part_step me (Cas m a e old) l (if a then Wait m e else Queue1 m e) l'
(* queueSelf *)
| step_queue1 m e l l' : wait_list_lock l = (Ok tt, l') -> part_step me (Queue1 m e) l (Queue2 m e) l'
| step_queue2 m e x l l' : fetch_or HasWaiters l = (Ok x, l') -> part_step me (Queue2 m e) l (Queue3 m e) l'
| step_queue3 m e l l' : enqueue me m l = (Ok tt, l') -> part_step me (Queue3 m e) l (Queue4 m e) l'
| step_queue4 m e l l' : wait_list_unlock l = (Ok tt, l') -> part_step me (Queue4 m e) l (Try m true e) l'
(* waiting *)
| step_wait m e (woken : bool) l l' :
    wait_once me l = (Ok woken, l') ->
    part_step me (Wait m e) l (if woken then Reopen m e else Wait m (e + 1)) l'
| step_reopen m e x l l' : fetch_or UnlockWaiter l = (Ok x, l') -> part_step me (Reopen m e) l (Try m false e) l'
(* dequeueSelf *)
| step_dequeue1 m e l l' : wait_list_lock l = (Ok tt, l') -> part_step me (Dequeue1 m e) l (Dequeue2 m e) l'
| step_dequeue2 m e b l l' : dequeue_list me l = (Ok b, l') -> part_step me (Dequeue2 m e) l (Dequeue3 m b e) l'
| step_dequeue3 m b e l l' : clear_has_waiters l = (Ok tt, l') -> part_step me (Dequeue3 m b e) l (Dequeue4 m b e) l'
| step_dequeue4 m (b : bool) e l l' :
    wait_list_unlock l = (Ok tt, l') ->
    part_step me (Dequeue4 m b e) l (if b then Dequeue5 m e else Absorb1 m e) l'
| step_dequeue5 m e l l' :
    on_locks (put me (SetLockState NotWaiting)) l = (Ok tt, l') -> part_step me (Dequeue5 m e) l (Got m e) l'
| step_absorb1 m e x l l' : fetch_or UnlockWaiter l = (Ok x, l') -> part_step me (Absorb1 m e) l (Absorb2 m e 0) l'
| step_absorb2 m e k (woken : bool) l l' :
    wait_once me l = (Ok woken, l') ->
    part_step me (Absorb2 m e k) l (if woken then Absorb3 m e k else Absorb2 m e (k + 1)) l'
| step_absorb3 m e k l l' : return_waits me k l = (Ok tt, l') -> part_step me (Absorb3 m e k) l (Got m e) l'
| step_got m e l l' : return_waits me e l = (Ok tt, l') -> part_step me (Got m e) l (Held m) l'
(* Unlock *)
| step_release m wake l l' : release m l = (Ok wake, l') -> part_step me (Held m) l (Released wake) l'
| step_released (wake : bool) l l' :
    check_released l = (Ok tt, l') -> part_step me (Released wake) l (if wake then Wake1 else Outside) l'
(* wakeup *)
| step_wake1 l l' : wait_list_lock l = (Ok tt, l') -> part_step me Wake1 l Wake2 l'
| step_wake2 n k l l' : wakeup_collect n l = (Ok k, l') -> part_step me Wake2 l (Wake3 k) l'
| step_wake3 k old l l' : load l = (Ok old, l') -> part_step me (Wake3 k) l (Wake4 k old) l'
| step_wake4 k old (ok : bool) old' l l' :
    wakeup_exchange old l = (Ok (ok, old'), l') ->
    part_step me (Wake4 k old) l (if ok then Wake5 k else Wake4 k old') l'
| step_wake5 k it l l' : on_locks (begin k) l = (Ok it, l') -> part_step me (Wake5 k) l (Notify it k) l'
| step_notify_end it k l : at_end it = true -> part_step me (Notify it k) l Outside l
| step_notify it k k' l l' :
    at_end it = false -> notify_one k (Current it) l = (Ok k', l') ->
    part_step me (Notify it k) l (NotifyNext it k') l'
| step_notify_next it it' k l l' :
    on_locks (it_incr it) l = (Ok it', l') -> part_step me (NotifyNext it k) l (Notify it' k) l'.

Definition step (c c' : config) : Prop :=
  exists w p l, part_step w (pc_of c w) (latch c) p l /\ c' = mkConfig l (<[w := p]> (pcs c)).

Definition start (n : nat) : config := mkConfig (newLatch n) ∅.
Definition reachable (c : config) : Prop := exists n, rtc step (start n) c.

(** The mode in which a worker holds the latch: from the exchange that got it to the
    subtraction of [Unlock]. *)
Definition holds (p : pc) : option LockMode :=
  match p with
  | Dequeue1 m _ | Dequeue2 m _ | Dequeue3 m _ _ | Dequeue4 m _ _ | Dequeue5 m _
  | Absorb1 m _ | Absorb2 m _ _ | Absorb3 m _ _ | Got m _ | Held m => Some m
  | _ => None
  end.

(** The worker is changing the list of waiters. *)
Definition in_list (p : pc) : bool :=
  match p with
  | Queue2 _ _ | Queue3 _ _ | Queue4 _ _ | Dequeue2 _ _ | Dequeue3 _ _ _ | Dequeue4 _ _ _
  | Wake2 | Wake3 _ | Wake4 _ _ => true
  | _ => false
  end.
End interleaving.

(** ** The word as a count and three flags *)
Section word.
Definition count (s : Z) : Z := s mod 2 ^ 29.
Definition list_locked (s : Z) : bool := Z.testbit s 29.

#[global] Arguments count : simpl never.
#[global] Arguments list_locked : simpl never.

Lemma count_land s : count s = Z.land s (Z.ones 29).
Proof. unfold count. by rewrite Z.land_ones by lia. Qed.

Lemma lock_free_count s : lock_free s = (count s =? 0).
Proof. unfold lock_free. by rewrite count_land. Qed.

Lemma testbit_ones n i : 0 <= n -> Z.testbit (Z.ones n) i = (0 <=? i) && (i <? n).
Proof.
  intros Hn. destruct (Z.ltb_spec i n).
  - destruct (Z.leb_spec 0 i); [by rewrite Z.ones_spec_low by lia | by rewrite Z.testbit_neg_r by lia].
  - rewrite andb_false_r. apply Z.ones_spec_high. lia.
Qed.

Lemma count_bits s s' : (forall i, 0 <= i < 29 -> Z.testbit s i = Z.testbit s' i) -> count s = count s'.
Proof.
  intros Hb. rewrite !count_land. apply Z.bits_inj'. intros i Hi. rewrite !Z.land_spec, testbit_ones by lia.
  destruct (Z.ltb_spec i 29); [by rewrite Hb by lia | by rewrite !andb_false_r].
Qed.

(** A flag is a bit above the count. *)
Lemma fetch_or_word s k :
  29 <= k -> count (Z.lor s (2 ^ k)) = count s /\
  list_locked (Z.lor s (2 ^ k)) = list_locked s || (k =? 29).
Proof.
  intros Hk. split.
  - apply count_bits. intros i Hi. rewrite Z.lor_spec, Z.pow2_bits_eqb by lia.
    rewrite (proj2 (Z.eqb_neq k i)) by lia. by rewrite orb_false_r.
  - unfold list_locked. rewrite Z.lor_spec, Z.pow2_bits_eqb by lia. done.
Qed.

Lemma not_bits k i : 0 <= k < 32 -> 0 <= i < 32 -> Z.testbit (2 ^ 32 - 1 - 2 ^ k) i = negb (k =? i).
Proof.
  intros Hk Hi. replace (2 ^ 32 - 1 - 2 ^ k) with (Z.ldiff (Z.ones 32) (2 ^ k)).
  - rewrite Z.ldiff_spec, testbit_ones, Z.pow2_bits_eqb by lia.
    rewrite (proj2 (Z.leb_le 0 i)), (proj2 (Z.ltb_lt i 32)) by lia. done.
  - rewrite <-Z.sub_nocarry_ldiff; [by rewrite Z.ones_equiv; lia|].
    apply Z.bits_inj'. intros j Hj. rewrite Z.ldiff_spec, Z.pow2_bits_eqb, Z.bits_0, testbit_ones by lia.
    destruct (Z.eqb_spec k j); [|done]. subst. by rewrite (proj2 (Z.leb_le 0 j)), (proj2 (Z.ltb_lt j 32)) by lia.
Qed.

Lemma fetch_and_word s k :
  29 <= k < 32 -> count (Z.land s (2 ^ 32 - 1 - 2 ^ k)) = count s /\
  list_locked (Z.land s (2 ^ 32 - 1 - 2 ^ k)) = list_locked s && negb (k =? 29).
Proof.
  intros Hk. split.
  - apply count_bits. intros i Hi. rewrite Z.land_spec, not_bits by lia.
    rewrite (proj2 (Z.eqb_neq k i)) by lia. by rewrite andb_true_r.
  - unfold list_locked. rewrite Z.land_spec, not_bits by lia. done.
Qed.

Lemma wakeup_word e s :
  count (wakeup_desired e s) = count s /\ list_locked (wakeup_desired e s) = false.
Proof.
  unfold wakeup_desired, UnlockWaiter, HasWaiters, ListLocked. set (d := Z.land s _).
  assert (Hd : count d = count s) by (apply fetch_and_word; lia).
  set (d' := if e then _ else d). assert (Hd' : count d' = count d).
  { unfold d'. destruct e; [apply fetch_and_word; lia | done]. }
  destruct (fetch_and_word d' 29) as [-> ->]; [lia|]. split; [congruence | by rewrite andb_false_r].
Qed.

Lemma has_list s : has s ListLocked = list_locked s.
Proof.
  unfold has, list_locked, ListLocked. destruct (Z.testbit s 29) eqn:E.
  - apply negb_true_iff, Z.eqb_neq. intros Hz. assert (Z.testbit (Z.land s (2 ^ 29)) 29 = false) as Hf by by rewrite Hz.
    rewrite Z.land_spec, E, Z.pow2_bits_true in Hf by lia. done.
  - apply negb_false_iff, Z.eqb_eq, Z.bits_inj'. intros i Hi. rewrite Z.land_spec, Z.pow2_bits_eqb, Z.bits_0 by lia.
    destruct (Z.eqb_spec 29 i) as [<-|]; [by rewrite E | by rewrite andb_false_r].
Qed.

Lemma list_locked_div s : list_locked s = Z.odd (s / 2 ^ 29).
Proof. unfold list_locked. by rewrite Z.testbit_odd, Z.shiftr_div_pow2 by lia. Qed.

Lemma lock_value_range m : 0 < lock_value m < 2 ^ 29.
Proof. by destruct m. Qed.

(** The conversion to 32 bits does not change the count or the flag. *)
Lemma wrap_word s : count (wrap 32 s) = count s /\ list_locked (wrap 32 s) = list_locked s.
Proof.
  unfold wrap. split.
  - apply count_bits. intros i Hi. apply Z.mod_pow2_bits_low. lia.
  - apply Z.mod_pow2_bits_low. lia.
Qed.

(** Taking and releasing the lock. *)
Lemma acquire_word m s :
  count s = 0 ->
  count (wrap 32 (s + lock_value m)) = lock_value m /\ list_locked (wrap 32 (s + lock_value m)) = list_locked s.
Proof.
  intros Hc. pose proof (lock_value_range m). destruct (wrap_word (s + lock_value m)) as [-> ->].
  unfold count in *. split; [zdm|]. rewrite !list_locked_div. f_equal. zdm.
Qed.

Lemma release_word m s :
  count s = lock_value m ->
  count (wrap 32 (s - lock_value m)) = 0 /\ list_locked (wrap 32 (s - lock_value m)) = list_locked s.
Proof.
  intros Hc. pose proof (lock_value_range m). destruct (wrap_word (s - lock_value m)) as [-> ->].
  unfold count in *. split; [zdm|]. rewrite !list_locked_div. f_equal. zdm.
Qed.
End word.

(** ** Parts that leave the word alone *)
Section keeps.
Context `{Build}.

Definition keeps {A} (m : M LWLatch A) : Prop := forall l, l_state (m l).2 = l_state l.

Lemma keeps_ret {A} (a : A) : keeps (mret a).
Proof. done. Qed.
Lemma keeps_throw {A} e : keeps (throw (A := A) e).
Proof. done. Qed.
Lemma keeps_lift {A} (r : result A) : keeps (lift r).
Proof. done. Qed.
Lemma keeps_gets {A} (f : LWLatch -> A) : keeps (gets f).
Proof. done. Qed.
Lemma keeps_load : keeps load.
Proof. done. Qed.
Lemma keeps_on_locks {A} (m : M (list WorkerLock) A) : keeps (on_locks m).
Proof. intros l. unfold on_locks. by destruct (m (l_locks l)). Qed.
Lemma keeps_on_waiters m : keeps (on_waiters m).
Proof. intros l. unfold on_waiters. by destruct (m (l_waiters l) (l_locks l)) as [[h|e] ws]. Qed.
Lemma keeps_bind {A B} (m : M LWLatch A) (k : A -> M LWLatch B) :
  keeps m -> (forall a, keeps (k a)) -> keeps (mbind k m).
Proof.
  intros Hm Hk l. unfold mbind, M_bind. specialize (Hm l). destruct (m l) as [[a|e] l']; [|done].
  by rewrite Hk.
Qed.
End keeps.

Create HintDb keeps discriminated.
#[export] Hint Resolve keeps_ret keeps_throw keeps_lift keeps_gets keeps_load keeps_on_locks keeps_on_waiters : keeps.
Ltac keeps := repeat first
  [ solve [eauto with keeps]
  | match goal with |- forall _, _ => intros ? end
  | apply keeps_bind | case_match ].

Section effects.
Context `{Build}.

Lemma keeps_enqueue me m : keeps (enqueue me m).
Proof. unfold enqueue. keeps. Qed.
Lemma keeps_dequeue_list me : keeps (dequeue_list me).
Proof. unfold dequeue_list. keeps. Qed.
Lemma keeps_wait_once me : keeps (wait_once me).
Proof. unfold wait_once, sem_acquire. keeps. Qed.
Lemma keeps_return_waits me e : keeps (return_waits me e).
Proof. unfold return_waits, sem_release. keeps. Qed.
Lemma keeps_check_released : keeps check_released.
Proof. unfold check_released. keeps. Qed.
Lemma keeps_notify_one k id : keeps (notify_one k id).
Proof. unfold notify_one, sem_release. keeps. Qed.
Lemma keeps_collect n it k b : keeps (collect n it k b).
Proof. revert it k b. induction n as [|n IH]; intros it k b; cbn [collect]; keeps; apply IH. Qed.
Lemma keeps_wakeup_collect n : keeps (wakeup_collect n).
Proof. unfold wakeup_collect. keeps; apply keeps_collect. Qed.

Lemma keeps_run {A} (m : M LWLatch A) l r l' : keeps m -> m l = (r, l') -> l_state l' = l_state l.
Proof. intros Hk Hm. specialize (Hk l). by rewrite Hm in Hk. Qed.

(** What a part does to the word, seen as its count and the flag of the list. *)
Definition hold_effect (p p' : pc) (s s' : Z) : Prop :=
  (holds p' = holds p /\ count s' = count s) \/
  (exists m, holds p = None /\ holds p' = Some m /\ count s = 0 /\ count s' = lock_value m) \/
  (exists m, holds p = Some m /\ holds p' = None /\ count s' = 0).

Definition list_effect (p p' : pc) (s s' : Z) : Prop :=
  (in_list p' = in_list p /\ list_locked s' = list_locked s) \/
  (in_list p = false /\ in_list p' = true /\ list_locked s = false /\ list_locked s' = true) \/
  (in_list p = true /\ in_list p' = false).

Definition effect p p' s s' : Prop := hold_effect p p' s s' /\ list_effect p p' s s'.

Lemma effect_same p p' s s' :
  holds p' = holds p -> in_list p' = in_list p -> count s' = count s -> list_locked s' = list_locked s ->
  effect p p' s s'.
Proof. intros. split; left; auto. Qed.

Lemma effect_keeps p p' l l' :
  holds p' = holds p -> in_list p' = in_list p -> l_state l' = l_state l -> effect p p' (l_state l) (l_state l').
Proof. intros ? ? ->. by apply effect_same. Qed.

Lemma wait_list_lock_inv l l' :
  wait_list_lock l = (Ok tt, l') ->
  count (l_state l') = count (l_state l) /\ list_locked (l_state l) = false /\ list_locked (l_state l') = true.
Proof.
  unfold wait_list_lock, try_list_lock, fetch_or, mbind, M_bind, mret, M_ret. cbn.
  rewrite has_list. destruct (list_locked (l_state l)) eqn:E; [done|]. cbn. intros [= <-]. cbn [l_state set_state].
  unfold ListLocked. destruct (fetch_or_word (l_state l) 29) as [-> ->]; [lia|]. by rewrite E.
Qed.

Lemma wait_list_unlock_inv l l' r :
  wait_list_unlock l = (r, l') ->
  count (l_state l') = count (l_state l) /\ (list_locked (l_state l) = true -> r = Ok tt).
Proof.
  unfold wait_list_unlock, fetch_and_not, mbind, M_bind, lift. intros E.
  apply pair_equal_spec in E as [<- <-]. cbn [l_state set_state].
  change (2 ^ 32 - 1 - ListLocked) with (2 ^ 32 - 1 - 2 ^ 29). destruct (fetch_and_word (l_state l) 29) as [-> _]; [lia|]. split; [done|].
  intros Hl. rewrite has_list, Hl. apply assert_true.
Qed.

Lemma clear_has_waiters_inv l l' r :
  clear_has_waiters l = (r, l') ->
  count (l_state l') = count (l_state l) /\ list_locked (l_state l') = list_locked (l_state l).
Proof.
  unfold clear_has_waiters, gets, load, mbind, M_bind. cbn. case_match; intros E; apply pair_equal_spec in E as [<- <-]; [|done].
  cbn [l_state set_state]. change (2 ^ 32 - 1 - HasWaiters) with (2 ^ 32 - 1 - 2 ^ 31). destruct (fetch_and_word (l_state l) 31) as [-> ->]; [lia|].
  by rewrite andb_true_r.
Qed.

Lemma fetch_or_inv k l l' x :
  30 <= k -> fetch_or (2 ^ k) l = (Ok x, l') ->
  count (l_state l') = count (l_state l) /\ list_locked (l_state l') = list_locked (l_state l).
Proof.
  intros Hk. unfold fetch_or. intros [= <- <-]. cbn [l_state set_state].
  destruct (fetch_or_word (l_state l) k) as [-> ->]; [lia|].
  rewrite (proj2 (Z.eqb_neq k 29)) by lia. by rewrite orb_false_r.
Qed.

Lemma compare_exchange_inv old d l ok x l' :
  compare_exchange old d l = (Ok (ok, x), l') ->
  if ok : bool then l_state l = old /\ l_state l' = d else l' = l.
Proof.
  unfold compare_exchange. destruct (Z.eqb_spec (l_state l) old) as [->|]; intros [= <- <- <-]; done.
Qed.

Lemma release_inv m l wake l' :
  count (l_state l) = lock_value m -> release m l = (Ok wake, l') ->
  count (l_state l') = 0 /\ list_locked (l_state l') = list_locked (l_state l).
Proof.
  intros Hc. unfold release, fetch_sub. unfold mbind at 1, M_bind at 1.
  intros Hr. apply M_bind_inv in Hr as ([] & l1 & Ha & [= _ <-]).
  assert (Hl : l_state l1 = wrap 32 (l_state l - lock_value m)).
  { destruct m; [by injection Ha as <-|]. unfold lift in Ha. by injection Ha as _ <-. }
  rewrite Hl. by apply release_word.
Qed.

(** Every part has one of these effects. *)
Lemma part_effect me p l p' l' :
  (forall m, holds p = Some m -> count (l_state l) = lock_value m) ->
  part_step me p l p' l' -> effect p p' (l_state l) (l_state l').
Proof.
  intros Hh Hs.
  destruct Hs as [m l|m a e old l l' E|m a e old old' l l' E|m e old x l l' E Ef|m e old x l l' E Ef
    |m a e old x l l' E Ef|m e l l' E|m e x l l' E|m e l l' E|m e l l' E|m e w l l' E|m e x l l' E
    |m e l l' E|m e b l l' E|m b e l l' E|m b e l l' E|m e l l' E|m e x l l' E|m e k w l l' E|m e k l l' E|m e l l' E
    |m wake l l' E|wake l l' E|l l' E|n k l l' E|k old l l' E|k old ok old' l l' E|k it l l' E|it k l E
    |it k k' l l' E E'|it it' k l l' E].
  - by apply effect_keeps.
  - apply effect_keeps; [done | done | by injection E as _ <-].
  - apply compare_exchange_inv in E as ->. by apply effect_keeps.
  - apply compare_exchange_inv in E as [E1 E2]. unfold desired_of in E2. rewrite Ef in E2.
    rewrite lock_free_count in Ef. apply Z.eqb_eq in Ef.
    destruct (acquire_word m old Ef) as [Hc Hl]. rewrite E2, E1. split.
    + right; left. exists m. auto.
    + left. auto.
  - apply compare_exchange_inv in E as [E1 E2]. unfold desired_of in E2. rewrite Ef in E2.
    rewrite lock_free_count in Ef. apply Z.eqb_eq in Ef.
    destruct (acquire_word m old Ef) as [Hc Hl]. rewrite E2, E1. split.
    + right; left. exists m. auto.
    + left. auto.
  - apply compare_exchange_inv in E as [E1 E2]. unfold desired_of in E2. rewrite Ef in E2.
    apply effect_keeps; [by destruct a | by destruct a | congruence].
  - apply wait_list_lock_inv in E as (Hc & H0 & H1). split; [left; auto | right; left; auto].
  - apply (fetch_or_inv 31) in E as [Hc Hl]; [|lia]. by apply effect_same.
  - apply effect_keeps; [done | done |]. eapply keeps_run; [apply keeps_enqueue | exact E].
  - apply wait_list_unlock_inv in E as [Hc _]. split; [left; auto | right; right; auto].
  - apply effect_keeps; [by destruct w | by destruct w |]. eapply keeps_run; [apply keeps_wait_once | exact E].
  - apply (fetch_or_inv 30) in E as [Hc Hl]; [|lia]. by apply effect_same.
  - apply wait_list_lock_inv in E as (Hc & H0 & H1). split; [left; auto | right; left; auto].
  - apply effect_keeps; [done | done |]. eapply keeps_run; [apply keeps_dequeue_list | exact E].
  - apply clear_has_waiters_inv in E as [Hc Hl]. by apply effect_same.
  - apply wait_list_unlock_inv in E as [Hc _]. split; [left; split; [by destruct b | done] | right; right; by destruct b].
  - apply effect_keeps; [done | done |]. eapply keeps_run; [apply keeps_on_locks | exact E].
  - apply (fetch_or_inv 30) in E as [Hc Hl]; [|lia]. by apply effect_same.
  - apply effect_keeps; [by destruct w | by destruct w |]. eapply keeps_run; [apply keeps_wait_once | exact E].
  - apply effect_keeps; [done | done |]. eapply keeps_run; [apply keeps_return_waits | exact E].
  - apply effect_keeps; [done | done |]. eapply keeps_run; [apply keeps_return_waits | exact E].
  - destruct (release_inv m l wake l') as [Hc Hl]; [by apply Hh | done |]. split.
    + right; right. exists m. auto.
    + left. auto.
  - apply effect_keeps; [by destruct wake | by destruct wake |]. eapply keeps_run; [apply keeps_check_released | exact E].
  - apply wait_list_lock_inv in E as (Hc & H0 & H1). split; [left; auto | right; left; auto].
  - apply effect_keeps; [done | done |]. eapply keeps_run; [apply keeps_wakeup_collect | exact E].
  - apply effect_keeps; [done | done | by injection E as _ <-].
  - unfold wakeup_exchange, gets in E. unfold mbind, M_bind in E. cbn in E.
    apply compare_exchange_inv in E. destruct ok.
    + destruct E as [<- ->]. destruct (wakeup_word (IsEmpty (l_waiters l)) (l_state l)) as [Hc _].
      split; [left; auto | right; right; auto].
    + subst l'. by apply effect_keeps.
  - apply effect_keeps; [done | done |]. eapply keeps_run; [apply keeps_on_locks | exact E].
  - by apply effect_keeps.
  - apply effect_keeps; [done | done |]. eapply keeps_run; [apply keeps_notify_one | exact E'].
  - apply effect_keeps; [done | done |]. eapply keeps_run; [apply keeps_on_locks | exact E].
Qed.
End effects.

(** ** The invariant *)
Section invariant.
Context `{Build}.
Implicit Type c : config.

Record inv c : Prop := mk_inv {
  i_count w m : holds (pc_of c w) = Some m -> count (l_state (latch c)) = lock_value m;
  i_holder w w' m m' : holds (pc_of c w) = Some m -> holds (pc_of c w') = Some m' -> w = w';
  i_free : (forall w, holds (pc_of c w) = None) -> count (l_state (latch c)) = 0;
  i_list w : in_list (pc_of c w) = true -> list_locked (l_state (latch c)) = true;
  i_one w w' : in_list (pc_of c w) = true -> in_list (pc_of c w') = true -> w = w'
}.

Lemma latch_pc_of_insert c l p w w' :
  pc_of (mkConfig l (<[w := p]> (pcs c))) w' = if decide (w' = w) then p else pc_of c w'.
Proof.
  unfold pc_of. cbn [pcs]. case_decide; [subst; by rewrite lookup_insert_eq | by rewrite lookup_insert_ne by done].
Qed.

Lemma inv_step c c' : inv c -> step c c' -> inv c'.
Proof.
  intros [Ic Ih If Il Io] (w & p & l & Hs & ->).
  destruct (part_effect w _ _ _ _ (Ic w) Hs) as [He Hl]. split; cbn [latch].
  - intros x m. rewrite latch_pc_of_insert. case_decide as Hx; intros Hm.
    + destruct He as [[E1 E2]|[(m' & E1 & E2 & E3 & E4)|(m' & E1 & E2 & E3)]]; [|congruence | congruence].
      rewrite E2. apply (Ic w). congruence.
    + destruct He as [[E1 E2]|[(m' & E1 & E2 & E3 & E4)|(m' & E1 & E2 & E3)]].
      * rewrite E2. by apply (Ic x).
      * pose proof (Ic x m Hm). pose proof (lock_value_range m). lia.
      * destruct Hx. by eapply Ih.
  - intros x x' m m'. rewrite !latch_pc_of_insert. destruct He as [[E1 E2]|[(m0 & E1 & E2 & E3 & E4)|(m0 & E1 & E2 & E3)]];
      do 2 case_decide; intros Hy1 Hy2; subst; try done; try congruence; try (rewrite E1 in *); eauto.
    + pose proof (Ic x' m' Hy2). pose proof (lock_value_range m'). lia.
    + pose proof (Ic x m Hy1). pose proof (lock_value_range m). lia.
  - intros Hnone. assert (Hp : holds p = None).
    { specialize (Hnone w). rewrite latch_pc_of_insert in Hnone. by rewrite decide_True in Hnone by done. }
    destruct He as [[E1 E2]|[(m0 & E1 & E2 & E3 & E4)|(m0 & E1 & E2 & E3)]]; [|congruence | done].
    rewrite E2. apply If. intros x. specialize (Hnone x). rewrite latch_pc_of_insert in Hnone.
    case_decide; [subst; congruence | done].
  - intros x. rewrite latch_pc_of_insert. case_decide as Hx; intros Hin.
    + destruct Hl as [[E1 E2]|[(E1 & E2 & E3 & E4)|[E1 E2]]]; [|done | congruence].
      rewrite E2. apply (Il w). congruence.
    + destruct Hl as [[E1 E2]|[(E1 & E2 & E3 & E4)|[E1 E2]]]; [|done | destruct Hx; by apply Io].
      rewrite E2. by apply (Il x).
  - intros x x'. rewrite !latch_pc_of_insert. destruct Hl as [[E1 E2]|[(E1 & E2 & E3 & E4)|[E1 E2]]];
      do 2 case_decide; intros Hy1 Hy2; subst; try done; try congruence; try (rewrite E1 in *); eauto.
Qed.

Lemma reachable_inv c : reachable c -> inv c.
Proof.
  intros [n Hs]. revert c Hs. apply (rtc_ind_r inv).
  - split; intros w; unfold pc_of; cbn; done.
  - intros c c' _ Hs Hi. by eapply inv_step.
Qed.
End invariant.

(** ** Which waiters are woken up *)
Section choice.
Context `{Build}.
Implicit Type ws : list WorkerLock.

Lemma repr_same_nodes h ws ws' l : map lockNode ws' = map lockNode ws -> repr h ws l -> repr h ws' l.
Proof.
  intros Hn [Hh Ht Hs Hd]. split; try done. clear -Hn Hs. revert Hs.
  generalize WorkerId.Invalid at 1 3. induction l as [|x l IH]; intros p; [done|]. intros [(Hx & w & Hw & Hnode) Hs].
  split; [|by apply IH]. split; [done|].
  assert (Hl : map lockNode ws' !! Z.to_nat x = Some (lockNode w)) by (rewrite Hn, list_lookup_fmap, Hw; done).
  rewrite list_lookup_fmap in Hl. destruct (ws' !! Z.to_nat x) as [w'|]; [|done]. exists w'. split; [done|].
  injection Hl as ->. done.
Qed.

Definition mode_of ws (x : Z) : LockMode := from_option lockMode Share (ws !! Z.to_nat x).
Definition lstate_of ws (x : Z) : WorkerLockState := from_option lockState NotWaiting (ws !! Z.to_nat x).

Lemma strip_lookup ws ws' x :
  map strip ws' = map strip ws -> strip <$> ws' !! Z.to_nat x = strip <$> ws !! Z.to_nat x.
Proof. intros Hs. rewrite <-!list_lookup_fmap. exact (f_equal (fun l => l !! Z.to_nat x) Hs). Qed.

Lemma strip_mode ws ws' x : map strip ws' = map strip ws -> mode_of ws' x = mode_of ws x.
Proof.
  intros Hs%(strip_lookup _ _ x). unfold mode_of. destruct (ws' !! Z.to_nat x), (ws !! Z.to_nat x); try done.
  by injection Hs.
Qed.
Lemma strip_state ws ws' x : map strip ws' = map strip ws -> lstate_of ws' x = lstate_of ws x.
Proof.
  intros Hs%(strip_lookup _ _ x). unfold lstate_of. destruct (ws' !! Z.to_nat x), (ws !! Z.to_nat x); try done.
  by injection Hs.
Qed.

(** Setting the lock state of a worker. *)
Lemma put_state_ok ws x n s :
  node_at ws x n -> exists ws', put x (SetLockState s) ws = (Ok tt, ws') /\ map lockNode ws' = map lockNode ws /\
    (forall y, mode_of ws' y = mode_of ws y) /\
    (forall y, 0 <= y -> lstate_of ws' y = if decide (y = x) then s else lstate_of ws y).
Proof.
  intros Hn. destruct (GetWorkerLock_ok ws x n Hn) as (w & Hx & _ & Hg). pose proof (node_nonneg ws x n Hn) as H0.
  unfold put. erewrite M_bind_Ok by exact Hg. eexists. split; [done|]. pose proof (lookup_lt_Some _ _ _ Hx) as Hlt.
  split_and!.
  - apply list_eq. intros i. rewrite !list_lookup_fmap. destruct (decide (i = Z.to_nat x)) as [->|Hne].
    + rewrite list_lookup_insert_eq by done. by rewrite Hx.
    + by rewrite list_lookup_insert_ne.
  - intros y. unfold mode_of. destruct (decide (Z.to_nat x = Z.to_nat y)) as [E|Hne].
    + rewrite <-E, list_lookup_insert_eq, Hx by done. done.
    + by rewrite list_lookup_insert_ne.
  - intros y Hy. unfold lstate_of. case_decide as E.
    + subst. by rewrite list_lookup_insert_eq by done.
    + rewrite list_lookup_insert_ne by lia. done.
Qed.

(** The lists of [wakeup] and of the waiters share the nodes of the workers. *)
Definition lists (l : LWLatch) (k : LockListHead) (waiting woken : list Z) : Prop :=
  repr (l_waiters l) (l_locks l) waiting /\ repr k (l_locks l) woken /\ NoDup (waiting ++ woken).

Lemma repr_frame l' h ws ws' l :
  only_nodes l' ws ws' -> (forall x, x ∈ l -> x ∉ l') -> repr h ws l -> repr h ws' l.
Proof. intros Ho Hd [Hh Ht Hs Hn]. split; try done. by eapply seg_frame. Qed.

(** Moving one waiter from the one list to the other: its mode, and the list [wakeup]. *)
Definition move (k : LockListHead) (x : Z) : M LWLatch (LockMode * LockListHead) :=
  _ ← on_waiters (fun h => Delete h x);
  wakeup ← on_locks (PushTail k x);
  waiter ← on_locks (GetWorkerLock x);
  _ ← lift (assert_ (bool_decide (lockState waiter = Waiting)) "waiter->GetLockState() == WorkerLockState::Waiting");
  _ ← on_locks (put x (SetLockState PendingWakeup));
  mret (lockMode waiter, wakeup).

Lemma move_ok l k kept x lrem woken :
  lists l k (kept ++ x :: lrem) woken -> lstate_of (l_locks l) x = Waiting ->
  exists k' l', move k x l = (Ok (mode_of (l_locks l) x, k'), l') /\
    lists l' k' (kept ++ lrem) (woken ++ [x]) /\ l_state l' = l_state l /\
    (forall y, mode_of (l_locks l') y = mode_of (l_locks l) y) /\
    (forall y, 0 <= y -> lstate_of (l_locks l') y = if decide (y = x) then PendingWakeup else lstate_of (l_locks l) y).
Proof.
  intros (Hw & Hk & Hnd) Hst. destruct l as [s h ws]. cbn [l_state l_waiters l_locks] in *.
  destruct (Delete_ok h ws kept x lrem Hw) as (h1 & ws1 & D1 & R1 & O1 & N1).
  assert (Hdis : forall y, y ∈ kept ++ x :: lrem -> y ∉ woken).
  { apply NoDup_app in Hnd as (_ & Hd & _). exact Hd. }
  assert (Hk1 : repr k ws1 woken).
  { eapply repr_frame; [exact O1 | | exact Hk]. intros y Hy Hy'. by apply (Hdis y). }
  destruct (PushTail_ok k ws1 woken x _ Hk1 N1) as (k' & ws2 & P2 & R2 & O2).
  { apply Hdis. set_solver. }
  assert (Hnx : x ∉ kept ++ lrem).
  { destruct Hw as [_ _ _ Hd]. apply NoDup_app in Hd as (_ & Hd1 & Hd2). apply NoDup_cons in Hd2 as [Hx _].
    intros [Hy|Hy]%elem_of_app; [apply (Hd1 x Hy); set_solver | done]. }
  assert (R1' : repr h1 ws2 (kept ++ lrem)).
  { eapply repr_frame; [exact O2 | | exact R1]. intros y Hy Hy'. apply elem_of_cons in Hy' as [->|Hy']; [done|].
    apply (Hdis y); [set_solver | done]. }
  assert (Hnode : exists n, node_at ws2 x n).
  { destruct R2 as [_ _ Hs _]. eapply seg_node; [exact Hs | set_solver]. }
  destruct Hnode as [n Hn]. destruct (GetWorkerLock_ok ws2 x n Hn) as (w & Hxw & _ & Hg).
  destruct (put_state_ok ws2 x n PendingWakeup Hn) as (ws3 & P3 & S3 & M3 & T3).
  assert (Hstrip : map strip ws2 = map strip ws) by (etrans; [apply O2 | apply O1]).
  assert (Hws : lockState w = Waiting).
  { rewrite <-(strip_state ws ws2 x) in Hst by done. unfold lstate_of in Hst. by rewrite Hxw in Hst. }
  exists k', (mkLatch s h1 ws3). split; [|split; [|split; [done|]]].
  - unfold move, on_waiters, on_locks. unfold mbind at 1, M_bind at 1. cbn [l_state l_waiters l_locks]. rewrite D1.
    unfold mbind at 1, M_bind at 1. cbn [l_state l_waiters l_locks]. rewrite P2.
    unfold mbind at 1, M_bind at 1. cbn [l_state l_waiters l_locks]. rewrite Hg.
    erewrite lift_Ok by (apply assert_Ok, bool_decide_true, Hws).
    unfold mbind at 1, M_bind at 1. cbn [l_state l_waiters l_locks]. rewrite P3.
    unfold mret, M_ret. do 3 f_equal. rewrite <-(strip_mode ws ws2 x) by done. unfold mode_of. by rewrite Hxw.
  - split; [|split]; cbn [l_waiters l_locks].
    + by eapply repr_same_nodes.
    + by eapply repr_same_nodes.
    + rewrite app_assoc. clear -Hnd Hnx Hdis. apply NoDup_app in Hnd as (Hd1 & _ & Hd3).
      apply NoDup_app in Hd1 as (Hk & Hkx & Hx). apply NoDup_cons in Hx as [Hxl Hl].
      apply NoDup_app. split_and!; [| |apply NoDup_singleton].
      * apply NoDup_app. split_and!; [| |done].
        -- apply NoDup_app. split_and!; [done | | done]. intros y Hy Hy'. apply (Hkx y Hy). set_solver.
        -- intros y Hy. apply Hdis. set_solver.
      * intros y Hy ->%list_elem_of_singleton. apply elem_of_app in Hy as [Hy|Hy]; [done|].
        apply (Hdis x); [set_solver | done].
  - cbn [l_locks]. split.
    + intros y. rewrite M3. by apply strip_mode.
    + intros y Hy. rewrite T3 by done. case_decide; [done|]. by apply strip_state.
Qed.

Lemma collect_move n it k b l w :
  at_end it = false -> GetWorkerLock (Current it) (l_locks l) = (Ok w, l_locks l) ->
  b && bool_decide (lockMode w = Exclusive) = false ->
  collect (S n) it k b l =
    match move k (Current it) l with
    | (Ok (m, k'), l') =>
        if bool_decide (m = Exclusive) then (Ok k', l')
        else (it ← on_locks (it_incr it); collect n it k' true) l'
    | (Fault e, l') => (Fault e, l')
    end.
Proof.
  intros Hend Hg Hb. cbn [collect]. rewrite Hend. rewrite (M_bind_Ok _ _ l w l).
  2: { unfold on_locks. rewrite Hg. by destruct l. }
  rewrite Hb. unfold move, mbind, M_bind, mret, M_ret, lift, on_locks, on_waiters.
  repeat (case_match; simplify_eq; try done).
Qed.

Lemma it_at_end it l : it_at it l -> (forall x, x ∈ l -> x <> WorkerId.Invalid) ->
  at_end it = match l with [] => true | _ => false end.
Proof.
  unfold at_end. destruct l as [|x l]; cbn [it_at]; [intros -> _; done|].
  intros [-> _] Hv. apply eqb_Invalid, Hv. set_solver.
Qed.

(** The node that the iterator reads next. *)
Lemma next_node h ws kept l :
  repr h ws (kept ++ l) -> match l with [] => True | y :: l' => exists m, node_at ws y (mkNode (hd_or WorkerId.Invalid l') m) end.
Proof.
  intros [_ _ Hs _]. destruct l as [|y l]; [done|]. apply seg_app in Hs as [_ [Hy _]]. by eexists.
Qed.

Lemma lists_reader l k waiting woken x :
  lists l k waiting woken -> x ∈ waiting ->
  x <> WorkerId.Invalid /\ 0 <= x /\ exists w, GetWorkerLock x (l_locks l) = (Ok w, l_locks l) /\ lockMode w = mode_of (l_locks l) x.
Proof.
  intros ([_ _ Hs _] & _) Hx. destruct (seg_node _ _ _ _ x Hs Hx) as [n Hn].
  destruct (GetWorkerLock_ok _ x n Hn) as (w & Hw & _ & Hg). split; [by eapply seg_valid|].
  split; [by eapply node_nonneg|]. exists w. split; [done|]. unfold mode_of. by rewrite Hw.
Qed.

Lemma it_step h k it l kept x r woken :
  lists l k (kept ++ r) woken -> it_at it (x :: r) -> h = l ->
  exists it', on_locks (it_incr it) l = (Ok it', l) /\ it_at it' r.
Proof.
  intros (Hr & _) Hit ->. destruct (it_incr_ok (l_locks l) it x r Hit (next_node _ _ kept r Hr)) as (it' & Hi & Hat).
  exists it'. split; [|done]. unfold on_locks. rewrite Hi. by destruct l.
Qed.

(** After the first waiter, a shared one, all shared waiters are taken. *)
Lemma collect_shared lrem n it k l kept woken :
  (length lrem < n)%nat -> it_at it lrem -> lists l k (kept ++ lrem) woken ->
  (forall x, x ∈ lrem -> lstate_of (l_locks l) x = Waiting) ->
  exists k' l', collect n it k true l = (Ok k', l') /\ l_state l' = l_state l /\
    lists l' k' (kept ++ filter (fun x => mode_of (l_locks l) x = Exclusive) lrem)
      (woken ++ filter (fun x => mode_of (l_locks l) x = Share) lrem) /\
    (forall y, 0 <= y -> lstate_of (l_locks l') y =
      if decide (y ∈ filter (fun x => mode_of (l_locks l) x = Share) lrem) then PendingWakeup else lstate_of (l_locks l) y).
Proof.
  revert n it k l kept woken. induction lrem as [|x r IH]; intros n it k l kept woken Hn Hit Hl Hst.
  - exists k, l. destruct n as [|n]; [lia|]. cbn [collect]. rewrite (it_at_end it []) by (done || set_solver).
    rewrite app_nil_r in Hl. rewrite !filter_nil, !app_nil_r. split_and!; [done | done | done |].
    intros y Hy. rewrite decide_False by set_solver. done.
  - destruct n as [|n]; [cbn in Hn; lia|]. cbn [length] in Hn.
    destruct (lists_reader l k (kept ++ x :: r) woken x Hl) as (Hv & Hx0 & w & Hg & Hm); [set_solver|].
    assert (Hcur : Current it = x) by apply Hit.
    assert (Hend : at_end it = false) by (unfold at_end; rewrite Hcur; by apply eqb_Invalid).
    destruct (decide (mode_of (l_locks l) x = Exclusive)) as [Hex|Hsh].
    + rewrite filter_cons_True, filter_cons_False by (done || congruence).
      replace (kept ++ x :: r) with ((kept ++ [x]) ++ r) in Hl by (by rewrite <-app_assoc).
      destruct (it_step l k it l (kept ++ [x]) x r woken Hl Hit eq_refl) as (it' & Hi & Hat).
      destruct (IH n it' k l (kept ++ [x]) woken) as (k' & l' & Hc & Hs & Hl' & Ht); [lia | done | done | set_solver |].
      exists k', l'. split; [|split; [done|split]].
      * cbn [collect]. rewrite Hend. rewrite (M_bind_Ok _ _ l w l).
        2: { unfold on_locks. rewrite Hcur, Hg. by destruct l. }
        rewrite bool_decide_true by congruence. cbn [andb]. by erewrite M_bind_Ok by exact Hi.
      * by rewrite <-app_assoc in Hl'.
      * done.
    + assert (Hshare : mode_of (l_locks l) x = Share) by (by destruct (mode_of _ _)).
      rewrite filter_cons_False, filter_cons_True by (done || congruence).
      destruct (move_ok l k kept x r woken Hl) as (k1 & l1 & Hmv & Hl1 & Hs1 & Hm1 & Ht1); [apply Hst; set_solver|].
      destruct (it_step l1 k1 it l1 kept x r _ Hl1 Hit eq_refl) as (it' & Hi & Hat).
      assert (Hxr : x ∉ r).
      { destruct Hl as ([_ _ _ Hd] & _). apply NoDup_app in Hd as (_ & _ & Hd). by apply NoDup_cons in Hd as [? _]. }
      assert (Hnonneg : forall y, y ∈ r -> 0 <= y).
      { intros y Hy. destruct (lists_reader l k (kept ++ x :: r) woken y Hl) as (_ & Hy0 & _); [set_solver | done]. }
      assert (Hext : forall m, filter (fun x => mode_of (l_locks l1) x = m) r = filter (fun x => mode_of (l_locks l) x = m) r).
      { intros m. apply list_filter_iff. intros y. by rewrite Hm1. }
      destruct (IH n it' k1 l1 kept (woken ++ [x])) as (k' & l' & Hc & Hs & Hl' & Ht); [lia | done | done | |].
      { intros y Hy. rewrite Ht1 by auto. rewrite decide_False by (intros ->; done). apply Hst. set_solver. }
      rewrite (Hext Exclusive), (Hext Share) in Hl'. rewrite (Hext Share) in Ht. exists k', l'. split; [|split; [congruence|split]].
      * rewrite <-Hcur in Hg. rewrite (collect_move n it k true l w Hend Hg) by (rewrite bool_decide_false by congruence; done).
        rewrite Hcur, Hmv, bool_decide_false by congruence. by erewrite M_bind_Ok by exact Hi.
      * by rewrite <-app_assoc in Hl'.
      * intros y Hy. rewrite Ht by done. rewrite Ht1 by done.
        destruct (decide (y = x)) as [->|Hne].
        -- rewrite (decide_True (P := x ∈ x :: _)) by set_solver. by case_decide.
        -- destruct (decide (y ∈ filter _ r)) as [Hin|Hin];
             [rewrite decide_True by set_solver | rewrite decide_False by set_solver]; done.
Qed.

(** The workers that are woken up, and those that go on waiting. *)
Definition woken_of ws (l : list Z) : list Z :=
  match l with
  | [] => []
  | x :: _ => if decide (mode_of ws x = Exclusive) then [x] else filter (fun x => mode_of ws x = Share) l
  end.
Definition rest_of ws (l : list Z) : list Z :=
  match l with
  | [] => []
  | x :: r => if decide (mode_of ws x = Exclusive) then r else filter (fun x => mode_of ws x = Exclusive) l
  end.

Lemma wakeup_collect_ok n l waiting :
  repr (l_waiters l) (l_locks l) waiting -> (forall x, x ∈ waiting -> lstate_of (l_locks l) x = Waiting) ->
  (waiting <> [] -> has (l_state l) HasWaiters = true) -> (length waiting < n)%nat ->
  exists k l', wakeup_collect n l = (Ok k, l') /\ l_state l' = l_state l /\
    lists l' k (rest_of (l_locks l) waiting) (woken_of (l_locks l) waiting) /\
    (forall y, 0 <= y -> lstate_of (l_locks l') y =
      if decide (y ∈ woken_of (l_locks l) waiting) then PendingWakeup else lstate_of (l_locks l) y).
Proof.
  intros Hr Hst Hflag Hn. unfold wakeup_collect. erewrite M_bind_Ok by reflexivity.
  destruct (begin_ok _ _ _ Hr) as (it & Hb & Hit).
  rewrite (M_bind_Ok _ _ l it l) by (unfold on_locks; rewrite Hb; by destruct l).
  assert (Hl0 : lists l emptyHead waiting []).
  { split; [done|]. split; [apply repr_empty|]. rewrite app_nil_r. by destruct Hr. }
  enough (Hc : exists k l', collect n it emptyHead false l = (Ok k, l') /\ l_state l' = l_state l /\
    lists l' k (rest_of (l_locks l) waiting) (woken_of (l_locks l) waiting) /\
    (forall y, 0 <= y -> lstate_of (l_locks l') y =
      if decide (y ∈ woken_of (l_locks l) waiting) then PendingWakeup else lstate_of (l_locks l) y)).
  { destruct Hc as (k & l' & Hc & Hs & Hl' & Ht). exists k, l'. split; [|done].
    erewrite M_bind_Ok by exact Hc. erewrite M_bind_Ok by reflexivity. erewrite lift_Ok; [done|].
    apply assert_Ok. destruct Hl' as (_ & Hk & _). rewrite (IsEmpty_ok _ _ _ Hk), Hs.
    destruct waiting as [|x r]; [done|]. rewrite Hflag by done. apply orb_true_r. }
  destruct waiting as [|x r].
  { exists emptyHead, l. destruct n as [|n]; [cbn in Hn; lia|]. cbn [collect].
    rewrite (it_at_end it []) by (done || set_solver). split; [done|]. split; [done|]. split; [done|].
    intros y Hy. cbn [woken_of]. by rewrite decide_False by set_solver. }
  destruct n as [|n]; [cbn in Hn; lia|]. cbn [length] in Hn.
  destruct (lists_reader l emptyHead (x :: r) [] x Hl0) as (Hv & Hx0 & w & Hg & Hm); [set_solver|].
  assert (Hcur : Current it = x) by apply Hit.
  assert (Hend : at_end it = false) by (unfold at_end; rewrite Hcur; by apply eqb_Invalid).
  destruct (move_ok l emptyHead [] x r [] Hl0) as (k1 & l1 & Hmv & Hl1 & Hs1 & Hm1 & Ht1); [apply Hst; set_solver|].
  rewrite <-Hcur in Hg. rewrite (collect_move n it emptyHead false l w Hend Hg) by done.
  rewrite Hcur, Hmv. cbn [app] in Hl1. unfold woken_of, rest_of.
  destruct (decide (mode_of (l_locks l) x = Exclusive)) as [Hex|Hsh].
  - rewrite bool_decide_true by done. exists k1, l1. split; [done|]. split; [done|]. split; [done|].
    intros y Hy. rewrite Ht1 by done. destruct (decide (y = x)) as [->|Hne];
      [by rewrite decide_True by set_solver | by rewrite decide_False by set_solver].
  - rewrite bool_decide_false by done. assert (Hshare : mode_of (l_locks l) x = Share) by (by destruct (mode_of _ _)).
    rewrite filter_cons_False, filter_cons_True by (done || congruence).
    destruct (it_step l1 k1 it l1 [] x r _ Hl1 Hit eq_refl) as (it' & Hi & Hat).
    erewrite M_bind_Ok by exact Hi.
    assert (Hxr : x ∉ r) by (destruct Hr as [_ _ _ Hd]; by apply NoDup_cons in Hd as [? _]).
    assert (Hnonneg : forall y, y ∈ r -> 0 <= y).
    { intros y Hy. destruct (lists_reader l emptyHead (x :: r) [] y Hl0) as (_ & Hy0 & _); [set_solver | done]. }
    assert (Hext : forall m, filter (fun x => mode_of (l_locks l1) x = m) r = filter (fun x => mode_of (l_locks l) x = m) r).
    { intros m. apply list_filter_iff. intros y. by rewrite Hm1. }
    destruct (collect_shared r n it' k1 l1 [] [x]) as (k' & l' & Hc & Hs & Hl' & Ht); [lia | done | done | |].
    { intros y Hy. rewrite Ht1 by auto. rewrite decide_False by (intros ->; done). apply Hst. set_solver. }
    rewrite (Hext Exclusive), (Hext Share) in Hl'. rewrite (Hext Share) in Ht. exists k', l'. split; [done|]. split; [congruence|]. split; [done|].
    intros y Hy. rewrite Ht by done. rewrite Ht1 by done. destruct (decide (y = x)) as [->|Hne].
    + rewrite (decide_True (P := x ∈ x :: _)) by set_solver. by case_decide.
    + destruct (decide (y ∈ filter _ r)) as [Hin|Hin];
        [rewrite decide_True by set_solver | rewrite decide_False by set_solver]; done.
Qed.
End choice.
