(* ===== verification/LatchSpec.v ===== *)
(** What the latch promises: the wait list against a list of ids, which waiters a release
    wakes up, mutual exclusion over all interleavings, and two executions that break the
    contract of the semaphore and an assertion of [Unlock]. *)
From stdpp Require Import relations.
From S2P Require Import Prelude Types LockList LWLatch.

(** ** What operations on the lists leave alone *)
Section frames.
Context `{Build} {B : Type}.
Variable f : WorkerLock -> B.
Hypothesis f_node : forall n w, f (with_node n w) = f w.

Definition frames {A} (m : M (list WorkerLock) A) : Prop := forall ws, map f (m ws).2 = map f ws.
Definition latch_frames {A} (m : M LWLatch A) : Prop := forall l, map f (l_locks (m l).2) = map f (l_locks l).

Lemma frames_bind {A C} (m : M (list WorkerLock) A) (k : A -> M (list WorkerLock) C) :
  frames m -> (forall a, frames (k a)) -> frames (mbind k m).
Proof.
  intros Hm Hk ws. unfold mbind, M_bind. specialize (Hm ws). destruct (m ws) as [[a|e] ws']; [|done]. by rewrite Hk.
Qed.
Lemma latch_frames_bind {A C} (m : M LWLatch A) (k : A -> M LWLatch C) :
  latch_frames m -> (forall a, latch_frames (k a)) -> latch_frames (mbind k m).
Proof.
  intros Hm Hk l. unfold mbind, M_bind. specialize (Hm l). destruct (m l) as [[a|e] l']; [|done]. by rewrite Hk.
Qed.

Lemma frames_ret {A} (a : A) : frames (mret a).
Proof. done. Qed.
Lemma frames_lift {A} (r : result A) : frames (lift r).
Proof. done. Qed.
Lemma frames_GetWorkerLock id : frames (GetWorkerLock id).
Proof. intros ws. unfold GetWorkerLock. repeat case_match; done. Qed.

Lemma frames_put id g : (forall w, f (g w) = f w) -> frames (put id g).
Proof.
  intros Hg ws. unfold put, mbind, M_bind. pose proof (frames_GetWorkerLock id ws) as Hw.
  destruct (GetWorkerLock id ws) as [[w|e] ws'] eqn:E; cbn [snd] in *; [|done]. rewrite <-Hw.
  assert (Hl : ws = ws' /\ ws !! Z.to_nat id = Some w).
  { unfold GetWorkerLock in E. destruct (assert_ _ _); [|done]. destruct (0 <=? id); [|done].
    destruct (ws !! Z.to_nat id) as [w'|]; cbn in E; [|done]. injection E as -> ->. done. }
  destruct Hl as [<- Hl]. unfold modify. cbn [snd]. apply list_eq. intros i. rewrite !list_lookup_fmap. destruct (decide (i = Z.to_nat id)) as [->|Hne].
  - rewrite list_lookup_insert_eq by (by eapply lookup_lt_Some). rewrite Hl. cbn. by rewrite Hg.
  - by rewrite list_lookup_insert_ne.
Qed.

Lemma frames_get_node id : frames (get_node id).
Proof. apply frames_bind; [apply frames_GetWorkerLock | done]. Qed.
Lemma frames_set_node id n : frames (set_node id n).
Proof. apply frames_put, f_node. Qed.
Lemma frames_set_Next id v : frames (set_Next id v).
Proof. apply frames_bind; [apply frames_get_node | intros n; apply frames_set_node]. Qed.
Lemma frames_set_Prev id v : frames (set_Prev id v).
Proof. apply frames_bind; [apply frames_get_node | intros n; apply frames_set_node]. Qed.

Lemma latch_frames_on_locks {A} (m : M (list WorkerLock) A) : frames m -> latch_frames (on_locks m).
Proof. intros Hm l. unfold on_locks. specialize (Hm (l_locks l)). by destruct (m (l_locks l)). Qed.
Lemma latch_frames_on_waiters m : (forall h, frames (m h)) -> latch_frames (on_waiters m).
Proof. intros Hm l. unfold on_waiters. specialize (Hm (l_waiters l) (l_locks l)). by destruct (m (l_waiters l) (l_locks l)) as [[|] ]. Qed.
Lemma latch_frames_ret {A} (a : A) : latch_frames (mret a).
Proof. done. Qed.
Lemma latch_frames_throw {A} e : latch_frames (throw (A := A) e).
Proof. done. Qed.
Lemma latch_frames_lift {A} (r : result A) : latch_frames (lift r).
Proof. done. Qed.
Lemma latch_frames_gets {A} (g : LWLatch -> A) : latch_frames (gets g).
Proof. done. Qed.
End frames.

Create HintDb frames discriminated.
#[export] Hint Resolve frames_ret frames_lift frames_GetWorkerLock frames_put frames_get_node frames_set_node
  frames_set_Next frames_set_Prev latch_frames_ret latch_frames_throw latch_frames_lift latch_frames_gets : frames.
Ltac frames := repeat first
  [ solve [eauto with frames]
  | match goal with |- forall _, _ => intros ? end
  | apply frames_bind | apply latch_frames_bind | apply latch_frames_on_locks | apply latch_frames_on_waiters
  | case_match ].

Section sema.
Context `{Build}.

Lemma frames_PushTail h id : frames sema (PushTail h id).
Proof. unfold PushTail. frames. Qed.
Lemma frames_Delete h id : frames sema (Delete h id).
Proof. unfold Delete. frames. Qed.
Lemma frames_it_incr it : frames sema (it_incr it).
Proof. unfold it_incr. frames. Qed.
Lemma frames_begin h : frames sema (begin h).
Proof. unfold begin. frames. Qed.
End sema.
#[export] Hint Resolve frames_PushTail frames_Delete frames_it_incr frames_begin : frames.

Section wakeup.
Context `{Build}.
Implicit Type ws : list WorkerLock.

Lemma frames_collect n it k b : latch_frames sema (collect n it k b).
Proof. revert it k b. induction n as [|n IH]; intros it k b; cbn [collect]; frames; apply IH. Qed.
Lemma frames_wakeup_collect n : latch_frames sema (wakeup_collect n).
Proof. unfold wakeup_collect, load. frames; apply frames_collect. Qed.

Definition sema_of ws (x : Z) : Z := from_option sema 0 (ws !! Z.to_nat x).

Lemma sema_frame ws ws' x : map sema ws' = map sema ws -> sema_of ws' x = sema_of ws x.
Proof.
  intros Hs. unfold sema_of.
  assert (E : sema <$> ws' !! Z.to_nat x = sema <$> ws !! Z.to_nat x)
    by (rewrite <-!list_lookup_fmap; exact (f_equal (fun l => l !! Z.to_nat x) Hs)).
  destruct (ws' !! Z.to_nat x), (ws !! Z.to_nat x); cbn in *; congruence.
Qed.

(** Releasing the semaphore of a worker. *)
Lemma release_ok ws x n k :
  node_at ws x n -> sema_of ws x + k <= 1 ->
  forall s h, exists ws', sem_release x k (mkLatch s h ws) = (Ok tt, mkLatch s h ws') /\ map lockNode ws' = map lockNode ws /\
    (forall y, 0 <= y -> lstate_of ws' y = lstate_of ws y) /\
    (forall y, 0 <= y -> sema_of ws' y = if decide (y = x) then sema_of ws x + k else sema_of ws y).
Proof.
  intros Hn Hs s h. destruct (GetWorkerLock_ok ws x n Hn) as (w & Hx & _ & Hg). pose proof (node_nonneg ws x n Hn).
  pose proof (lookup_lt_Some _ _ _ Hx) as Hlt. assert (Hw : sema_of ws x = sema w) by (unfold sema_of; by rewrite Hx).
  unfold sem_release, on_locks. cbn [l_locks l_state l_waiters]. erewrite M_bind_Ok by exact Hg. rewrite (proj2 (Z.leb_le _ 1)) by lia.
  unfold put. erewrite M_bind_Ok by exact Hg. eexists. split; [done|]. split_and!.
  - apply list_eq. intros i. rewrite !list_lookup_fmap. destruct (decide (i = Z.to_nat x)) as [->|Hne].
    + rewrite list_lookup_insert_eq by done. by rewrite Hx.
    + by rewrite list_lookup_insert_ne.
  - intros y Hy. unfold lstate_of. destruct (decide (Z.to_nat x = Z.to_nat y)) as [E|Hne].
    + rewrite <-E, list_lookup_insert_eq, Hx by done. done.
    + by rewrite list_lookup_insert_ne.
  - intros y Hy. unfold sema_of. case_decide as E.
    + subst. by rewrite list_lookup_insert_eq, Hx by done.
    + rewrite list_lookup_insert_ne by lia. done.
Qed.

(** One worker is notified. *)
Lemma notify_one_ok l k x r waiting :
  lists l k waiting (x :: r) -> sema_of (l_locks l) x = 0 ->
  exists k' l', notify_one k x l = (Ok k', l') /\ lists l' k' waiting r /\ l_state l' = l_state l /\
    l_waiters l' = l_waiters l /\
    (forall y, 0 <= y -> lstate_of (l_locks l') y = if decide (y = x) then NotWaiting else lstate_of (l_locks l) y) /\
    (forall y, 0 <= y -> sema_of (l_locks l') y = if decide (y = x) then 1 else sema_of (l_locks l) y).
Proof.
  intros (Hw & Hk & Hnd) Hs. destruct l as [s h ws]. cbn [l_state l_waiters l_locks] in *.
  destruct (Delete_ok k ws [] x r Hk) as (k' & ws1 & D1 & R1 & O1 & N1).
  assert (Hdis : forall y, y ∈ waiting -> y ∉ x :: r) by (apply NoDup_app in Hnd as (_ & Hd & _); exact Hd).
  assert (W1 : repr h ws1 waiting) by (eapply repr_frame; [exact O1 | exact Hdis | exact Hw]).
  destruct (put_state_ok ws1 x _ NotWaiting N1) as (ws2 & P2 & S2 & _ & T2).
  assert (F2 : map sema ws2 = map sema ws).
  { pose proof (frames_Delete k x ws) as F1. rewrite D1 in F1. cbn [snd] in F1. rewrite <-F1.
    pose proof (frames_put sema x (SetLockState NotWaiting) (fun _ => eq_refl) ws1) as F2. by rewrite P2 in F2. }
  assert (N2 : exists n, node_at ws2 x n).
  { destruct N1 as (Hx0 & w & Hx & _). pose proof (f_equal (fun l => l !! Z.to_nat x) S2) as E. cbn in E.
    rewrite !list_lookup_fmap, Hx in E. destruct (ws2 !! Z.to_nat x) as [w2|] eqn:E2; [|done]. by eexists; split; [|exists w2]. }
  destruct N2 as [n2 N2]. destruct (release_ok ws2 x n2 1 N2) with (s := s) (h := h) as (ws3 & P3 & S3 & T3 & U3).
  { rewrite (sema_frame ws ws2) by done. lia. }
  exists k', (mkLatch s h ws3). cbn [l_state l_waiters l_locks]. split; [|split; [split; [|split]|split; [done|split; [done|split]]]].
  - unfold notify_one.
    rewrite (M_bind_Ok _ _ _ k' (mkLatch s h ws1)) by (unfold on_locks; cbn [l_state l_waiters l_locks]; by rewrite D1).
    rewrite (M_bind_Ok _ _ _ tt (mkLatch s h ws2)) by (unfold on_locks; cbn [l_state l_waiters l_locks]; by rewrite P2).
    by erewrite M_bind_Ok by exact P3.
  - eapply repr_same_nodes; [etrans; [exact S3 | exact S2] | exact W1].
  - eapply repr_same_nodes; [etrans; [exact S3 | exact S2] | exact R1].
  - apply NoDup_app in Hnd as (Hd1 & _ & Hd2). apply NoDup_cons in Hd2 as [_ Hd2]. apply NoDup_app. cbn [l_locks].
    split_and!; [done | set_solver | done].
  - intros y Hy. rewrite T3, T2 by done. case_decide; [done|]. apply strip_state. apply O1.
  - intros y Hy. rewrite U3 by done. rewrite !(sema_frame ws ws2) by done. case_decide; [subst; lia | done].
Qed.

(** All workers of the list are notified. *)
Lemma notify_ok woken n it k l waiting :
  (length woken < n)%nat -> it_at it woken -> lists l k waiting woken -> (forall x, x ∈ woken -> sema_of (l_locks l) x = 0) ->
  exists l', notify n it k l = (Ok tt, l') /\ repr (l_waiters l') (l_locks l') waiting /\ l_state l' = l_state l /\
    l_waiters l' = l_waiters l /\
    (forall y, 0 <= y -> lstate_of (l_locks l') y = if decide (y ∈ woken) then NotWaiting else lstate_of (l_locks l) y) /\
    (forall y, 0 <= y -> sema_of (l_locks l') y = if decide (y ∈ woken) then 1 else sema_of (l_locks l) y).
Proof.
  revert n it k l. induction woken as [|x r IH]; intros n it k l Hn Hit Hl Hs; (destruct n as [|n]; [cbn in Hn; lia|]).
  - exists l. cbn [notify]. rewrite (it_at_end it []) by (done || set_solver). split; [done|]. split; [apply Hl|].
    split; [done|]. split; [done|]. split; intros y Hy; by rewrite decide_False by set_solver.
  - cbn [length] in Hn. assert (Hv : x <> WorkerId.Invalid).
    { destruct Hl as (_ & [_ _ Hsg _] & _). eapply seg_valid; [exact Hsg | set_solver]. }
    assert (Hcur : Current it = x) by apply Hit.
    destruct (notify_one_ok l k x r waiting Hl) as (k' & l1 & Hno & Hl1 & Hs1 & Hw1 & T1 & U1); [apply Hs; set_solver|].
    assert (Hxr : x ∉ r /\ forall y, y ∈ r -> 0 <= y).
    { destruct Hl as (_ & [_ _ Hsg Hnd] & _). apply NoDup_cons in Hnd as [? _]. split; [done|]. intros y Hy.
      destruct (seg_node _ _ _ _ y Hsg) as [m Hm]; [set_solver | by eapply node_nonneg]. }
    destruct (it_incr_ok (l_locks l1) it x r Hit) as (it' & Hi & Hat).
    { destruct Hl1 as (_ & Hr1 & _). exact (next_node _ _ [] r Hr1). }
    destruct (IH n it' k' l1) as (l' & Hc & Hr' & Hs' & Hw' & T' & U'); [lia | done | done | |].
    { intros y Hy. rewrite U1 by (by apply Hxr). rewrite decide_False by (intros ->; by apply Hxr). apply Hs. set_solver. }
    exists l'. split; [|split; [done|split; [congruence|split; [congruence|]]]].
    + cbn [notify]. unfold at_end. rewrite Hcur, eqb_Invalid by done. erewrite M_bind_Ok by exact Hno.
      rewrite (M_bind_Ok _ _ l1 it' l1); [exact Hc|]. unfold on_locks. rewrite Hi. by destruct l1.
    + split; intros y Hy; [rewrite T', T1 by done | rewrite U', U1 by done]; destruct (decide (y = x)) as [->|Hne].
      1, 3: rewrite (decide_True (P := x ∈ x :: r)) by set_solver; by case_decide.
      all: destruct (decide (y ∈ r)); [by rewrite decide_True by set_solver | by rewrite decide_False by set_solver].
Qed.

(** The flags that [wakeup] writes. *)
Lemma has_bit s k : 0 <= k -> has s (2 ^ k) = Z.testbit s k.
Proof.
  intros Hk. unfold has. destruct (Z.testbit s k) eqn:E.
  - apply negb_true_iff, Z.eqb_neq. intros Hz. assert (Z.testbit (Z.land s (2 ^ k)) k = false) as Hf by by rewrite Hz, Z.bits_0.
    rewrite Z.land_spec, E, Z.pow2_bits_true in Hf by lia. done.
  - apply negb_false_iff, Z.eqb_eq, Z.bits_inj'. intros i Hi. rewrite Z.land_spec, Z.pow2_bits_eqb, Z.bits_0 by lia.
    destruct (Z.eqb_spec k i) as [<-|]; [by rewrite E | by rewrite andb_false_r].
Qed.

Lemma desired_bits e s k :
  30 <= k < 32 -> Z.testbit (wakeup_desired e s) k = Z.testbit s k && (k =? 31) && negb e.
Proof.
  intros Hk. unfold wakeup_desired.
  change (2 ^ 32 - 1 - UnlockWaiter) with (2 ^ 32 - 1 - 2 ^ 30). change (2 ^ 32 - 1 - HasWaiters) with (2 ^ 32 - 1 - 2 ^ 31).
  change (2 ^ 32 - 1 - ListLocked) with (2 ^ 32 - 1 - 2 ^ 29).
  assert (k = 30 \/ k = 31) as [-> | ->] by lia; destruct e;
    rewrite !Z.land_spec, !not_bits by lia; cbn [Z.eqb negb andb]; by rewrite ?andb_false_r, ?andb_true_r.
Qed.

Lemma lor_bit s k i : 0 <= k -> 0 <= i -> i <> k -> Z.testbit (Z.lor s (2 ^ k)) i = Z.testbit s i.
Proof. intros. rewrite Z.lor_spec, Z.pow2_bits_eqb, (proj2 (Z.eqb_neq k i)) by lia. apply orb_false_r. Qed.

Lemma wait_list_lock_ok l :
  list_locked (l_state l) = false ->
  wait_list_lock l = (Ok tt, set_state (Z.lor (l_state l) ListLocked) l).
Proof.
  intros Hl. unfold wait_list_lock, try_list_lock, fetch_or, mbind, M_bind, mret, M_ret. cbn. by rewrite has_list, Hl.
Qed.

Lemma wakeup_release_ok n l :
  (0 < n)%nat -> wakeup_release n (l_state l) l = (Ok tt, set_state (wakeup_desired (IsEmpty (l_waiters l)) (l_state l)) l).
Proof.
  intros Hn. destruct n as [|n]; [lia|]. cbn [wakeup_release]. unfold wakeup_exchange, gets, compare_exchange, mbind, M_bind.
  by rewrite Z.eqb_refl.
Qed.

(** C31: [wakeup] wakes up the first waiter alone if it waits for the exclusive mode, and
    else the shared waiters, all of them; they leave the list of waiters, are marked as not
    waiting and their semaphores are released once. The others go on waiting in their
    order. The count of the lock is not changed, the lock of the list is released, further
    wake-ups are suppressed, and the flag of waiters is kept only if some are left. *)
Theorem wakeup_picks n l waiting :
  repr (l_waiters l) (l_locks l) waiting -> list_locked (l_state l) = false ->
  (forall x, x ∈ waiting -> lstate_of (l_locks l) x = Waiting /\ sema_of (l_locks l) x = 0) ->
  (waiting <> [] -> Z.testbit (l_state l) 31 = true) -> (length waiting < n)%nat ->
  exists l', wakeup n l = (Ok tt, l') /\
    repr (l_waiters l') (l_locks l') (rest_of (l_locks l) waiting) /\
    (forall y, 0 <= y ->
      let up := bool_decide (y ∈ woken_of (l_locks l) waiting) in
      lstate_of (l_locks l') y = (if up then NotWaiting else lstate_of (l_locks l) y) /\
      sema_of (l_locks l') y = (if up then 1 else sema_of (l_locks l) y)) /\
    count (l_state l') = count (l_state l) /\ list_locked (l_state l') = false /\
    Z.testbit (l_state l') 30 = false /\
    Z.testbit (l_state l') 31 = negb (bool_decide (rest_of (l_locks l) waiting = [])).
Proof.
  intros Hr Hll Hst Hf Hn. set (l1 := set_state (Z.lor (l_state l) ListLocked) l).
  destruct (wakeup_collect_ok n l1 waiting Hr) as (k & l2 & Hc & Hs2 & Hl2 & Ht2); [by apply Hst | | done |].
  { intros Hne. unfold HasWaiters. rewrite has_bit by lia. unfold l1, ListLocked. cbn [l_state set_state]. rewrite lor_bit by lia. auto. }
  cbn [l1 set_state l_locks] in Hl2, Ht2.
  set (l3 := set_state (wakeup_desired (IsEmpty (l_waiters l2)) (l_state l2)) l2).
  destruct (begin_ok k (l_locks l3) _ (proj1 (proj2 Hl2))) as (it & Hb & Hit).
  assert (Hsub : forall x, x ∈ woken_of (l_locks l) waiting -> x ∈ waiting /\ 0 <= x).
  { intros x Hx. assert (Hw : x ∈ waiting).
    { destruct waiting as [|y r]; [done|]. cbn [woken_of] in Hx. case_decide; [set_solver|]. by apply list_elem_of_filter in Hx as [_ ?]. }
    split; [done|]. destruct Hr as [_ _ Hsg _]. destruct (seg_node _ _ _ _ x Hsg Hw) as [m Hm]. by eapply node_nonneg. }
  assert (Hsem : forall y, sema_of (l_locks l2) y = sema_of (l_locks l) y).
  { intros y. apply sema_frame. pose proof (frames_wakeup_collect n l1) as F. by rewrite Hc in F. }
  assert (Hlen : (length (woken_of (l_locks l) waiting) < n)%nat).
  { destruct waiting as [|y r]; [done|]. cbn [woken_of]. eapply Nat.le_lt_trans; [|exact Hn]. case_decide; [cbn; lia | apply length_filter]. }
  destruct (notify_ok _ n it k l3 (rest_of (l_locks l) waiting) Hlen Hit Hl2) as (l4 & Hno & Hr4 & Hs4 & Hw4 & T4 & U4).
  { intros x Hx. cbn [l3 set_state l_locks]. rewrite Hsem. by apply Hst, Hsub. }
  exists l4. split; [|split; [done|split]].
  - unfold wakeup. erewrite M_bind_Ok by (by apply wait_list_lock_ok). erewrite M_bind_Ok by exact Hc.
    unfold load. erewrite M_bind_Ok by reflexivity. erewrite M_bind_Ok by (apply wakeup_release_ok; lia).
    rewrite (M_bind_Ok _ _ _ it l3); [exact Hno|]. unfold on_locks. fold l3. rewrite Hb. done.
  - intros y Hy. cbn zeta. rewrite T4, U4 by done. cbn [l3 set_state l_locks]. rewrite Hsem, Ht2 by done. by do 2 case_bool_decide || case_decide.
  - rewrite Hs4. unfold l3. cbn [set_state l_state]. rewrite Hs2. unfold l1. cbn [set_state l_state].
    destruct (wakeup_word (IsEmpty (l_waiters l2)) (Z.lor (l_state l) ListLocked)) as [-> ->].
    destruct (fetch_or_word (l_state l) 29) as [Hcw _]; [lia|]. split; [exact Hcw|]. split; [done|].
    rewrite !desired_bits by lia. cbn [Z.eqb]. rewrite andb_false_r. split; [done|].
    unfold ListLocked. rewrite lor_bit, andb_true_r by lia. rewrite (IsEmpty_ok _ _ _ (proj1 Hl2)).
    destruct (rest_of (l_locks l) waiting) as [|z r'] eqn:E; [by rewrite andb_false_r|].
    cbn [negb]. rewrite andb_true_r. apply Hf. intros ->. done.
Qed.
End wakeup.

(** ** The list of waiters against a list of ids *)
Section lists.
Context `{Build}.
Implicit Type ws : list WorkerLock.

Inductive list_op := Push (id : Z) | Del (id : Z).

Definition run_op (op : list_op) (h : LockListHead) : M (list WorkerLock) LockListHead :=
  match op with Push id => PushTail h id | Del id => Delete h id end.

Fixpoint run_ops (ops : list list_op) (h : LockListHead) : M (list WorkerLock) LockListHead :=
  match ops with [] => mret h | op :: ops => h ← run_op op h; run_ops ops h end.

(** The loop over the list that [wakeup] makes, with an empty body. *)
Fixpoint walk (fuel : nat) (it : LockListIterator) : M (list WorkerLock) (list Z) :=
  match fuel with
  | O => throw NoFuel
  | S k => if at_end it then mret [] else it' ← it_incr it; r ← walk k it'; mret (Current it :: r)
  end.
Definition ids (fuel : nat) (h : LockListHead) : M (list WorkerLock) (list Z) := it ← begin h; walk fuel it.

(** What the operations mean, and when they may be used: a worker is pushed when it is not in
    the list, and deleted when it is. *)
Definition spec_op (op : list_op) (l : list Z) : list Z :=
  match op with Push id => l ++ [id] | Del id => filter (fun x => x <> id) l end.
Definition allowed (count : nat) (op : list_op) (l : list Z) : Prop :=
  match op with Push id => 0 <= id < Z.of_nat count /\ id ∉ l | Del id => id ∈ l end.
Fixpoint all_allowed (count : nat) (ops : list list_op) (l : list Z) : Prop :=
  match ops with [] => True | op :: ops => allowed count op l /\ all_allowed count ops (spec_op op l) end.

Lemma filter_without (l1 l2 : list Z) id :
  NoDup (l1 ++ id :: l2) -> filter (fun x => x <> id) (l1 ++ id :: l2) = l1 ++ l2.
Proof.
  intros (_ & Hd & Hn)%NoDup_app. apply NoDup_cons in Hn as [Hn _].
  assert (Hid : forall l : list Z, id ∉ l -> filter (fun x => x <> id) l = l).
  { induction l as [|x l IH]; intros Hx; [done|]. rewrite filter_cons_True by set_solver. f_equal. apply IH. set_solver. }
  rewrite filter_app, filter_cons_False by (intros Hne; done). rewrite !Hid; [done | done |].
  intros Hin. apply (Hd id Hin). set_solver.
Qed.

Lemma run_op_ok op h ws l :
  repr h ws l -> allowed (length ws) op l ->
  exists h' ws', run_op op h ws = (Ok h', ws') /\ repr h' ws' (spec_op op l) /\
    length ws' = length ws /\ map strip ws' = map strip ws.
Proof.
  intros Hr Ha. destruct op as [id|id]; cbn [run_op spec_op allowed] in *.
  - destruct Ha as [Hid Hn]. destruct (lookup_lt_is_Some_2 ws (Z.to_nat id)) as [w Hw]; [lia|].
    destruct (PushTail_ok h ws l id (lockNode w) Hr) as (h' & ws' & Hp & Hr' & Ho); [split; [lia|eauto] | done |].
    exists h', ws'. split; [done|]. split; [done|]. split; apply Ho.
  - apply list_elem_of_split in Ha as (l1 & l2 & ->).
    destruct (Delete_ok h ws l1 id l2 Hr) as (h' & ws' & Hp & Hr' & Ho & _).
    exists h', ws'. split; [done|]. rewrite filter_without by apply Hr. split; [done|]. split; apply Ho.
Qed.

Lemma walk_ok n l it h ws kept :
  (length l < n)%nat -> repr h ws (kept ++ l) -> it_at it l -> walk n it ws = (Ok l, ws).
Proof.
  revert n it kept. induction l as [|x l IH]; intros n it kept Hn Hr Hit; (destruct n as [|n]; [cbn in Hn; lia|]); cbn [walk].
  - by rewrite (it_at_end it []) by (done || set_solver).
  - cbn [length] in Hn. assert (Hcur : Current it = x) by apply Hit.
    assert (Hv : x <> WorkerId.Invalid) by (destruct Hr as [_ _ Hs _]; eapply seg_valid; [exact Hs | set_solver]).
    unfold at_end. rewrite Hcur, eqb_Invalid by done.
    rewrite (app_assoc kept [x] l : kept ++ x :: l = _) in Hr.
    destruct (it_incr_ok ws it x l Hit (next_node h ws (kept ++ [x]) l Hr)) as (it' & Hi & Hat).
    erewrite M_bind_Ok by exact Hi. erewrite M_bind_Ok; [done|]. apply (IH n it' (kept ++ [x])); [lia | done | done].
Qed.

(** C12: Any sequence of pushes and deletions on the list of waiters, where a worker is
    pushed when it is not in the list and deleted when it is, runs without a failed
    assertion and means the same on the list of ids: the iterator then yields these ids in
    order, the list is empty exactly when there are none, and nothing but the nodes of the
    workers is changed. *)
Theorem lock_list_refines ops ws count :
  length ws = count -> all_allowed count ops [] ->
  exists h ws', run_ops ops emptyHead ws = (Ok h, ws') /\
    let l := fold_left (fun l op => spec_op op l) ops [] in
    (forall n, (length l < n)%nat -> ids n h ws' = (Ok l, ws')) /\
    IsEmpty h = bool_decide (l = []) /\ map strip ws' = map strip ws.
Proof.
  intros <-. enough (Hgen : forall h l, repr h ws l -> all_allowed (length ws) ops l ->
    exists h' ws', run_ops ops h ws = (Ok h', ws') /\ repr h' ws' (fold_left (fun l op => spec_op op l) ops l) /\
      map strip ws' = map strip ws).
  { intros Ha. destruct (Hgen emptyHead [] (repr_empty ws) Ha) as (h & ws' & Hrun & Hr & Hs).
    exists h, ws'. split; [done|]. cbn zeta. split; [|split; [|done]].
    - intros n Hn. unfold ids. destruct (begin_ok _ _ _ Hr) as (it & Hb & Hit). erewrite M_bind_Ok by exact Hb.
      by apply (walk_ok n _ it h ws' []).
    - rewrite (IsEmpty_ok _ _ _ Hr). by destruct (fold_left _ _ _). }
  revert ws. induction ops as [|op ops IH]; intros ws h l Hr Ha.
  - exists h, ws. done.
  - destruct Ha as [Ha Hall]. destruct (run_op_ok op h ws l Hr Ha) as (h1 & ws1 & Hop & Hr1 & Hlen & Hs1).
    rewrite <-Hlen in Hall. destruct (IH ws1 h1 _ Hr1 Hall) as (h' & ws' & Hrun & Hr' & Hs').
    exists h', ws'. split; [|split; [done | congruence]]. cbn [run_ops]. by erewrite M_bind_Ok by exact Hop.
Qed.
End lists.

(** ** All interleavings *)
Section safety.
Context `{Build}.

(** C5: In every reachable state at most one worker holds the latch, in whatever mode; the
    word counts exactly the holder (its mode's value, or zero when nobody holds the latch),
    and a worker that holds it can release it without a failed assertion, which leaves the
    count at zero. Two workers never share it, also when both asked for the shared mode. *)
Theorem latch_mutual_exclusion c :
  reachable c ->
  (forall w w' m m', holds (pc_of c w) = Some m -> holds (pc_of c w') = Some m' -> w = w' /\ m = m') /\
  (count (l_state (latch c)) = 0 <-> forall w, holds (pc_of c w) = None) /\
  (forall w m, pc_of c w = Held m ->
    count (l_state (latch c)) = lock_value m /\
    exists wake l', release m (latch c) = (Ok wake, l') /\ count (l_state l') = 0).
Proof.
  intros [Ic Ih If _ _]%reachable_inv. split; [|split; [split; [|exact If]|]].
  - intros w w' m m' Hw Hw'. assert (w = w') as <- by (by eapply Ih). split; [done | congruence].
  - intros Hc w. destruct (holds (pc_of c w)) as [m|] eqn:E; [|done]. pose proof (Ic w m E). pose proof (lock_value_range m). lia.
  - intros w m Hw. assert (Hc : count (l_state (latch c)) = lock_value m) by (apply (Ic w); by rewrite Hw).
    split; [done|]. assert (Hr : exists wake l', release m (latch c) = (Ok wake, l')).
    { unfold release, fetch_sub, mbind, M_bind, mret, M_ret, lift. destruct m; [by do 2 eexists|].
      rewrite assert_Ok; [by do 2 eexists|]. unfold ExclusiveLockValue. rewrite has_bit by lia.
      unfold count in Hc. change (lock_value Exclusive) with (2 ^ 28) in Hc.
      rewrite <-(Z.mod_pow2_bits_low _ 29) by lia. by rewrite Hc. }
    destruct Hr as (wake & l' & Hr). exists wake, l'. split; [done|]. by eapply (release_inv m _ wake l').
Qed.

(** C30: In every reachable state at most one worker is inside the part of [queueSelf],
    [dequeueSelf] or [wakeup] that changes the list of waiters, and no other worker can enter
    such a part; when it leaves, the assertion of [wait_list_unlock] holds. *)
Theorem latch_list_exclusion c w :
  reachable c -> in_list (pc_of c w) = true ->
  (forall w', in_list (pc_of c w') = true -> w' = w) /\
  (wait_list_lock (latch c)).1 = Fault (Blocked "waiters list") /\
  exists l', wait_list_unlock (latch c) = (Ok tt, l') /\ count (l_state l') = count (l_state (latch c)) /\
    list_locked (l_state l') = false.
Proof.
  intros [_ _ _ Il Io]%reachable_inv Hin. pose proof (Il w Hin) as Hl. split; [|split].
  - intros w' Hw'. by apply (Io w' w).
  - unfold wait_list_lock, try_list_lock, fetch_or, mbind, M_bind, mret, M_ret. cbn. by rewrite has_list, Hl.
  - destruct (wait_list_unlock (latch c)) as [r l'] eqn:E.
    destruct (wait_list_unlock_inv _ _ _ E) as [Hc Hr]. exists l'. rewrite Hr by done. split; [done|]. split; [done|].
    unfold wait_list_unlock, fetch_and_not, mbind, M_bind, lift in E. apply pair_equal_spec in E as [_ <-]. cbn [l_state set_state].
    change (2 ^ 32 - 1 - ListLocked) with (2 ^ 32 - 1 - 2 ^ 29). destruct (fetch_and_word (l_state (latch c)) 29) as [_ ->]; [lia|].
    by rewrite andb_false_r.
Qed.

(** *** Running a schedule *)

Definition got {A} (r : result A * LWLatch) (k : A -> pc) : option (pc * LWLatch) :=
  match r with (Ok a, l) => Some (k a, l) | _ => None end.

(** The next part of a worker; the mode is used when it calls [Lock]. *)
Definition next (me : Z) (mode : LockMode) (p : pc) (l : LWLatch) : option (pc * LWLatch) :=
  match p with
  | Outside => Some (Try mode false 0, l)
  | Try m a e => got (load l) (Cas m a e)
  | Cas m a e old => got (compare_exchange old (desired_of m old) l) (fun '(ok, old') =>
      if ok : bool then
        if lock_free old then (if a then Dequeue1 m e else Got m e) else (if a then Wait m e else Queue1 m e)
      else Cas m a e old')
  | Queue1 m e => got (wait_list_lock l) (fun _ => Queue2 m e)
  | Queue2 m e => got (fetch_or HasWaiters l) (fun _ => Queue3 m e)
  | Queue3 m e => got (enqueue me m l) (fun _ => Queue4 m e)
  | Queue4 m e => got (wait_list_unlock l) (fun _ => Try m true e)
  | Wait m e => got (wait_once me l) (fun woken => if woken : bool then Reopen m e else Wait m (e + 1))
  | Reopen m e => got (fetch_or UnlockWaiter l) (fun _ => Try m false e)
  | Dequeue1 m e => got (wait_list_lock l) (fun _ => Dequeue2 m e)
  | Dequeue2 m e => got (dequeue_list me l) (fun b => Dequeue3 m b e)
  | Dequeue3 m b e => got (clear_has_waiters l) (fun _ => Dequeue4 m b e)
  | Dequeue4 m b e => got (wait_list_unlock l) (fun _ => if b then Dequeue5 m e else Absorb1 m e)
  | Dequeue5 m e => got (on_locks (put me (SetLockState NotWaiting)) l) (fun _ => Got m e)
  | Absorb1 m e => got (fetch_or UnlockWaiter l) (fun _ => Absorb2 m e 0)
  | Absorb2 m e k => got (wait_once me l) (fun woken => if woken : bool then Absorb3 m e k else Absorb2 m e (k + 1))
  | Absorb3 m e k => got (return_waits me k l) (fun _ => Got m e)
  | Got m e => got (return_waits me e l) (fun _ => Held m)
  | Held m => got (release m l) Released
  | Released wake => got (check_released l) (fun _ => if wake then Wake1 else Outside)
  | Wake1 => got (wait_list_lock l) (fun _ => Wake2)
  | Wake2 => got (wakeup_collect 100 l) Wake3
  | Wake3 k => got (load l) (Wake4 k)
  | Wake4 k old => got (wakeup_exchange old l) (fun '(ok, old') => if ok : bool then Wake5 k else Wake4 k old')
  | Wake5 k => got (on_locks (begin k) l) (fun it => Notify it k)
  | Notify it k =>
      if at_end it then Some (Outside, l) else got (notify_one k (Current it) l) (fun k' => NotifyNext it k')
  | NotifyNext it k => got (on_locks (it_incr it) l) (fun it' => Notify it' k)
  end.

Lemma got_inv {A} (r : result A * LWLatch) (k : A -> pc) p l :
  got r k = Some (p, l) -> exists a, r = (Ok a, l) /\ p = k a.
Proof. destruct r as [[a|e] l']; intros [= <- <-]; eauto. Qed.

Lemma next_step me m p l p' l' : next me m p l = Some (p', l') -> part_step me p l p' l'.
Proof.
  destruct p; cbn [next]; try (intros (x & E & ->)%got_inv);
    try match type of x with unit => destruct x end; try solve [econstructor; eassumption].
  - intros [= <- <-]. constructor.
  - destruct x as [b x]. destruct b; [|eapply step_cas_retry; exact E]. destruct (lock_free old) eqn:Hf.
    + destruct again; [eapply step_cas_got_again; [exact E | exact Hf] | eapply step_cas_got; [exact E | exact Hf]].
    + eapply step_cas_failed; [exact E | exact Hf].
  - destruct x as [b x]. exact (step_wake4 me woken old b x l l' E).
  - destruct (at_end it) eqn:Hend; [intros [= <- <-]; by constructor|].
    intros (k & E & ->)%got_inv. eapply step_notify; [exact Hend | exact E].
Qed.

Definition sched_step (s : Z * LockMode) (c : config) : option config :=
  '(p, l) ← next s.1 s.2 (pc_of c s.1) (latch c);
  Some (mkConfig l (<[s.1 := p]> (pcs c))).
Fixpoint sched (ss : list (Z * LockMode)) (c : config) : option config :=
  match ss with [] => Some c | s :: ss => c' ← sched_step s c; sched ss c' end.

Lemma sched_reachable n ss c : sched ss (start n) = Some c -> reachable c.
Proof.
  intros Hs. exists n. revert Hs. generalize (start n). induction ss as [|s ss IH]; intros c0; cbn [sched].
  - by intros [= <-].
  - destruct (sched_step s c0) as [c1|] eqn:E; [|done]. cbn. intros Hs. eapply rtc_l; [|by apply IH].
    unfold sched_step in E. destruct (next s.1 s.2 (pc_of c0 s.1) (latch c0)) as [[p l]|] eqn:En; [|done].
    cbn in E. injection E as <-. exists s.1, p, l. split; [by eapply next_step | done].
Qed.
End safety.

(** Worker 0 holds the latch, worker 1 queues itself, fails to get the latch again and is
    about to wait; worker 0 releases it and wakes up worker 1. *)
Definition wake_before_wait : list (Z * LockMode) :=
  replicate 4 (0, Exclusive) ++ replicate 9 (1, Exclusive) ++ replicate 7 (0, Exclusive).

(** Worker 0 has subtracted its lock, then worker 1 takes the latch. *)
Definition take_before_check : list (Z * LockMode) :=
  replicate 5 (0, Exclusive) ++ replicate 3 (1, Exclusive).

Section executions.
Context `{Build}.

(** There is an execution of two workers in which [wakeup] releases the semaphore of a
    waiter beyond its maximum, which is undefined: the semaphore starts at one, so it is
    only free of this when the waiter has consumed that one before it is woken up. *)
Theorem latch_semaphore_overflows :
  exists c k, reachable c /\ pc_of c 0 = Notify (mkIt 1 (-1)) k /\ pc_of c 1 = Wait Exclusive 0 /\
    (notify_one k 1 (latch c)).1 = Fault (UB "std::binary_semaphore::release beyond max()").
Proof.
  destruct (sched wake_before_wait (start 2)) as [c|] eqn:E.
  2: { exfalso. revert E. destruct H as [[]]; vm_compute; discriminate. }
  exists c, (mkHead 1 1). split; [by eapply sched_reachable|].
  destruct H as [[]]; vm_compute in E; injection E as <-; done.
Qed.

(** [Unlock] reads the word again after it has released the latch. There is an execution
    in which another worker has taken the latch in between: the assertion of [Unlock] fails
    and aborts the server in a debug build. *)
Theorem latch_unlock_assertion_fails :
  asserts_on = true ->
  exists c, reachable c /\ pc_of c 0 = Released false /\ holds (pc_of c 1) = Some Exclusive /\
    (check_released (latch c)).1 = Fault (Abort "(_state.load() & ExclusiveLockValue) == 0").
Proof.
  intros Ha. destruct (sched take_before_check (start 2)) as [c|] eqn:E.
  2: { exfalso. revert E. destruct H as [[]]; vm_compute; discriminate. }
  exists c. split; [by eapply sched_reachable|]. destruct H as [a]. cbn in Ha. subst a.
  vm_compute in E. injection E as <-. done.
Qed.
End executions.

(** ** Witnesses *)
Definition ex_locks : list WorkerLock :=
  [mkLock 0 Waiting Share (mkNode 1 (-1)); mkLock 0 Waiting Exclusive (mkNode 2 0); mkLock 0 Waiting Share (mkNode (-1) 1)].
Definition ex_latch : LWLatch := mkLatch (UnlockWaiter + HasWaiters + 1) (mkHead 0 2) ex_locks.

Lemma ex_repr : repr (l_waiters ex_latch) (l_locks ex_latch) [0; 1; 2].
Proof.
  split; [done | done | | by repeat (apply NoDup_cons; split; [set_solver|]); constructor].
  cbn [seg]. repeat split; try lia; by eexists.
Defined.

Lemma wakeup_picks_witness :
  exists l', wakeup (H := DebugBuild) 10 ex_latch = (Ok tt, l') /\ repr (l_waiters l') (l_locks l') [1] /\
    count (l_state l') = 1 /\ Z.testbit (l_state l') 31 = true.
Proof.
  destruct (wakeup_picks (H := DebugBuild) 10 ex_latch [0; 1; 2] ex_repr eq_refl) as (l' & Hw & Hr & _ & Hc & _ & _ & Hf).
  - intros x Hx. repeat (apply elem_of_cons in Hx as [->|Hx]; [done|]). by apply elem_of_nil in Hx.
  - done.
  - cbn; lia.
  - exists l'. split; [exact Hw|]. split; [exact Hr|]. split; [rewrite Hc; vm_compute; reflexivity | rewrite Hf; reflexivity].
Defined.

Lemma lock_list_refines_witness :
  exists h ws', run_ops (H := DebugBuild) [Push 2; Push 0; Push 1; Del 0] emptyHead (replicate 3 newWorkerLock) = (Ok h, ws') /\
    ids (H := DebugBuild) 3 h ws' = (Ok [2; 1], ws').
Proof.
  destruct (lock_list_refines (H := DebugBuild) [Push 2; Push 0; Push 1; Del 0] (replicate 3 newWorkerLock) 3 eq_refl)
    as (h & ws' & Hr & Hi & _).
  - cbn. repeat split; try lia; set_solver.
  - exists h, ws'. split; [exact Hr|]. apply Hi. vm_compute. lia.
Defined.

Lemma latch_mutual_exclusion_witness :
  exists c, reachable (H := DebugBuild) c /\ pc_of c 0 = Held Share /\ count (l_state (latch c)) = 1.
Proof.
  destruct (sched (H := DebugBuild) (replicate 4 (0, Share)) (start 2)) as [c|] eqn:E; [|vm_compute in E; discriminate].
  assert (Hr : reachable (H := DebugBuild) c) by exact (sched_reachable (H := DebugBuild) 2 _ c E).
  assert (Hp : pc_of c 0 = Held Share) by (vm_compute in E; injection E as <-; reflexivity).
  exists c. split; [exact Hr|]. split; [exact Hp|].
  exact (proj1 (proj2 (proj2 (latch_mutual_exclusion (H := DebugBuild) c Hr)) 0 Share Hp)).
Defined.

Lemma latch_list_exclusion_witness :
  exists c, reachable (H := DebugBuild) c /\ pc_of c 1 = Queue4 Exclusive 0 /\
    exists l', wait_list_unlock (H := DebugBuild) (latch c) = (Ok tt, l').
Proof.
  destruct (sched (H := DebugBuild) (replicate 4 (0, Exclusive) ++ replicate 6 (1, Exclusive)) (start 2)) as [c|] eqn:E;
    [|vm_compute in E; discriminate].
  assert (Hr : reachable (H := DebugBuild) c) by exact (sched_reachable (H := DebugBuild) 2 _ c E).
  assert (Hp : pc_of c 1 = Queue4 Exclusive 0) by (vm_compute in E; injection E as <-; reflexivity).
  exists c. split; [exact Hr|]. split; [exact Hp|].
  destruct (latch_list_exclusion (H := DebugBuild) c 1 Hr) as (_ & _ & l' & Hl & _); [rewrite Hp; reflexivity|].
  exists l'. exact Hl.
Defined.

Lemma latch_unlock_assertion_fails_witness :
  exists c, reachable (H := DebugBuild) c /\
    (check_released (H := DebugBuild) (latch c)).1 = Fault (Abort "(_state.load() & ExclusiveLockValue) == 0").
Proof.
  destruct (latch_unlock_assertion_fails (H := DebugBuild) eq_refl) as (c & Hr & _ & _ & Hf).
  exists c. split; [exact Hr | exact Hf].
Defined.
