(* ===== verification/Spin.v ===== *)
(** The locks of [lock/SpinLock.cpp] and [lock/Semaphore.cpp], and the workers that use them: each lock is a step
    relation on its shared word and the place of every worker in the code. The program has no use of these two
    classes today. *)
From stdpp Require Import relations functions.
From S2P Require Import Prelude.

(** ** [SpinLock] *)
Module SpinLock.
(** The shared word and the workers, any number of them. Where a worker is: [Testing] before [test_and_set], [Waiting] before the comparison of [wait], [Asleep] in it, [Inside]
    between [Lock] and [Unlock], and [Notifying] before [notify_one]. *)
Inductive pc := Outside | Testing | Waiting | Asleep | Inside | Notifying.

Record t := mk { _value : bool; workers : nat -> pc }.

Definition init : t := mk false (fun _ => Outside).

(** [std::atomic_flag]: the old value and the new one. *)
Definition test_and_set (value : bool) : bool * bool := (value, true).

(** One access of [Lock]: the new value, and where the worker is then. *)
Definition Lock (value : bool) (at_ : pc) : option (bool * pc) :=
  match at_ with
  | Outside => Some (value, Testing)
  | Testing => let '(old, value) := test_and_set value in Some (value, if old then Waiting else Inside)
  | Waiting => Some (value, if value then Asleep else Testing)
  | _ => None
  end.

Definition TryLock (value : bool) (at_ : pc) : option (bool * pc) :=
  match at_ with
  | Outside => let '(old, value) := test_and_set value in Some (value, if old then Outside else Inside)
  | _ => None
  end.

(** The first access of [Unlock]; the second is [notify_one]. *)
Definition Unlock (value : bool) (at_ : pc) : option (bool * pc) :=
  match at_ with Inside => Some (false, Notifying) | _ => None end.

(** One step of the worker [i]. [notify_one] wakes up any one of the workers that sleep, which compares again. *)
Inductive step : t -> t -> Prop :=
| step_access i value ws value' at' :
    Lock value (ws i) = Some (value', at') \/ TryLock value (ws i) = Some (value', at') \/ Unlock value (ws i) = Some (value', at') ->
    step (mk value ws) (mk value' (<[i := at']> ws))
| step_notify i j value ws :
    ws i = Notifying -> ws j = Asleep -> step (mk value ws) (mk value (<[j := Waiting]> (<[i := Outside]> ws)))
| step_notify_none i value ws :
    ws i = Notifying -> (forall j, ws j <> Asleep) -> step (mk value ws) (mk value (<[i := Outside]> ws)).

(** The flag is set exactly while a worker is inside, and only one is. *)
Definition exclusive (s : t) : Prop :=
  (forall i j, workers s i = Inside -> workers s j = Inside -> i = j) /\
  (_value s = true <-> exists i, workers s i = Inside).

(** Who sleeps does so while the flag is set, or another worker is on its way to the flag or about to notify. *)
Definition awake (p : pc) : Prop := p = Testing \/ p = Waiting \/ p = Notifying.
Definition attended (s : t) : Prop :=
  (exists j, workers s j = Asleep) -> _value s = true \/ exists i, awake (workers s i).

(** The place of a worker after an access, by its place before. *)
Lemma access_cases value p value' p' :
  Lock value p = Some (value', p') \/ TryLock value p = Some (value', p') \/ Unlock value p = Some (value', p') ->
  (value' = value /\ p <> Inside /\ p' <> Inside /\ (awake p' \/ p' = Outside /\ p = Outside \/ p' = Asleep /\ value = true)) \/
  (value = false /\ value' = true /\ p' = Inside /\ p <> Inside) \/ (p = Inside /\ p' = Notifying /\ value' = false).
Proof. unfold awake. destruct p, value; cbn; intros [E | [E | E]]; simplify_eq; naive_solver. Qed.

Ltac at_worker := repeat match goal with
  | |- context [(<[?i := _]> _) ?j] => destruct (decide (i = j)) as [<-|]; [rewrite fn_lookup_insert | rewrite fn_lookup_insert_ne by done]
  | H : context [(<[?i := _]> _) ?j] |- _ => destruct (decide (i = j)) as [<-|]; [rewrite fn_lookup_insert in H | rewrite fn_lookup_insert_ne in H by done]
  end.

Lemma insert_inside (ws : nat -> pc) i p j : ws i <> Inside -> p <> Inside -> (<[i := p]> ws) j = Inside <-> ws j = Inside.
Proof. intros Hi Hp. at_worker; naive_solver. Qed.

Lemma exclusive_same value (ws : nat -> pc) i p : ws i <> Inside -> p <> Inside -> exclusive (mk value ws) -> exclusive (mk value (<[i := p]> ws)).
Proof.
  intros Hi Hp [Hone Hflag]. unfold exclusive in *. cbn [_value workers] in *. setoid_rewrite insert_inside; [|done..]. done.
Qed.

Lemma spin_exclusive s s' : step s s' -> exclusive s -> exclusive s'.
Proof.
  intros [i value ws value' p' Hacc | i j value ws Hi Hj | i value ws Hi Ha] He.
  - destruct (access_cases _ _ _ _ Hacc) as [(-> & Hp & Hp' & _) | [(-> & -> & -> & Hp) | (Hp & -> & ->)]]; [by apply exclusive_same| |];
      destruct He as [Hone Hflag]; unfold exclusive; cbn [_value workers] in *.
    + assert (Hno : forall k, ws k <> Inside) by (intros k Hk; by discriminate (proj2 Hflag (ex_intro _ k Hk))).
      split; [intros k l Hk Hl; at_worker; naive_solver | split; [|done]]. intros _. exists i. by rewrite fn_lookup_insert.
    + assert (Hno : forall k, (<[i := Notifying]> ws) k <> Inside) by (intros k Hk; at_worker; naive_solver).
      split; [naive_solver | split; [done | naive_solver]].
  - apply exclusive_same; [|done|apply exclusive_same; [congruence|done|done]]. at_worker; congruence.
  - apply exclusive_same; [congruence|done|done].
Qed.

Lemma step_attended s s' : step s s' -> attended s -> attended s'.
Proof.
  intros [i value ws value' p' Hacc | i j value ws Hi Hj | i value ws Hi Ha] He; unfold attended in *; cbn [_value workers] in *.
  - destruct (access_cases _ _ _ _ Hacc) as [(-> & Hp & Hp' & [Haw | [[-> Hp2] | [-> ->]]]) | [(-> & -> & -> & Hp) | (Hp & -> & ->)]].
    + intros _. right. exists i. by rewrite fn_lookup_insert.
    + intros [k Hk]. destruct He as [He | [l Hl]]; [exists k; at_worker; congruence | by left |]. right. exists l.
      clear Hk. at_worker; [|done]. rewrite Hp2 in Hl. unfold awake in Hl. naive_solver.
    + by left.
    + by left.
    + intros _. right. exists i. rewrite fn_lookup_insert. unfold awake. naive_solver.
  - intros _. right. exists j. rewrite fn_lookup_insert. unfold awake. naive_solver.
  - intros [k Hk]. at_worker; [done|]. by destruct (Ha k).
Qed.

(** In every interleaving at most one worker is inside, the flag tells whether one is, and no wake-up is
    lost: while workers sleep and nobody is inside, another one is on its way to the flag or about to notify. *)
Theorem spin_lock_safe s : rtc step init s -> exclusive s /\ attended s.
Proof.
  assert (Hinv : forall s s', step s s' -> exclusive s /\ attended s -> exclusive s' /\ attended s').
  { intros t t' Ht [He Ha]. split; [by eapply spin_exclusive | by eapply step_attended]. }
  intros Hr. refine (rtc_ind_r (fun s => exclusive s /\ attended s) init _ _ s Hr); [|eauto].
  split; [split; [done | split; [done | by intros [i Hi]]] | by intros [i Hi]].
Qed.
End SpinLock.

(** ** [Semaphore] *)
Module Semaphore.
(** [std::counting_semaphore<1>]: the count, and for each worker whether it is between [Lock] and [Unlock]. *)
Record t := mk { _sema : Z; held : nat -> bool }.
Definition least_max : Z := 1.

Definition init : t := mk 1 (fun _ => false).

(** [acquire] blocks at 0; [release] beyond the maximum is undefined. *)
Definition Lock (sema : Z) : result Z := if 0 <? sema then Ok (sema - 1) else Fault (Blocked "acquire").
Definition Unlock (sema : Z) : result Z := if sema <? least_max then Ok (sema + 1) else Fault (UB "release beyond the maximum").

Inductive step : t -> t -> Prop :=
| step_lock i sema h sema' : h i = false -> Lock sema = Ok sema' -> step (mk sema h) (mk sema' (<[i := true]> h))
| step_unlock i sema h sema' : h i = true -> Unlock sema = Ok sema' -> step (mk sema h) (mk sema' (<[i := false]> h)).

Definition exclusive (s : t) : Prop :=
  (_sema s = 1 /\ forall i, held s i = false) \/ (_sema s = 0 /\ exists i, held s i = true /\ forall j, held s j = true -> j = i).

Lemma semaphore_exclusive s s' : step s s' -> exclusive s -> exclusive s'.
Proof.
  intros [i sema h sema' Hi E | i sema h sema' Hi E] He; unfold exclusive in *; cbn [_sema held] in *;
    destruct He as [[-> Hno] | [-> (k & Hk & Hone)]]; cbn in E; simplify_eq.
  - right. split; [done|]. exists i. rewrite fn_lookup_insert. split; [done|]. intros j Hj. SpinLock.at_worker; [done|]. by rewrite Hno in Hj.
  - left. split; [done|]. intros j. cbn. SpinLock.at_worker; [done|]. destruct (h j) eqn:Hj; [|done]. pose proof (Hone i Hi). pose proof (Hone j Hj). congruence.
Qed.

(** A semaphore that each worker releases after it has acquired it is a mutex, and never goes beyond its maximum. *)
Theorem semaphore_safe s : rtc step init s -> exclusive s /\ forall i, held s i = true -> exists sema, Unlock (_sema s) = Ok sema.
Proof.
  intros Hr. assert (He : exclusive s).
  { refine (rtc_ind_r exclusive init _ _ s Hr); [by left | intros t t' _ Ht; by apply semaphore_exclusive]. }
  split; [done|]. intros i Hi. destruct He as [[_ Hno] | [-> _]]; [by rewrite Hno in Hi | by eexists].
Qed.
End Semaphore.
