(* ===== verification/Network.v ===== *)
(** [libmimi/src/NetworkReader.cpp] and [libmimi/src/NetworkWriter.cpp]: the cursors over a
    block of bytes that packets are read from and written to. Integers are big-endian. The
    block is the caller's; the bounds checks of the code are separate from the accesses to
    it, so that an access outside of the block is a fault of its own. *)
From S2P Require Import Prelude.

(** A [std::string] is its characters. *)
Notation bytes := (list byte).

Module NetworkWriter.
Record t := mk { buffer : bytes; cursor : Z; pos : Z; max : Z }.

Definition init (buf : bytes) (length : Z) : t := mk buf 0 0 length.

Definition checkBufferSize (delta : Z) : M t unit := fun w =>
  if max w <? wrap 64 (pos w + delta) then (Fault (Throw "could not write past buffer borders"), w)
  else (Ok tt, w).

(** The store through the cursor, and the two advances. *)
Definition store (bs : bytes) : M t unit := fun w =>
  match wr (buffer w) (cursor w) bs with
  | Ok b => (Ok tt, mk b (cursor w + zlen bs) (wrap 64 (pos w + zlen bs)) (max w))
  | Fault e => (Fault e, w)
  end.

Definition WriteUint8 (value : Z) : M t unit := _ ← checkBufferSize 1; store (enc_be 1 value).
Definition WriteInt8 (value : Z) : M t unit := _ ← checkBufferSize 1; store (enc_be 1 value).
Definition WriteUint32 (value : Z) : M t unit := _ ← checkBufferSize 4; store (enc_be 4 value).
Definition WriteInt32 (value : Z) : M t unit := _ ← checkBufferSize 4; store (enc_be 4 (wrap 32 value)).
Definition WriteInt64 (value : Z) : M t unit := _ ← checkBufferSize 8; store (enc_be 8 (wrap 64 value)).
Definition WriteBuffer (bs : bytes) : M t unit := _ ← checkBufferSize (zlen bs); store bs.
Definition WriteString (value : bytes) : M t unit := _ ← WriteUint32 (wrap 32 (zlen value)); WriteBuffer value.
End NetworkWriter.

Module NetworkReader.
Record t := mk { buffer : bytes; cursor : Z; pos : Z; max : Z }.

Definition init (buf : bytes) (length : Z) : t := mk buf 0 0 length.

Definition checkBufferSize (delta : Z) : M t unit := fun r =>
  if max r <? wrap 64 (pos r + delta) then (Fault (Throw "could not read past buffer borders"), r)
  else (Ok tt, r).

(** The load through the cursor, and the two advances. *)
Definition take_bytes (n : Z) : M t bytes := fun r =>
  match rd (buffer r) (cursor r) n with
  | Ok bs => (Ok bs, mk (buffer r) (cursor r + n) (wrap 64 (pos r + n)) (max r))
  | Fault e => (Fault e, r)
  end.

Definition ReadUint8 : M t Z := _ ← checkBufferSize 1; bs ← take_bytes 1; mret (dec_be bs).
Definition ReadInt8 : M t Z := _ ← checkBufferSize 1; bs ← take_bytes 1; mret (swrap 8 (dec_be bs)).
Definition ReadUint32 : M t Z := _ ← checkBufferSize 4; bs ← take_bytes 4; mret (dec_be bs).
Definition ReadInt32 : M t Z := _ ← checkBufferSize 4; bs ← take_bytes 4; mret (swrap 32 (dec_be bs)).
Definition ReadInt64 : M t Z := _ ← checkBufferSize 8; bs ← take_bytes 8; mret (swrap 64 (dec_be bs)).
Definition ReadBuffer (length : Z) : M t bytes := _ ← checkBufferSize length; take_bytes length.
Definition ReadString : M t bytes := len ← ReadUint32; ReadBuffer len.
End NetworkReader.

(** ** Writing *)
Section writer.
Import NetworkWriter.

(** A writer that has written [pre] into a block of [n] zeros. *)
Definition written (pre : bytes) (n : Z) (w : t) : Prop :=
  exists k, 0 <= k /\ n = zlen pre + k /\ n < 2 ^ 63 /\
    w = mk (pre ++ zeros k) (zlen pre) (zlen pre) n.

(** [m] writes exactly [bs], or reports that the block is too small. *)
Definition writes (m : M t unit) (bs : bytes) : Prop :=
  forall pre n w, written pre n w ->
    if zlen pre + zlen bs <=? n then exists w', m w = (Ok tt, w') /\ written (pre ++ bs) n w'
    else (m w).1 = Fault (Throw "could not write past buffer borders").

Lemma written_init n : 0 <= n < 2 ^ 63 -> written [] n (init (zeros n) n).
Proof. intros Hn. exists n. change (zlen (@nil byte)) with 0. split; [lia|]. split; [lia|]. split; [lia | done]. Qed.

Lemma written_full bs w : written bs (zlen bs) w -> buffer w = bs.
Proof. intros (k & Hk & Hn & _ & ->). assert (k = 0) as -> by lia. cbn [buffer]. apply app_nil_r. Qed.

Lemma check_store bs : zlen bs < 2 ^ 63 -> writes (_ ← checkBufferSize (zlen bs); store bs) bs.
Proof.
  intros Hb pre n w (k & Hk & Hn & Hlt & ->). pose proof (zlen_nonneg pre). pose proof (zlen_nonneg bs).
  unfold checkBufferSize, mbind, M_bind. cbn [max pos]. rewrite wrap_small by lia.
  destruct (Z.leb_spec (zlen pre + zlen bs) n) as [Hle|Hgt].
  - rewrite (proj2 (Z.ltb_ge _ _)) by lia. unfold store. cbn [buffer cursor pos max].
    rewrite wr_frontier by lia. eexists. split; [done|]. exists (k - zlen bs).
    rewrite zlen_app, wrap_small by lia. split; [lia|]. split; [lia|]. split; [lia | done].
  - by rewrite (proj2 (Z.ltb_lt _ _)) by lia.
Qed.

Lemma writes_ret : writes (mret tt) [].
Proof.
  intros pre n w Hw. pose proof Hw as (k & Hk & Hn & _ & _). rewrite app_nil_r. change (zlen (@nil byte)) with 0.
  rewrite (proj2 (Z.leb_le _ _)) by lia. eauto.
Qed.

Lemma writes_bind m1 m2 bs1 bs2 :
  writes m1 bs1 -> writes m2 bs2 -> writes (_ ← m1; m2) (bs1 ++ bs2).
Proof.
  intros H1 H2 pre n w Hw. specialize (H1 pre n w Hw). rewrite zlen_app. pose proof (zlen_nonneg bs2).
  destruct (Z.leb_spec (zlen pre + zlen bs1) n) as [Hle|Hgt].
  - destruct H1 as (w1 & E1 & Hw1). specialize (H2 _ n w1 Hw1). rewrite zlen_app in H2. unfold mbind, M_bind.
    rewrite E1. rewrite Z.add_assoc. by rewrite <-app_assoc in H2.
  - rewrite (proj2 (Z.leb_gt _ _)) by lia. unfold mbind, M_bind. destruct (m1 w) as [[[]|e] w']; cbn in *; [done|].
    congruence.
Qed.

Lemma writes_fit m bs pre n w :
  writes m bs -> written pre n w -> zlen pre + zlen bs <= n -> exists w', m w = (Ok tt, w') /\ written (pre ++ bs) n w'.
Proof. intros Hm Hw Hle. specialize (Hm pre n w Hw). by rewrite (proj2 (Z.leb_le _ _)) in Hm by lia. Qed.

Lemma writes_Uint8 v : writes (WriteUint8 v) (enc_be 1 v).
Proof. by apply (check_store (enc_be 1 v)). Qed.
Lemma writes_Uint32 v : writes (WriteUint32 v) (enc_be 4 v).
Proof. by apply (check_store (enc_be 4 v)). Qed.
Lemma writes_Int64 v : writes (WriteInt64 v) (enc_be 8 (wrap 64 v)).
Proof. by apply (check_store (enc_be 8 (wrap 64 v))). Qed.

(** A string is its length and its characters. *)
Definition string_wire (s : bytes) : bytes := enc_be 4 (wrap 32 (zlen s)) ++ s.

Lemma writes_String s : zlen s < 2 ^ 63 -> writes (WriteString s) (string_wire s).
Proof. intros Hs. apply writes_bind; [apply writes_Uint32 | by apply check_store]. Qed.

Lemma writes_mapM {A} (f : A -> M t unit) (g : A -> bytes) l :
  (forall a, a ∈ l -> writes (f a) (g a)) -> writes (mapM_ f l) (concat (map g l)).
Proof.
  induction l as [|a l IH]; intros Hf; [apply writes_ret|]. cbn [mapM_ map concat].
  apply writes_bind; [apply Hf; set_solver | apply IH; set_solver].
Qed.
End writer.

(** ** Reading *)
Section reader.
Import NetworkReader.

(** A reader of the block [buf] that has consumed [n] bytes. *)
Definition reading (buf : bytes) (n : Z) (r : t) : Prop :=
  0 <= n <= zlen buf /\ zlen buf < 2 ^ 63 /\ r = mk buf n n (zlen buf).

Lemma reading_init buf : zlen buf < 2 ^ 63 -> reading buf 0 (init buf (zlen buf)).
Proof. pose proof (zlen_nonneg buf). split; [lia|]. done. Qed.

(** What every read does, on every block: it stays in the block, and either its result is a
    function of the bytes it consumes, that is, the same on every extension of the block, or
    it reports that the block is too short. *)
Definition reads {A} (m : M t A) : Prop := forall buf n r, reading buf n r ->
  (exists a n' r', m r = (Ok a, r') /\ n <= n' /\ reading buf n' r' /\
    (forall ext r2, reading (buf ++ ext) n r2 -> exists r2', m r2 = (Ok a, r2') /\ reading (buf ++ ext) n' r2')) \/
  (m r).1 = Fault (Throw "could not read past buffer borders").

(** [m] reads the value [a] where the block goes on with [bs]. *)
Definition reads_as {A} (m : M t A) (bs : bytes) (a : A) : Prop := forall pre rest r,
  reading (pre ++ bs ++ rest) (zlen pre) r ->
  exists r', m r = (Ok a, r') /\ reading ((pre ++ bs) ++ rest) (zlen (pre ++ bs)) r'.

Lemma check_take n buf k r :
  reading buf k r -> 0 <= n < 2 ^ 63 ->
  (_ ← checkBufferSize n; take_bytes n) r =
    if k + n <=? zlen buf then (Ok (slice k n buf), mk buf (k + n) (k + n) (zlen buf))
    else (Fault (Throw "could not read past buffer borders"), r).
Proof.
  intros (Hk & Hb & ->) Hn. unfold checkBufferSize, mbind, M_bind. cbn [max pos]. rewrite wrap_small by lia.
  destruct (Z.leb_spec (k + n) (zlen buf)) as [Hle|Hgt].
  - rewrite (proj2 (Z.ltb_ge _ _)) by lia. unfold take_bytes. cbn [buffer cursor pos max].
    rewrite rd_Ok by lia. by rewrite wrap_small by lia.
  - by rewrite (proj2 (Z.ltb_lt _ _)) by lia.
Qed.

Lemma reads_buffer n : 0 <= n < 2 ^ 63 -> reads (ReadBuffer n).
Proof.
  intros Hn buf k r Hr. unfold ReadBuffer. rewrite (check_take n buf k r Hr Hn). destruct Hr as (Hk & Hb & ->).
  destruct (Z.leb_spec (k + n) (zlen buf)) as [Hle|Hgt]; [left | by right].
  eexists _, (k + n), _. split; [done|]. split; [lia|]. split; [split; [lia|]; split; [lia | done]|].
  intros ext r2 Hr2. rewrite (check_take n _ k r2 Hr2 Hn). destruct Hr2 as (Hk2 & Hb2 & ->). pose proof (zlen_nonneg ext).
  rewrite zlen_app in *. rewrite (proj2 (Z.leb_le _ _)) by lia. eexists. split.
  - rewrite slice_app_l by lia. reflexivity.
  - split; [rewrite zlen_app; lia|]. split; [rewrite zlen_app; lia|]. by rewrite zlen_app.
Qed.

Lemma reads_ret {A} (a : A) : reads (mret a).
Proof.
  intros buf n r Hr. left. exists a, n, r. split; [done|]. split; [lia|]. split; [done|].
  intros ext r2 Hr2. by exists r2.
Qed.

Lemma reads_bind {A B} (m : M t A) (k : A -> M t B) :
  reads m -> (forall r a r', m r = (Ok a, r') -> reads (k a)) -> reads (mbind k m).
Proof.
  intros Hm Hk buf n r Hr. destruct (Hm buf n r Hr) as [(a & n1 & r1 & E1 & Hn1 & Hr1 & Hx1)|He].
  - destruct (Hk _ _ _ E1 buf n1 r1 Hr1) as [(b & n2 & r2 & E2 & Hn2 & Hr2 & Hx2)|He2].
    + left. exists b, n2, r2. split; [by erewrite M_bind_Ok by exact E1|]. split; [lia|]. split; [done|].
      intros ext s Hs. destruct (Hx1 ext s Hs) as (s1 & F1 & Hs1). destruct (Hx2 ext s1 Hs1) as (s2 & F2 & Hs2).
      exists s2. split; [by erewrite M_bind_Ok by exact F1 | done].
    + right. by erewrite M_bind_Ok by exact E1.
  - right. unfold mbind, M_bind. destruct (m r) as [[a|e] r1]; cbn in *; [done | congruence].
Qed.

Lemma reads_bind_all {A B} (m : M t A) (k : A -> M t B) :
  reads m -> (forall a, reads (k a)) -> reads (mbind k m).
Proof. intros Hm Hk. apply reads_bind; auto. Qed.

Lemma reads_ext {A} (m m' : M t A) : (forall r, m r = m' r) -> reads m -> reads m'.
Proof.
  intros He Hm buf n r Hr. rewrite <-He. destruct (Hm buf n r Hr) as [(a & n' & r' & E & Hn & Hr' & Hx)|?]; [left|by right].
  exists a, n', r'. split_and!; [done..|]. intros ext r2 Hr2. rewrite <-He. by apply Hx.
Qed.

Lemma as_ext {A} (m m' : M t A) bs a : (forall r, m r = m' r) -> reads_as m bs a -> reads_as m' bs a.
Proof. intros He Hm pre rest r Hr. rewrite <-He. by apply Hm. Qed.

(** The fixed-width reads as a read of a block. *)
Lemma number_buffer n (f : bytes -> Z) r :
  (bs ← ReadBuffer n; mret (f bs)) r = (_ ← checkBufferSize n; bs ← take_bytes n; mret (f bs)) r.
Proof.
  unfold ReadBuffer, mbind, M_bind. destruct (checkBufferSize n r) as [[[]|e] r1]; [|done].
  by destruct (take_bytes n r1) as [[]].
Qed.

Lemma reads_Uint32 : reads ReadUint32.
Proof.
  apply (reads_ext _ _ (number_buffer 4 dec_be)), reads_bind_all; [by apply reads_buffer | intros; apply reads_ret].
Qed.
Lemma reads_Int64 : reads ReadInt64.
Proof.
  apply (reads_ext _ _ (number_buffer 8 (fun bs => swrap 64 (dec_be bs)))), reads_bind_all; [by apply reads_buffer | intros; apply reads_ret].
Qed.

Lemma Uint32_range r a r' : ReadUint32 r = (Ok a, r') -> 0 <= a < 2 ^ 32.
Proof.
  intros Hm. apply M_bind_inv in Hm as (_ & r1 & _ & Hm). apply M_bind_inv in Hm as (bs & r2 & Ht & Hm).
  unfold take_bytes in Ht. destruct (rd (buffer r1) (cursor r1) 4) as [bs'|e] eqn:E; [|done].
  injection Ht as <- _. injection Hm as <- _. apply rd_inv in E as (H0 & _ & Hle & ->).
  pose proof (dec_be_range (slice (cursor r1) 4 (buffer r1))) as Hr.
  assert (Hz : zlen (slice (cursor r1) 4 (buffer r1)) = 4) by (apply zlen_slice; lia). unfold zlen in Hz. rewrite Hz in Hr. exact Hr.
Qed.

Lemma reads_String : reads ReadString.
Proof.
  apply reads_bind; [exact reads_Uint32|]. intros r a r' Ha%Uint32_range. apply reads_buffer. lia.
Qed.

(** Reading what was written. *)
Lemma as_buffer bs n : zlen bs < 2 ^ 63 -> n = zlen bs -> reads_as (ReadBuffer n) bs bs.
Proof.
  intros Hlt -> pre rest r Hr. pose proof (zlen_nonneg pre). pose proof (zlen_nonneg bs). pose proof (zlen_nonneg rest).
  unfold ReadBuffer. rewrite (check_take _ _ _ r Hr) by lia. destruct Hr as (Hk & Hb & ->). rewrite !zlen_app in *.
  rewrite (proj2 (Z.leb_le _ _)) by lia. eexists. split.
  - rewrite slice_app_r, Z.sub_diag, slice_app_l, slice_all by lia. reflexivity.
  - rewrite <-app_assoc. split; [rewrite !zlen_app; lia|]. split; [rewrite !zlen_app; lia|]. by rewrite !zlen_app.
Qed.

Lemma as_ret {A} (a : A) : reads_as (mret a) [] a.
Proof. intros pre rest r Hr. exists r. rewrite app_nil_r. done. Qed.

Lemma as_bind {A B} (m : M t A) (k : A -> M t B) bs1 bs2 a b :
  reads_as m bs1 a -> reads_as (k a) bs2 b -> reads_as (mbind k m) (bs1 ++ bs2) b.
Proof.
  intros H1 H2 pre rest r Hr. rewrite <-app_assoc in Hr. destruct (H1 pre (bs2 ++ rest) r Hr) as (r1 & E1 & Hr1).
  destruct (H2 (pre ++ bs1) rest r1 Hr1) as (r2 & E2 & Hr2). exists r2. split; [by erewrite M_bind_Ok by exact E1|].
  by rewrite <-!app_assoc in *.
Qed.

Lemma as_map {A B} (m : M t A) (f : A -> B) bs a : reads_as m bs a -> reads_as (x ← m; mret (f x)) bs (f a).
Proof. intros Hm. rewrite <-(app_nil_r bs). eapply as_bind; [exact Hm | apply as_ret]. Qed.

Lemma as_Uint32 v : 0 <= v < 2 ^ 32 -> reads_as ReadUint32 (enc_be 4 v) v.
Proof.
  intros Hv. replace v with (dec_be (enc_be 4 v)) at 2 by (rewrite dec_enc_be, Z.mod_small by exact Hv; done).
  apply (as_ext _ _ _ _ (number_buffer 4 dec_be)), (as_map (ReadBuffer 4) dec_be). by apply as_buffer.
Qed.
Lemma as_Int64 v : - 2 ^ 63 <= v < 2 ^ 63 -> reads_as ReadInt64 (enc_be 8 (wrap 64 v)) v.
Proof.
  intros Hv. replace v with (swrap 64 (dec_be (enc_be 8 (wrap 64 v)))) at 2.
  - apply (as_ext _ _ _ _ (number_buffer 8 (fun bs => swrap 64 (dec_be bs)))), (as_map (ReadBuffer 8) (fun bs => swrap 64 (dec_be bs))). by apply as_buffer.
  - rewrite dec_enc_be. change (256 ^ Z.of_nat 8) with (2 ^ 64). unfold wrap. rewrite Z.mod_mod by lia.
    fold (wrap 64 v). rewrite swrap_wrap, swrap_small by lia. done.
Qed.
Lemma as_String s : zlen s < 2 ^ 32 -> reads_as ReadString (string_wire s) s.
Proof.
  intros Hs. pose proof (zlen_nonneg s). unfold string_wire. rewrite wrap_small by lia.
  eapply as_bind; [by apply as_Uint32 | apply as_buffer; lia].
Qed.

(** A block that ends before what is read does. *)
Lemma reads_truncated {A} (m : M t A) p q a :
  reads m -> reads_as m (p ++ q) a -> q <> [] -> zlen (p ++ q) < 2 ^ 63 ->
  (m (init p (zlen p))).1 = Fault (Throw "could not read past buffer borders").
Proof.
  intros Hm Ha Hq Hlt. pose proof (zlen_nonneg p). assert (0 < zlen q) by (destruct q; [done | zl]). rewrite zlen_app in Hlt.
  destruct (Hm p 0 _ (reading_init p ltac:(lia))) as [(a' & n' & r' & _ & _ & Hr' & Hx)|He]; [|done]. exfalso.
  assert (Hi : reading (p ++ q) 0 (init (p ++ q) (zlen (p ++ q)))) by (apply reading_init; rewrite zlen_app; lia).
  destruct (Hx q _ Hi) as (r1 & E1 & Hr1). destruct (Ha [] [] (init (p ++ q) (zlen (p ++ q)))) as (r2 & E2 & Hr2).
  { cbn [app]. rewrite app_nil_r, zlen_nil. exact Hi. }
  assert (Heq : r1 = r2) by congruence. destruct Hr1 as (_ & _ & F1), Hr2 as (_ & _ & F2), Hr' as (Hn' & _ & _).
  rewrite Heq, F2 in F1. injection F1 as _ F1 _ _. cbn [app] in F1. rewrite zlen_app in F1. lia.
Qed.

(** *** A counted loop

    [for (auto i = 0U; i < n; ++i)] over a body that does not use [i]: it runs the body [n]
    times and collects its results. The count is a 32-bit number from the packet, so the
    recursion is on its binary digits, and the loop ends with the first body that fails. *)
Fixpoint repeat_pos {A} (m : M t A) (p : positive) : M t (list A) :=
  match p with
  | xH => a ← m; mret [a]
  | xO p => l1 ← repeat_pos m p; l2 ← repeat_pos m p; mret (l1 ++ l2)
  | xI p => a ← m; l1 ← repeat_pos m p; l2 ← repeat_pos m p; mret (a :: l1 ++ l2)
  end.
Definition times {A} (n : Z) (m : M t A) : M t (list A) :=
  match n with Zpos p => repeat_pos m p | _ => mret [] end.

Fixpoint repeat_nat {A} (m : M t A) (n : nat) : M t (list A) :=
  match n with O => mret [] | S k => a ← m; l ← repeat_nat m k; mret (a :: l) end.

Lemma repeat_nat_add {A} (m : M t A) n k r :
  repeat_nat m (n + k) r = (l1 ← repeat_nat m n; l2 ← repeat_nat m k; mret (l1 ++ l2)) r.
Proof.
  revert r. induction n as [|n IH]; intros r; cbn [repeat_nat Nat.add].
  - unfold mbind, M_bind, mret, M_ret. by destruct (repeat_nat m k r) as [[]].
  - revert IH. unfold mbind, M_bind, mret, M_ret. intros IH. destruct (m r) as [[a|e] r1]; [|done]. rewrite IH.
    destruct (repeat_nat m n r1) as [[l|e] r2]; [|done]. by destruct (repeat_nat m k r2) as [[]].
Qed.

Lemma repeat_pos_nat {A} (m : M t A) p r : repeat_pos m p r = repeat_nat m (Pos.to_nat p) r.
Proof.
  revert r. induction p as [p IH|p IH|]; intros r.
  - replace (Pos.to_nat p~1) with (S (Pos.to_nat p + Pos.to_nat p)) by lia. cbn [repeat_pos repeat_nat].
    pose proof (repeat_nat_add m (Pos.to_nat p) (Pos.to_nat p)) as Hadd. revert IH Hadd.
    unfold mbind, M_bind, mret, M_ret. intros IH Hadd. destruct (m r) as [[a|e] r1]; [|done]. rewrite Hadd, IH.
    destruct (repeat_nat m (Pos.to_nat p) r1) as [[l|e] r2]; [|done]. rewrite IH.
    by destruct (repeat_nat m (Pos.to_nat p) r2) as [[]].
  - replace (Pos.to_nat p~0) with (Pos.to_nat p + Pos.to_nat p)%nat by lia. rewrite repeat_nat_add.
    cbn [repeat_pos]. revert IH. unfold mbind, M_bind, mret, M_ret. intros IH. rewrite IH.
    destruct (repeat_nat m (Pos.to_nat p) r) as [[l|e] r2]; [|done]. by rewrite IH.
  - done.
Qed.

Lemma times_nat {A} n (m : M t A) r : times n m r = repeat_nat m (Z.to_nat n) r.
Proof. destruct n; cbn [times]; [done | apply repeat_pos_nat | done]. Qed.

Lemma reads_times {A} n (m : M t A) : reads m -> reads (times n m).
Proof.
  intros Hm. apply (reads_ext (repeat_nat m (Z.to_nat n))); [intros r; by rewrite times_nat|].
  induction (Z.to_nat n) as [|k IH]; cbn [repeat_nat]; [apply reads_ret|].
  apply reads_bind_all; [done|]. intros a. apply reads_bind_all; [done | intros; apply reads_ret].
Qed.

Lemma as_times {A} (m : M t A) (f : A -> bytes) l :
  (forall a, a ∈ l -> reads_as m (f a) a) -> reads_as (times (zlen l) m) (concat (map f l)) l.
Proof.
  intros Hl. intros pre rest r. rewrite times_nat. unfold zlen at 2. rewrite Nat2Z.id. revert pre rest r.
  change (reads_as (repeat_nat m (length l)) (concat (map f l)) l).
  induction l as [|a l IH]; [apply as_ret|]. cbn [length repeat_nat map concat].
  eapply as_bind; [apply Hl; set_solver|]. apply (as_map _ (cons a)). apply IH. intros b Hb. apply Hl. set_solver.
Qed.
End reader.
