(* ===== verification/Packets.v ===== *)
(** [libmimi/src/serialization.cpp], [libmimi/src/packets] and [libmimi/src/MimiClient.cpp]:
    the packets of the protocol, their bytes on the wire, and the client that sends and
    receives them over a stream socket. *)
From stdpp Require Import pretty.
From S2P Require Import Prelude Network.

Module PacketType.
Inductive t := Query | CommandComplete | TupleDescription | DataRow | ErrorResponse.

(** The characters 'Q', 'C', 'T', 'D' and 'E'. *)
Definition value (ty : t) : Z :=
  match ty with Query => 81 | CommandComplete => 67 | TupleDescription => 84 | DataRow => 68 | ErrorResponse => 69 end.

(** The check of [ReceivePacket]: the case labels of its first [switch]. *)
Definition of_value (v : Z) : option t :=
  if v =? 68 then Some DataRow else if v =? 69 then Some ErrorResponse else if v =? 81 then Some Query
  else if v =? 84 then Some TupleDescription else if v =? 67 then Some CommandComplete else None.

Lemma of_value_value ty : of_value (value ty) = Some ty.
Proof. by destruct ty. Qed.
End PacketType.

(** The classes derived from [IPacket], with their fields. *)
Inductive IPacket :=
| QueryPacket (query : bytes)
| TupleDescriptionPacket (attrs : list bytes)
| DataRowPacket (values : list (option bytes))
| ErrorResponsePacket (message : bytes)
| CommandCompletePacket (tag : bytes) (rows : Z).

#[export] Instance IPacket_eq_dec : EqDecision IPacket.
Proof. solve_decision. Defined.

Definition Type_ (p : IPacket) : PacketType.t :=
  match p with
  | QueryPacket _ => PacketType.Query
  | TupleDescriptionPacket _ => PacketType.TupleDescription
  | DataRowPacket _ => PacketType.DataRow
  | ErrorResponsePacket _ => PacketType.ErrorResponse
  | CommandCompletePacket _ _ => PacketType.CommandComplete
  end.

Section serialization.
Context `{Build}.
Import NetworkWriter NetworkReader.

Definition getStringSize (str : bytes) : Z := wrap 64 (4 + zlen str).

Definition value_size (att : option bytes) : list Z :=
  match att with Some val => [4; zlen val] | None => [4] end.

(** The sums are made in [size_t]. *)
Definition add_sizes (l : list Z) : Z := fold_left (fun size d => wrap 64 (size + d)) l 0.

Definition calculate_payload_size (p : IPacket) : Z :=
  match p with
  | QueryPacket query => add_sizes [getStringSize query]
  | TupleDescriptionPacket attrs => add_sizes (4 :: map getStringSize attrs)
  | DataRowPacket values => add_sizes (4 :: concat (map value_size values))
  | ErrorResponsePacket message => add_sizes [getStringSize message]
  | CommandCompletePacket tag _ => add_sizes [getStringSize tag; 8]
  end.

(** The block and the writer that has written the common header. *)
Definition visit_base (p : IPacket) : result NetworkWriter.t :=
  let size := calculate_payload_size p in
  let buffer := zeros (wrap 64 (size + 1 + 4)) in
  let writer := NetworkWriter.init buffer (zlen buffer) in
  let '(r, writer) := (_ ← WriteUint8 (PacketType.value (Type_ p)); WriteUint32 (wrap 32 (size + 4))) writer in
  _ ← r;
  mret writer.

Definition write_value (att : option bytes) : M NetworkWriter.t unit :=
  match att with
  | None => WriteUint32 (2 ^ 32 - 1)
  | Some val =>
      _ ← WriteString val;
      lift (assert_ (negb (wrap 32 (zlen val) =? 2 ^ 32 - 1)) "static_cast<uint32_t>(val.size()) != static_cast<uint32_t>(-1)")
  end.

(** What each [Visit] writes after the header. *)
Definition visit_payload (p : IPacket) : M NetworkWriter.t unit :=
  match p with
  | QueryPacket query => WriteString query
  | TupleDescriptionPacket attrs => _ ← WriteUint32 (wrap 32 (zlen attrs)); mapM_ WriteString attrs
  | DataRowPacket values => _ ← WriteUint32 (wrap 32 (zlen values)); mapM_ write_value values
  | ErrorResponsePacket message => WriteString message
  | CommandCompletePacket tag rows => _ ← WriteString tag; WriteInt64 rows
  end.

(** [SerializerPacketVisitor::Visit]; the result is its [_buffer]. *)
Definition Visit (p : IPacket) : result bytes :=
  writer ← visit_base p;
  let '(r, writer) := visit_payload p writer in
  _ ← r;
  mret (NetworkWriter.buffer writer).

Definition read_value : M NetworkReader.t (option bytes) :=
  value ← ReadUint32;
  if value =? 2 ^ 32 - 1 then mret None
  else buf ← ReadBuffer value; mret (Some buf).

Definition DeserializeQuery : M NetworkReader.t IPacket := query ← ReadString; mret (QueryPacket query).
Definition DeserializeTupleDescription : M NetworkReader.t IPacket :=
  nattrs ← ReadUint32; attrs ← times nattrs ReadString; mret (TupleDescriptionPacket attrs).
Definition DeserializeDataRow : M NetworkReader.t IPacket :=
  natts ← ReadUint32; values ← times natts read_value; mret (DataRowPacket values).
Definition DeserializeErrorResponse : M NetworkReader.t IPacket := msg ← ReadString; mret (ErrorResponsePacket msg).
Definition DeserializeCommandComplete : M NetworkReader.t IPacket :=
  tag ← ReadString; rows ← ReadInt64; mret (CommandCompletePacket tag rows).

(** The second [switch] of [ReceivePacket]. *)
Definition deserializer (ty : PacketType.t) : M NetworkReader.t IPacket :=
  match ty with
  | PacketType.DataRow => DeserializeDataRow
  | PacketType.ErrorResponse => DeserializeErrorResponse
  | PacketType.Query => DeserializeQuery
  | PacketType.TupleDescription => DeserializeTupleDescription
  | PacketType.CommandComplete => DeserializeCommandComplete
  end.
Definition deserialize (ty : PacketType.t) (buffer : bytes) : result IPacket :=
  (deserializer ty (NetworkReader.init buffer (zlen buffer))).1.
End serialization.

(** ** Sockets

    A connected stream socket: the calls [send] and [recv], with the state of the connection.
    The result is the one of the call; [recv] also returns the bytes that it stored. *)
Class Socket (S : Type) := {
  sock_send : bytes -> S -> Z * S;
  sock_recv : Z -> S -> Z * bytes * S;
  sock_errno : S -> string
}.

(** Their documented behaviour: [send] takes a non-empty prefix of the block, [recv] yields a
    non-empty prefix of what the peer has sent, and zero only at the end of the stream, or
    they report an error. *)
Class SocketLaws (S : Type) `{Socket S} := {
  sent : S -> bytes;
  incoming : S -> bytes;
  working : S -> Prop;
  send_law bs s k s' : sock_send bs s = (k, s') -> 0 < zlen bs ->
    (k < 0 /\ ~ working s) \/
    (0 < k <= zlen bs /\ sent s' = sent s ++ take (Z.to_nat k) bs /\ incoming s' = incoming s /\ (working s -> working s'));
  recv_law n s k bs s' : sock_recv n s = (k, bs, s') -> 0 < n ->
    (k < 0 /\ ~ working s) \/
    (k = 0 /\ bs = [] /\ incoming s = [] /\ s' = s) \/
    (0 < k <= n /\ zlen bs = k /\ incoming s = bs ++ incoming s' /\ sent s' = sent s /\ (working s -> working s'))
}.

Section client.
Context `{Build} {S : Type} `{Socket S}.

(** [sendBuffer]: the loop sends until nothing is left. *)
Fixpoint send_loop (fuel : nat) (left : bytes) : M S unit := fun s =>
  match fuel with
  | O => (Fault NoFuel, s)
  | Datatypes.S k =>
      if 0 <? zlen left then
        let '(ret, s) := sock_send left s in
        if ret <? 0 then (Fault (Throw "could not send"), s)
        else send_loop k (drop (Z.to_nat ret) left) s
      else (Ok tt, s)
  end.
Definition sendBuffer (buffer : bytes) : M S unit := send_loop (Datatypes.S (length buffer)) buffer.

(** The loop of [recvBuffer] and [recvBufferOpt]; [None] at the end of the stream. *)
Fixpoint recv_loop (fuel : nat) (on_error : S -> fault) (left : Z) (got : bytes) : M S (option bytes) := fun s =>
  match fuel with
  | O => (Fault NoFuel, s)
  | Datatypes.S k =>
      if 0 <? left then
        let '(ret, bs, s) := sock_recv left s in
        if ret <? 0 then (Fault (on_error s), s)
        else if ret =? 0 then (Ok None, s)
        else recv_loop k on_error (left - ret) (got ++ bs) s
      else (Ok (Some got), s)
  end.

Definition recvBuffer (length : Z) : M S bytes :=
  o ← recv_loop (Datatypes.S (Z.to_nat length)) (fun _ => Throw "could not recv") length [];
  match o with Some bs => mret bs | None => throw (Throw "could not recv") end.

(** [std::stringstream str{init}; str << text]: the stream opens for writing at the start of
    its initial contents, so that the text replaces them. *)
Fixpoint stream_over (init text : string) : string :=
  match text with
  | EmptyString => init
  | String c text => String c (stream_over (match init with EmptyString => EmptyString | String _ i => i end) text)
  end.

Definition recvBufferOpt (length : Z) : M S (option bytes) :=
  recv_loop (Datatypes.S (Z.to_nat length)) (fun s => Throw (stream_over "could not recv: " (sock_errno s))) length [].

Definition SendInt8 (value : Z) : M S unit := sendBuffer (enc_be 1 value).
Definition SendInt16 (value : Z) : M S unit := sendBuffer (enc_be 2 (wrap 16 value)).
Definition SendInt32 (value : Z) : M S unit := sendBuffer (enc_be 4 (wrap 32 value)).
Definition SendInt64 (value : Z) : M S unit := sendBuffer (enc_be 8 (wrap 64 value)).
Definition SendString (string : bytes) : M S unit := _ ← SendInt32 (swrap 32 (zlen string)); sendBuffer string.

Definition ReceiveInt8Opt : M S (option Z) := o ← recvBufferOpt 1; mret ((fun bs => swrap 8 (dec_be bs)) <$> o).
Definition ReceiveInt8 : M S Z := bs ← recvBuffer 1; mret (swrap 8 (dec_be bs)).
Definition ReceiveInt16 : M S Z := bs ← recvBuffer 2; mret (swrap 16 (dec_be bs)).
Definition ReceiveInt32 : M S Z := bs ← recvBuffer 4; mret (swrap 32 (dec_be bs)).
Definition ReceiveInt64 : M S Z := bs ← recvBuffer 8; mret (swrap 64 (dec_be bs)).
Definition ReceiveBuffer (length : Z) : M S bytes := recvBuffer length.
Definition ReceiveString : M S bytes := length ← ReceiveInt32; ReceiveBuffer (wrap 64 length).

Definition SendPacket (p : IPacket) : M S unit :=
  buffer ← lift (Visit p);
  if zlen buffer <=? 1 then throw (Throw "could not serialize packet")
  else sendBuffer buffer.

(** [None] is the null pointer: the connection was closed. *)
Definition ReceivePacket : M S (option IPacket) :=
  byte ← ReceiveInt8Opt;
  match byte with
  | None => mret None
  | Some byte =>
      match PacketType.of_value (wrap 8 byte) with
      | None => throw (Throw (String.append "Unknown packet type: " (pretty (wrap 8 byte))))
      | Some ty =>
          len ← ReceiveInt32;
          let length := wrap 32 len in
          if length <? 4 then throw (Throw (String.append "invalid length field value in packet: " (pretty length)))
          else
            buffer ← ReceiveBuffer (length - 4);
            packet ← lift (deserialize ty buffer);
            mret (Some packet)
      end
  end.
End client.

(** ** The bytes of a packet *)
Section wire.
Context `{Build}.
Import NetworkWriter NetworkReader.

Definition value_wire (att : option bytes) : bytes :=
  match att with None => enc_be 4 (2 ^ 32 - 1) | Some val => string_wire val end.

Definition payload (p : IPacket) : bytes :=
  match p with
  | QueryPacket query => string_wire query
  | TupleDescriptionPacket attrs => enc_be 4 (wrap 32 (zlen attrs)) ++ concat (map string_wire attrs)
  | DataRowPacket values => enc_be 4 (wrap 32 (zlen values)) ++ concat (map value_wire values)
  | ErrorResponsePacket message => string_wire message
  | CommandCompletePacket tag rows => string_wire tag ++ enc_be 8 (wrap 64 rows)
  end.

Definition wire (p : IPacket) : bytes :=
  enc_be 1 (PacketType.value (Type_ p)) ++ enc_be 4 (wrap 32 (zlen (payload p) + 4)) ++ payload p.

(** The packets that the length field can describe. *)
Definition fits (p : IPacket) : Prop :=
  zlen (payload p) + 4 < 2 ^ 32 /\ match p with CommandCompletePacket _ rows => - 2 ^ 63 <= rows < 2 ^ 63 | _ => True end.

Lemma zlen_string_wire s : zlen (string_wire s) = 4 + zlen s.
Proof. unfold string_wire. by rewrite zlen_app, zlen_enc_be. Qed.

Lemma add_sizes_sum l : Forall (fun d => 0 <= d) l -> foldr Z.add 0 l < 2 ^ 64 -> add_sizes l = foldr Z.add 0 l.
Proof.
  intros Hl. unfold add_sizes. enough (Hg : forall acc, 0 <= acc -> acc + foldr Z.add 0 l < 2 ^ 64 ->
    fold_left (fun size d => wrap 64 (size + d)) l acc = acc + foldr Z.add 0 l) by (intros Hs; rewrite Hg; lia).
  induction Hl as [|d l Hd Hl IH]; intros acc Ha Hs; cbn [fold_left foldr] in *; [lia|].
  assert (Hnn : 0 <= foldr Z.add 0 l).
  { clear -Hl. induction Hl; cbn [foldr]; lia. }
  rewrite wrap_small by lia. rewrite IH; lia.
Qed.

(** The pieces that the sizes are added of. *)
Lemma zlen_concat {A} (f : A -> bytes) l : zlen (concat (map f l)) = foldr Z.add 0 (map (fun a => zlen (f a)) l).
Proof. induction l as [|a l IH]; [done|]. cbn [map concat foldr]. by rewrite zlen_app, IH. Qed.

Lemma piece_bound {A} (f : A -> bytes) l a : a ∈ l -> zlen (f a) <= zlen (concat (map f l)).
Proof.
  induction l as [|b l IH]; [set_solver|]. intros [->|Ha]%elem_of_cons; cbn [map concat]; rewrite zlen_app.
  - pose proof (zlen_nonneg (concat (map f l))). lia.
  - pose proof (zlen_nonneg (f b)). specialize (IH Ha). lia.
Qed.

Lemma count_bound {A} (f : A -> bytes) l : (forall a, 4 <= zlen (f a)) -> 4 * zlen l <= zlen (concat (map f l)).
Proof.
  intros Hf. induction l as [|a l IH]; [done|]. cbn [map concat]. rewrite zlen_cons, zlen_app. specialize (Hf a). lia.
Qed.

Lemma getStringSize_eq s : zlen (string_wire s) < 2 ^ 64 -> getStringSize s = zlen (string_wire s).
Proof. rewrite zlen_string_wire. intros Hs. pose proof (zlen_nonneg s). unfold getStringSize. by apply wrap_small; lia. Qed.

Lemma zlen_value_wire v : zlen (value_wire v) = foldr Z.add 0 (value_size v).
Proof. destruct v as [s|]; cbn [value_wire value_size foldr]; [rewrite zlen_string_wire; lia | done]. Qed.

Lemma value_sizes l : foldr Z.add 0 (concat (map value_size l)) = zlen (concat (map value_wire l)).
Proof.
  induction l as [|v l IH]; [done|]. cbn [map concat]. rewrite foldr_app, zlen_app, <-IH, zlen_value_wire.
  generalize (foldr Z.add 0 (concat (map value_size l))) as z. induction (value_size v) as [|d k IHk]; intros z; cbn [foldr]; [lia|].
  rewrite IHk. lia.
Qed.

Lemma size_ok p : fits p -> calculate_payload_size p = zlen (payload p).
Proof.
  intros [Hf _]. destruct p as [q|attrs|values|msg|tag rows]; cbn [calculate_payload_size payload] in *.
  - rewrite getStringSize_eq by lia. rewrite add_sizes_sum; cbn [foldr]; [lia | | lia]. repeat constructor. apply zlen_nonneg.
  - rewrite zlen_app, zlen_enc_be in *. assert (Hm : map getStringSize attrs = map (fun a => zlen (string_wire a)) attrs).
    { apply map_ext_in. intros a Ha%list_elem_of_In. apply getStringSize_eq. pose proof (piece_bound string_wire attrs a Ha). lia. }
    rewrite Hm, add_sizes_sum; cbn [foldr]; rewrite <-?zlen_concat; [lia | | lia].
    constructor; [lia|]. apply Forall_map, Forall_true. intros a. apply zlen_nonneg.
  - rewrite zlen_app, zlen_enc_be in *. rewrite add_sizes_sum; cbn [foldr]; rewrite ?value_sizes; [lia | | lia].
    constructor; [lia|]. apply Forall_concat, Forall_map, Forall_true. intros [s|]; cbn [value_size];
      repeat first [apply Forall_nil_2 | apply Forall_cons_2]; first [apply zlen_nonneg | lia].
  - rewrite getStringSize_eq by lia. rewrite add_sizes_sum; cbn [foldr]; [lia | | lia]. repeat constructor. apply zlen_nonneg.
  - rewrite zlen_app, zlen_enc_be in *. rewrite getStringSize_eq by lia.
    rewrite add_sizes_sum; cbn [foldr]; [lia | | lia]. repeat constructor; [apply zlen_nonneg | lia].
Qed.

(** Every [Visit] writes the payload. *)
Lemma writes_value v : zlen (value_wire v) < 2 ^ 32 -> writes (write_value v) (value_wire v).
Proof.
  destruct v as [s|]; cbn [write_value value_wire]; [|intros _; apply writes_Uint32].
  rewrite zlen_string_wire. intros Hs. rewrite <-(app_nil_r (string_wire s)). apply writes_bind.
  - apply writes_String. lia.
  - pose proof (zlen_nonneg s). rewrite wrap_small by lia. rewrite (proj2 (Z.eqb_neq _ _)) by lia. cbn [negb].
    rewrite assert_true. exact writes_ret.
Qed.

Lemma writes_payload p : fits p -> writes (visit_payload p) (payload p).
Proof.
  intros [Hf _]. destruct p as [q|attrs|values|msg|tag rows]; cbn [visit_payload payload] in *.
  - rewrite zlen_string_wire in Hf. apply writes_String. lia.
  - rewrite zlen_app, zlen_enc_be in Hf. apply writes_bind; [apply writes_Uint32|]. apply writes_mapM.
    intros a Ha. pose proof (piece_bound string_wire attrs a Ha) as Hp. rewrite zlen_string_wire in Hp. apply writes_String. lia.
  - rewrite zlen_app, zlen_enc_be in Hf. apply writes_bind; [apply writes_Uint32|]. apply writes_mapM.
    intros a Ha. pose proof (piece_bound value_wire values a Ha) as Hp. apply writes_value. lia.
  - rewrite zlen_string_wire in Hf. apply writes_String. lia.
  - rewrite zlen_app, zlen_string_wire, zlen_enc_be in Hf. apply writes_bind; [apply writes_String; lia | apply writes_Int64].
Qed.

Lemma Visit_ok p : fits p -> Visit p = Ok (wire p).
Proof.
  intros Hf. pose proof (writes_payload p Hf) as Hp. pose proof (zlen_nonneg (payload p)).
  unfold Visit, visit_base. rewrite (size_ok p Hf). destruct Hf as [Hf _]. rewrite (wrap_small 64) by lia.
  set (n := zlen (payload p) + 1 + 4). assert (Hn : 0 <= n < 2 ^ 63) by lia. rewrite zlen_zeros by lia.
  set (hdr := enc_be 1 (PacketType.value (Type_ p)) ++ enc_be 4 (wrap 32 (zlen (payload p) + 4))).
  assert (Hh : zlen hdr = 5) by (unfold hdr; by rewrite zlen_app, !zlen_enc_be).
  destruct (writes_fit _ hdr [] n (NetworkWriter.init (zeros n) n) (writes_bind _ _ _ _ (writes_Uint8 _) (writes_Uint32 _)) (written_init n Hn))
    as (w1 & E1 & Hw1); [change (zlen (@nil byte)) with 0; lia|]. rewrite E1. cbn [app] in Hw1.
  destruct (writes_fit _ _ _ _ _ Hp Hw1) as (w2 & E2 & Hw2); [lia|]. rewrite bind_Ok, bind_Ok, E2, bind_Ok. unfold mret, result_ret.
  f_equal. unfold wire. rewrite app_assoc. fold hdr. apply written_full.
  rewrite zlen_app, Hh. replace (5 + zlen (payload p)) with n by lia. exact Hw2.
Qed.

(** Every [Deserialize] reads what the [Visit] wrote, and is total on any bytes. *)
Lemma as_value v : zlen (value_wire v) < 2 ^ 32 -> reads_as read_value (value_wire v) v.
Proof.
  destruct v as [s|]; cbn [value_wire]; intros Hs.
  - rewrite zlen_string_wire in Hs. pose proof (zlen_nonneg s). unfold string_wire. rewrite wrap_small by lia.
    eapply as_bind; [apply as_Uint32; lia|]. rewrite (proj2 (Z.eqb_neq _ _)) by lia.
    apply (as_map _ Some). by apply as_buffer; lia.
  - rewrite <-(app_nil_r (enc_be 4 _)). eapply as_bind; [by apply as_Uint32 | apply as_ret].
Qed.

Lemma as_payload p : fits p -> reads_as (deserializer (Type_ p)) (payload p) p.
Proof.
  intros [Hf Hr]. destruct p as [q|attrs|values|msg|tag rows]; cbn [deserializer Type_ payload] in *.
  - rewrite zlen_string_wire in Hf. apply (as_map _ QueryPacket), as_String. lia.
  - rewrite zlen_app, zlen_enc_be in Hf. pose proof (zlen_nonneg attrs).
    pose proof (count_bound string_wire attrs ltac:(intros a; rewrite zlen_string_wire; pose proof (zlen_nonneg a); lia)).
    rewrite wrap_small by lia. eapply as_bind; [apply as_Uint32; lia|]. apply (as_map _ TupleDescriptionPacket), as_times.
    intros a Ha. pose proof (piece_bound string_wire attrs a Ha) as Hp. rewrite zlen_string_wire in Hp. apply as_String. lia.
  - rewrite zlen_app, zlen_enc_be in Hf. pose proof (zlen_nonneg values).
    assert (Hc : 4 * zlen values <= zlen (concat (map value_wire values))).
    { apply count_bound. intros [s|]; cbn [value_wire]; [rewrite zlen_string_wire; pose proof (zlen_nonneg s); lia | done]. }
    rewrite wrap_small by lia. eapply as_bind; [apply as_Uint32; lia|]. apply (as_map _ DataRowPacket), as_times.
    intros a Ha. pose proof (piece_bound value_wire values a Ha) as Hp. apply as_value. lia.
  - rewrite zlen_string_wire in Hf. apply (as_map _ ErrorResponsePacket), as_String. lia.
  - rewrite zlen_app, zlen_string_wire, zlen_enc_be in Hf. eapply as_bind; [apply as_String; lia|].
    apply (as_map _ (CommandCompletePacket tag)). by apply as_Int64.
Qed.

Lemma reads_value : reads read_value.
Proof.
  apply reads_bind; [exact reads_Uint32|]. intros r v r' Hv%Uint32_range. case_match; [apply reads_ret|].
  apply reads_bind_all; [apply reads_buffer; lia | intros; apply reads_ret].
Qed.

Lemma reads_deserializer ty : reads (deserializer ty).
Proof.
  destruct ty; cbn [deserializer]; apply reads_bind_all; intros;
    first [ exact reads_String | exact reads_Uint32 | apply reads_ret | apply reads_bind_all ]; intros;
    first [ exact reads_Int64 | apply reads_times; first [exact reads_String | exact reads_value] | apply reads_ret ].
Qed.

Lemma deserialize_ok p : fits p -> deserialize (Type_ p) (payload p) = Ok p.
Proof.
  intros Hf. unfold deserialize. destruct (as_payload p Hf [] [] (NetworkReader.init (payload p) (zlen (payload p)))) as (r' & E & _).
  - cbn [app]. rewrite app_nil_r. apply reading_init. destruct Hf. lia.
  - by rewrite E.
Qed.
End wire.

(** ** The stream *)
Section stream.
Context `{Build} {S : Type} `{SocketLaws S}.
Implicit Type s : S.

Lemma send_ok fuel left s :
  working s -> (length left < fuel)%nat ->
  exists s', send_loop fuel left s = (Ok tt, s') /\ sent s' = sent s ++ left /\ incoming s' = incoming s /\ working s'.
Proof.
  revert left s. induction fuel as [|fuel IH]; intros left s Hw Hf; [lia|]. cbn [send_loop].
  destruct (Z.ltb_spec 0 (zlen left)) as [Hl|Hl].
  - destruct (sock_send left s) as [k s1] eqn:E. destruct (send_law left s k s1 E Hl) as [[_ []]|(Hk & Hs & Hi & Hw1)]; [done|].
    rewrite (proj2 (Z.ltb_ge _ _)) by lia. destruct (IH (drop (Z.to_nat k) left) s1) as (s' & E' & Hs' & Hi' & Hw'); [auto| |].
    + rewrite length_drop. unfold zlen in *. lia.
    + exists s'. split; [done|]. split; [rewrite Hs', Hs, <-app_assoc, take_drop; done | split; [congruence | done]].
  - exists s. destruct left; [by rewrite app_nil_r | exfalso; rewrite zlen_cons in Hl; pose proof (zlen_nonneg left); lia].
Qed.

Lemma recv_ok fuel e left got s bs rest :
  working s -> incoming s = bs ++ rest -> zlen bs = left -> left < Z.of_nat fuel ->
  exists s', recv_loop fuel e left got s = (Ok (Some (got ++ bs)), s') /\ incoming s' = rest /\ sent s' = sent s /\ working s'.
Proof.
  revert left got s bs. induction fuel as [|fuel IH]; intros left got s bs Hw Hi Hb Hf; [pose proof (zlen_nonneg bs); lia|].
  cbn [recv_loop]. destruct (Z.ltb_spec 0 left) as [Hl|Hl].
  - destruct (sock_recv left s) as [[k b] s1] eqn:E.
    destruct (recv_law left s k b s1 E Hl) as [[_ []]|[(_ & _ & Hn & _)|(Hk & Hz & Hi1 & Hs & Hw1)]]; [done | |].
    + exfalso. rewrite Hn in Hi. destruct bs; [unfold zlen in Hb; cbn in Hb; lia | done].
    + rewrite (proj2 (Z.ltb_ge _ _)), (proj2 (Z.eqb_neq _ _)) by lia.
      assert (Hsplit : exists bs', bs = b ++ bs' /\ incoming s1 = bs' ++ rest).
      { rewrite Hi in Hi1. exists (drop (length b) bs). assert (Hlen : (length b <= length bs)%nat) by (unfold zlen in *; lia).
        assert (Ht : take (length b) bs = b).
        { apply (f_equal (take (length b))) in Hi1. by rewrite take_app_length, take_app_le in Hi1. }
        rewrite <-Ht at 1. rewrite take_drop. split; [done|].
        apply (f_equal (drop (length b))) in Hi1. by rewrite drop_app_length, drop_app_le in Hi1. }
      destruct Hsplit as (bs' & -> & Hi'). rewrite zlen_app in Hb.
      destruct (IH (left - k) (got ++ b) s1 bs') as (s' & E' & Hi2 & Hs2 & Hw2); [auto | done | lia | lia |].
      exists s'. rewrite E', <-app_assoc. split; [done|]. split; [done|]. split; [congruence | done].
  - exists s. destruct bs; [by rewrite app_nil_r | exfalso; rewrite zlen_cons in Hb; pose proof (zlen_nonneg bs); lia].
Qed.

(** The stream ends before the block is complete. *)
Lemma recv_end fuel e left got s :
  working s -> zlen (incoming s) < left -> left < Z.of_nat fuel ->
  exists s', recv_loop fuel e left got s = (Ok None, s') /\ working s'.
Proof.
  revert left got s. induction fuel as [|fuel IH]; intros left got s Hw Hi Hf; pose proof (zlen_nonneg (incoming s)); [lia|].
  cbn [recv_loop]. rewrite (proj2 (Z.ltb_lt _ _)) by lia. destruct (sock_recv left s) as [[k b] s1] eqn:E.
  destruct (recv_law left s k b s1 E) as [[_ []]|[(-> & _ & Hn & ->)|(Hk & Hz & Hi1 & Hs & Hw1)]]; [lia | done | |].
  - exists s. done.
  - rewrite (proj2 (Z.ltb_ge _ _)), (proj2 (Z.eqb_neq _ _)) by lia. rewrite Hi1, zlen_app in Hi. apply IH; [auto | lia | lia].
Qed.

Lemma recvBuffer_ok s bs rest :
  working s -> incoming s = bs ++ rest ->
  exists s', recvBuffer (zlen bs) s = (Ok bs, s') /\ incoming s' = rest /\ sent s' = sent s /\ working s'.
Proof.
  intros Hw Hi. unfold recvBuffer. pose proof (zlen_nonneg bs).
  destruct (recv_ok (Datatypes.S (Z.to_nat (zlen bs))) (fun _ => Throw "could not recv") (zlen bs) [] s bs rest) as (s' & E & Hi' & Hs' & Hw');
    [done..| lia |]. exists s'. split; [|done]. by erewrite M_bind_Ok by exact E.
Qed.

Lemma recvBuffer_end s n :
  working s -> zlen (incoming s) < n -> exists s', recvBuffer n s = (Fault (Throw "could not recv"), s') /\ working s'.
Proof.
  intros Hw Hi. unfold recvBuffer. pose proof (zlen_nonneg (incoming s)).
  destruct (recv_end (Datatypes.S (Z.to_nat n)) (fun _ => Throw "could not recv") n [] s) as (s' & E & Hw'); [done | lia | lia |].
  exists s'. split; [|done]. by erewrite M_bind_Ok by exact E.
Qed.

Lemma opt_ok s b rest :
  working s -> incoming s = b :: rest ->
  exists s', ReceiveInt8Opt s = (Ok (Some (swrap 8 (dec_be [b]))), s') /\ incoming s' = rest /\ sent s' = sent s /\ working s'.
Proof.
  intros Hw Hi. unfold ReceiveInt8Opt, recvBufferOpt.
  edestruct (recv_ok (Datatypes.S (Z.to_nat 1))) with (left := 1) (got := @nil byte) (bs := [b]) as (s' & E & Hi' & Hs' & Hw'); [exact Hw | exact Hi | done | done |].
  exists s'. split; [|done]. by erewrite M_bind_Ok by exact E.
Qed.

Lemma opt_end s : working s -> incoming s = [] -> exists s', ReceiveInt8Opt s = (Ok None, s') /\ working s'.
Proof.
  intros Hw Hi. unfold ReceiveInt8Opt, recvBufferOpt.
  edestruct (recv_end (Datatypes.S (Z.to_nat 1))) with (left := 1) (got := @nil byte) as (s' & E & Hw'); [exact Hw | by rewrite Hi | done |].
  exists s'. split; [|done]. by erewrite M_bind_Ok by exact E.
Qed.

Lemma int32_ok s v rest :
  working s -> incoming s = enc_be 4 v ++ rest -> 0 <= v < 2 ^ 32 ->
  exists s', ReceiveInt32 s = (Ok (swrap 32 v), s') /\ incoming s' = rest /\ sent s' = sent s /\ working s'.
Proof.
  intros Hw Hi Hv. unfold ReceiveInt32.
  destruct (recvBuffer_ok s (enc_be 4 v) rest Hw Hi) as (s' & E & ?). rewrite zlen_enc_be in E. exists s'. split; [|done].
  erewrite M_bind_Ok by exact E. unfold mret, M_ret. by rewrite dec_enc_be, Z.mod_small by exact Hv.
Qed.

Lemma wrap_swrap w v : 1 <= w -> 0 <= v < 2 ^ w -> wrap w (swrap w v) = v.
Proof.
  intros Hw Hv. unfold wrap, swrap. pose proof (pow_half w Hw). rewrite Zminus_mod_idemp_l, Z.mod_small by lia. lia.
Qed.

Lemma type_byte ty : wrap 8 (swrap 8 (dec_be (enc_be 1 (PacketType.value ty)))) = PacketType.value ty.
Proof. by destruct ty. Qed.

(** Sending and receiving one packet. *)
Lemma SendPacket_ok p s :
  fits p -> working s ->
  exists s', SendPacket p s = (Ok tt, s') /\ sent s' = sent s ++ wire p /\ incoming s' = incoming s /\ working s'.
Proof.
  intros Hf Hw. unfold SendPacket. erewrite lift_Ok by (by apply Visit_ok).
  assert (Hlen : 5 <= zlen (wire p)).
  { unfold wire. rewrite !zlen_app, !zlen_enc_be. pose proof (zlen_nonneg (payload p)). lia. }
  rewrite (proj2 (Z.leb_gt _ _)) by lia. apply send_ok; [done | lia].
Qed.

Lemma ReceivePacket_ok p s rest :
  fits p -> working s -> incoming s = wire p ++ rest ->
  exists s', ReceivePacket s = (Ok (Some p), s') /\ incoming s' = rest /\ sent s' = sent s /\ working s'.
Proof.
  intros Hf Hw Hi. unfold wire in Hi. rewrite <-!app_assoc in Hi. pose proof (zlen_nonneg (payload p)). pose proof Hf as [Hlt _].
  assert (Hb : exists b, enc_be 1 (PacketType.value (Type_ p)) = [b]).
  { pose proof (length_enc_be 1 (PacketType.value (Type_ p))) as Hl. destruct (enc_be _ _) as [|b [|]]; try done. by exists b. }
  destruct Hb as [b Hb]. rewrite Hb in Hi. cbn [app] in Hi. destruct (opt_ok s b _ Hw Hi) as (s1 & E1 & Hi1 & Hs1 & Hw1).
  rewrite wrap_small in Hi1 by lia. destruct (int32_ok s1 _ _ Hw1 Hi1) as (s2 & E2 & Hi2 & Hs2 & Hw2); [lia|].
  destruct (recvBuffer_ok s2 _ _ Hw2 Hi2) as (s3 & E3 & Hi3 & Hs3 & Hw3). exists s3. split; [|split; [done|split; [congruence|done]]].
  unfold ReceivePacket. erewrite M_bind_Ok by exact E1. rewrite <-Hb, type_byte, PacketType.of_value_value.
  erewrite M_bind_Ok by exact E2. rewrite wrap_swrap by lia. rewrite (proj2 (Z.ltb_ge _ _)) by lia.
  replace (zlen (payload p) + 4 - 4) with (zlen (payload p)) by lia. unfold ReceiveBuffer. erewrite M_bind_Ok by exact E3.
  by rewrite lift_Ok with (a := p) by (by apply deserialize_ok).
Qed.

Lemma ReceivePacket_end s : working s -> incoming s = [] -> exists s', ReceivePacket s = (Ok None, s').
Proof.
  intros Hw Hi. destruct (opt_end s Hw Hi) as (s' & E & _). exists s'. unfold ReceivePacket. by erewrite M_bind_Ok by exact E.
Qed.

(** ** A session: packets until the connection is closed *)
Fixpoint send_all (ps : list IPacket) : M S unit :=
  match ps with [] => mret tt | p :: ps => _ ← SendPacket p; send_all ps end.
Fixpoint receive_all (fuel : nat) : M S (list IPacket) :=
  match fuel with
  | O => throw NoFuel
  | Datatypes.S k =>
      p ← ReceivePacket;
      match p with None => mret [] | Some p => ps ← receive_all k; mret (p :: ps) end
  end.

(** C13: Packets that the length field can describe go over the stream unchanged: whatever the
    sizes of the pieces in which the kernel takes and delivers the bytes, sending any sequence
    of packets succeeds and appends their bytes to the stream, and a client that receives from
    a stream with these bytes gets exactly these packets, in order, and then the end of the
    connection. *)
Theorem packets_roundtrip ps s r :
  Forall fits ps -> working s -> sent s = [] -> working r ->
  exists s', send_all ps s = (Ok tt, s') /\
    (incoming r = sent s' -> exists r', receive_all (Datatypes.S (length ps)) r = (Ok ps, r')).
Proof.
  intros Hps Hw Hs Hwr. enough (Hsend : exists s', send_all ps s = (Ok tt, s') /\ sent s' = sent s ++ concat (map wire ps)).
  { destruct Hsend as (s' & E & Hs'). exists s'. split; [done|]. rewrite Hs', Hs. cbn [app]. clear -Hps Hwr.
    revert r Hwr. induction Hps as [|p ps Hp Hps IH]; intros r Hw Hi; cbn [map concat length] in *.
    - destruct (ReceivePacket_end r Hw Hi) as (r' & E). exists r'. cbn [receive_all]. by erewrite M_bind_Ok by exact E.
    - destruct (ReceivePacket_ok p r _ Hp Hw Hi) as (r1 & E1 & Hi1 & _ & Hw1). destruct (IH r1 Hw1 Hi1) as (r' & E').
      exists r'. cbn [receive_all]. erewrite M_bind_Ok by exact E1. cbv beta iota. by erewrite M_bind_Ok by exact E'. }
  clear -Hps Hw. revert s Hw. induction Hps as [|p ps Hp Hps IH]; intros s Hw; cbn [send_all map concat].
  - exists s. by rewrite app_nil_r.
  - destruct (SendPacket_ok p s Hp Hw) as (s1 & E1 & Hs1 & _ & Hw1). destruct (IH s1 Hw1) as (s' & E' & Hs').
    exists s'. split; [by erewrite M_bind_Ok by exact E1|]. by rewrite Hs', Hs1, <-app_assoc.
Qed.

(** C32: What the parsers make of arbitrary bytes: on every block of bytes a packet or the
    report that the block is too short, never an access outside of the block; and of what the
    serializer writes, every block that is cut short is reported. *)
Theorem deserialize_total :
  (forall ty buffer, zlen buffer < 2 ^ 63 ->
    (exists p, deserialize ty buffer = Ok p) \/
    deserialize ty buffer = Fault (Throw "could not read past buffer borders")) /\
  (forall p buffer cut, fits p -> payload p = buffer ++ cut -> cut <> [] ->
    deserialize (Type_ p) buffer = Fault (Throw "could not read past buffer borders")).
Proof.
  split.
  - intros ty buffer Hb. unfold deserialize. destruct (reads_deserializer ty buffer 0 _ (reading_init buffer Hb)) as [(p & _ & r' & E & _)|E];
      [left; exists p; by rewrite E | by right].
  - intros p buffer cut Hf Hp Hc. pose proof (as_payload p Hf) as Ha. rewrite Hp in Ha.
    eapply reads_truncated; [apply reads_deserializer | exact Ha | done |]. rewrite <-Hp. destruct Hf. lia.
Qed.

(** Every way in which a stream can end or go wrong, as [ReceivePacket] sees it: the end
    of the stream between packets is the null pointer; inside of a packet it is an error; so
    are a first byte that is no packet type, and a length field below four. *)
Theorem receive_rejects s :
  working s ->
  (incoming s = [] -> (ReceivePacket s).1 = Ok None) /\
  (forall p pre cut, fits p -> wire p = pre ++ cut -> pre <> [] -> cut <> [] -> incoming s = pre ->
    (ReceivePacket s).1 = Fault (Throw "could not recv")) /\
  (forall b rest, incoming s = b :: rest -> PacketType.of_value (byte_val b) = None ->
    exists msg, (ReceivePacket s).1 = Fault (Throw (String.append "Unknown packet type: " msg))) /\
  (forall ty n rest, incoming s = enc_be 1 (PacketType.value ty) ++ enc_be 4 n ++ rest -> 0 <= n < 4 ->
    exists msg, (ReceivePacket s).1 = Fault (Throw (String.append "invalid length field value in packet: " msg))).
Proof.
  intros Hw. assert (Hone : forall ty, exists b, enc_be 1 (PacketType.value ty) = [b]).
  { intros ty. pose proof (length_enc_be 1 (PacketType.value ty)) as Hl. destruct (enc_be _ _) as [|b [|]]; try done. by exists b. }
  split; [|split; [|split]].
  - intros Hi. destruct (ReceivePacket_end s Hw Hi) as (s' & E). by rewrite E.
  - intros p pre cut Hf Hp Hpre Hcut Hi. destruct (Hone (Type_ p)) as [b Hb]. unfold wire in Hp. pose proof (zlen_nonneg (payload p)).
    rewrite Hb in Hp. destruct pre as [|b' pre]; [done|]. cbn [app] in Hp.
    pose proof (f_equal hd_error Hp) as Hhd. cbn [hd_error] in Hhd. apply (inj Some) in Hhd as <-.
    apply (f_equal tail) in Hp. cbn [tail] in Hp.
    destruct (opt_ok s b pre Hw Hi) as (s1 & E1 & Hi1 & _ & Hw1). unfold ReceivePacket. erewrite M_bind_Ok by exact E1.
    rewrite <-Hb, type_byte, PacketType.of_value_value. destruct Hf as [Hf _]. rewrite wrap_small in Hp by lia.
    assert (Hc : 0 < zlen cut) by (destruct cut; [done | zl]).
    destruct (Z.lt_ge_cases (zlen pre) 4) as [Hlt|Hge].
    + destruct (recvBuffer_end s1 4 Hw1) as (s2 & E2 & _); [by rewrite Hi1|]. assert (F : ReceiveInt32 s1 = (Fault (Throw "could not recv"), s2)).
      { unfold ReceiveInt32. by erewrite M_bind_fault by exact E2. }
      by erewrite M_bind_fault by exact F.
    + assert (Hsp : exists body, pre = enc_be 4 (zlen (payload p) + 4) ++ body /\ payload p = body ++ cut).
      { exists (drop 4 pre). assert (Ht : take 4 pre = enc_be 4 (zlen (payload p) + 4)).
        { apply (f_equal (take 4)) in Hp. rewrite (take_app_le pre) in Hp by (unfold zlen in Hge; lia).
          rewrite <-Hp. by rewrite take_app_length' by (by rewrite length_enc_be). }
        rewrite <-Ht, take_drop. split; [done|]. apply (f_equal (drop 4)) in Hp. rewrite (drop_app_le pre) in Hp by (unfold zlen in Hge; lia).
        rewrite <-Hp. by rewrite drop_app_length' by (by rewrite length_enc_be). }
      destruct Hsp as (body & -> & Hbody). destruct (int32_ok s1 _ _ Hw1 Hi1) as (s2 & E2 & Hi2 & _ & Hw2); [lia|].
      erewrite M_bind_Ok by exact E2. rewrite wrap_swrap by lia. rewrite (proj2 (Z.ltb_ge _ _)) by lia.
      destruct (recvBuffer_end s2 (zlen (payload p) + 4 - 4) Hw2) as (s3 & E3 & _).
      { rewrite Hi2, Hbody, zlen_app. lia. }
      unfold ReceiveBuffer. by erewrite M_bind_fault by exact E3.
  - intros b rest Hi Hty. destruct (opt_ok s b rest Hw Hi) as (s1 & E1 & _). unfold ReceivePacket.
    erewrite M_bind_Ok by exact E1. assert (Hb : wrap 8 (swrap 8 (dec_be [b])) = byte_val b).
    { rewrite wrap_swrap; [unfold dec_be, dec_le; cbn; lia | lia |]. unfold dec_be, dec_le. cbn. pose proof (byte_val_range b). lia. }
    cbv beta iota. rewrite Hb, Hty. by eexists.
  - intros ty n rest Hi Hn. destruct (Hone ty) as [b Hb]. rewrite Hb in Hi. cbn [app] in Hi.
    destruct (opt_ok s b _ Hw Hi) as (s1 & E1 & Hi1 & _ & Hw1). destruct (int32_ok s1 n rest Hw1 Hi1) as (s2 & E2 & _); [lia|].
    unfold ReceivePacket. erewrite M_bind_Ok by exact E1. rewrite <-Hb, type_byte, PacketType.of_value_value.
    erewrite M_bind_Ok by exact E2. rewrite wrap_swrap by lia. rewrite (proj2 (Z.ltb_lt _ _)) by lia. by eexists.
Qed.
End stream.

(** ** A socket in memory

    The kernel takes and delivers at most [ms_chunk + 1] bytes at once. *)
Record MemSocket := mkMemSocket { ms_in : bytes; ms_out : bytes; ms_chunk : nat; ms_broken : bool }.

#[export] Instance MemSocket_socket : Socket MemSocket := {
  sock_send bs s :=
    if ms_broken s then (-1, s)
    else let k := Nat.min (Datatypes.S (ms_chunk s)) (length bs) in
      (Z.of_nat k, mkMemSocket (ms_in s) (ms_out s ++ take k bs) (ms_chunk s) false);
  sock_recv n s :=
    if ms_broken s then (-1, [], s)
    else let bs := take (Nat.min (Datatypes.S (ms_chunk s)) (Z.to_nat n)) (ms_in s) in
      (zlen bs, bs, mkMemSocket (drop (length bs) (ms_in s)) (ms_out s) (ms_chunk s) false);
  sock_errno _ := "Connection reset by peer"
}.

#[export] Instance MemSocket_laws : SocketLaws MemSocket.
Proof.
  refine {| sent := ms_out; incoming := ms_in; working s := ms_broken s = false |}.
  - intros bs s k s'. cbn [sock_send MemSocket_socket]. destruct (ms_broken s) eqn:E; [intros [= <- <-] Hl; left; split; [lia | done]|].
    set (m := Nat.min _ _). intros Heq Hl. apply pair_equal_spec in Heq as [<- <-]. right. cbn [ms_in ms_out ms_broken].
    rewrite Nat2Z.id. split; [unfold zlen, m in *; lia | done].
  - intros n s k bs s'. cbn [sock_recv MemSocket_socket]. destruct (ms_broken s) eqn:E; [intros [= <- <- <-] Hn; left; split; [lia | done]|].
    set (m := Nat.min _ _). set (b := take m (ms_in s)). intros Heq Hn. apply pair_equal_spec in Heq as [[<- <-]%pair_equal_spec <-]. right. cbn [ms_in ms_out ms_broken].
    assert (Hb : b = take m (ms_in s)) by done. destruct b as [|x b].
    + left. split; [done|]. split; [done|]. assert (Hi : ms_in s = []).
      { unfold m in Hb. destruct (ms_in s) as [|y l]; [done|]. destruct (Z.to_nat n) eqn:En; [lia | done]. }
      split; [done|]. rewrite Hi. destruct s as [i o c br]. cbn in *. by subst.
    + right. assert (Hz : zlen (x :: b) <= n) by (rewrite Hb; unfold zlen, m; rewrite length_take; lia).
      split; [pose proof (zlen_nonneg b); rewrite zlen_cons in *; lia|]. split; [done|]. split; [|done].
      rewrite Hb at 1. rewrite Hb. rewrite length_take. destruct (Nat.min_spec m (length (ms_in s))) as [[_ ->]|[Hle ->]].
      * by rewrite take_drop.
      * rewrite drop_all, take_ge by done. by rewrite app_nil_r.
Defined.

(** ** Witnesses *)
Definition ex_text : bytes := [x61; x62].
Definition ex_packets : list IPacket :=
  [QueryPacket ex_text; TupleDescriptionPacket [ex_text; []]; DataRowPacket [Some ex_text; None];
   ErrorResponsePacket ex_text; CommandCompletePacket ex_text (-1)].

Lemma ex_fits : Forall fits ex_packets.
Proof. repeat (apply Forall_cons_2; [split; [reflexivity | first [exact I | split; [discriminate | reflexivity]]]|]). apply Forall_nil_2. Defined.

Lemma packets_roundtrip_witness :
  exists s', send_all (H := DebugBuild) ex_packets (mkMemSocket [] [] 2 false) = (Ok tt, s') /\
    exists r', receive_all 6 (mkMemSocket (ms_out s') [] 6 false) = (Ok ex_packets, r').
Proof.
  destruct (packets_roundtrip (H := DebugBuild) ex_packets (mkMemSocket [] [] 2 false)
    (mkMemSocket (concat (map wire ex_packets)) [] 6 false) ex_fits) as (s' & E & Hr); [reflexivity..|].
  assert (Hs : concat (map wire ex_packets) = ms_out s').
  { vm_compute in E. injection E as <-. vm_compute. reflexivity. }
  exists s'. split; [exact E|]. rewrite <-Hs. exact (Hr Hs).
Defined.

Lemma deserialize_total_witness :
  deserialize PacketType.DataRow (enc_be 4 2 ++ enc_be 4 (2 ^ 32 - 1)) = Fault (Throw "could not read past buffer borders") /\
  deserialize PacketType.DataRow (enc_be 4 (2 ^ 32 - 1)) = Fault (Throw "could not read past buffer borders").
Proof.
  split.
  - apply (proj2 deserialize_total (DataRowPacket [None; None]) _ (enc_be 4 (2 ^ 32 - 1))); [split; reflexivity | reflexivity | vm_compute; discriminate].
  - destruct (proj1 deserialize_total PacketType.DataRow (enc_be 4 (2 ^ 32 - 1)) eq_refl) as [[p E]|E]; [|exact E].
    vm_compute in E. discriminate.
Defined.

Lemma receive_rejects_witness :
  (ReceivePacket (mkMemSocket (enc_be 1 81 ++ enc_be 4 8) [] 0 false)).1 = Fault (Throw "could not recv").
Proof.
  assert (Hw : working (mkMemSocket (enc_be 1 81 ++ enc_be 4 8) [] 0 false)) by reflexivity.
  apply (proj1 (proj2 (receive_rejects _ Hw))
    (QueryPacket []) (enc_be 1 81 ++ enc_be 4 8) (enc_be 4 0)); try reflexivity; [split; reflexivity | vm_compute; discriminate | vm_compute; discriminate].
Defined.

(** The message of a failed receive loses its prefix. *)
Lemma recv_error_message_lost :
  (ReceiveInt8Opt (mkMemSocket [] [] 0 true)).1 = Fault (Throw "Connection reset by peer").
Proof. reflexivity. Qed.
