(* ===== verification/Executor.v ===== *)
(** [executor]: expressions over tuples, virtual tuples and functions, and the builtin
    functions of [db/builtin]. *)
From stdpp Require Import pretty.
From S2P Require Import Prelude Types HeapTable.

(** A [std::string]. *)
Notation bytes := (list byte).
Definition bytes_of (s : string) : bytes := String.list_byte_of_string s.

Section functions.
Context `{Build}.

(** ** Functions *)

(** [FunctionArgs] is its array of values. *)
Definition GetArg (args : DatumArray.t) (index : nat) : result (option Datum) := DatumArray.Get args index.
Definition GetNArgs (args : DatumArray.t) : Z := DatumArray.Size args.

Definition MIFunction : Type := DatumArray.t -> result (option Datum).

Record FunctionContext := mkFunctionContext { fc_function : MIFunction; IsStrict : bool; fc_nargs : Z }.
Definition Invoke (ctx : FunctionContext) (args : DatumArray.t) : result (option Datum) := fc_function ctx args.

(** [operator->] of an optional: undefined when it is empty. *)
Definition deref {A} (o : option A) : result A := of_option (UB "empty optional") o.

Definition two_args (args : DatumArray.t) : result (option Datum * option Datum) :=
  _ ← assert_ (GetNArgs args =? 2) "args.GetNArgs() == 2";
  first ← GetArg args 0;
  second ← GetArg args 1;
  mret (first, second).

(** ** [db/builtin/int.cpp]; [w] is the width of [T] *)
Definition inteqgeneric (w : Z) : MIFunction := fun args =>
  '(first, second) ← two_args args;
  d1 ← deref first;
  x ← getScalar w d1;
  d2 ← deref second;
  y ← getScalar w d2;
  mret (Some (mkBool (x =? y))).

(** The sum is made in [int] when [T] is narrower; its overflow is undefined. *)
Definition intaddgeneric (w : Z) : MIFunction := fun args =>
  '(first, second) ← two_args args;
  d1 ← deref first;
  x ← getScalar w d1;
  d2 ← deref second;
  y ← getScalar w d2;
  if in_s (Z.max w 32) (x + y) then mret (Some (mkScalar (x + y))) else Fault (UB "signed integer overflow").

Definition Int64Eq : MIFunction := inteqgeneric 64.
Definition Int32Eq : MIFunction := inteqgeneric 32.
Definition Int16Eq : MIFunction := inteqgeneric 16.
Definition Int64Add : MIFunction := intaddgeneric 64.
Definition Int32Add : MIFunction := intaddgeneric 32.
Definition Int16Add : MIFunction := intaddgeneric 16.

Definition IntOutput (w : Z) (value : Datum) : result bytes := x ← getScalar w value; mret (bytes_of (pretty x)).
Definition Int16Output : Datum -> result bytes := IntOutput 16.
Definition Int32Output : Datum -> result bytes := IntOutput 32.
Definition Int64Output : Datum -> result bytes := IntOutput 64.

(** ** [db/builtin/text.cpp]

    A [Text] is the memory that its pointer points to: the length and the characters. *)
Definition Length (text : bytes) : result Z := rd_u text 0 4.
Definition GetCString (text : bytes) : bytes := drop 4 text.

(** The C string ends at its first null character, which [str] does not contain. *)
Definition FromCString (str : bytes) : result bytes :=
  let length := zlen str in
  if 2 ^ 32 - 1 <? length then Fault (Throw "too large c string")
  else
    let buffer := zeros (4 + length + 1) in
    buffer ← wr buffer 0 (enc_le 4 length);
    wr buffer 4 str.

(** [strncmp(a, b, n) == 0]. *)
Fixpoint strncmp_eq (n : nat) (a b : bytes) : result bool :=
  match n with
  | O => Ok true
  | S k =>
      match a, b with
      | x :: a, y :: b =>
          if bool_decide (x = y) then (if bool_decide (x = x00) then Ok true else strncmp_eq k a b) else Ok false
      | _, _ => Fault (UB "read outside of the object")
      end
  end.

Definition TextEq : MIFunction := fun args =>
  '(first, second) ← two_args args;
  d1 ← deref first;
  first ← getPointer d1;
  d2 ← deref second;
  second ← getPointer d2;
  n1 ← Length first;
  n2 ← Length second;
  if n1 =? n2 then
    e ← strncmp_eq (Z.to_nat n1) (GetCString first) (GetCString second);
    mret (Some (mkBool e))
  else mret (Some (mkBool false)).

Definition TextOutput (value : Datum) : result bytes :=
  text ← getPointer value;
  n ← Length text;
  rd (GetCString text) 0 n.

(** ** Expressions *)
Inductive BoolOp := And | Or | Not.

Inductive IExpressionNode :=
| AttributeExpressionNode (attno : Z)
| ConstantExpressionNode (value : option Datum)
| BoolExpressionNode (expressions : list IExpressionNode) (op : BoolOp)
| FunctionExpressionNode (funcCtx : FunctionContext) (arguments : list IExpressionNode).

(** The constructor of [BoolExpressionNode]. *)
Definition newBoolExpressionNode (expressions : list IExpressionNode) (op : BoolOp) : result IExpressionNode :=
  if (match op with Not => true | _ => false end) && negb (zlen expressions =? 1) then
    Fault (Throw "For NOT only 1 expression is allowed")
  else if zlen expressions =? 0 then Fault (Throw "Expression array does not contain any element")
  else Ok (BoolExpressionNode expressions op).

(** What the loop over the operands does with one value: the result of the node, or the
    next operand. *)
Definition bool_step (op : BoolOp) (v : option Datum) : result (option (option Datum)) :=
  match v with
  | None => Ok (Some None)
  | Some d =>
      val ← getBool d;
      match op with
      | And => mret (if negb val then Some (Some (mkBool false)) else None)
      | Or => mret (if val : bool then Some (Some (mkBool true)) else None)
      | Not => mret (Some (Some d))
      end
  end.

Definition defaultValue (op : BoolOp) : bool := match op with And => true | Or => false | Not => false end.

(** The loop of a strict function over its arguments. *)
Fixpoint any_null (n : nat) (i : nat) (array : DatumArray.t) : result bool :=
  match n with
  | O => Ok false
  | S k => v ← DatumArray.Get array i; (match v with None => Ok true | Some _ => any_null k (S i) array end)
  end.

Definition call_function (ctx : FunctionContext) (array : DatumArray.t) : result (option Datum) :=
  null ← (if IsStrict ctx then any_null (Z.to_nat (DatumArray.Size array)) 0 array else Ok false);
  if null : bool then mret None else Invoke ctx array.

Fixpoint Exec (e : IExpressionNode) (tuple : ITuple) : result (option Datum) :=
  match e with
  | AttributeExpressionNode attno => GetAttribute tuple attno
  | ConstantExpressionNode value => Ok value
  | BoolExpressionNode expressions op =>
      _ ← assert_ (0 <? zlen expressions) "this->_expressions.size() > 0";
      (fix loop (es : list IExpressionNode) : result (option Datum) :=
        match es with
        | [] => Ok (Some (mkBool (defaultValue op)))
        | e :: es =>
            v ← Exec e tuple;
            r ← bool_step op v;
            match r with Some r => Ok r | None => loop es end
        end) expressions
  | FunctionExpressionNode ctx arguments =>
      array ← (fix args (es : list IExpressionNode) (array : DatumArray.t) : result DatumArray.t :=
        match es with
        | [] => Ok array
        | e :: es => v ← Exec e tuple; args es (DatumArray.Add array v)
        end) arguments DatumArray.empty;
      call_function ctx array
  end.

Definition ExecQual (e : IExpressionNode) (tuple : ITuple) : result bool :=
  value ← Exec e tuple;
  match value with Some d => getBool d | None => Ok false end.
End functions.

(** ** Virtual tuples *)
Module VirtualTuple.
Record t := mk { values : list Datum; isnull : list bool }.

Section virtual.
Context `{Build}.

Definition GetAttribute (vt : t) (attno : Z) : result (option Datum) :=
  idx ← AttrNumber.ToIndex attno;
  n ← vec_get (isnull vt) idx;
  if n : bool then mret None else Some <$> vec_get (values vt) idx.

Definition SetAttribute (vt : t) (attno : Z) (value : option Datum) : result t :=
  idx ← AttrNumber.ToIndex attno;
  values ← vec_set (values vt) idx (default (Scalar 0) value);
  isnull ← vec_set (isnull vt) idx (match value with Some _ => false | None => true end);
  mret (mk values isnull).

Definition GetMaxAttno (vt : t) : Z := wrap 16 (zlen (values vt)).

Definition Copy (tuple : ITuple) : result t :=
  let natts := HeapTable.GetMaxAttno tuple in
  let n := Z.to_nat natts in
  '(values, isnull) ← AttrNumber.for_each natts (fun '(values, isnull) idx =>
     attr ← HeapTable.GetAttribute tuple (Z.of_nat idx + 1);
     values ← vec_set values idx (default (Scalar 0) attr);
     isnull ← vec_set isnull idx (match attr with Some _ => false | None => true end);
     mret (values, isnull)) (replicate n (Scalar 0), replicate n false);
  mret (mk values isnull).

Definition to_ITuple (vt : t) : ITuple := mkITuple (GetAttribute vt) (GetMaxAttno vt).
End virtual.
End VirtualTuple.

(** ** Boolean expressions *)
Section expressions.
Context `{Build}.
Implicit Type t : ITuple.

Definition bool_loop (op : BoolOp) t : list IExpressionNode -> result (option Datum) :=
  fix loop (es : list IExpressionNode) : result (option Datum) :=
    match es with
    | [] => Ok (Some (mkBool (defaultValue op)))
    | e :: es => v ← Exec e t; r ← bool_step op v; match r with Some r => Ok r | None => loop es end
    end.

Lemma Exec_bool es op t : es <> [] -> Exec (BoolExpressionNode es op) t = bool_loop op t es.
Proof.
  intros He. cbn [Exec]. rewrite assert_Ok; [done|]. apply Z.ltb_lt. destruct es; [done | zl].
Qed.

Lemma bool_loop_app op t es1 es2 :
  (forall e, e ∈ es1 -> exists v, Exec e t = Ok v /\ bool_step op v = Ok None) ->
  bool_loop op t (es1 ++ es2) = bool_loop op t es2.
Proof.
  induction es1 as [|e es1 IH]; intros Hn; [done|]. cbn [app bool_loop].
  destruct (Hn e) as (v & -> & Hs); [set_solver|]. rewrite bind_Ok, Hs, bind_Ok. apply IH. set_solver.
Qed.

(** The value of an operand. *)
Definition truth (v : option Datum) : result (option bool) :=
  match v with None => Ok None | Some d => Some <$> getBool d end.

Lemma step_neutral op v :
  op <> Not -> truth v = Ok (Some (defaultValue op)) -> bool_step op v = Ok None.
Proof.
  intros Hop. destruct v as [d|]; [|done]. unfold truth, bool_step. destruct (getBool d) as [b|e]; [|done].
  cbn. intros [= ->]. by destruct op.
Qed.

Lemma step_decides op v b :
  op <> Not -> truth v = Ok b -> b <> Some (defaultValue op) -> bool_step op v = Ok (Some (mkBool <$> b)).
Proof.
  intros Hop. destruct v as [d|]; cbn; [|by intros [= <-]]. destruct (getBool d) as [x|e]; [|done].
  cbn. intros [= <-] Hne. destruct op, x; cbn in *; done.
Qed.

(** C35: AND and OR over operands that evaluate to truth values or NULL: the operands are
    evaluated from the left; the first one that is NULL or absorbing (false for AND, true
    for OR) is the result, and the operands after it are not evaluated; when there is none,
    the result is the neutral value. So a NULL before an absorbing operand hides it, unlike
    in the three-valued logic of SQL. NOT has the value of its operand, not its negation. *)
Theorem bool_expression_value op t :
  (op <> Not -> forall (es1 : list IExpressionNode) e es2 v b,
    (forall e', e' ∈ es1 -> exists v', Exec e' t = Ok v' /\ truth v' = Ok (Some (defaultValue op))) ->
    Exec e t = Ok v -> truth v = Ok b -> b <> Some (defaultValue op) ->
    Exec (BoolExpressionNode (es1 ++ e :: es2) op) t = Ok (mkBool <$> b)) /\
  (op <> Not -> forall es : list IExpressionNode, es <> [] ->
    (forall e', e' ∈ es -> exists v', Exec e' t = Ok v' /\ truth v' = Ok (Some (defaultValue op))) ->
    Exec (BoolExpressionNode es op) t = Ok (Some (mkBool (defaultValue op)))) /\
  (forall e v b, newBoolExpressionNode [e] Not = Ok (BoolExpressionNode [e] Not) /\
    (Exec e t = Ok v -> truth v = Ok b -> Exec (BoolExpressionNode [e] Not) t = Ok v)).
Proof.
  assert (Hneutral : op <> Not -> forall es : list IExpressionNode, (forall e', e' ∈ es -> exists v', Exec e' t = Ok v' /\ truth v' = Ok (Some (defaultValue op))) ->
    forall e', e' ∈ es -> exists v', Exec e' t = Ok v' /\ bool_step op v' = Ok None).
  { intros Hop es Hn e' He'. destruct (Hn e' He') as (v' & Hv' & Ht). exists v'. split; [done | by apply step_neutral]. }
  split; [|split].
  - intros Hop es1 e es2 v b Hn He Ht Hb. rewrite Exec_bool by (by destruct es1).
    rewrite (bool_loop_app op t es1) by (by apply Hneutral). cbn [bool_loop].
    by rewrite He, bind_Ok, (step_decides op v b Hop Ht Hb), bind_Ok.
  - intros Hop es Hne Hn. rewrite Exec_bool, <-(app_nil_r es) by done.
    by rewrite (bool_loop_app op t es) by (by apply Hneutral).
  - intros e v b. split; [done|]. intros He Ht. rewrite Exec_bool by done. cbn [bool_loop]. rewrite He, bind_Ok.
    destruct v as [d|]; [|done]. cbn in *. by destruct (getBool d).
Qed.

(** ** Functions *)
Definition eval_args t : list IExpressionNode -> DatumArray.t -> result DatumArray.t :=
  fix args (es : list IExpressionNode) (array : DatumArray.t) : result DatumArray.t :=
    match es with [] => Ok array | e :: es => v ← Exec e t; args es (DatumArray.Add array v) end.

Lemma eval_args_ok t es vs array :
  Forall2 (fun e v => Exec e t = Ok v) es vs -> eval_args t es array = Ok (fold_left DatumArray.Add vs array).
Proof.
  intros Hf. revert array. induction Hf as [|e v es vs He Hf IH]; intros array; [done|].
  cbn [eval_args fold_left]. by rewrite He, bind_Ok.
Qed.

Lemma any_null_ok vs n i :
  (i + n = length vs)%nat -> any_null n i (DatumArray.of_list vs) = Ok (existsb (fun v => bool_decide (v = None)) (drop i vs)).
Proof.
  revert i. induction n as [|n IH]; intros i Hn; cbn [any_null].
  - by rewrite drop_ge by lia.
  - destruct (lookup_lt_is_Some_2 vs i) as [v Hv]; [lia|]. rewrite (DatumArray.Get_of_list vs i v Hv), bind_Ok.
    rewrite (drop_S vs v i Hv). cbn [existsb]. destruct v as [d|]; [|done].
    rewrite IH by lia. by rewrite bool_decide_false by done.
Qed.

Lemma Size_of_list vs : DatumArray.Size (DatumArray.of_list vs) = zlen vs.
Proof.
  unfold DatumArray.Size, DatumArray.of_list. destruct (DatumArray.fold_Add vs DatumArray.empty) as (-> & _).
  unfold zlen. by rewrite length_app, length_map.
Qed.

(** The value of a call: NULL for a strict function when an argument is NULL. *)
Lemma Exec_function ctx es vs t :
  Forall2 (fun e v => Exec e t = Ok v) es vs ->
  Exec (FunctionExpressionNode ctx es) t =
    if IsStrict ctx && existsb (fun v => bool_decide (v = None)) vs then Ok None
    else Invoke ctx (DatumArray.of_list vs).
Proof.
  intros Hf. change (Exec (FunctionExpressionNode ctx es) t) with (array ← eval_args t es DatumArray.empty; call_function ctx array).
  rewrite (eval_args_ok t es vs _ Hf), bind_Ok. fold (DatumArray.of_list vs). unfold call_function.
  destruct (IsStrict ctx); [|done]. rewrite Size_of_list. unfold zlen. rewrite Nat2Z.id, any_null_ok by done. rewrite bind_Ok. cbn [drop andb].
  done.
Qed.

Lemma two_args_ok v1 v2 : two_args (DatumArray.of_list [v1; v2]) = Ok (v1, v2).
Proof.
  unfold two_args, GetNArgs, GetArg. rewrite Size_of_list, assert_Ok by done. rewrite bind_Ok.
  rewrite (DatumArray.Get_of_list [v1; v2] 0 v1 eq_refl), bind_Ok.
  by rewrite (DatumArray.Get_of_list [v1; v2] 1 v2 eq_refl), bind_Ok.
Qed.

(** ** Texts *)
Lemma FromCString_ok (str : bytes) :
  zlen str < 2 ^ 32 -> FromCString str = Ok (enc_le 4 (zlen str) ++ str ++ [x00]).
Proof.
  intros Hs. pose proof (zlen_nonneg str). unfold FromCString. rewrite (proj2 (Z.ltb_ge _ _)) by lia.
  pose proof (wr_frontier [] (enc_le 4 (zlen str)) (4 + zlen str + 1)) as W1. rewrite zlen_enc_le in W1.
  change (zlen (@nil byte)) with 0 in W1. cbn [app] in W1. rewrite W1, bind_Ok by lia.
  pose proof (wr_frontier (enc_le 4 (zlen str)) str (4 + zlen str + 1 - Z.of_nat 4)) as W2. rewrite zlen_enc_le in W2.
  change (Z.of_nat 4) with 4 in *. rewrite W2 by lia. replace (4 + zlen str + 1 - 4 - zlen str) with 1 by lia. by rewrite <-app_assoc.
Qed.

Lemma Length_ok (str rest : bytes) : zlen str < 2 ^ 32 -> Length (enc_le 4 (zlen str) ++ rest) = Ok (zlen str).
Proof.
  intros Hs. pose proof (zlen_nonneg str). unfold Length. pose proof (rd_u_frontier [] 4 (zlen str) rest) as R.
  change (zlen (@nil byte)) with 0 in R. cbn [app] in R. rewrite R. by rewrite Z.mod_small by lia.
Qed.

Lemma strncmp_same_length (a b ra rb : bytes) :
  length a = length b -> x00 ∉ a -> strncmp_eq (length a) (a ++ ra) (b ++ rb) = Ok (bool_decide (a = b)).
Proof.
  revert b. induction a as [|x a IH]; intros [|y b] Hl Hz; try done. injection Hl as Hl. cbn [length strncmp_eq app].
  case_bool_decide as Hxy; [subst y | rewrite bool_decide_false by congruence; done].
  rewrite bool_decide_false by set_solver. rewrite IH by (done || set_solver).
  f_equal. apply bool_decide_ext. split; [by intros -> | by intros [= ->]].
Qed.

(** A C string of less than 4 GiB becomes a text whose output is the string again, and
    two such texts are equal for [TextEq] exactly when the strings are. *)
Theorem text_roundtrip s1 s2 :
  zlen s1 < 2 ^ 32 -> zlen s2 < 2 ^ 32 -> x00 ∉ s1 ->
  exists m1 m2, FromCString s1 = Ok m1 /\ FromCString s2 = Ok m2 /\
    TextOutput (Ptr m1) = Ok s1 /\
    TextEq (DatumArray.of_list [Some (Ptr m1); Some (Ptr m2)]) = Ok (Some (mkBool (bool_decide (s1 = s2)))).
Proof.
  intros H1 H2 Hz. exists (enc_le 4 (zlen s1) ++ s1 ++ [x00]), (enc_le 4 (zlen s2) ++ s2 ++ [x00]).
  pose proof (zlen_nonneg s1). assert (Hd : forall (s r : bytes), GetCString (enc_le 4 (zlen s) ++ r) = r) by done.
  split; [by apply FromCString_ok|]. split; [by apply FromCString_ok|]. split.
  - unfold TextOutput, getPointer. rewrite bind_Ok, Length_ok, bind_Ok, Hd by done.
    pose proof (rd_frontier [] s1 [x00]) as R. exact R.
  - unfold TextEq. rewrite two_args_ok. do 5 (rewrite bind_Ok; cbn [deref of_option getPointer]).
    rewrite (Length_ok s1), bind_Ok, (Length_ok s2), bind_Ok, !Hd by done.
    destruct (Z.eqb_spec (zlen s1) (zlen s2)) as [He|Hne].
    + unfold zlen at 1. rewrite Nat2Z.id, strncmp_same_length by (done || (unfold zlen in He; lia)). done.
    + rewrite bool_decide_false by (intros ->; done). done.
Qed.

(** Two texts of one length that differ only after a null character are equal for [TextEq]. *)
Lemma text_eq_stops_at_null :
  TextEq (DatumArray.of_list [Some (Ptr (enc_le 4 2 ++ [x00; x61])); Some (Ptr (enc_le 4 2 ++ [x00; x62]))]) =
    Ok (Some (mkBool true)).
Proof. unfold TextEq. rewrite two_args_ok. reflexivity. Qed.
End expressions.

(** ** Virtual tuples *)
Section virtual_proofs.
Context `{Build}.
Import VirtualTuple.

(** A virtual tuple whose attributes, from the first, are [l]. *)
Definition holds (vt : VirtualTuple.t) (l : list (option Datum)) : Prop :=
  values vt = map (default (Scalar 0)) l /\ isnull vt = map (fun v => bool_decide (v = None)) l.

Lemma GetAttribute_holds vt l i v :
  holds vt l -> l !! i = Some v -> Z.of_nat i + 1 < 2 ^ 64 -> GetAttribute vt (Z.of_nat i + 1) = Ok v.
Proof.
  intros [Hv Hn] Hi Hr. unfold GetAttribute. rewrite AttrNumber.ToIndex_ok, bind_Ok by lia.
  replace (Z.to_nat (Z.of_nat i + 1 - 1)) with i by lia. rewrite Hn, Hv.
  rewrite (vec_get_Ok _ _ (bool_decide (v = None))) by by rewrite list_lookup_fmap, Hi.
  rewrite (vec_get_Ok _ _ (default (Scalar 0) v)) by by rewrite list_lookup_fmap, Hi.
  by destruct v.
Qed.

Lemma SetAttribute_holds vt l i v :
  holds vt l -> (i < length l)%nat -> Z.of_nat i + 1 < 2 ^ 64 ->
  exists vt', SetAttribute vt (Z.of_nat i + 1) v = Ok vt' /\ holds vt' (<[i := v]> l).
Proof.
  intros [Hv Hn] Hi Hr. unfold SetAttribute. rewrite AttrNumber.ToIndex_ok, bind_Ok by lia.
  replace (Z.to_nat (Z.of_nat i + 1 - 1)) with i by lia.
  rewrite (vec_set_Ok (values vt)) by by rewrite Hv, length_map.
  rewrite bind_Ok, (vec_set_Ok (isnull vt)) by by rewrite Hn, length_map. rewrite bind_Ok.
  eexists. split; [done|]. split; cbn [values isnull].
  - by rewrite Hv, list_fmap_insert.
  - rewrite Hn, list_fmap_insert. by destruct v.
Qed.

(** A tuple whose attributes, from the first, are [l]. *)
Definition tuple_holds (t : ITuple) (l : list (option Datum)) : Prop :=
  HeapTable.GetMaxAttno t = zlen l /\ forall i v, l !! i = Some v -> HeapTable.GetAttribute t (Z.of_nat i + 1) = Ok v.

Lemma Copy_holds t l : tuple_holds t l -> zlen l < 2 ^ 16 - 1 -> exists vt, Copy t = Ok vt /\ holds vt l.
Proof.
  intros [Hm Ha] Hl. pose proof (zlen_nonneg l). unfold Copy. rewrite Hm.
  set (n := length l). assert (Hz : zlen l = Z.of_nat n) by done. rewrite Hz, Nat2Z.id.
  match goal with |- context [AttrNumber.for_each _ ?f _] => set (body := f) end.
  destruct (AttrNumber.for_each_inv (fun i '(vs, ns) =>
      vs = map (default (Scalar 0)) (take i l) ++ replicate (n - i) (Scalar 0) /\
      ns = map (fun v => bool_decide (v = None)) (take i l) ++ replicate (n - i) false)
    body (Z.of_nat n) (replicate n (Scalar 0), replicate n false)) as ([vs ns] & Hf & Hv & Hn).
  - unfold AttrNumber.MaxValue. lia.
  - by rewrite Nat.sub_0_r.
  - intros i [vs ns] Hi [Hv Hn]. destruct (lookup_lt_is_Some_2 l i) as [v Hlv]; [lia|]. unfold body.
    rewrite (Ha i v Hlv), bind_Ok. assert (Hlen : forall B (f : option Datum -> B), length (map f (take i l)) = i).
    { intros B f. rewrite length_map, length_take. lia. }
    rewrite (vec_set_Ok vs) by (rewrite Hv, length_app, Hlen, length_replicate; lia). rewrite bind_Ok.
    rewrite (vec_set_Ok ns) by (rewrite Hn, length_app, Hlen, length_replicate; lia). rewrite bind_Ok.
    eexists. split; [done|]. replace (n - i)%nat with (S (n - S i)) in Hv, Hn by lia. cbn [replicate] in Hv, Hn.
    rewrite (take_S_r l i v Hlv), !map_app, <-!app_assoc, Hv, Hn.
    rewrite !insert_app_r_alt by (rewrite Hlen; lia). rewrite !Hlen, Nat.sub_diag. cbn. by destruct v.
  - rewrite Hf, bind_Ok. eexists. split; [done|]. rewrite Nat2Z.id in Hv, Hn. rewrite Nat.sub_diag, take_ge, app_nil_r in Hv, Hn by done.
    done.
Qed.

Lemma to_ITuple_holds vt l : holds vt l -> zlen l < 2 ^ 16 -> tuple_holds (to_ITuple vt) l.
Proof.
  intros Hh Hl. pose proof (zlen_nonneg l). pose proof Hh as [Hv _]. split; cbn.
  - unfold GetMaxAttno, zlen. rewrite Hv, length_map. apply wrap_small. unfold zlen in Hl. lia.
  - intros i v Hi. apply (GetAttribute_holds vt l i v Hh Hi). pose proof (lookup_lt_Some _ _ _ Hi). unfold zlen in Hl. lia.
Qed.
End virtual_proofs.

(** ** Witnesses *)
Definition ex_row : ITuple := mkITuple (fun a => Ok (if a =? 1 then Some (Scalar 7) else None)) 2.

Lemma bool_expression_value_witness :
  Exec (H := DebugBuild) (BoolExpressionNode [ConstantExpressionNode (Some (Scalar 1)); AttributeExpressionNode 2;
    ConstantExpressionNode (Some (Scalar 0))] And) ex_row = Ok None.
Proof.
  apply (proj1 (bool_expression_value (H := DebugBuild) And ex_row) ltac:(discriminate)
    [ConstantExpressionNode (Some (Scalar 1))] (AttributeExpressionNode 2) [ConstantExpressionNode (Some (Scalar 0))] None None);
    [|reflexivity | reflexivity | discriminate].
  intros e He. apply list_elem_of_singleton in He as ->. exists (Some (Scalar 1)). split; reflexivity.
Defined.

Lemma text_roundtrip_witness :
  exists m1 m2, FromCString [x61; x62] = Ok m1 /\ FromCString [x61; x63] = Ok m2 /\ TextOutput (Ptr m1) = Ok [x61; x62] /\
    TextEq (H := DebugBuild) (DatumArray.of_list [Some (Ptr m1); Some (Ptr m2)]) = Ok (Some (mkBool false)).
Proof.
  destruct (text_roundtrip (H := DebugBuild) [x61; x62] [x61; x63] eq_refl eq_refl) as (m1 & m2 & E1 & E2 & Ho & He).
  - intros Hi. repeat (apply elem_of_cons in Hi as [Hi|Hi]; [discriminate|]). by apply elem_of_nil in Hi.
  - exists m1, m2. split; [exact E1|]. split; [exact E2|]. split; [exact Ho | exact He].
Defined.
