(* ===== verification/Logger.v ===== *)
(** The log: [server/logger], with its formatter, its two handlers and the entry points. The
    latch of the logger is held around one call of the handler. *)
From S2P Require Import Prelude Types File Executor.

Inductive LogLevel := OFF | DEBUG | INFO | WARNING | ERROR.

Definition MaxLogMessageSize : Z := 1024.

(** [c_str]: a text ends at its first zero byte. *)
Fixpoint c_str (s : bytes) : bytes :=
  match s with [] => [] | c :: s => if bool_decide (c = x00) then [] else c :: c_str s end.

(** The C library's [vsnprintf], where [text] is the whole formatted message: it stores what fits with a
    zero byte at the end, and returns the length of the whole text (a negative number when that is
    not an [int]). *)
Definition vsnprintf (buffer : bytes) (off bufferSize : Z) (text : bytes) : bytes * Z :=
  let stored := slice 0 (bufferSize - 1) text in
  (blit off (stored ++ [x00]) buffer, if 2 ^ 31 <=? zlen text then -1 else zlen text).

Definition levelMsg (level : LogLevel) : bytes :=
  bytes_of match level with DEBUG => "[DEBUG] " | INFO => "[INFO] " | WARNING => "[WARN] " | ERROR => "[ERROR] " | OFF => "[???] " end.

(** The buffer, and the size that the message is said to have. *)
Definition format_msg (level : LogLevel) (text output : bytes) (bufferSize : Z) : bytes * Z :=
  let msg := levelMsg level in
  let output := blit 0 msg output in
  let '(output, count) := vsnprintf output (zlen msg) (bufferSize - zlen msg) text in
  (output, wrap 64 (zlen msg + wrap 64 count)).

Definition FormatLogMessage (level : LogLevel) (text : bytes) : result bytes :=
  let '(buffer, size) := format_msg level text (zeros MaxLogMessageSize) MaxLogMessageSize in
  if size <=? MaxLogMessageSize then Ok (slice 0 size buffer) else Fault (UB "read past the end of the array").

(** *** Handlers *)
Class ILogHandler (H : Type) := { handler_Write : bytes -> M H unit }.

(** [ConsoleLogHandler]: the standard output; [FileLogHandler]: a file. *)
Record ConsoleLogHandler := mkConsole { console : bytes }.
Record FileLogHandler := mkFileLog { log_file : bytes }.

#[export] Instance ConsoleLogHandler_Write : ILogHandler ConsoleLogHandler := {
  handler_Write message := modify (fun h => mkConsole (console h ++ message ++ [x0a]))
}.

#[export] Instance FileLogHandler_Write `{Posix} : ILogHandler FileLogHandler := {
  handler_Write message := fun h =>
    let '(r, f) := (_ ← File.Append message; File.Append [x0a]) (log_file h) in (r, mkFileLog f)
}.

(** [~FileLogHandler], on the contents; its [Close] is that of [Descriptors]. *)
Definition destroy `{Posix} : M FileLogHandler unit := fun h => let '(r, f) := File.Fsync (log_file h) in (r, mkFileLog f).

Section logger.
Context {H : Type} `{ILogHandler H}.

Definition log (level : LogLevel) (text : bytes) : M H unit :=
  msg ← lift (FormatLogMessage level text);
  handler_Write msg.

Definition Debug (text : bytes) : M H unit := log DEBUG text.
Definition Info (text : bytes) : M H unit := log INFO text.
Definition Warning (text : bytes) : M H unit := log WARNING text.
Definition Error (text : bytes) : M H unit := log ERROR text.
End logger.

(** ** Theorems *)
Lemma zlen_levelMsg level : 6 <= zlen (levelMsg level) <= 8.
Proof. by destruct level. Qed.

Lemma slice_ge n (l : bytes) : zlen l <= n -> slice 0 n l = l.
Proof. intros Hn. unfold slice, zlen in *. cbn [Z.to_nat drop]. apply take_ge. lia. Qed.

(** The message as it is stored. *)
Lemma format_msg_ok level text :
  zlen text < 2 ^ 31 -> let n := zlen (levelMsg level) in
  exists rest, format_msg level text (zeros MaxLogMessageSize) MaxLogMessageSize =
    (levelMsg level ++ slice 0 (MaxLogMessageSize - n - 1) text ++ [x00] ++ rest, n + zlen text) /\
    zlen rest = MaxLogMessageSize - n - 1 - zlen (slice 0 (MaxLogMessageSize - n - 1) text).
Proof.
  intros Ht n. pose proof (zlen_levelMsg level) as Hn. pose proof (zlen_nonneg text). fold n in Hn. unfold format_msg, vsnprintf. fold n.
  rewrite (proj2 (Z.leb_gt _ _)) by lia. rewrite (wrap_small 64 (zlen text)), wrap_small by lia. unfold MaxLogMessageSize.
  assert (Hb : blit 0 (levelMsg level) (zeros 1024) = levelMsg level ++ zeros (1024 - n)).
  { unfold blit, zeros. change (Z.to_nat 0) with 0%nat. rewrite take_0, drop_replicate. cbn [app]. f_equal. f_equal. unfold n, zlen in *. lia. }
  rewrite Hb. set (s := slice 0 (1024 - n - 1) text).
  assert (Hs : zlen s <= 1024 - n - 1) by (unfold s, slice, zlen; cbn [Z.to_nat drop]; rewrite length_take; lia).
  exists (zeros (1024 - n - 1 - zlen s)). split; [|apply zlen_zeros; lia]. f_equal. unfold blit.
  pose proof (zlen_nonneg s). assert (Hln : length (levelMsg level) = Z.to_nat n) by (unfold n, zlen; lia).
  rewrite take_app_length' by done. rewrite <-Hln, drop_app_add, length_app. rewrite <-!app_assoc. do 3 f_equal.
  unfold zeros. rewrite drop_replicate. f_equal. unfold zlen in *. cbn [length]. lia.
Qed.

Section lines.
Context {H : Type} `{ILogHandler H} (level : LogLevel) (text : bytes) (h : H).

Lemma log_fits : zlen (levelMsg level) + zlen text < MaxLogMessageSize -> log level text h = handler_Write (levelMsg level ++ text) h.
Proof.
  intros Hl. pose proof (zlen_levelMsg level) as Hn. pose proof (zlen_nonneg text). unfold MaxLogMessageSize in Hl.
  destruct (format_msg_ok level text ltac:(lia)) as (rest & Hf & Hr). unfold log, FormatLogMessage. rewrite Hf. unfold MaxLogMessageSize in *.
  rewrite (proj2 (Z.leb_le _ _)) by lia. erewrite lift_Ok by reflexivity. f_equal. rewrite (slice_ge _ text) by lia.
  rewrite app_assoc. rewrite <-zlen_app. rewrite slice_app_l by lia. apply slice_all.
Qed.

Lemma log_exact : zlen (levelMsg level) + zlen text = MaxLogMessageSize ->
  log level text h = handler_Write (levelMsg level ++ slice 0 (zlen text - 1) text ++ [x00]) h.
Proof.
  intros Hl. pose proof (zlen_levelMsg level) as Hn. pose proof (zlen_nonneg text). unfold MaxLogMessageSize in Hl.
  destruct (format_msg_ok level text ltac:(lia)) as (rest & Hf & Hr). unfold log, FormatLogMessage. rewrite Hf. unfold MaxLogMessageSize in *.
  rewrite (proj2 (Z.leb_le _ _)) by lia. erewrite lift_Ok by reflexivity. f_equal.
  replace (1024 - zlen (levelMsg level) - 1) with (zlen text - 1) in * by lia.
  assert (Hs : zlen (slice 0 (zlen text - 1) text) = zlen text - 1) by (apply zlen_slice; lia).
  rewrite Hs in Hr. replace rest with (@nil byte) by (destruct rest as [|b rest]; [done|]; rewrite zlen_cons in Hr; pose proof (zlen_nonneg rest); lia).
  rewrite app_nil_r. apply slice_ge. rewrite !zlen_app, Hs. change (zlen [x00]) with 1. lia.
Qed.

Lemma log_overflow : zlen text < 2 ^ 31 -> MaxLogMessageSize < zlen (levelMsg level) + zlen text ->
  log level text h = (Fault (UB "read past the end of the array"), h).
Proof.
  intros Ht Hl. destruct (format_msg_ok level text Ht) as (rest & Hf & Hr). unfold log, FormatLogMessage. rewrite Hf. unfold MaxLogMessageSize in *.
  by rewrite (proj2 (Z.leb_gt _ _)) by lia.
Qed.
End lines.

(** C39: A log line: the level and the text when both are shorter than the buffer of 1024 bytes; with
    exactly 1024 bytes the last character is lost, to a zero byte; and a longer text (of up to [INT_MAX] bytes)
    makes the string of the message be read past the end of the buffer, because [vsnprintf] returns the
    length that the text would have had. *)
Theorem log_line {H : Type} `{ILogHandler H} (level : LogLevel) (text : bytes) (h : H) :
  zlen text < 2 ^ 31 ->
  (zlen (levelMsg level) + zlen text < MaxLogMessageSize -> log level text h = handler_Write (levelMsg level ++ text) h) /\
  (zlen (levelMsg level) + zlen text = MaxLogMessageSize ->
    log level text h = handler_Write (levelMsg level ++ slice 0 (zlen text - 1) text ++ [x00]) h) /\
  (MaxLogMessageSize < zlen (levelMsg level) + zlen text -> log level text h = (Fault (UB "read past the end of the array"), h)).
Proof. intros Ht. split_and!; [apply log_fits | apply log_exact | by apply log_overflow]. Qed.

Lemma log_line_witness :
  Debug (bytes_of "got query: SELECT 1") (mkConsole []) = (Ok tt, mkConsole (bytes_of "[DEBUG] got query: SELECT 1" ++ [x0a])) /\
  Debug (bytes_of "got query: " ++ c_str (replicate 1006 x61)) (mkConsole []) = (Fault (UB "read past the end of the array"), mkConsole []).
Proof.
  split.
  - destruct (log_line DEBUG (bytes_of "got query: SELECT 1") (mkConsole [])) as [E _]; [vm_compute; reflexivity|].
    exact (E ltac:(vm_compute; reflexivity)).
  - destruct (log_line DEBUG (bytes_of "got query: " ++ c_str (replicate 1006 x61)) (mkConsole [])) as (_ & _ & E); [vm_compute; reflexivity|].
    exact (E ltac:(vm_compute; reflexivity)).
Defined.
