(* ===== verification/Plan.v ===== *)
(** [executor/plan]: the plan nodes, over the interface of tables and scans
    ([access/ITable.hpp], [access/ITableScan.hpp]). The heap table is an instance. *)
From S2P Require Import Prelude Types Transactions WAL UndoRecord TupleSerializer HeapPage World HeapTable HeapScan HeapExamples Executor.

(** ** The interface: [W] is the state of the storage, [T] the tuples that a scan returns and
    [Sc] the states of scans. *)
Class ITable (W T Sc : Type) := {
  as_ITuple : T -> ITuple;
  tbl_StartScan : Snapshot -> M W Sc;
  tbl_BeginScan : Sc -> M W Sc;
  tbl_GetNextTuple : Sc -> M W (option T * Sc);
  tbl_EndScan : Sc -> M W Sc;
  tbl_InsertTuple : ITuple -> M W unit;
  tbl_UpdateTuple : T -> ITuple -> M W unit;
  tbl_DeleteTuple : T -> M W unit
}.

#[export] Instance HeapTable_ITable `{Build} {P U L X : Type} `{PageStore P, UndoStore U, WalStore L, TxnTable X}
    (WaitTransactionEnd : Z -> M (World P U L X) unit) (tableId : Z) (desc : TupleDescriptor) (my_xid : Z) (fuel : nat)
    : ITable (World P U L X) HeapTuple HeapTableScan := {
  as_ITuple := HeapTuple_ITuple;
  tbl_StartScan snapshot := mret (StartScan snapshot);
  tbl_BeginScan := BeginScan tableId;
  tbl_GetNextTuple := GetNextTuple tableId desc my_xid fuel;
  tbl_EndScan s := mret (EndScan s);
  tbl_InsertTuple := InsertTuple tableId desc my_xid fuel;
  tbl_UpdateTuple := UpdateTuple WaitTransactionEnd tableId desc my_xid fuel;
  tbl_DeleteTuple := DeleteTuple WaitTransactionEnd tableId my_xid
}.

Section plan.
Context `{Build} {W T Sc : Type} `{ITable W T Sc}.

(** The classes derived from [PlanNode]: the members that [Execute] uses, and [_nrows]. *)
Inductive PlanNode :=
| SeqScan (scan : option Sc) (qual : option IExpressionNode) (nrows : Z)
| InsertNode (tuples : list ITuple) (nrows : Z)
| UpdateNode (qual : IExpressionNode) (updates : list (Z * IExpressionNode)) (scan : option Sc) (nrows : Z)
| DeleteNode (qual : IExpressionNode) (scan : option Sc) (nrows : Z).

Definition GetRowsProcessed (node : PlanNode) : Z :=
  match node with SeqScan _ _ n | InsertNode _ n | UpdateNode _ _ _ n | DeleteNode _ _ n => n end.

(** The constructors. *)
Definition newSeqScan (qual : option IExpressionNode) : PlanNode := SeqScan None qual 0.
Definition newInsertNode (tuples : list ITuple) : PlanNode := InsertNode tuples 0.
Definition newUpdateNode (qual : option IExpressionNode) (updates : list (Z * IExpressionNode)) : result PlanNode :=
  match qual with None => Fault (Throw "qual is null") | Some qual => Ok (UpdateNode qual updates None 0) end.
Definition newDeleteNode (qual : option IExpressionNode) : result PlanNode :=
  match qual with None => Fault (Throw "predicate is not provided") | Some qual => Ok (DeleteNode qual None 0) end.

Definition begin_scan (snapshot : Snapshot) : M W Sc :=
  scan ← tbl_StartScan snapshot;
  tbl_BeginScan scan.

Definition Start (node : PlanNode) (snapshot : Snapshot) : M W PlanNode :=
  match node with
  | SeqScan _ qual n => scan ← begin_scan snapshot; mret (SeqScan (Some scan) qual n)
  | InsertNode tuples n => mret (InsertNode tuples n)
  | UpdateNode qual updates scan n =>
      _ ← lift (assert_ (match scan with None => true | Some _ => false end) "this->_scan == nullptr");
      scan ← begin_scan snapshot; mret (UpdateNode qual updates (Some scan) n)
  | DeleteNode qual _ n => scan ← begin_scan snapshot; mret (DeleteNode qual (Some scan) n)
  end.

Definition End (node : PlanNode) : M W PlanNode :=
  match node with
  | SeqScan scan qual n => scan ← lift (of_option (UB "null pointer") scan); scan ← tbl_EndScan scan; mret (SeqScan (Some scan) qual n)
  | InsertNode tuples n => mret (InsertNode tuples n)
  | UpdateNode qual updates scan n =>
      match scan with
      | Some scan => _ ← tbl_EndScan scan; mret (UpdateNode qual updates None n)
      | None => mret node
      end
  | DeleteNode qual scan n =>
      match scan with
      | Some scan => _ ← tbl_EndScan scan; mret (DeleteNode qual None n)
      | None => mret node
      end
  end.

(** *** SeqScan *)

(** The test of one tuple: without a predicate every tuple passes. *)
Definition passes (qual : option IExpressionNode) (tuple : T) : result bool :=
  match qual with Some qual => ExecQual qual (as_ITuple tuple) | None => Ok true end.

Fixpoint seq_scan (fuel : nat) (qual : option IExpressionNode) (scan : Sc) : M W (option T * Sc) :=
  match fuel with
  | O => throw NoFuel
  | S k =>
      '(tuple, scan) ← tbl_GetNextTuple scan;
      match tuple with
      | None => mret (None, scan)
      | Some tuple =>
          ok ← lift (passes qual tuple);
          if ok : bool then mret (Some tuple, scan) else seq_scan k qual scan
      end
  end.

(** *** InsertNode *)
Fixpoint insert_all (tuples : list ITuple) (nrows : Z) : M W Z :=
  match tuples with [] => mret nrows | tuple :: tuples => _ ← tbl_InsertTuple tuple; insert_all tuples (nrows + 1) end.

(** *** UpdateNode *)
Definition set_one (old : ITuple) (vt : VirtualTuple.t) (u : Z * IExpressionNode) : result VirtualTuple.t :=
  newVal ← Exec u.2 old;
  VirtualTuple.SetAttribute vt u.1 newVal.

Definition make_new (updates : list (Z * IExpressionNode)) (old : ITuple) : result VirtualTuple.t :=
  vt ← VirtualTuple.Copy old;
  foldM (set_one old) updates vt.

Fixpoint update_loop (fuel : nat) (qual : IExpressionNode) (updates : list (Z * IExpressionNode)) (scan : Sc) (nrows : Z)
    : M W (Sc * Z) :=
  match fuel with
  | O => throw NoFuel
  | S k =>
      '(tuple, scan) ← tbl_GetNextTuple scan;
      match tuple with
      | None => mret (scan, nrows)
      | Some oldTuple =>
          ok ← lift (ExecQual qual (as_ITuple oldTuple));
          if ok : bool then
            newTuple ← lift (make_new updates (as_ITuple oldTuple));
            _ ← tbl_UpdateTuple oldTuple (VirtualTuple.to_ITuple newTuple);
            update_loop k qual updates scan (nrows + 1)
          else update_loop k qual updates scan nrows
      end
  end.

(** *** DeleteNode *)
Fixpoint delete_loop (fuel : nat) (qual : IExpressionNode) (scan : Sc) (nrows : Z) : M W (Sc * Z) :=
  match fuel with
  | O => throw NoFuel
  | S k =>
      '(tuple, scan) ← tbl_GetNextTuple scan;
      match tuple with
      | None => mret (scan, nrows)
      | Some tuple =>
          ok ← lift (ExecQual qual (as_ITuple tuple));
          if ok : bool then _ ← tbl_DeleteTuple tuple; delete_loop k qual scan (nrows + 1)
          else delete_loop k qual scan nrows
      end
  end.

Definition Execute (fuel : nat) (node : PlanNode) : M W (option T * PlanNode) :=
  match node with
  | SeqScan scan qual n =>
      scan ← lift (of_option (UB "null pointer") scan);
      '(tuple, scan) ← seq_scan fuel qual scan;
      mret (tuple, SeqScan (Some scan) qual (match tuple with Some _ => n + 1 | None => n end))
  | InsertNode tuples n => n ← insert_all tuples n; mret (None, InsertNode tuples n)
  | UpdateNode qual updates scan n =>
      match scan with
      | None => throw (Throw "scan is not started")
      | Some scan => '(scan, n) ← update_loop fuel qual updates scan n; mret (None, UpdateNode qual updates (Some scan) n)
      end
  | DeleteNode qual scan n =>
      match scan with
      | None => throw (Throw "Start was not invoked")
      | Some scan => '(scan, n) ← delete_loop fuel qual scan n; mret (None, DeleteNode qual (Some scan) n)
      end
  end.

(** The loop of the session over a node: [while (auto tuple = node->Execute())], with what it
    does with each tuple. *)
Fixpoint execute_all (fuel : nat) (each : T -> M W unit) (node : PlanNode) : M W PlanNode :=
  match fuel with
  | O => throw NoFuel
  | S k =>
      '(tuple, node) ← Execute fuel node;
      match tuple with
      | None => mret node
      | Some tuple => _ ← each tuple; execute_all k each node
      end
  end.
End plan.

(** ** SeqScan *)
Section scans.
Context `{Build} {W T Sc : Type} `{ITable W T Sc}.

(** The tuples that a scan yields from a state on, until it reports the end. *)
Inductive yields : Sc -> W -> list T -> Sc -> W -> Prop :=
| yields_end s w s' w' : tbl_GetNextTuple s w = (Ok (None, s'), w') -> yields s w [] s' w'
| yields_next s w t s' w' ts s'' w'' :
    tbl_GetNextTuple s w = (Ok (Some t, s'), w') -> yields s' w' ts s'' w'' -> yields s w (t :: ts) s'' w''.

(** The loop of the session over a node, collecting what it returns. *)
Fixpoint results (fuel : nat) (node : PlanNode) : M W (list T * PlanNode) :=
  match fuel with
  | O => throw NoFuel
  | S k =>
      '(tuple, node) ← Execute fuel node;
      match tuple with
      | None => mret ([], node)
      | Some t => '(ts, node) ← results k node; mret (t :: ts, node)
      end
  end.

Context (qual : option IExpressionNode) (accepts : T -> bool).
(** The predicate has a value on the tuples of the scan. *)
Definition decided (ts : list T) : Prop := Forall (fun t => passes qual t = Ok (accepts t)) ts.

Lemma seq_scan_next fuel s w ts s'' w'' :
  yields s w ts s'' w'' -> decided ts -> (length ts < fuel)%nat ->
  exists o s' w', seq_scan fuel qual s w = (Ok (o, s'), w') /\
    match o with
    | None => filter accepts ts = [] /\ s' = s'' /\ w' = w''
    | Some t => exists ts', filter accepts ts = t :: filter accepts ts' /\ yields s' w' ts' s'' w'' /\ decided ts' /\ (length ts' < length ts)%nat
    end.
Proof.
  intros Hy. revert fuel. induction Hy as [s w s' w' E|s w t s1 w1 ts s2 w2 E Hy IH]; intros fuel Hd Hf;
    (destruct fuel as [|fuel]; [cbn in Hf; lia|]); cbn [seq_scan]; erewrite M_bind_Ok by exact E; cbv beta iota.
  - exists None, s', w'. done.
  - apply Forall_cons in Hd as [Hq Hd]. erewrite lift_Ok by exact Hq. destruct (accepts t) eqn:Ha.
    + exists (Some t), s1, w1. split; [done|]. exists ts. rewrite filter_cons_True by (by rewrite Ha). cbn [length]. split; [done|]. split; [done|]. split; [done | lia].
    + destruct (IH fuel Hd) as (o & s' & w' & Hs & Ho); [cbn in Hf; lia|]. exists o, s', w'. split; [exact Hs|].
      rewrite filter_cons_False by (rewrite Ha; auto). destruct o as [t'|]; [|done]. destruct Ho as (ts' & ? & ? & ? & ?).
      exists ts'. cbn [length]. split_and!; [done | done | done | lia].
Qed.

Lemma results_filter fuel s w ts s'' w'' n :
  yields s w ts s'' w'' -> decided ts -> (length ts < fuel)%nat ->
  results fuel (SeqScan (Some s) qual n) w =
    (Ok (filter accepts ts, SeqScan (Some s'') qual (n + zlen (filter accepts ts))), w'').
Proof.
  revert s w ts n. induction fuel as [|fuel IH]; intros s w ts n Hy Hd Hf; [lia|]. cbn [results].
  destruct (seq_scan_next (S fuel) s w ts s'' w'' Hy Hd Hf) as (o & s' & w' & Hs & Ho).
  assert (He : Execute (S fuel) (SeqScan (Some s) qual n) w =
    (Ok (o, SeqScan (Some s') qual (match o with Some _ => n + 1 | None => n end)), w')).
  { unfold Execute. erewrite lift_Ok by reflexivity. by erewrite M_bind_Ok by exact Hs. }
  erewrite M_bind_Ok by exact He. cbv beta iota. destruct o as [t|].
  - destruct Ho as (ts' & Hfl & Hy' & Hd' & Hlt). erewrite M_bind_Ok by (apply IH; [exact Hy' | exact Hd' | lia]). rewrite Hfl, zlen_cons.
    unfold mret, M_ret. do 4 f_equal. lia.
  - destruct Ho as (Hfl & -> & ->). rewrite Hfl. unfold mret, M_ret. change (zlen (@nil T)) with 0. by rewrite Z.add_0_r.
Qed.

(** A SeqScan node that the session runs to the end returns exactly the tuples of the
    scan that its predicate accepts, in the order of the scan, and counts them. *)
Theorem seq_scan_filters fuel s w ts s'' w'' :
  yields s w ts s'' w'' -> decided ts -> (length ts < fuel)%nat ->
  exists node, results fuel (SeqScan (Some s) qual 0) w = (Ok (filter accepts ts, node), w'') /\
    GetRowsProcessed node = zlen (filter accepts ts).
Proof.
  intros Hy Hd Hf. eexists. split; [by apply (results_filter fuel s w ts)|]. done.
Qed.
End scans.

(** ** The contract of a table under modifications

    What the nodes that change rows rely on: a scan goes on with the tuples that it stood
    before, whatever its own statement changes, and the changes are made in their order. *)
Inductive change (T : Type) := Inserted (new : ITuple) | Updated (old : T) (new : ITuple) | Deleted (old : T).
Arguments Inserted {T} new.
Arguments Updated {T} old new.
Arguments Deleted {T} old.

(** The laws are those of a table whose changes succeed. A heap table may refuse a change with an exception
    ([HeapTable.heap_first_committer_wins]) or wait for itself, which ends the statement, and it yields one page only: for it there are
    [select_over_heap] below and the theorems of [HeapTable], and not these laws. *)
Class ITableLaws (W T Sc : Type) `{ITable W T Sc} := {
  pending : Sc -> W -> list T -> Prop;
  applied : W -> list (change T);
  next_end s w : pending s w [] -> exists s' w', tbl_GetNextTuple s w = (Ok (None, s'), w') /\ applied w' = applied w;
  next_tuple s w t ts : pending s w (t :: ts) ->
    exists s' w', tbl_GetNextTuple s w = (Ok (Some t, s'), w') /\ pending s' w' ts /\ applied w' = applied w;
  update_applies s w ts t new : pending s w ts ->
    exists w', tbl_UpdateTuple t new w = (Ok tt, w') /\ pending s w' ts /\ applied w' = applied w ++ [Updated t new];
  delete_applies s w ts t : pending s w ts ->
    exists w', tbl_DeleteTuple t w = (Ok tt, w') /\ pending s w' ts /\ applied w' = applied w ++ [Deleted t]
}.

Section modifications.
Context `{Build} {W T Sc : Type} `{ITableLaws W T Sc}.
Context (qual : IExpressionNode) (accepts : T -> bool).

(** The predicate has a value on the tuples of the scan. *)
Definition accepted (t : T) : Prop := ExecQual qual (as_ITuple t) = Ok (accepts t).

Lemma delete_loop_ok fuel s w ts n :
  pending s w ts -> Forall accepted ts -> (length ts < fuel)%nat ->
  exists s' w', delete_loop fuel qual s n w = (Ok (s', n + zlen (filter accepts ts)), w') /\
    applied w' = applied w ++ map Deleted (filter accepts ts).
Proof.
  revert s w ts n. induction fuel as [|fuel IH]; intros s w ts n Hp Hq Hf; [lia|]. cbn [delete_loop]. destruct ts as [|t ts].
  - destruct (next_end s w Hp) as (s' & w' & E & Ha). exists s', w'. erewrite M_bind_Ok by exact E. cbv beta iota.
    rewrite filter_nil, app_nil_r. change (zlen (@nil T)) with 0. by rewrite Z.add_0_r.
  - destruct (next_tuple s w t ts Hp) as (s1 & w1 & E & Hp1 & Ha1). erewrite M_bind_Ok by exact E. cbv beta iota.
    apply Forall_cons in Hq as [Hqt Hq]. erewrite lift_Ok by exact Hqt. cbn [length] in Hf. destruct (accepts t) eqn:Hacc.
    + destruct (delete_applies s1 w1 ts t Hp1) as (w2 & E2 & Hp2 & Ha2). erewrite M_bind_Ok by exact E2.
      destruct (IH s1 w2 ts (n + 1) Hp2 Hq) as (s' & w' & E3 & Ha3); [lia|]. exists s', w'.
      rewrite filter_cons_True by (by rewrite Hacc). rewrite zlen_cons, Z.add_assoc. split; [exact E3|].
      rewrite Ha3, Ha2, Ha1, <-app_assoc. done.
    + destruct (IH s1 w1 ts n Hp1 Hq) as (s' & w' & E3 & Ha3); [lia|]. exists s', w'.
      rewrite filter_cons_False by (rewrite Hacc; auto). split; [exact E3 | congruence].
Qed.

(** A DeleteNode deletes exactly the tuples of its scan that its predicate accepts, each
    once and in the order of the scan, returns no tuple, and counts them. *)
Theorem delete_node_deletes fuel s w ts :
  pending s w ts -> Forall accepted ts -> (length ts < fuel)%nat ->
  exists node w', Execute fuel (DeleteNode qual (Some s) 0) w = (Ok (None, node), w') /\
    applied w' = applied w ++ map Deleted (filter accepts ts) /\ GetRowsProcessed node = zlen (filter accepts ts).
Proof.
  intros Hp Hq Hf. destruct (delete_loop_ok fuel s w ts 0 Hp Hq Hf) as (s' & w' & E & Ha).
  exists (DeleteNode qual (Some s') (zlen (filter accepts ts))), w'. split; [|done].
  unfold Execute. by erewrite M_bind_Ok by exact E.
Qed.

(** *** Updates *)

(** The attributes of a tuple, from the first, and the values of expressions over it. *)
Context (row : T -> list (option Datum)) (value : IExpressionNode -> T -> option Datum).
Context (updates : list (Z * IExpressionNode)) (natts : nat).
Hypothesis Hnatts : Z.of_nat natts < 2 ^ 16 - 1.
Hypothesis Hups : forall u, u ∈ updates -> 1 <= u.1 <= Z.of_nat natts.

Record updatable (t : T) : Prop := {
  up_accepted : accepted t;
  up_row : tuple_holds (as_ITuple t) (row t) /\ length (row t) = natts;
  up_values u : u ∈ updates -> Exec u.2 (as_ITuple t) = Ok (value u.2 t)
}.

(** The updated row: the assignments in their order, with the values over the old row. *)
Definition updated_row (t : T) : list (option Datum) :=
  fold_left (fun r u => <[Z.to_nat (u.1 - 1) := value u.2 t]> r) updates (row t).

Lemma set_one_ok old vt u v : Exec u.2 old = Ok v -> set_one old vt u = VirtualTuple.SetAttribute vt u.1 v.
Proof. unfold set_one. by intros ->. Qed.

Lemma make_new_ok t : updatable t -> exists vt, make_new updates (as_ITuple t) = Ok vt /\ tuple_holds (VirtualTuple.to_ITuple vt) (updated_row t).
Proof.
  intros [_ [Ht Hlen] Hvals]. unfold make_new, updated_row.
  destruct (Copy_holds (as_ITuple t) (row t) Ht) as (vt & -> & Hvt); [unfold zlen; lia|]. rewrite bind_Ok.
  assert (Hgen : forall us r vt, (forall u, u ∈ us -> u ∈ updates) -> length r = natts -> holds vt r ->
    exists vt', foldM (set_one (as_ITuple t)) us vt = Ok vt' /\
      holds vt' (fold_left (fun r u => <[Z.to_nat (u.1 - 1) := value u.2 t]> r) us r) /\
      length (fold_left (fun r u => <[Z.to_nat (u.1 - 1) := value u.2 t]> r) us r) = natts).
  { clear -Hups Hvals Hnatts. induction us as [|u us IH]; intros r vt Hin Hlen Hh; [by exists vt|].
    cbn [foldM fold_left]. rewrite (set_one_ok (as_ITuple t) vt u (value u.2 t)) by (apply Hvals, Hin; set_solver).
    pose proof (Hups u ltac:(apply Hin; set_solver)) as Hu.
    destruct (SetAttribute_holds vt r (Z.to_nat (u.1 - 1)) (value u.2 t) Hh) as (vt' & E & Hh'); [lia | lia |].
    replace (Z.of_nat (Z.to_nat (u.1 - 1)) + 1) with u.1 in E by lia. rewrite E, bind_Ok.
    apply IH; [set_solver | by rewrite length_insert | done]. }
  destruct (Hgen updates (row t) vt) as (vt' & E & Hh & Hl); [done | done | done |]. exists vt'. split; [exact E|].
  apply to_ITuple_holds; [done|]. unfold zlen. rewrite Hl. lia.
Qed.

Lemma update_loop_ok fuel s w ts n :
  pending s w ts -> Forall updatable ts -> (length ts < fuel)%nat ->
  exists s' w' news, update_loop fuel qual updates s n w = (Ok (s', n + zlen (filter accepts ts)), w') /\
    Forall2 (fun t new => tuple_holds new (updated_row t)) (filter accepts ts) news /\
    applied w' = applied w ++ zip_with Updated (filter accepts ts) news.
Proof.
  revert s w ts n. induction fuel as [|fuel IH]; intros s w ts n Hp Hg Hf; [lia|]. cbn [update_loop]. destruct ts as [|t ts].
  - destruct (next_end s w Hp) as (s' & w' & E & Ha). exists s', w', []. erewrite M_bind_Ok by exact E. cbv beta iota.
    rewrite filter_nil, app_nil_r. change (zlen (@nil T)) with 0. rewrite Z.add_0_r. done.
  - destruct (next_tuple s w t ts Hp) as (s1 & w1 & E & Hp1 & Ha1). erewrite M_bind_Ok by exact E. cbv beta iota.
    apply Forall_cons in Hg as [Hgt Hg]. erewrite lift_Ok by exact (up_accepted t Hgt). cbn [length] in Hf. destruct (accepts t) eqn:Hacc.
    + destruct (make_new_ok t Hgt) as (vt & Hvt & Hnew). erewrite lift_Ok by exact Hvt.
      destruct (update_applies s1 w1 ts t (VirtualTuple.to_ITuple vt) Hp1) as (w2 & E2 & Hp2 & Ha2). erewrite M_bind_Ok by exact E2.
      destruct (IH s1 w2 ts (n + 1) Hp2 Hg) as (s' & w' & news & E3 & Hn3 & Ha3); [lia|].
      exists s', w', (VirtualTuple.to_ITuple vt :: news). rewrite filter_cons_True by (by rewrite Hacc).
      rewrite zlen_cons, Z.add_assoc. split; [exact E3|]. split; [by constructor|]. rewrite Ha3, Ha2, Ha1, <-app_assoc. done.
    + destruct (IH s1 w1 ts n Hp1 Hg) as (s' & w' & news & E3 & Hn3 & Ha3); [lia|]. exists s', w', news.
      rewrite filter_cons_False by (rewrite Hacc; auto). split; [exact E3|]. split; [done | congruence].
Qed.

(** C34: An UpdateNode updates exactly the tuples of its scan that its predicate accepts, each
    once and in the order of the scan; the new row is the old one with its assignments
    made in their order, and all the assigned values are computed from the old row, so
    that exchanging two columns works; the other columns keep their values. *)
Theorem update_node_updates fuel s w ts :
  pending s w ts -> Forall updatable ts -> (length ts < fuel)%nat ->
  exists node w' news, Execute fuel (UpdateNode qual updates (Some s) 0) w = (Ok (None, node), w') /\
    Forall2 (fun t new => tuple_holds new (updated_row t)) (filter accepts ts) news /\
    applied w' = applied w ++ zip_with Updated (filter accepts ts) news /\
    GetRowsProcessed node = zlen (filter accepts ts).
Proof.
  intros Hp Hg Hf. destruct (update_loop_ok fuel s w ts 0 Hp Hg Hf) as (s' & w' & news & E & Hn & Ha).
  exists (UpdateNode qual updates (Some s') (zlen (filter accepts ts))), w', news. split; [|done].
  unfold Execute. by erewrite M_bind_Ok by exact E.
Qed.
End modifications.

(** ** The heap table under a SeqScan node *)
Section heap.
Context `{Build} {P U L X : Type} `{PageStore P, UndoStore U, WalStore L, TxnTable X}.
#[local] Notation World := (World P U L X).
Context (WaitTransactionEnd : Z -> M World unit) (tableId : Z) (desc : TupleDescriptor) (my_xid : Z) (scan_fuel : nat).
#[local] Instance heap_table : ITable World HeapTuple HeapTableScan :=
  HeapTable_ITable WaitTransactionEnd tableId desc my_xid scan_fuel.

Lemma heap_yields snap w p res last j :
  readable tableId w 0 p ->
  (forall i, 0 <= i < nitems p -> scan_item desc my_xid scan_fuel snap p 0 i w = (Ok (res i), w)) ->
  0 <= j <= nitems p ->
  yields (at_item snap 0 last j) w (rows p res j) (past_page snap 0 last) w.
Proof.
  intros Hr Hres. remember (rows p res j) as ts eqn:Hts. revert j Hts. induction ts as [|t ts IH]; intros j Hts Hj.
  - pose proof (GetNextTuple_rows tableId desc my_xid scan_fuel snap w 0 p res Hr Hres last j Hj ltac:(lia)) as Hg.
    rewrite <-Hts in Hg. by apply yields_end.
  - pose proof (GetNextTuple_rows tableId desc my_xid scan_fuel snap w 0 p res Hr Hres last j Hj ltac:(lia)) as Hg.
    rewrite <-Hts in Hg. destruct Hg as (j' & Hj' & Hts' & Hg). eapply yields_next; [exact Hg|]. by apply IH.
Qed.

(** C33: A SELECT over the heap table: the node that the session starts and runs to the end
    returns exactly the rows of the first page that the snapshot sees and the predicate
    accepts, in the order of their items. *)
Theorem select_over_heap snap w p res qual accepts fuel :
  readable tableId w 0 p ->
  (forall i, 0 <= i < nitems p -> scan_item desc my_xid scan_fuel snap p 0 i w = (Ok (res i), w)) ->
  1 <= ps_count (w_pages w) tableId < 2 ^ 32 - 1 -> (Z.to_nat (nitems p) < fuel)%nat ->
  decided qual accepts (rows p res 0) ->
  exists node, (node ← Start (newSeqScan qual) snap; results fuel node) w =
    (Ok (filter accepts (rows p res 0), node), w) /\ GetRowsProcessed node = zlen (filter accepts (rows p res 0)).
Proof.
  intros Hr Hres Hc Hf Hq. set (last := ps_count (w_pages w) tableId) in *. pose proof Hr as (_ & Hwf & _).
  destruct (page_nitems_ok p Hwf) as [_ Hb].
  assert (Hs : Start (newSeqScan qual) snap w = (Ok (SeqScan (Some (at_item snap 0 last 0)) qual 0), w)).
  { unfold Start, newSeqScan, begin_scan. cbn [tbl_StartScan tbl_BeginScan heap_table HeapTable_ITable].
    unfold BeginScan, GetPageCount. unfold mbind, M_bind, mret, M_ret, gets, lift. fold last. rewrite wrap_small by lia.
    rewrite assert_Ok.
    2: { unfold PageNumber.IsValid, PageNumber.InvalidValue. by rewrite (proj2 (Z.eqb_neq _ _)) by lia. }
    by rewrite (proj2 (Z.eqb_neq last 0)) by lia. }
  assert (Hlen : (length (rows p res 0) < fuel)%nat) by (pose proof (length_rows p res 0 ltac:(lia)); lia).
  erewrite M_bind_Ok by exact Hs.
  eexists. split; [eapply results_filter; [eapply heap_yields; [exact Hr | exact Hres | lia] | exact Hq | exact Hlen] | done].
Qed.
End heap.

(** ** A table in memory *)
Definition ex_rows : list (list (option Datum)) := [[Some (Scalar 1); Some (Scalar 10)]; [Some (Scalar 2); None]].

#[export] Instance Mem_table : ITable (list (change (list (option Datum)))) (list (option Datum)) (list (list (option Datum))) := {
  as_ITuple l := mkITuple (fun a => of_option (Throw "no such attribute") (l !! Z.to_nat (a - 1))) (zlen l);
  tbl_StartScan _ := mret ex_rows;
  tbl_BeginScan s := mret s;
  tbl_GetNextTuple s := mret (match s with [] => (None, []) | t :: s => (Some t, s) end);
  tbl_EndScan s := mret s;
  tbl_InsertTuple new := modify (fun w => w ++ [Inserted new]);
  tbl_UpdateTuple t new := modify (fun w => w ++ [Updated t new]);
  tbl_DeleteTuple t := modify (fun w => w ++ [Deleted t])
}.

#[export] Instance Mem_table_laws : ITableLaws (list (change (list (option Datum)))) (list (option Datum)) (list (list (option Datum))).
Proof.
  refine {| pending s _ ts := s = ts; applied w := w |}.
  - intros s w ->. by exists [], w.
  - intros s w t ts ->. by exists ts, w.
  - intros s w ts t new ->. by exists (w ++ [Updated t new]).
  - intros s w ts t ->. by exists (w ++ [Deleted t]).
Defined.

(** ** Witnesses *)
(** [a = 2], where a NULL is not accepted. *)
Definition ex_qual : IExpressionNode :=
  FunctionExpressionNode (mkFunctionContext (Int32Eq (H := DebugBuild)) true 2) [AttributeExpressionNode 1; ConstantExpressionNode (Some (Scalar 2))].
Definition ex_accepts (row : list (option Datum)) : bool := bool_decide (row !! 0%nat = Some (Some (Scalar 2))).

Lemma seq_scan_filters_witness :
  exists node, results (H := DebugBuild) 3 (SeqScan (Some ex_rows) (Some ex_qual) 0) [] =
    (Ok ([[Some (Scalar 2); None]], node), []) /\ GetRowsProcessed node = 1.
Proof.
  apply (seq_scan_filters (H := DebugBuild) (Some ex_qual) ex_accepts 3 ex_rows [] ex_rows [] []); [|by repeat constructor | cbn; lia].
  repeat (eapply yields_next; [reflexivity|]). by apply yields_end.
Defined.

Lemma delete_node_deletes_witness :
  exists node w', Execute (H := DebugBuild) 3 (DeleteNode ex_qual (Some ex_rows) 0) [] = (Ok (None, node), w') /\
    w' = [Deleted [Some (Scalar 2); None]].
Proof.
  destruct (delete_node_deletes (H := DebugBuild) ex_qual ex_accepts 3 ex_rows [] ex_rows) as (node & w' & E & Ha & _);
    [reflexivity | by repeat constructor | cbn; lia |].
  exists node, w'. split; [exact E | exact Ha].
Defined.

(** The columns are exchanged: [SET a = b, b = a]. *)
Definition ex_swap : list (Z * IExpressionNode) := [(1, AttributeExpressionNode 2); (2, AttributeExpressionNode 1)].
Definition ex_value (e : IExpressionNode) (t : list (option Datum)) : option Datum :=
  match e with AttributeExpressionNode a => default None (t !! Z.to_nat (a - 1)) | _ => None end.

Lemma update_node_updates_witness :
  exists node w' new, Execute (H := DebugBuild) 3 (UpdateNode ex_qual ex_swap (Some ex_rows) 0) [] = (Ok (None, node), w') /\
    w' = [Updated [Some (Scalar 2); None] new] /\ tuple_holds new [None; Some (Scalar 2)].
Proof.
  destruct (update_node_updates (H := DebugBuild) ex_qual ex_accepts id ex_value ex_swap 2 eq_refl) with (fuel := 3%nat) (s := ex_rows) (w := @nil (change (list (option Datum)))) (ts := ex_rows)
    as (node & w' & news & E & Hn & Ha & _).
  - intros u Hu. repeat (apply elem_of_cons in Hu as [->|Hu]; [cbn; lia|]). by apply elem_of_nil in Hu.
  - reflexivity.
  - repeat (apply Forall_cons_2; [split; [reflexivity | split; [split; [reflexivity|] | reflexivity] |]|]); [| | | |apply Forall_nil_2].
    1, 3: intros i v Hi; destruct i as [|[|i]]; [injection Hi as <-; reflexivity | injection Hi as <-; reflexivity | destruct i; discriminate].
    all: intros u Hu; repeat (apply elem_of_cons in Hu as [->|Hu]; [reflexivity|]); by apply elem_of_nil in Hu.
  - cbn; lia.
  - change (filter ex_accepts ex_rows) with [[Some (Scalar 2); None : option Datum]] in *.
    apply Forall2_cons_inv_l in Hn as (new & news' & Hnew & Hn & ->). apply Forall2_nil_inv_l in Hn as ->.
    exists node, w', new. split; [exact E|]. split; [exact Ha | exact Hnew].
Defined.

Lemma select_over_heap_witness :
  exists p node, (node ← Start (H := DebugBuild) (H0 := HeapTable_ITable (H := DebugBuild) (fun _ => mret tt) ex_table ex_text 8 3) (newSeqScan None) ex_snap;
      results (H := DebugBuild) (H0 := HeapTable_ITable (H := DebugBuild) (fun _ => mret tt) ex_table ex_text 8 3) 2 node) (ex_world 2 p []) =
    (Ok ([read_row ex_text ex_old], node), ex_world 2 p []).
Proof.
  destruct ex_scan_page as (p & Hr & Hn & Hs).
  destruct (select_over_heap (H := DebugBuild) (fun _ => mret tt) ex_table ex_text 8 3 ex_snap (ex_world 2 p []) p (fun _ => Some (read_row ex_text ex_old)) None
    (fun _ => true) 2 Hr Hs) as (node & E & _).
  - rewrite ex_count. lia.
  - rewrite Hn. vm_compute. lia.
  - apply Forall_true. reflexivity.
  - exists p, node. etransitivity; [exact E|]. unfold rows. rewrite Hn. reflexivity.
Defined.
