(* ===== verification/Catalog.v ===== *)
(** The catalog: [db/Schema.cpp], [db/Database.cpp] and [db/catalog], and the database that
    [setupDatabase] of [cluster_state.cpp] makes. *)
From stdpp Require Import strings.
From S2P Require Import Prelude Types Executor.

(** ** The entries *)
Module TypeId.
Definition Int64 : Z := 1.
Definition Int32 : Z := 2.
Definition Int16 : Z := 3.
Definition Text : Z := 4.
End TypeId.

Definition MainTableId : Z := 1.

Module OperatorId.
Definition EqInt16Int16 : Z := 1.
Definition EqInt32Int32 : Z := 2.
Definition EqInt64Int64 : Z := 3.
Definition EqTextText : Z := 4.
End OperatorId.

Inductive OperatorStrategy := Equal | NotEqual | Less | LessEq | Greater | GreaterEq.

#[export] Instance OperatorStrategy_eq_dec : EqDecision OperatorStrategy.
Proof. solve_decision. Defined.

Definition strategy_value (s : OperatorStrategy) : nat :=
  match s with Equal => 0 | NotEqual => 1 | Less => 2 | LessEq => 3 | Greater => 4 | GreaterEq => 5 end.

#[export] Instance OperatorStrategy_countable : Countable OperatorStrategy.
Proof.
  apply (inj_countable strategy_value (fun n => [Equal; NotEqual; Less; LessEq; Greater; GreaterEq] !! n)).
  by intros [].
Defined.

Record OperatorInfo := mkOperatorInfo {
  op_id : Z; LeftType : Z; RightType : Z; Strategy : OperatorStrategy; GetFunction : MIFunction }.

Definition OutputFunction : Type := Datum -> result bytes.
Definition TypeSizeVariable : Z := -1.
Record TypeInfo := mkTypeInfo { type_id : Z; type_size : Z; GetOutputFunction : OutputFunction }.

Record ColumnInfo := mkColumnInfo { col_typeId : Z; GetName : string; col_attno : Z }.
Record TableInfo := mkTableInfo { table_oid : Z; GetDescriptor : TupleDescriptor; GetColumns : list ColumnInfo }.

Section catalog.
Context `{Build}.

(** The constructor of [TableInfo]. *)
Definition newTableInfo (oid : Z) (descriptor : TupleDescriptor) (columns : list ColumnInfo) : result TableInfo :=
  _ ← assert_ (GetMaxAttrNumber descriptor =? zlen columns) "this->_descriptor->GetMaxAttrNumber() == this->_columns.size()";
  mret (mkTableInfo oid descriptor columns).

Definition FindColumn (info : TableInfo) (colname : string) : option ColumnInfo :=
  find (fun col => String.eqb (GetName col) colname) (GetColumns info).

(** ** The schema *)
Notation signature := (Z * Z * OperatorStrategy)%type.

Record Schema := mkSchema {
  sch_tables : gmap Z TableInfo; sch_types : gmap Z TypeInfo; sch_operators : gmap Z OperatorInfo;
  signatureToOperatorIdx : gmap signature OperatorInfo }.

Definition signature_of (opinfo : OperatorInfo) : signature := (LeftType opinfo, RightType opinfo, Strategy opinfo).

(** [emplace]: nothing happens when the key is there. *)
Definition emplace `{Countable K} {V} (k : K) (v : V) (m : gmap K V) : gmap K V :=
  match m !! k with Some _ => m | None => <[k := v]> m end.

(** The order in which a hash table is traversed is not specified; [map_fold] has none either. *)
Definition newSchema (tables : gmap Z TableInfo) (types : gmap Z TypeInfo) (operators : gmap Z OperatorInfo) : Schema :=
  mkSchema tables types operators (map_fold (fun _ opinfo idx => emplace (signature_of opinfo) opinfo idx) ∅ operators).

Definition map_get_entry {V} (id : Z) (m : gmap Z V) : result V :=
  of_option (Throw "could not find entry with provided id") (m !! id).

Definition GetTableInfo (s : Schema) (tableId : Z) : result TableInfo := map_get_entry tableId (sch_tables s).
Definition GetTypeInfo (s : Schema) (typeId : Z) : result TypeInfo := map_get_entry typeId (sch_types s).
Definition FindOperatorInfo (s : Schema) (leftType rightType : Z) (strategy : OperatorStrategy) : option OperatorInfo :=
  signatureToOperatorIdx s !! (leftType, rightType, strategy).

(** ** The database: [R] are the table objects *)
Record Database (R : Type) := mkDatabase { GetSchema : Schema; relations : gmap Z R }.
Arguments mkDatabase {R} _ _.
Arguments GetSchema {R} _.
Arguments relations {R} _.

(** The iterator that [find] returns is used without a test. *)
Definition OpenTable {R} (db : Database R) (relid : Z) : result R :=
  _ ← assert_ (Oid.IsValid relid) "relid.IsValid()";
  of_option (UB "end iterator dereferenced") (relations db !! relid).

(** ** [setupDatabase]: [CREATE TABLE tbl(a int4, b int2)] *)
Definition main_descriptor : TupleDescriptor := [mkAttr TypeId.Int32 4 true; mkAttr TypeId.Int16 2 true].
Definition main_columns : list ColumnInfo :=
  [mkColumnInfo TypeId.Int32 "a" AttrNumber.MinValue; mkColumnInfo TypeId.Int16 "b" (wrap 16 (AttrNumber.MinValue + 1))].

Definition builtin_types : gmap Z TypeInfo :=
  fold_left (fun types '(typid, size, output) => emplace typid (mkTypeInfo typid size output) types)
    [(TypeId.Int16, 2, Int16Output); (TypeId.Int32, 4, Int32Output); (TypeId.Int64, 8, Int64Output);
     (TypeId.Text, TypeSizeVariable, TextOutput)] ∅.

Definition builtin_operators : gmap Z OperatorInfo :=
  fold_left (fun operators '(opid, typid, func) => emplace opid (mkOperatorInfo opid typid typid Equal func) operators)
    [(OperatorId.EqInt16Int16, TypeId.Int16, Int16Eq); (OperatorId.EqInt32Int32, TypeId.Int32, Int32Eq);
     (OperatorId.EqInt64Int64, TypeId.Int64, Int64Eq); (OperatorId.EqTextText, TypeId.Text, TextEq)] ∅.

Definition setupDatabase {R} (table : R) : result (Database R) :=
  info ← newTableInfo MainTableId main_descriptor main_columns;
  let schema := newSchema (emplace MainTableId info ∅) builtin_types builtin_operators in
  mret (mkDatabase schema (emplace MainTableId table ∅)).
End catalog.
Arguments mkDatabase {R} _ _.
Arguments GetSchema {R} _.
Arguments relations {R} _.

(** ** Lookups *)
Section lookups.
Context `{Build}.

Lemma emplace_lookup `{Countable K} {V} (k k' : K) (v : V) m :
  emplace k v m !! k' = (if decide (k = k') then Some (default v (m !! k)) else m !! k').
Proof.
  unfold emplace. destruct (decide (k = k')) as [<-|Hne]; destruct (m !! k) as [v'|] eqn:E; cbn; try done.
  - by rewrite lookup_insert_eq.
  - by rewrite lookup_insert_ne.
Qed.

(** The operators of one schema have distinct signatures. *)
Definition distinct_signatures (operators : gmap Z OperatorInfo) : Prop :=
  forall i j a b, operators !! i = Some a -> operators !! j = Some b -> signature_of a = signature_of b -> i = j.

(** The index of a schema answers a signature exactly with an operator of the schema
    that has it: whatever is found is such an operator, an operator whose signature no
    other one has is found, and nothing is found when there is none. *)
Theorem find_operator_info tables types operators l r s :
  let found := FindOperatorInfo (newSchema tables types operators) l r s in
  (forall op, found = Some op -> signature_of op = (l, r, s) /\ exists i, operators !! i = Some op) /\
  (found = None <-> forall i op, operators !! i = Some op -> signature_of op <> (l, r, s)) /\
  (distinct_signatures operators -> forall i op, operators !! i = Some op -> signature_of op = (l, r, s) -> found = Some op).
Proof.
  cbv zeta. unfold FindOperatorInfo, newSchema. cbn [signatureToOperatorIdx].
  set (idx := map_fold _ _ operators).
  assert (Hs : (forall k op, idx !! k = Some op -> signature_of op = k /\ exists i, operators !! i = Some op) /\
    (forall i op, operators !! i = Some op -> is_Some (idx !! signature_of op))).
  { subst idx. apply (map_fold_weak_ind (fun idx ops =>
      (forall k op, idx !! k = Some op -> signature_of op = k /\ exists i, ops !! i = Some op) /\
      (forall i op, ops !! i = Some op -> is_Some (idx !! signature_of op)))).
    - split; [intros k op; by rewrite lookup_empty | intros i op; by rewrite lookup_empty].
    - intros i x m idx Hi [Hin Hout]. split.
      + intros k op. rewrite emplace_lookup. destruct (decide (signature_of x = k)) as [Hk|Hk].
        * destruct (idx !! signature_of x) as [y|] eqn:Ey; cbn; intros [= <-].
          -- destruct (Hin _ _ Ey) as [Hy [j Hj]]. split; [congruence|]. exists j. rewrite lookup_insert_ne; [done|]. intros ->. congruence.
          -- split; [done|]. exists i. by rewrite lookup_insert_eq.
        * intros Hop. destruct (Hin _ _ Hop) as [Hy [j Hj]]. split; [done|]. exists j. rewrite lookup_insert_ne; [done|]. intros ->. congruence.
      + intros j op. rewrite emplace_lookup. destruct (decide (i = j)) as [<-|Hj].
        * rewrite lookup_insert_eq. intros [= <-]. rewrite decide_True by done. by eexists.
        * rewrite lookup_insert_ne by done. intros Hop. destruct (decide _); [by eexists | by apply (Hout j)]. }
  clearbody idx. destruct Hs as [Hin Hout]. split; [|split].
  - intros op Hop. by apply Hin.
  - split.
    + intros Hn i op Hop Hsig. destruct (Hout i op Hop) as [y Hy]. rewrite Hsig in Hy. rewrite Hn in Hy. discriminate.
    + intros Hn. destruct (idx !! (l, r, s)) as [op|] eqn:E; [|done]. destruct (Hin _ _ E) as [Hsig [i Hi]]. by destruct (Hn i op).
  - intros Hd i op Hop Hsig. destruct (Hout i op Hop) as [y Hy]. rewrite Hsig in Hy. destruct (Hin _ _ Hy) as [Hsig' [j Hj]].
    assert (i = j) as <- by (eapply Hd; [exact Hop | exact Hj | congruence]). congruence.
Qed.

(** What is in the database of [setupDatabase]. *)
Lemma setupDatabase_ok {R} (table : R) :
  setupDatabase table = Ok (mkDatabase
    (newSchema {[MainTableId := mkTableInfo MainTableId main_descriptor main_columns]} builtin_types builtin_operators)
    {[MainTableId := table]}).
Proof. unfold setupDatabase, newTableInfo. rewrite assert_Ok by reflexivity. reflexivity. Qed.

Lemma builtin_operator s tables :
  FindOperatorInfo (newSchema tables builtin_types builtin_operators) TypeId.Int32 TypeId.Int32 s =
    match s with
    | Equal => Some (mkOperatorInfo OperatorId.EqInt32Int32 TypeId.Int32 TypeId.Int32 Equal Int32Eq)
    | _ => None
    end.
Proof. by destruct s. Qed.
End lookups.

Lemma find_operator_info_witness :
  FindOperatorInfo (newSchema ∅ builtin_types (builtin_operators (H := DebugBuild))) TypeId.Text TypeId.Text Equal =
    Some (mkOperatorInfo OperatorId.EqTextText TypeId.Text TypeId.Text Equal (TextEq (H := DebugBuild))).
Proof.
  apply (proj2 (proj2 (find_operator_info ∅ builtin_types (builtin_operators (H := DebugBuild)) TypeId.Text TypeId.Text Equal)))
    with (i := OperatorId.EqTextText); [|reflexivity|reflexivity].
  assert (Hall : forall i a, builtin_operators (H := DebugBuild) !! i = Some a ->
    In i [1; 2; 3; 4] /\ signature_of a = (nth (Z.to_nat i) [0; 3; 2; 1; 4] 0, nth (Z.to_nat i) [0; 3; 2; 1; 4] 0, Equal)).
  { intros i a Ha. apply elem_of_map_to_list in Ha.
    assert (Hf : Forall (fun '(i, a) => In i [1; 2; 3; 4] /\ signature_of a = (nth (Z.to_nat i) [0; 3; 2; 1; 4] 0, nth (Z.to_nat i) [0; 3; 2; 1; 4] 0, Equal))
      (map_to_list (builtin_operators (H := DebugBuild)))).
    { repeat (apply Forall_cons_2; [split; [cbn; tauto | reflexivity]|]). apply Forall_nil_2. }
    rewrite Forall_forall in Hf. exact (Hf _ Ha). }
  intros i j a b Ha Hb Hs. destruct (Hall i a Ha) as [Hi Ha']. destruct (Hall j b Hb) as [Hj Hb']. rewrite Ha', Hb' in Hs.
  repeat (destruct Hi as [<-|Hi]; [repeat (destruct Hj as [<-|Hj]; [done || discriminate|]); done|]); done.
Defined.
