(* ===== verification/Planner.v ===== *)
(** The planner, [planner/Planner.cpp], over the syntax trees of the SQL parser
    ([external/sql-parser/src/sql]) and the catalog. *)
From stdpp Require Import strings pretty.
From S2P Require Import Prelude Types Transactions HeapTable HeapScan HeapExamples Executor Plan Catalog.

(** ** Syntax trees

    The members that the planner reads; a pointer that may be null is an option, and one
    that is only compared with null is a truth value. *)
Inductive ExprType :=
| kExprLiteralFloat | kExprLiteralString | kExprLiteralInt | kExprLiteralNull | kExprLiteralDate | kExprLiteralInterval
| kExprStar | kExprParameter | kExprColumnRef | kExprFunctionRef | kExprOperator | kExprSelect | kExprHint | kExprArray
| kExprArrayIndex | kExprExtract | kExprCast.

#[export] Instance ExprType_eq_dec : EqDecision ExprType.
Proof. solve_decision. Defined.

Definition ExprType_value (t : ExprType) : Z :=
  match t with
  | kExprLiteralFloat => 0 | kExprLiteralString => 1 | kExprLiteralInt => 2 | kExprLiteralNull => 3 | kExprLiteralDate => 4
  | kExprLiteralInterval => 5 | kExprStar => 6 | kExprParameter => 7 | kExprColumnRef => 8 | kExprFunctionRef => 9
  | kExprOperator => 10 | kExprSelect => 11 | kExprHint => 12 | kExprArray => 13 | kExprArrayIndex => 14
  | kExprExtract => 15 | kExprCast => 16
  end.

Inductive OperatorType :=
| kOpNone | kOpBetween | kOpCase | kOpCaseListElement | kOpPlus | kOpMinus | kOpAsterisk | kOpSlash | kOpPercentage | kOpCaret
| kOpEquals | kOpNotEquals | kOpLess | kOpLessEq | kOpGreater | kOpGreaterEq | kOpLike | kOpNotLike | kOpILike | kOpAnd | kOpOr
| kOpIn | kOpConcat | kOpNot | kOpUnaryMinus | kOpIsNull | kOpExists.

#[export] Instance OperatorType_eq_dec : EqDecision OperatorType.
Proof. solve_decision. Defined.

Inductive Expr := mkExpr {
  type : ExprType; expr : option Expr; expr2 : option Expr; name : option string; ival : Z; opType : OperatorType }.

Definition isType (e : Expr) (t : ExprType) : bool := bool_decide (type e = t).

Inductive TableRefType := kTableName | kTableSelect | kTableJoin | kTableCrossProduct.

Record SelectStatement := mkSelect {
  fromTable : option TableRefType; selectDistinct : bool; selectList : list Expr; whereClause : option Expr;
  groupBy : bool; setOperations : bool; order : bool; limit : bool; lockings : bool }.
Record InsertStatement := mkInsert { columns : option (list string); ins_values : option (list Expr) }.
Record UpdateStatement := mkUpdate { updates : list (string * Expr); upd_where : option Expr }.
Record DeleteStatement := mkDelete { del_expr : option Expr }.
Inductive TransactionCommand := kBeginTransaction | kCommitTransaction | kRollbackTransaction.

(** The types of the statements that the server has no code for. *)
Inductive OtherType :=
| kStmtError | kStmtImport | kStmtCreate | kStmtDrop | kStmtPrepare | kStmtExecute | kStmtExport | kStmtRename | kStmtAlter | kStmtShow.

Inductive SQLStatement :=
| Select (stmt : SelectStatement) | Insert (stmt : InsertStatement) | Update (stmt : UpdateStatement)
| Delete (stmt : DeleteStatement) | Transaction (command : TransactionCommand) | Other (type : OtherType).

Definition StatementType_value (s : SQLStatement) : Z :=
  match s with
  | Select _ => 1 | Insert _ => 3 | Update _ => 4 | Delete _ => 5 | Transaction _ => 14
  | Other t => match t with
    | kStmtError => 0 | kStmtImport => 2 | kStmtCreate => 6 | kStmtDrop => 7 | kStmtPrepare => 8 | kStmtExecute => 9
    | kStmtExport => 10 | kStmtRename => 11 | kStmtAlter => 12 | kStmtShow => 13
    end
  end.

(** ** The planner *)
Inductive CommandTag := CSelect | CUpdate | CInsert | CDelete.

#[export] Instance CommandTag_eq_dec : EqDecision CommandTag.
Proof. solve_decision. Defined.

(** The node keeps the table object; the nodes of [Plan] have it as their instance of [ITable]. *)
Record PlannedStmt (R Sc : Type) := mkPlannedStmt { GetNode : @PlanNode Sc; GetCmdTag : CommandTag; node_table : R }.
Arguments mkPlannedStmt {R Sc} _ _ _.
Arguments GetNode {R Sc} _.
Arguments GetCmdTag {R Sc} _.
Arguments node_table {R Sc} _.

Definition map_op_strategy (type : OperatorType) : result OperatorStrategy :=
  match type with
  | kOpEquals => Ok Equal
  | kOpNotEquals => Ok NotEqual
  | kOpLess => Ok Less
  | kOpLessEq => Ok LessEq
  | kOpGreater => Ok Greater
  | kOpGreaterEq => Ok GreaterEq
  | _ => Fault (Throw "Operator is not supported")
  end.

Section planner.
Context `{Build} {R Sc : Type} (DatabaseGlobal : Database R).

Definition null_pointer : fault := UB "null pointer".

(** The search of a column by name, counting attribute numbers. *)
Fixpoint find_column (columns : list ColumnInfo) (name : string) (attno : Z) : option Z :=
  match columns with
  | [] => None
  | col :: columns => if String.eqb (GetName col) name then Some attno else find_column columns name (AttrNumber.incr attno)
  end.

Definition parse_column (name : string) : result IExpressionNode :=
  tableInfo ← GetTableInfo (GetSchema DatabaseGlobal) MainTableId;
  match find_column (GetColumns tableInfo) name AttrNumber.MinValue with
  | None => Fault (Throw ("could not find column: " +:+ name))
  | Some attno =>
      _ ← assert_ (attno <=? GetMaxAttrNumber (GetDescriptor tableInfo)) "attno <= tableInfo->GetDescriptor()->GetMaxAttrNumber()";
      mret (AttributeExpressionNode attno)
  end.

(** The node of an operator over its operands. *)
Definition operator_node (strategy : OperatorStrategy) (left right : IExpressionNode) : result IExpressionNode :=
  match FindOperatorInfo (GetSchema DatabaseGlobal) TypeId.Int32 TypeId.Int32 strategy with
  | None => Fault (Throw "Could not find operator")
  | Some info => Ok (FunctionExpressionNode (mkFunctionContext (GetFunction info) true 2) [left; right])
  end.

Fixpoint parse_expr (e : Expr) : result IExpressionNode :=
  match e with
  | mkExpr type expr expr2 name ival opType =>
      match type with
      | kExprOperator =>
          strategy ← map_op_strategy opType;
          left ← match expr with Some e => parse_expr e | None => Fault null_pointer end;
          right ← match expr2 with Some e => parse_expr e | None => Fault null_pointer end;
          operator_node strategy left right
      | kExprLiteralInt => Ok (ConstantExpressionNode (Some (mkScalar ival)))
      | kExprLiteralNull => Ok (ConstantExpressionNode None)
      | kExprColumnRef => name ← of_option null_pointer name; parse_column name
      | _ => Fault (Throw ("expression is not supported: " +:+ pretty (ExprType_value type)))
      end
  end.

(** [x ? parse_expr( *x) : nullptr]. *)
Definition parse_opt (e : option Expr) : result (option IExpressionNode) :=
  match e with Some e => Some <$> parse_expr e | None => Ok None end.

Definition IsPlannableStatement (statement : SQLStatement) : bool :=
  match statement with Select _ | Insert _ | Update _ | Delete _ => true | _ => false end.

Definition reject (c : bool) (what : string) : result unit := if c then Fault (Throw what) else Ok tt.

Definition plan_select (stmt : SelectStatement) : result (PlannedStmt R Sc) :=
  _ ← reject (groupBy stmt) "GROUP BY is not supported";
  _ ← reject (limit stmt) "LIMIT is not supported";
  _ ← reject (order stmt) "ORDER BY is not supported";
  _ ← reject (lockings stmt) "LOCKING is not supported";
  _ ← reject (setOperations stmt) "SET OPERATION is not supported";
  _ ← reject (selectDistinct stmt) "DISTINCT is not supported";
  from ← of_option null_pointer (fromTable stmt);
  _ ← match from with
      | kTableName => Ok tt
      | kTableSelect => Fault (Throw "subquery is not supported")
      | kTableJoin | kTableCrossProduct => Fault (Throw "JOIN is not supported")
      end;
  table ← OpenTable DatabaseGlobal MainTableId;
  qual ← parse_opt (whereClause stmt);
  mret (mkPlannedStmt (newSeqScan qual) CSelect table).

(** One attribute of INSERT. The test of its type is true of every type. *)
Definition insert_value (attributes : TupleDescriptor) (values : list Expr) (arrays : DatumArray.t) (idx : nat) : result DatumArray.t :=
  attDesc ← vec_get attributes idx;
  _ ← reject (negb (negb (typeId attDesc =? TypeId.Int16) || negb (typeId attDesc =? TypeId.Int32) || negb (typeId attDesc =? TypeId.Int64)))
        "only int types are supported by planner for now";
  value ← of_option (Throw "vector::_M_range_check") (values !! idx);
  if isType value kExprLiteralInt then mret (DatumArray.AddValue arrays (mkScalar (ival value)))
  else if isType value kExprLiteralNull then mret (DatumArray.AddNull arrays)
  else Fault (Throw "Expression in INSERT is not supported type").

Definition plan_insert (stmt : InsertStatement) : result (PlannedStmt R Sc) :=
  info ← GetTableInfo (GetSchema DatabaseGlobal) MainTableId;
  let desc := GetDescriptor info in
  values ← of_option null_pointer (ins_values stmt);
  _ ← reject (negb (zlen values =? GetMaxAttrNumber desc)) "INSERT attributes and table descriptor are not the same size";
  arrays ← AttrNumber.for_each (GetMaxAttrNumber desc) (insert_value desc values) DatumArray.empty;
  let '(values, isnull) := DatumArray.Decompose arrays in
  let tuple := VirtualTuple.to_ITuple (VirtualTuple.mk values isnull) in
  table ← OpenTable DatabaseGlobal MainTableId;
  mret (mkPlannedStmt (newInsertNode [tuple]) CInsert table).

Definition plan_update_clause (info : TableInfo) (ups : list (Z * IExpressionNode)) (update : string * Expr)
    : result (list (Z * IExpressionNode)) :=
  let colname := update.1 in
  colinfo ← of_option (Throw ("could not find column: " +:+ colname)) (FindColumn info colname);
  e ← parse_expr update.2;
  mret (ups ++ [(col_attno colinfo, e)]).

Definition plan_update (stmt : UpdateStatement) : result (PlannedStmt R Sc) :=
  table ← OpenTable DatabaseGlobal MainTableId;
  info ← GetTableInfo (GetSchema DatabaseGlobal) MainTableId;
  ups ← foldM (plan_update_clause info) (updates stmt) [];
  qual ← parse_opt (upd_where stmt);
  node ← newUpdateNode qual ups;
  mret (mkPlannedStmt node CUpdate table).

Definition plan_delete (stmt : DeleteStatement) : result (PlannedStmt R Sc) :=
  table ← OpenTable DatabaseGlobal MainTableId;
  qual ← parse_opt (del_expr stmt);
  node ← newDeleteNode qual;
  mret (mkPlannedStmt node CDelete table).

Definition Plan (statement : SQLStatement) : result (PlannedStmt R Sc) :=
  _ ← assert_ (IsPlannableStatement statement) "IsPlannableStatement(statement)";
  match statement with
  | Select stmt => plan_select stmt
  | Insert stmt => plan_insert stmt
  | Update stmt => plan_update stmt
  | Delete stmt => plan_delete stmt
  | Transaction _ => Fault (Throw "TCL must not reach here")
  | Other _ => Fault (Throw ("statement is not supported: " +:+ pretty (StatementType_value statement)))
  end.
End planner.

(** ** What the planner promises

    The meaning of expressions over a row of the table [tbl(a int4, b int2)]: comparisons
    are made on 32 bits whatever their operands are, and a NULL operand makes them NULL. *)
Section meaning.
Context (a b : option Z).

Definition column (name : string) : option Z := if String.eqb "a" name then a else b.

Definition equal (x y : option Z) : option Z :=
  match x, y with
  | Some x, Some y => Some (if swrap 32 x =? swrap 32 y then 1 else 0)
  | _, _ => None
  end.

Fixpoint value (e : Expr) : option Z :=
  match e with
  | mkExpr type expr expr2 name ival _ =>
      match type with
      | kExprLiteralInt => Some (swrap 64 ival)
      | kExprColumnRef => match name with Some n => column n | None => None end
      | kExprOperator =>
          match expr, expr2 with Some l, Some r => equal (value l) (value r) | _, _ => None end
      | _ => None
      end
  end.
End meaning.

Definition column_number (name : string) : option Z :=
  if String.eqb "a" name then Some 1 else if String.eqb "b" name then Some 2 else None.

(** The expressions that the planner accepts: equality of such expressions, literals of
    integers, NULL, and the two columns. *)
Fixpoint supported (e : Expr) : bool :=
  match e with
  | mkExpr type expr expr2 name _ opType =>
      match type with
      | kExprLiteralInt | kExprLiteralNull => true
      | kExprColumnRef => match name with Some n => bool_decide (is_Some (column_number n)) | None => false end
      | kExprOperator =>
          bool_decide (opType = kOpEquals) &&
          match expr with Some l => supported l | None => false end &&
          match expr2 with Some r => supported r | None => false end
      | _ => false
      end
  end.

(** What the grammar guarantees of expressions: the operators that [map_op_strategy] accepts are made from two operands, and columns
    have names ([Expr::makeOpBinary], [Expr::makeColumnRef]). *)
Fixpoint well_formed (e : Expr) : bool :=
  match e with
  | mkExpr type expr expr2 name _ opType =>
      match type with
      | kExprColumnRef => bool_decide (is_Some name)
      | kExprOperator =>
          negb (is_ok (map_op_strategy opType)) ||
          (match expr with Some l => well_formed l | None => false end &&
           match expr2 with Some r => well_formed r | None => false end)
      | _ => true
      end
  end.

Definition opt_all (p : Expr -> bool) (e : option Expr) : bool := match e with Some e => p e | None => true end.
Definition is_literal (e : Expr) : bool := isType e kExprLiteralInt || isType e kExprLiteralNull.
Definition literal (e : Expr) : option Datum := if isType e kExprLiteralInt then Some (mkScalar (ival e)) else None.
Definition is_table (t : option TableRefType) : bool := match t with Some kTableName => true | _ => false end.

(** The statements that the grammar produces, as far as the planner reads them: a SELECT may have no FROM, and an INSERT no list of
    values, when it inserts the rows of a SELECT. *)
Definition grammatical (s : SQLStatement) : bool :=
  match s with
  | Select s => opt_all well_formed (whereClause s)
  | Update s => forallb (fun u => well_formed u.2) (updates s) && opt_all well_formed (upd_where s)
  | Delete s => opt_all well_formed (del_expr s)
  | _ => true
  end.

(** The clauses of a SELECT that are refused before its FROM is looked at. *)
Definition refused_clause (s : SelectStatement) : bool :=
  groupBy s || limit s || order s || lockings s || setOperations s || selectDistinct s.

(** The statements of the grammar for which the planner dereferences a null pointer. *)
Definition dereferences_null (s : SQLStatement) : bool :=
  match s with
  | Select s => negb (refused_clause s) && negb (bool_decide (is_Some (fromTable s)))
  | Insert s => negb (bool_decide (is_Some (ins_values s)))
  | _ => false
  end.

(** Nothing that the planner dereferences is null. *)
Definition no_null_reference (s : SQLStatement) : bool :=
  match s with
  | Select s => bool_decide (is_Some (fromTable s)) && opt_all well_formed (whereClause s)
  | Insert s => bool_decide (is_Some (ins_values s))
  | Update s => forallb (fun u => well_formed u.2) (updates s) && opt_all well_formed (upd_where s)
  | Delete s => opt_all well_formed (del_expr s)
  | _ => false
  end.

Definition stmt_supported (s : SQLStatement) : bool :=
  match s with
  | Select s =>
      negb (refused_clause s) && is_table (fromTable s) && opt_all supported (whereClause s)
  | Insert s => match ins_values s with Some vs => bool_decide (length vs = 2%nat) && forallb is_literal vs | None => false end
  | Update s =>
      forallb (fun u => bool_decide (is_Some (column_number u.1)) && supported u.2) (updates s) &&
      match upd_where s with Some e => supported e | None => false end
  | Delete s => match del_expr s with Some e => supported e | None => false end
  | _ => false
  end.

(** *** What a statement asks for

    The database has the one table [tbl(a, b)], and every statement is taken to be about it: the names of tables, WITH
    and aliases are not among the members that the planner reads. *)
Definition row : Type := option Z * option Z.
Definition cells (r : row) : list (option Z) := [r.1; r.2].

(** The rows for which the condition is true: neither false nor NULL. *)
Definition where_true (e : option Expr) (row : row) : bool :=
  match e with
  | Some e => match value row.1 row.2 e with Some v => negb (v =? 0) | None => false end
  | None => true
  end.

(** The select list over a row: a star stands for all the columns. *)
Definition output_row (sel : list Expr) (r : row) : list (option Z) :=
  concat (map (fun e => if isType e kExprStar then cells r else [value r.1 r.2 e]) sel).

(** The row of an INSERT: its values in the order of the table, or those of the columns that are listed, and NULL in the others.
    A list of other columns, of a column twice, or of another length than the values has no meaning. *)
Definition listed (cols : list string) (vs : list Expr) (c : string) : option Z :=
  match find (fun p => String.eqb p.1 c) (zip cols vs) with Some (_, e) => value None None e | None => None end.
Definition inserted_row (cols : option (list string)) (vs : list Expr) : option (list (option Z)) :=
  match cols with
  | None => if bool_decide (length vs = 2%nat) then Some (map (value None None) vs) else None
  | Some cs =>
      if bool_decide (length cs = length vs) && bool_decide (NoDup cs) && forallb (fun c => bool_decide (is_Some (column_number c))) cs
      then Some [listed cs vs "a"; listed cs vs "b"] else None
  end.

(** The assignments of an UPDATE, computed over the old row; of two to one column the last one counts. *)
Definition set_column (name : string) (v : option Z) (r : row) : row := if String.eqb "a" name then (v, r.2) else (r.1, v).
Definition assigned (us : list (string * Expr)) (r : row) : row :=
  fold_left (fun new u => set_column u.1 (value r.1 r.2 u.2) new) us r.

Inductive request :=
| Return (keep : row -> bool) (out : row -> list (option Z))
| Add (new : list (option Z))
| Change (keep : row -> bool) (to : row -> row)
| Drop (keep : row -> bool).

(** What a statement without clauses of other kinds asks for. *)
Definition requested (s : SQLStatement) : option request :=
  match s with
  | Select s => Some (Return (where_true (whereClause s)) (output_row (selectList s)))
  | Insert s => match ins_values s with Some vs => Add <$> inserted_row (columns s) vs | None => None end
  | Update s => Some (Change (where_true (upd_where s)) (assigned (updates s)))
  | Delete s => Some (Drop (where_true (del_expr s)))
  | _ => None
  end.

(** The same for all rows. *)
Definition same_request (r r' : request) : Prop :=
  match r, r' with
  | Return keep out, Return keep' out' => forall t, keep t = keep' t /\ out t = out' t
  | Add new, Add new' => new = new'
  | Change keep to, Change keep' to' => forall t, keep t = keep' t /\ to t = to' t
  | Drop keep, Drop keep' => forall t, keep t = keep' t
  | _, _ => False
  end.

(** The statement that the planner reads: a SELECT of all the columns, and an INSERT without a list of columns. *)
Definition star : Expr := mkExpr kExprStar None None None 0 kOpNone.
Definition as_read (s : SQLStatement) : SQLStatement :=
  match s with
  | Select s => Select (mkSelect (fromTable s) (selectDistinct s) [star] (whereClause s) (groupBy s) (setOperations s) (order s) (limit s) (lockings s))
  | Insert s => Insert (mkInsert None (ins_values s))
  | _ => s
  end.

Section promises.
Context `{Build} {R Sc : Type} (table : R).

(** The node computes the meaning of the expression on every row of the table. *)
Definition denotes (n : IExpressionNode) (e : Expr) : Prop :=
  forall t a b, tuple_holds t [Scalar <$> a; Scalar <$> b] -> Exec n t = Ok (Scalar <$> value a b e).

Definition denotes_opt (n : option IExpressionNode) (e : option Expr) : Prop :=
  match n, e with Some n, Some e => denotes n e | None, None => True | _, _ => False end.

(** The tuple is the row. *)
Definition holds_row (t : ITuple) (r : list (option Z)) : Prop := tuple_holds t (map (fmap Scalar) r).

(** The condition of a node, where it has one, is true of exactly the rows that are to be kept. *)
Definition keeps (qual : option IExpressionNode) (keep : row -> bool) : Prop :=
  forall t r, holds_row t (cells r) -> match qual with Some q => ExecQual q t | None => Ok true end = Ok (keep r).

(** A plan does what is asked for: a scan returns the rows that pass its condition as they are, an InsertNode inserts its tuples,
    an UpdateNode replaces the rows that pass by those that [make_new] computes, and a DeleteNode removes them
    ([Plan.select_over_heap], [Plan.update_node_updates], [Plan.delete_node_deletes]). *)
Definition carries_out (p : PlannedStmt R Sc) (r : request) : Prop :=
  match r with
  | Return keep out => GetCmdTag p = CSelect /\ (exists qual, GetNode p = newSeqScan qual /\ keeps qual keep) /\ forall t, out t = cells t
  | Add new => GetCmdTag p = CInsert /\ exists t, GetNode p = newInsertNode [t] /\ holds_row t new
  | Change keep to => GetCmdTag p = CUpdate /\ exists qual ups, GetNode p = UpdateNode qual ups None 0 /\ keeps (Some qual) keep /\
      forall t r, holds_row t (cells r) -> exists vt, make_new ups t = Ok vt /\ holds_row (VirtualTuple.to_ITuple vt) (cells (to r))
  | Drop keep => GetCmdTag p = CDelete /\ exists qual, GetNode p = DeleteNode qual None 0 /\ keeps (Some qual) keep
  end.

(** The parts of the plan of a statement as it is read. *)
Definition planned (s : SQLStatement) (p : PlannedStmt R Sc) : Prop :=
  node_table p = table /\
  match s with
  | Select s => GetCmdTag p = CSelect /\ exists qual, GetNode p = newSeqScan qual /\ denotes_opt qual (whereClause s)
  | Insert s => GetCmdTag p = CInsert /\ exists tuple vs, GetNode p = newInsertNode [tuple] /\
      ins_values s = Some vs /\ tuple_holds tuple (map literal vs)
  | Update s => GetCmdTag p = CUpdate /\ exists qual ups e, GetNode p = UpdateNode qual ups None 0 /\
      upd_where s = Some e /\ denotes qual e /\
      Forall2 (fun u n => column_number u.1 = Some n.1 /\ denotes n.2 u.2) (updates s) ups
  | Delete s => GetCmdTag p = CDelete /\ exists qual e, GetNode p = DeleteNode qual None 0 /\
      del_expr s = Some e /\ denotes qual e
  | _ => False
  end.
End promises.

(** ** Expressions *)
Section expressions.
Context `{Build} {R : Type} (table : R).

Lemma Expr_induction (P : Expr -> Prop) :
  (forall type expr expr2 name ival opType, (forall e, expr = Some e -> P e) -> (forall e, expr2 = Some e -> P e) ->
    P (mkExpr type expr expr2 name ival opType)) ->
  forall e, P e.
Proof.
  intros Hstep. fix IH 1. intros [type expr expr2 name ival opType]. apply Hstep.
  - intros e He. destruct expr as [e'|]; [|discriminate]. apply (f_equal (default e')) in He. cbn in He. rewrite <-He. apply IH.
  - intros e He. destruct expr2 as [e'|]; [|discriminate]. apply (f_equal (default e')) in He. cbn in He. rewrite <-He. apply IH.
Qed.

Definition main_db : Database R :=
  mkDatabase (newSchema {[MainTableId := mkTableInfo MainTableId main_descriptor main_columns]} builtin_types builtin_operators)
    {[MainTableId := table]}.

Lemma parse_column_ok name :
  parse_column main_db name =
    match column_number name with
    | Some attno => Ok (AttributeExpressionNode attno)
    | None => Fault (Throw ("could not find column: " +:+ name))
    end.
Proof.
  unfold parse_column, column_number. change (GetTableInfo _ _) with (Ok (mkTableInfo MainTableId main_descriptor main_columns)).
  rewrite bind_Ok. cbn [GetColumns find_column main_columns GetName].
  destruct (String.eqb "a" name); [by rewrite assert_Ok by reflexivity|].
  destruct (String.eqb "b" name); [by rewrite assert_Ok by reflexivity | done].
Qed.

Definition equal_node (l r : IExpressionNode) : IExpressionNode := FunctionExpressionNode (mkFunctionContext Int32Eq true 2) [l; r].

Lemma operator_node_ok strategy l r :
  operator_node main_db strategy l r =
    match strategy with Equal => Ok (equal_node l r) | _ => Fault (Throw "Could not find operator") end.
Proof. unfold operator_node, main_db. cbn [GetSchema]. rewrite builtin_operator. by destruct strategy. Qed.

Lemma equal_node_ok l r t x y :
  Exec l t = Ok (Scalar <$> x) -> Exec r t = Ok (Scalar <$> y) -> Exec (equal_node l r) t = Ok (Scalar <$> equal x y).
Proof.
  intros Hl Hr. unfold equal_node. rewrite (Exec_function _ [l; r] [Scalar <$> x; Scalar <$> y] t) by by repeat constructor.
  destruct x as [x|], y as [y|]; cbn [fmap option_fmap option_map existsb]; try done.
  unfold Invoke, Int32Eq, inteqgeneric. cbn [fc_function IsStrict andb orb bool_decide]. rewrite two_args_ok. done.
Qed.

(** Expressions from the grammar: those that are supported become nodes that compute their
    meaning, and all others are reported. *)
Lemma parse_expr_ok e :
  well_formed e = true ->
  if supported e then exists n, parse_expr main_db e = Ok n /\ denotes n e
  else exists msg, parse_expr main_db e = Fault (Throw msg).
Proof.
  induction e as [type expr expr2 name ival opType IH1 IH2] using Expr_induction. intros Hw.
  destruct type; cbn [parse_expr supported well_formed] in *; try by eexists.
  - destruct name as [name|]; [|done]. cbn [of_option]. rewrite bind_Ok, parse_column_ok. unfold denotes. cbn [value]. unfold column_number, column.
    destruct (String.eqb "a" name).
    { cbn. eexists. split; [done|]. intros t a b [_ Ht]. exact (Ht 0%nat (Scalar <$> a) eq_refl). }
    destruct (String.eqb "b" name); cbn; [|by eexists]. eexists. split; [done|]. intros t a b [_ Ht]. exact (Ht 1%nat (Scalar <$> b) eq_refl).
  - destruct (map_op_strategy opType) as [strategy|e] eqn:Es.
    2: { destruct opType; try discriminate Es; injection Es as <-; cbn; by eexists. }
    cbn in Hw. destruct expr as [l|], expr2 as [r|]; try done. apply andb_true_iff in Hw as [Hl Hr].
    2: by rewrite andb_false_r in Hw.
    specialize (IH1 l eq_refl Hl). specialize (IH2 r eq_refl Hr). rewrite bind_Ok.
    destruct (supported l); [destruct IH1 as (nl & -> & Hnl) | destruct IH1 as (msg & ->); rewrite andb_false_r; by eexists].
    rewrite bind_Ok, andb_true_r.
    destruct (supported r); [destruct IH2 as (nr & -> & Hnr) | destruct IH2 as (msg & ->); rewrite andb_false_r; by eexists].
    rewrite bind_Ok, operator_node_ok, andb_true_r. destruct opType; try discriminate Es; injection Es as <-; cbn; try by eexists.
    eexists. split; [done|]. intros t a b Ht. cbn [value]. apply equal_node_ok; auto.
Qed.

Lemma parse_opt_ok e :
  opt_all well_formed e = true ->
  if opt_all supported e then exists n, parse_opt main_db e = Ok n /\ denotes_opt n e
  else exists msg, parse_opt main_db e = Fault (Throw msg).
Proof.
  destruct e as [e|]; cbn; [|by exists None]. intros Hw. pose proof (parse_expr_ok e Hw) as Hp.
  destruct (supported e); [destruct Hp as (n & -> & Hn); by exists (Some n) | destruct Hp as (msg & ->); by exists msg].
Qed.
End expressions.

(** ** Statements *)
Section statements.
Context `{Build} {R Sc : Type} (table : R).
#[local] Notation db := (main_db table).
#[local] Notation PlannedStmt := (PlannedStmt R Sc).

(** What the planner does with a statement: a plan that does it, or an exception. *)
Definition handled (s : SQLStatement) (r : result PlannedStmt) : Prop :=
  if stmt_supported s then exists p, r = Ok p /\ planned table s p else exists msg, r = Fault (Throw msg).

Lemma OpenTable_ok : OpenTable db MainTableId = Ok table.
Proof. unfold OpenTable. by rewrite assert_Ok by reflexivity. Qed.

Lemma plan_select_ok s : no_null_reference (Select s) = true -> handled (Select s) (plan_select db s).
Proof.
  unfold handled. destruct s as [from distinct sel wh gb so ord lim lock].
  cbn [no_null_reference stmt_supported groupBy limit order lockings setOperations selectDistinct fromTable whereClause].
  intros [Hfrom Hw]%andb_true_iff. apply bool_decide_eq_true in Hfrom as [f ->]. unfold plan_select. cbn [groupBy limit order lockings setOperations selectDistinct fromTable whereClause].
  destruct gb; [by eexists|]. destruct lim; [by eexists|]. destruct ord; [by eexists|]. destruct lock; [by eexists|].
  destruct so; [by eexists|]. destruct distinct; [by eexists|]. cbn [reject negb orb andb of_option]. rewrite !bind_Ok.
  destruct f; try by eexists. cbn [is_table andb]. rewrite bind_Ok, OpenTable_ok, bind_Ok.
  pose proof (parse_opt_ok table wh Hw) as Hp. destruct (opt_all supported wh).
  - destruct Hp as (qual & -> & Hq). rewrite bind_Ok. eexists. split; [done|]. split; [done|]. split; [done|]. by exists qual.
  - destruct Hp as (msg & ->). by eexists.
Qed.

Lemma insert_value_ok vs array i v :
  (i < 2)%nat -> vs !! i = Some v ->
  insert_value main_descriptor vs array i =
    if is_literal v then Ok (DatumArray.Add array (literal v))
    else Fault (Throw "Expression in INSERT is not supported type").
Proof.
  intros Hi Hv. unfold insert_value, is_literal, literal. destruct (lookup_lt_is_Some_2 main_descriptor i Hi) as [d Hd].
  rewrite (vec_get_Ok _ _ _ Hd), bind_Ok.
  assert (Hb : negb (negb (typeId d =? TypeId.Int16) || negb (typeId d =? TypeId.Int32) || negb (typeId d =? TypeId.Int64)) = false).
  { unfold TypeId.Int16, TypeId.Int32, TypeId.Int64. destruct (Z.eqb_spec (typeId d) 3), (Z.eqb_spec (typeId d) 2); try done; lia. }
  rewrite Hb. cbn [reject]. rewrite bind_Ok, Hv. cbn [of_option]. rewrite bind_Ok. unfold isType.
  by destruct (type v).
Qed.

Lemma to_ITuple_of_list vs :
  zlen vs < 2 ^ 16 ->
  tuple_holds (VirtualTuple.to_ITuple (VirtualTuple.mk (DatumArray.values (DatumArray.of_list vs)) (DatumArray.isnull (DatumArray.of_list vs)))) vs.
Proof.
  intros Hl. apply to_ITuple_holds; [|done]. unfold DatumArray.of_list.
  destruct (DatumArray.fold_Add vs DatumArray.empty) as (Hv & Hn & _). by split.
Qed.

Lemma plan_insert_ok s : no_null_reference (Insert s) = true -> handled (Insert s) (plan_insert db s).
Proof.
  unfold handled. destruct s as [cols vals]. cbn [no_null_reference stmt_supported ins_values].
  intros [vs ->]%bool_decide_eq_true. unfold plan_insert. change (GetTableInfo _ _) with (Ok (mkTableInfo MainTableId main_descriptor main_columns)).
  rewrite bind_Ok. cbn [ins_values of_option GetDescriptor]. rewrite bind_Ok. change (GetMaxAttrNumber main_descriptor) with 2.
  destruct vs as [|v1 [|v2 [|v3 vs]]]; [by eexists | by eexists | | ].
  2: { rewrite (proj2 (Z.eqb_neq _ _)); [by eexists|]. rewrite !zlen_cons. pose proof (zlen_nonneg vs). lia. }
  change (zlen [v1; v2] =? 2) with true. cbn [negb reject]. rewrite bind_Ok.
  assert (Hl : AttrNumber.for_each 2 (insert_value main_descriptor [v1; v2]) DatumArray.empty =
    if is_literal v1 && is_literal v2 then Ok (DatumArray.of_list [literal v1; literal v2])
    else Fault (Throw "Expression in INSERT is not supported type")).
  { assert (Hf : foldM (insert_value main_descriptor [v1; v2]) (seq 0 (Z.to_nat 2)) DatumArray.empty =
      if is_literal v1 && is_literal v2 then Ok (DatumArray.of_list [literal v1; literal v2])
      else Fault (Throw "Expression in INSERT is not supported type")).
    { change (seq 0 (Z.to_nat 2)) with [0%nat; 1%nat]. cbn [foldM]. rewrite (insert_value_ok _ _ 0 v1) by (done || lia).
      destruct (is_literal v1); [|done]. rewrite bind_Ok, (insert_value_ok _ _ 1 v2) by (done || lia). by destruct (is_literal v2). }
    rewrite AttrNumber.for_each_seq; [exact Hf | unfold AttrNumber.MaxValue; lia | rewrite Hf; by destruct (_ && _)]. }
  rewrite Hl. cbn [forallb length]. rewrite bool_decide_true by done. rewrite andb_true_r. cbn [andb].
  destruct (is_literal v1 && is_literal v2); [|by eexists]. rewrite bind_Ok. cbn [DatumArray.Decompose]. rewrite OpenTable_ok, bind_Ok.
  eexists. split; [done|]. split; [done|]. split; [done|]. eexists _, [v1; v2]. split; [done|]. split; [done|].
  by apply (to_ITuple_of_list [literal v1; literal v2]).
Qed.

Lemma plan_update_clauses_ok us acc :
  forallb (fun u => well_formed u.2) us = true ->
  if forallb (fun u => bool_decide (is_Some (column_number u.1)) && supported u.2) us then
    exists ups, foldM (plan_update_clause db (mkTableInfo MainTableId main_descriptor main_columns)) us acc = Ok (acc ++ ups) /\
      Forall2 (fun u n => column_number u.1 = Some n.1 /\ denotes n.2 u.2) us ups
  else exists msg, foldM (plan_update_clause db (mkTableInfo MainTableId main_descriptor main_columns)) us acc = Fault (Throw msg).
Proof.
  revert acc. induction us as [|[c e] us IH]; intros acc; [exists []; by rewrite app_nil_r|]. cbn [forallb fst snd foldM].
  intros [Hw Hws]%andb_true_iff.
  assert (Hcl : plan_update_clause db (mkTableInfo MainTableId main_descriptor main_columns) acc (c, e) =
    match column_number c with
    | Some k => n ← parse_expr db e; Ok (acc ++ [(k, n)])
    | None => Fault (Throw ("could not find column: " +:+ c)) end).
  { unfold plan_update_clause, FindColumn, column_number. cbn [fst snd GetColumns main_columns find GetName]. destruct (String.eqb "a" c); [done|]. by destruct (String.eqb "b" c). }
  rewrite Hcl. destruct (column_number c) as [k|] eqn:Hk.
  2: { rewrite bool_decide_false by (by intros [? ?]). by eexists. }
  rewrite bool_decide_true by done. cbn [andb]. pose proof (parse_expr_ok table e Hw) as Hp.
  destruct (supported e); [|destruct Hp as (msg & ->); by eexists]. destruct Hp as (n & -> & Hn). rewrite !bind_Ok. cbn [andb].
  specialize (IH (acc ++ [(k, n)]) Hws). destruct (forallb _ us); [|exact IH].
  destruct IH as (ups & E & Hf). exists ((k, n) :: ups). rewrite <-app_assoc in E. split; [exact E|]. constructor; [|exact Hf].
  by split.
Qed.

Lemma plan_update_ok s : no_null_reference (Update s) = true -> handled (Update s) (plan_update db s).
Proof.
  unfold handled. destruct s as [us wh]. cbn [no_null_reference stmt_supported updates upd_where].
  intros [Hus Hw]%andb_true_iff. unfold plan_update. cbn [updates upd_where]. rewrite OpenTable_ok, bind_Ok.
  change (GetTableInfo _ _) with (Ok (mkTableInfo MainTableId main_descriptor main_columns)). rewrite bind_Ok.
  pose proof (plan_update_clauses_ok us [] Hus) as Hu. clear Hus. destruct (forallb _ us); [|destruct Hu as (msg & ->); by eexists].
  destruct Hu as (ups & -> & Hf). rewrite bind_Ok. pose proof (parse_opt_ok table wh Hw) as Hp. cbn [andb app].
  destruct wh as [e|]; [|by eexists]. cbn [opt_all] in Hp. destruct (supported e); [|destruct Hp as (msg & ->); by eexists].
  destruct Hp as (qual & -> & Hq). rewrite bind_Ok. destruct qual as [qual|]; [|done]. cbn [newUpdateNode]. rewrite bind_Ok.
  eexists. split; [done|]. split; [done|]. split; [done|]. by exists qual, ups, e.
Qed.

Lemma plan_delete_ok s : no_null_reference (Delete s) = true -> handled (Delete s) (plan_delete db s).
Proof.
  unfold handled. destruct s as [wh]. cbn [no_null_reference stmt_supported del_expr].
  intros Hw. unfold plan_delete. cbn [del_expr]. rewrite OpenTable_ok, bind_Ok.
  pose proof (parse_opt_ok table wh Hw) as Hp. destruct wh as [e|]; [|by eexists]. cbn [opt_all] in Hp.
  destruct (supported e); [|destruct Hp as (msg & ->); by eexists]. destruct Hp as (qual & -> & Hq). rewrite bind_Ok.
  destruct qual as [qual|]; [|done]. eexists. split; [done|]. split; [done|]. split; [done|]. by exists qual, e.
Qed.

(** *** The plans do what is asked for *)
Lemma row_tuple r : exists t, holds_row t (cells r).
Proof. eexists. by apply (to_ITuple_of_list (map (fmap Scalar) (cells r))). Qed.

Lemma holds_row_inj t r r' : holds_row t r -> holds_row t r' -> r = r'.
Proof.
  assert (Hle : forall i l l' v, holds_row t l -> holds_row t l' -> l !! i = Some v -> l' !! i = Some v).
  { intros i l l' v [Hm Hl] [Hm' Hl'] Hi. assert (Hi' : is_Some (l' !! i)).
    { apply lookup_lt_is_Some. apply lookup_lt_Some in Hi. rewrite Hm in Hm'. unfold zlen in Hm'. rewrite !length_map in Hm'. lia. }
    destruct Hi' as [v' Hv']. specialize (Hl i (Scalar <$> v)). specialize (Hl' i (Scalar <$> v')).
    rewrite list_lookup_fmap, Hi in Hl. rewrite list_lookup_fmap, Hv' in Hl'. specialize (Hl eq_refl). specialize (Hl' eq_refl).
    rewrite Hv'. destruct v, v'; cbn in Hl, Hl'; congruence. }
  intros Hr Hr'. apply list_eq. intros i. destruct (r !! i) as [v|] eqn:E; [symmetry; by apply (Hle i r r' v)|].
  destruct (r' !! i) as [v|] eqn:E'; [|done]. by rewrite (Hle i r' r v) in E by done.
Qed.

Lemma keeps_where qual wh : denotes_opt qual wh -> keeps qual (where_true wh).
Proof.
  intros Hq t [a b] Ht. destruct qual as [n|], wh as [e|]; try done. unfold ExecQual, where_true.
  rewrite (Hq t a b Ht), bind_Ok. by destruct (value _ _ e).
Qed.

Lemma keeps_inj qual keep keep' t : keeps qual keep -> keeps qual keep' -> keep t = keep' t.
Proof. intros Hk Hk'. destruct (row_tuple t) as [u Hu]. pose proof (Hk u t Hu). pose proof (Hk' u t Hu). congruence. Qed.

Lemma make_new_assigned us ups t r :
  Forall2 (fun u n => column_number u.1 = Some n.1 /\ denotes n.2 u.2) us ups -> holds_row t (cells r) ->
  exists vt, make_new ups t = Ok vt /\ holds_row (VirtualTuple.to_ITuple vt) (cells (assigned us r)).
Proof.
  intros Hu Ht. unfold make_new, assigned. destruct (Copy_holds t _ Ht) as (vt & -> & Hvt); [by vm_compute|]. rewrite bind_Ok.
  assert (Hgen : forall acc vt, holds vt (map (fmap Scalar) (cells acc)) -> exists vt', foldM (set_one t) ups vt = Ok vt' /\
    holds vt' (map (fmap Scalar) (cells (fold_left (fun new u => set_column u.1 (value r.1 r.2 u.2) new) us acc)))).
  { clear vt Hvt. induction Hu as [|[c e] [k n] us ups [Hc Hn] _ IH]; intros acc vt Hvt; [by exists vt|]. cbn [foldM fold_left fst snd] in *.
    rewrite (set_one_ok t vt (k, n) (Scalar <$> value r.1 r.2 e)) by by apply Hn. cbn [fst].
    unfold column_number in Hc. unfold set_column at 2. destruct (String.eqb "a" c); [|destruct (String.eqb "b" c); [|done]]; injection Hc as <-.
    - destruct (SetAttribute_holds vt _ 0 (Scalar <$> value r.1 r.2 e) Hvt) as (vt' & E & Hvt'); [cbn; lia.. |].
      change (Z.of_nat 0 + 1) with 1 in E. rewrite E, bind_Ok. by apply IH.
    - destruct (SetAttribute_holds vt _ 1 (Scalar <$> value r.1 r.2 e) Hvt) as (vt' & E & Hvt'); [cbn; lia.. |].
      change (Z.of_nat 1 + 1) with 2 in E. rewrite E, bind_Ok. by apply IH. }
  destruct (Hgen r vt Hvt) as (vt' & -> & Hvt'). exists vt'. split; [done|]. by apply to_ITuple_holds.
Qed.

Lemma literal_value vs : forallb is_literal vs = true -> map literal vs = map (fmap Scalar) (map (value None None) vs).
Proof.
  intros Hl. rewrite map_map. apply map_ext_Forall. apply Forall_forall. intros e He. rewrite forallb_forall in Hl.
  apply list_elem_of_In in He. specialize (Hl e He). unfold is_literal, literal, isType in *. destruct e as [ty ? ? ? v ?]. cbn [type ival] in *. by destruct ty.
Qed.

(** The plan of a supported statement does what the statement asks for as it is read. *)
Lemma planned_carries s (p : PlannedStmt) : stmt_supported s = true -> planned table s p -> exists r, requested (as_read s) = Some r /\ carries_out p r.
Proof.
  intros Hs [_ Hp]. destruct s as [s|s|s|s|c|o]; try done; cbn [as_read requested].
  - destruct Hp as (Hc & qual & Hn & Hq). eexists. split; [done|]. split; [done|]. split; [|done]. exists qual. split; [done|]. by apply keeps_where.
  - destruct Hp as (Hc & t & vs & Hn & Hv & Ht). cbn [stmt_supported ins_values columns] in *. rewrite Hv in Hs |- *.
    apply andb_true_iff in Hs as [Hl Hlit]. cbn [inserted_row]. rewrite Hl. eexists. split; [done|]. split; [done|]. exists t. split; [done|].
    unfold holds_row. by rewrite <-literal_value.
  - destruct Hp as (Hc & qual & ups & e & Hn & Hw & Hq & Hu). eexists. split; [done|]. split; [done|]. exists qual, ups. split; [done|].
    split; [rewrite Hw; by apply keeps_where | by intros; apply make_new_assigned].
  - destruct Hp as (Hc & qual & e & Hn & Hw & Hq). eexists. split; [done|]. split; [done|]. exists qual. split; [done|]. rewrite Hw. by apply keeps_where.
Qed.

#[local] Instance same_request_equivalence : Equivalence same_request.
Proof.
  split; [by intros [] | intros [] []; cbn; naive_solver | intros [] [] []; cbn; try done; try congruence; intros Hx Hy; intros u;
    specialize (Hx u); specialize (Hy u); intuition congruence].
Qed.

(** A plan carries out one request. *)
Lemma carries_out_same (p : PlannedStmt) r r' : carries_out p r -> carries_out p r' <-> same_request r r'.
Proof.
  intros Hp. split.
  - intros Hp'. destruct r as [keep out|new|keep to|keep], r' as [keep' out'|new'|keep' to'|keep']; cbn in Hp, Hp' |- *; try (destruct Hp, Hp'; congruence).
    + destruct Hp as (_ & (q & E & Hk) & Ho), Hp' as (_ & (q' & E' & Hk') & Ho'). intros t. rewrite Ho, Ho'. split; [|done].
      rewrite E in E'. injection E' as <-. by eapply keeps_inj.
    + destruct Hp as (_ & t & E & Ht), Hp' as (_ & t' & E' & Ht'). rewrite E in E'. injection E' as <-. by eapply holds_row_inj.
    + destruct Hp as (_ & q & us & E & Hk & Ht), Hp' as (_ & q' & us' & E' & Hk' & Ht'). rewrite E in E'. injection E' as <- <-. intros t.
      split; [by eapply keeps_inj|]. destruct (row_tuple t) as [u Hu]. destruct (Ht u t Hu) as (vt & Ev & Hv), (Ht' u t Hu) as (vt' & Ev' & Hv').
      rewrite Ev in Ev'. injection Ev' as <-. pose proof (holds_row_inj _ _ _ Hv Hv') as Hr. unfold cells in Hr. destruct (to t), (to' t). cbn in Hr. congruence.
    + destruct Hp as (_ & q & E & Hk), Hp' as (_ & q' & E' & Hk'). rewrite E in E'. injection E' as <-. intros t. by eapply keeps_inj.
  - intros Hs. destruct r as [keep out|new|keep to|keep], r' as [keep' out'|new'|keep' to'|keep']; try done; cbn in Hp, Hs |- *.
    + destruct Hp as (Hc & (q & E & Hk) & Ho). split; [done|]. split; [|intros t; by rewrite <-(proj2 (Hs t))]. exists q. split; [done|].
      intros t r Hr. rewrite <-(proj1 (Hs r)). by apply Hk.
    + by rewrite <-Hs.
    + destruct Hp as (Hc & q & us & E & Hk & Ht). split; [done|]. exists q, us. split; [done|].
      split; [intros t r Hr; rewrite <-(proj1 (Hs r)); by apply Hk | intros t r Hr; rewrite <-(proj2 (Hs r)); by apply Ht].
    + destruct Hp as (Hc & q & E & Hk). split; [done|]. exists q. split; [done|]. intros t r Hr. rewrite <-Hs. by apply Hk.
Qed.

(** *** Every statement of the grammar *)
Lemma plan_null s : grammatical s = true -> dereferences_null s = true -> Plan (Sc := Sc) db s = Fault null_pointer.
Proof.
  intros Hg Hd. destruct s as [[from ? ? ? gb so ord lim lock]|[cols vals]| | | |]; try done; cbn [dereferences_null fromTable ins_values] in Hd.
  - apply andb_true_iff in Hd as [Hc Hf]. unfold refused_clause in Hc. cbn [groupBy limit order lockings setOperations selectDistinct] in Hc.
    destruct from; [done|]. destruct gb, lim, ord, lock, so, selectDistinct0; try done. unfold Plan. by rewrite assert_Ok by done.
  - destruct vals; [done|]. unfold Plan. by rewrite assert_Ok by done.
Qed.

Lemma plan_defined s : grammatical s = true -> IsPlannableStatement s = true -> dereferences_null s = false ->
  no_null_reference s = true \/ stmt_supported s = false /\ exists msg, Plan (Sc := Sc) db s = Fault (Throw msg).
Proof.
  intros Hg Hi Hd. destruct s as [[from dis sel wh gb so ord lim lock]|[cols vals]| | | |]; try done; cbn [grammatical dereferences_null no_null_reference fromTable ins_values whereClause] in *; auto.
  - destruct from; [left; by rewrite Hg|]. rewrite andb_true_r in Hd. apply negb_false_iff in Hd. right. cbn [stmt_supported]. rewrite Hd. split; [done|].
    unfold refused_clause in Hd. cbn [groupBy limit order lockings setOperations selectDistinct] in Hd. unfold Plan. rewrite assert_Ok by done.
    unfold plan_select. cbn [groupBy limit order lockings setOperations selectDistinct].
    destruct gb; [by eexists|]. destruct lim; [by eexists|]. destruct ord; [by eexists|]. destruct lock; [by eexists|]. destruct so; [by eexists|].
    destruct dis; [by eexists | done].
  - left. by apply negb_false_iff in Hd.
Qed.

Lemma plan_handled s : no_null_reference s = true -> handled s (Plan db s).
Proof.
  intros Hw. unfold Plan. rewrite assert_Ok by by destruct s. rewrite bind_Ok. destruct s; try done;
    [by apply plan_select_ok | by apply plan_insert_ok | by apply plan_update_ok | by apply plan_delete_ok].
Qed.


(** The statements for which the planner's behaviour is undefined, and what it does not
    look at: a SELECT without a FROM and an INSERT of the rows of a SELECT dereference a null
    pointer; the list of a SELECT and the columns of an INSERT have no effect on the plan. *)
Theorem plan_undefined database wh sel sel' cols cols' vals :
  setupDatabase table = Ok database ->
  Plan (Sc := Sc) database (Select (mkSelect None false sel wh false false false false false)) = Fault (UB "null pointer") /\
  Plan (Sc := Sc) database (Insert (mkInsert cols None)) = Fault (UB "null pointer") /\
  (forall from distinct gb so ord lim lock, Plan (Sc := Sc) database (Select (mkSelect from distinct sel wh gb so ord lim lock)) =
    Plan database (Select (mkSelect from distinct sel' wh gb so ord lim lock))) /\
  Plan (Sc := Sc) database (Insert (mkInsert cols vals)) = Plan database (Insert (mkInsert cols' vals)).
Proof.
  rewrite setupDatabase_ok. intros [= <-]. fold (main_db table).
  split; [unfold Plan; by rewrite assert_Ok by done|]. split; [unfold Plan; by rewrite assert_Ok by done|]. split; [|done].
  intros. unfold Plan. by rewrite !assert_Ok by done.
Qed.
End statements.

(** ** Queries *)
Section queries.
Context `{Build} {W T Sc : Type} `{ITable W T Sc} {R : Type} (table : R).

(** A tuple of the scan is a row of the table. *)
Definition is_row (t : T) (row : option Z * option Z) : Prop :=
  tuple_holds (as_ITuple t) [Scalar <$> row.1; Scalar <$> row.2].

Lemma denotes_passes qual wh t row :
  denotes_opt qual wh -> is_row t row -> passes qual t = Ok (where_true wh row).
Proof.
  intros Hq Hr. destruct qual as [n|], wh as [e|]; try done. unfold passes, ExecQual, where_true.
  rewrite (Hq _ _ _ Hr), bind_Ok. by destruct (value _ _ e).
Qed.

(** A SELECT from the planner to the rows: the plan of [SELECT * FROM tbl WHERE e], started
    and run to its end over a table whose scan yields the tuples [ts], returns exactly the
    tuples for whose rows [e] is true, in their order; comparisons are made on 32 bits, so a
    literal outside of [int4] selects the rows that equal it modulo [2^32]. *)
Theorem select_query database sel wh snapshot w s0 w0 ts s1 w1 (row : T -> option Z * option Z) fuel :
  setupDatabase table = Ok database -> opt_all supported wh = true -> opt_all well_formed wh = true ->
  begin_scan snapshot w = (Ok s0, w0) -> yields s0 w0 ts s1 w1 -> Forall (fun t => is_row t (row t)) ts ->
  (length ts < fuel)%nat ->
  exists p node, Plan database (Select (mkSelect (Some kTableName) false sel wh false false false false false)) = Ok p /\
    (n ← Start (GetNode p) snapshot; results fuel n) w = (Ok (filter (fun t => where_true wh (row t)) ts, node), w1) /\
    GetRowsProcessed node = zlen (filter (fun t => where_true wh (row t)) ts).
Proof.
  rewrite setupDatabase_ok. intros [= <-] Hs Hw Hb Hy Hr Hf.
  pose proof (plan_select_ok (Sc := Sc) table (mkSelect (Some kTableName) false sel wh false false false false false)) as Hp.
  unfold handled in Hp. cbn [stmt_supported no_null_reference groupBy limit order lockings setOperations selectDistinct fromTable whereClause] in Hp.
  rewrite Hs, Hw in Hp. destruct (Hp eq_refl) as (p & E & _ & _ & qual & Hn & Hq). eexists p, _.
  split; [unfold Plan; rewrite assert_Ok by done; exact E|]. rewrite Hn.
  assert (Hst : Start (newSeqScan qual) snapshot w = (Ok (SeqScan (Some s0) qual 0), w0)).
  { unfold Start, newSeqScan. by erewrite M_bind_Ok by exact Hb. }
  split; [|].
  - erewrite M_bind_Ok by exact Hst. eapply results_filter; [exact Hy | | exact Hf].
    eapply Forall_impl; [exact Hr|]. intros t Ht. by apply denotes_passes.
  - done.
Qed.
End queries.

(** ** Witnesses *)
Definition op_equals (l r : Expr) : Expr := mkExpr kExprOperator (Some l) (Some r) None 0 kOpEquals.
Definition int_literal (v : Z) : Expr := mkExpr kExprLiteralInt None None None v kOpNone.
Definition null_literal : Expr := mkExpr kExprLiteralNull None None None 0 kOpNone.
Definition column_ref (n : string) : Expr := mkExpr kExprColumnRef None None (Some n) 0 kOpNone.

Definition ex_db : Database unit := main_db (H := DebugBuild) tt.
Definition ex_update : SQLStatement := Update (mkUpdate [("b", column_ref "a")] (Some (op_equals (column_ref "a") (int_literal 1)))).
Definition ex_insert : SQLStatement := Insert (mkInsert (Some ["b"; "a"]) (Some [int_literal 1; int_literal 2])).
Definition ex_no_from : SQLStatement := Select (mkSelect None false [int_literal 1] None false false false false false).


Lemma plan_undefined_witness :
  Plan (H := DebugBuild) (Sc := unit) (main_db (H := DebugBuild) tt) (Insert (mkInsert None None)) = Fault (UB "null pointer").
Proof. exact (proj1 (proj2 (plan_undefined (H := DebugBuild) (Sc := unit) tt (main_db (H := DebugBuild) tt) None [] [] None None None (setupDatabase_ok tt)))). Defined.

(** [SELECT * FROM tbl WHERE a = 4294967298] finds the row whose [a] is 2. *)
Lemma select_query_witness :
  exists p node, Plan (H := DebugBuild) (main_db (H := DebugBuild) tt)
      (Select (mkSelect (Some kTableName) false [] (Some (op_equals (column_ref "a") (int_literal 4294967298))) false false false false false)) = Ok p /\
    (n ← Start (H := DebugBuild) (GetNode p) ex_snap; results (H := DebugBuild) 3 n) [] =
      (Ok ([[Some (Scalar 2); None]], node), []).
Proof.
  destruct (select_query (H := DebugBuild) (W := list (change (list (option Datum)))) tt (main_db (H := DebugBuild) tt) []
    (Some (op_equals (column_ref "a") (int_literal 4294967298))) ex_snap [] ex_rows [] ex_rows [] []
    (fun t => (match nth 0 t None with Some (Scalar v) => Some v | _ => None end, match nth 1 t None with Some (Scalar v) => Some v | _ => None end)) 3
    (setupDatabase_ok tt) eq_refl eq_refl)
    as (p & node & E & Hr & _).
  - reflexivity.
  - repeat (eapply yields_next; [reflexivity|]). by apply yields_end.
  - repeat (apply Forall_cons_2; [split; [reflexivity|]; intros [|[|i]] v Hi; [injection Hi as <-; reflexivity | injection Hi as <-; reflexivity | destruct i; discriminate]|]). apply Forall_nil_2.
  - cbn; lia.
  - exists p, node. split; [exact E | exact Hr].
Defined.
