(* ===== verification/Session.v ===== *)
(** A session: [worker/Handler.cpp] and [parser/SQLParser.cpp], over the interfaces of the
    tables and of the client connection. *)
From stdpp Require Import strings pretty.
From S2P Require Import Prelude Types Transactions HeapTable Packets Executor Logger Plan Catalog Planner.

(** The connection, with the packets of the protocol. *)
Class Client (C : Type) := {
  cl_SendPacket : IPacket -> M C unit;
  cl_ReceivePacket : M C (option IPacket)
}.

#[export] Instance Socket_client `{Build} {S : Type} `{Socket S} : Client S := {
  cl_SendPacket := SendPacket;
  cl_ReceivePacket := ReceivePacket
}.

(** What the external parser returns. *)
Record SQLParserResult := mkParserResult { isValid : bool; errorMsg : string; statements : list SQLStatement }.

(** [SQLParser::ParseStatement]; [parse] is the parser of the library, and whether it could run. *)
Definition ParseStatement (parse : bytes -> bool * SQLParserResult) (query : bytes) : result SQLStatement :=
  let '(ok, res) := parse query in
  if negb ok then Fault (Throw "failed to initialize lex")
  else if negb (isValid res) then Fault (Throw (errorMsg res))
  else match statements res with
  | [statement] => Ok statement
  | _ => Fault (Throw "only 1 statement at a time supported")
  end.

(** The state of a session: the transaction manager with the storage under it, whether
    [MyTransaction] points to the worker's transaction, the connection, the output functions and
    the handler of the log. *)
Record Session (W C L : Type) := mkSession {
  s_tm : TransactionManager (W := W); s_my : bool; s_client : C; s_outputs : option (list OutputFunction); s_log : L }.
Arguments mkSession {W C L} _ _ _ _ _.
Arguments s_tm {W C L} _.
Arguments s_my {W C L} _.
Arguments s_client {W C L} _.
Arguments s_outputs {W C L} _.
Arguments s_log {W C L} _.

Definition cmdTagToString (tag : CommandTag) : string :=
  match tag with CSelect => "SELECT" | CInsert => "INSERT" | CUpdate => "UPDATE" | CDelete => "DELETE" end.

Section handler.
Context `{Build} {W C L T Sc R : Type} `{Client C} `{ILogHandler L}.
#[local] Notation Session := (Session W C L).
#[local] Notation TM := (TransactionManager (W := W)).
Context `{ITable Session T Sc}.
Context (Flush : Z -> M W unit) (UndoAllRecords : list Z -> M W unit).
Context (workerId : Z) (DatabaseGlobal : Database R) (GetDescriptor : R -> TupleDescriptor).
Context (parse : bytes -> bool * SQLParserResult).

Definition set_tm (v : TM) (s : Session) : Session := mkSession v (s_my s) (s_client s) (s_outputs s) (s_log s).
Definition set_my (v : bool) : M Session unit := modify (fun s => mkSession (s_tm s) v (s_client s) (s_outputs s) (s_log s)).
Definition on_tm {A} (m : M TM A) : M Session A := fun s => let '(r, v) := m (s_tm s) in (r, set_tm v s).
Definition on_client {A} (m : M C A) : M Session A := fun s =>
  let '(r, c) := m (s_client s) in (r, mkSession (s_tm s) (s_my s) c (s_outputs s) (s_log s)).
Definition on_log {A} (m : M L A) : M Session A := fun s =>
  let '(r, l) := m (s_log s) in (r, mkSession (s_tm s) (s_my s) (s_client s) (s_outputs s) l).

(** [try { body } catch (std::exception &ex) { handler }]. *)
Definition try_catch {A} (body : M Session A) (handler : string -> M Session A) : M Session A := fun s =>
  match body s with
  | (Fault (Throw msg), s') => handler msg s'
  | r => r
  end.

(** *** SocketServer *)
Definition Send (packet : IPacket) : M Session unit := on_client (cl_SendPacket packet).
Definition ReadNextPacket : M Session (option IPacket) := on_client cl_ReceivePacket.

Definition getOutputFunctions (desc : TupleDescriptor) : M Session (list OutputFunction) :=
  outputs ← gets s_outputs;
  match outputs with
  | Some outputs => mret outputs
  | None =>
      if zlen desc <=? GetMaxAttrNumber desc then
        infos ← lift (mapM (fun attr => GetTypeInfo (GetSchema DatabaseGlobal) (typeId attr)) desc);
        let outputs := map GetOutputFunction infos in
        _ ← modify (fun s => mkSession (s_tm s) (s_my s) (s_client s) (Some outputs) (s_log s));
        mret outputs
      else throw (UB "write past the end of the vector")
  end.

Definition SendTupleDescriptor (desc : TupleDescriptor) : M Session unit :=
  Send (TupleDescriptionPacket [bytes_of "a"; bytes_of "b"]).

Definition output_value (outputs : list OutputFunction) (tuple : ITuple) (attrs : list (option bytes)) (idx : nat)
    : result (list (option bytes)) :=
  datum ← GetAttribute tuple (Z.of_nat idx + 1);
  match datum with
  | Some datum => f ← vec_get outputs idx; value ← f datum; mret (attrs ++ [Some value])
  | None => mret (attrs ++ [None])
  end.

Definition SendTuple (desc : TupleDescriptor) (tuple : ITuple) : M Session unit :=
  outputs ← getOutputFunctions desc;
  attrs ← lift (AttrNumber.for_each (GetMaxAttrNumber desc) (output_value outputs tuple) []);
  Send (DataRowPacket attrs).

Definition SendCommandComplete (tag : string) (rows : Z) : M Session unit := Send (CommandCompletePacket (bytes_of tag) rows).
Definition SendError (message : string) : M Session unit := Send (ErrorResponsePacket (bytes_of message)).

(** *** Transactions *)

(** [MyTransaction] is set when the object exists, before it is published. *)
Definition BeginMyTransaction : M Session unit :=
  xid ← on_tm (begin_create workerId);
  _ ← set_my true;
  on_tm (begin_publish workerId xid).

Definition start_new_transaction_command : M Session unit :=
  my ← gets s_my;
  if my : bool then mret tt
  else
    _ ← BeginMyTransaction;
    my ← gets s_my;
    lift (assert_ my "mi::MyTransaction != nullptr").

Definition handle_begin : M Session unit :=
  _ ← start_new_transaction_command;
  SendCommandComplete "BEGIN" (-1).

Definition commit_transaction_command : M Session unit :=
  _ ← on_tm (CommitTransaction Flush workerId);
  set_my false.

Definition handle_commit : M Session unit :=
  _ ← commit_transaction_command;
  SendCommandComplete "COMMIT" (-1).

Definition rollback_state : M Session unit := on_tm (AbortTransaction UndoAllRecords workerId).

Definition abort_transaction_command : M Session unit :=
  my ← gets s_my;
  if negb my then throw (Throw "There is no transaction")
  else
    _ ← rollback_state;
    set_my false.

Definition handle_rollback : M Session unit :=
  _ ← abort_transaction_command;
  SendCommandComplete "ROLLBACK" (-1).

Definition exec_tcl_query (command : TransactionCommand) : M Session unit :=
  match command with
  | kBeginTransaction => handle_begin
  | kRollbackTransaction => handle_rollback
  | kCommitTransaction => handle_commit
  end.

(** *** ImplicitTransactionGuard

    Its state is [_inImplicitTnx]. An exception that leaves the destructor ends the process. *)
Definition guard_enter : M Session bool :=
  my ← gets s_my;
  if my : bool then mret false else _ ← start_new_transaction_command; mret true.

Definition guard_commit (implicit : bool) : M Session bool :=
  if implicit then _ ← commit_transaction_command; mret false else mret implicit.

Definition guard_abort (implicit : bool) : M Session bool :=
  if implicit then _ ← abort_transaction_command; mret false else mret implicit.

Definition guard_leave {A} (implicit : bool) (r : result A) : M Session A := fun s =>
  match guard_abort implicit s with
  | (Ok _, s') => (r, s')
  | (Fault (Throw _), s') => (Fault (Abort "std::terminate"), s')
  | (Fault e, s') => (Fault e, s')
  end.

(** The block of a guard: the body returns its state at the end of the block, and has not
    changed it when it throws. *)
Definition guard_scope (implicit : bool) (body : M Session bool) : M Session unit := fun s =>
  match body s with
  | (Ok implicit, s') => guard_leave implicit (Ok tt) s'
  | (Fault (Throw msg), s') => guard_leave implicit (Fault (Throw msg)) s'
  | (Fault e, s') => (Fault e, s')
  end.

Definition with_guard (body : bool -> M Session bool) : M Session unit :=
  implicit ← guard_enter;
  guard_scope implicit (body implicit).

(** *** Queries *)

(** [MyTransaction->BeginNewStatement()] and [GetSnapshot()]. *)
Definition begin_statement : M Session Snapshot :=
  s ← get;
  t ← lift (of_option (UB "null pointer") (tm_transactions (s_tm s) !! workerId));
  t ← on_tm (BeginNewStatement t);
  _ ← lift (assert_ (match t_snapshot t with Some _ => true | None => false end) "this->_snapshot != nullptr");
  _ ← on_tm (modify (fun m => set_transactions (<[workerId := t]> (tm_transactions m)) m));
  lift (of_option (UB "null pointer") (t_snapshot t)).

(** The loop over the tuples of a node. *)
Definition send_rows (fuel : nat) (sendTuples : bool) (descriptor : TupleDescriptor) : @PlanNode Sc -> M Session (@PlanNode Sc) :=
  execute_all fuel (fun tuple => if sendTuples then SendTuple descriptor (as_ITuple tuple) else mret tt).

(** A planned statement, up to the end of the transaction. *)
Definition run_statement (fuel : nat) (stmt : PlannedStmt R Sc) : M Session unit :=
  snapshot ← begin_statement;
  table ← lift (OpenTable DatabaseGlobal MainTableId);
  let descriptor := GetDescriptor table in
  let sendTuples := bool_decide (GetCmdTag stmt = CSelect) in
  _ ← (if sendTuples then SendTupleDescriptor descriptor else mret tt);
  node ← Start (GetNode stmt) snapshot;
  node ← send_rows fuel sendTuples descriptor node;
  node ← End node;
  SendCommandComplete (cmdTagToString (GetCmdTag stmt)) (GetRowsProcessed node).

Definition exec_plannable_query (fuel : nat) (statement : SQLStatement) : M Session unit :=
  stmt ← lift (Plan (Sc := Sc) DatabaseGlobal statement);
  with_guard (fun implicit => _ ← run_statement fuel stmt; guard_commit implicit).

Definition exec_statement (fuel : nat) (statement : SQLStatement) : M Session unit :=
  match statement with
  | Transaction command => exec_tcl_query command
  | _ =>
      if IsPlannableStatement statement then exec_plannable_query fuel statement
      else SendError (String.append "Statement " (String.append (pretty (StatementType_value statement)) " is not supported"))
  end.

(** [MyTransaction->SetStatus(ABORTED)]. *)
Definition SetStatus (status : TransactionStatus) : M Session unit :=
  on_tm (modify (fun m => set_transactions (alter (fun t =>
    mkTransaction (t_xid t) (t_latch t) (t_snapshot t) status (t_csn t) (t_undoLog t) (t_lastLsn t) (t_workerId t)) workerId
    (tm_transactions m)) m)).

(** What is logged of a query, before it is parsed, and of one that has failed. *)
Definition query_text (query : bytes) : bytes := bytes_of "got query: " ++ c_str query.
Definition failure_text (query : bytes) (what : string) : bytes :=
  bytes_of "could not execute query " ++ [x22] ++ c_str query ++ [x22] ++ bytes_of ": " ++ c_str (bytes_of what).

Definition handle_error (query : bytes) (what : string) : M Session unit :=
  _ ← SendError what;
  _ ← on_log (Error (failure_text query what));
  my ← gets s_my;
  if my : bool then SetStatus ABORTED else mret tt.

Definition handle_query (fuel : nat) (query : bytes) : M Session unit :=
  _ ← on_log (Debug (query_text query));
  try_catch
    (statement ← lift (ParseStatement parse query);
     exec_statement fuel statement)
    (handle_error query).

Fixpoint handle_packets (fuel : nat) : M Session unit :=
  match fuel with
  | O => throw NoFuel
  | S k =>
      packet ← ReadNextPacket;
      match packet with
      | None => mret tt
      | Some packet =>
          let type := pretty (PacketType.value (Type_ packet)) in
          _ ← on_log (Debug (bytes_of "got command " ++ bytes_of type));
          _ ← (match packet with
               | QueryPacket query => handle_query fuel query
               | _ => SendError (String.append "Packet type " (String.append type " is not supported"))
               end);
          handle_packets k
      end
  end.

(** [MyWorker] is [workerId]. *)
Definition start_text : bytes := bytes_of "starting processing client for worker " ++ bytes_of (pretty workerId).
Definition handle_loop (fuel : nat) : M Session unit :=
  _ ← on_log (Info start_text);
  handle_packets fuel.

(** A thread of its own: [MyTransaction] starts as the null pointer. *)
Definition HandleUserConnection (fuel : nat) : M Session unit :=
  _ ← modify (fun s => mkSession (s_tm s) false (s_client s) None (s_log s));
  try_catch (handle_loop fuel) (fun what => on_log (Error (bytes_of "something went wrong: " ++ c_str (bytes_of what)))).
End handler.
