(* ===== verification/SessionSpec.v ===== *)
(** What a session promises: how queries move it between having no transaction and having
    one, and what becomes of the transactions. *)
From stdpp Require Import strings pretty.
From S2P Require Import Prelude Types Transactions HeapTable Packets Executor Logger Plan Catalog Planner Session.

(** ** The abstract session

    [InTransaction x st] has the open transaction [x] with status [st]. *)
Inductive mode := NoTransaction | InTransaction (xid : Z) (st : TransactionStatus).

Inductive query_kind := QBegin | QCommit | QRollback | QStatement | QOther.

Definition kind_of (r : result SQLStatement) : query_kind :=
  match r with
  | Ok (Transaction kBeginTransaction) => QBegin
  | Ok (Transaction kCommitTransaction) => QCommit
  | Ok (Transaction kRollbackTransaction) => QRollback
  | Ok s => if IsPlannableStatement s then QStatement else QOther
  | Fault _ => QOther
  end.

(** One query, when the next transaction would be [xid] and the next commit number [csn]; the
    event is what the history says of the transaction that the query has ended. *)
Inductive session_step (xid csn : Z) : mode -> query_kind -> option (Z * Z) -> mode -> Prop :=
| auto_done : session_step xid csn NoTransaction QStatement (Some (xid, csn)) NoTransaction
| auto_failed : session_step xid csn NoTransaction QStatement (Some (xid, CommitSeqNumber.Aborted)) NoTransaction
| refused q : q <> QBegin -> q <> QCommit -> session_step xid csn NoTransaction q None NoTransaction
| begin_new st : session_step xid csn NoTransaction QBegin None (InTransaction xid st)
| unchanged x st q : q <> QCommit -> q <> QRollback -> session_step xid csn (InTransaction x st) q None (InTransaction x st)
| failed x st q : session_step xid csn (InTransaction x st) q None (InTransaction x ABORTED)
| committed x st : session_step xid csn (InTransaction x st) QCommit (Some (x, csn)) NoTransaction
| rolled_back x st : session_step xid csn (InTransaction x st) QRollback (Some (x, CommitSeqNumber.Aborted)) NoTransaction.

(** An exception, or a result. *)
Definition returns {A} (r : result A) : Prop := match r with Ok _ | Fault (Throw _) => True | _ => False end.

Section session.
Context `{Build} {W C L T Sc R : Type} `{Client C} `{ILogHandler L}.
#[local] Notation Session := (Session W C L).
Context `{ITable Session T Sc}.
Context (Flush : Z -> M W unit) (UndoAllRecords : list Z -> M W unit).
Context (workerId : Z) (DatabaseGlobal : Database R) (GetDescriptor : R -> TupleDescriptor).
Context (parse : bytes -> bool * SQLParserResult).

(** What only the commands of transactions change. *)
Definition core (s : Session) :=
  (s_my s, tm_mutex (s_tm s), tm_csn (s_tm s), tm_xid (s_tm s), tm_xidToWorker (s_tm s),
   (fun t => (t_xid t, t_workerId t, t_status t, t_latch t)) <$> tm_transactions (s_tm s) !! workerId).

Definition stays {A} (m : M Session A) : Prop := forall s r s', m s = (r, s') -> returns r -> core s' = core s.

(** The tables work inside of the transaction of the session: they change the storage, the
    undo log and the last LSN of the transaction, and not the transaction table. *)
Class SessionTable := {
  stays_StartScan snap : stays (tbl_StartScan snap);
  stays_BeginScan sc : stays (tbl_BeginScan sc);
  stays_GetNextTuple sc : stays (tbl_GetNextTuple sc);
  stays_EndScan sc : stays (tbl_EndScan sc);
  stays_InsertTuple t : stays (tbl_InsertTuple (ITable := H2) t);
  stays_UpdateTuple t n : stays (tbl_UpdateTuple t n);
  stays_DeleteTuple t : stays (tbl_DeleteTuple t)
}.

(** ** What leaves the transaction alone *)
Lemma stays_ret {A} (a : A) : stays (mret a).
Proof. by intros s r s' [= <- <-]. Qed.

Lemma stays_throw {A} f : stays (A := A) (throw f).
Proof. by intros s r s' [= <- <-]. Qed.

Lemma stays_lift {A} (x : result A) : stays (lift x).
Proof. by intros s r s' [= <- <-]. Qed.

Lemma stays_gets {A} (f : Session -> A) : stays (gets f).
Proof. by intros s r s' [= <- <-]. Qed.

Lemma stays_bind {A B} (m : M Session A) (k : A -> M Session B) : stays m -> (forall a, stays (k a)) -> stays (mbind k m).
Proof.
  intros Hm Hk s r s'. unfold mbind, M_bind. destruct (m s) as [[a|e] s1] eqn:E.
  - intros E2 Hr. rewrite (Hk a s1 r s' E2 Hr). by apply (Hm s (Ok a)).
  - intros [= <- <-]. destruct e; try done. intros _. by apply (Hm s (Fault (Throw msg))).
Qed.

Lemma stays_on_client {A} (m : M C A) : stays (on_client m).
Proof. intros s r s'. unfold on_client. destruct (m (s_client s)) as [r0 c]. by intros [= <- <-]. Qed.

Lemma stays_on_log {A} (m : M L A) : stays (on_log m).
Proof. intros s r s'. unfold on_log. destruct (m (s_log s)) as [r0 l]. by intros [= <- <-]. Qed.

Lemma stays_outputs o : stays (modify (fun s : Session => mkSession (s_tm s) (s_my s) (s_client s) o (s_log s))).
Proof. by intros s r s' [= <- <-]. Qed.
End session.

Create HintDb stays discriminated.
#[export] Hint Resolve stays_ret stays_throw stays_lift stays_gets stays_on_client stays_on_log stays_outputs
  stays_StartScan stays_BeginScan stays_GetNextTuple stays_EndScan stays_InsertTuple stays_UpdateTuple stays_DeleteTuple : stays.

(** Binds and case analyses of a computation, then its leaves. *)
Ltac stays_tac :=
  repeat match goal with
  | |- stays _ (mbind _ _) => apply stays_bind; [|intro]
  | |- stays _ (match ?x with _ => _ end) => destruct x
  | |- _ => progress intros
  end; auto with stays.

Section keeping.
Context `{Build} {W C L T Sc R : Type} `{Client C} `{ILogHandler L}.
#[local] Notation Session := (Session W C L).
Context `{ITable Session T Sc}.
Context (workerId : Z) (DatabaseGlobal : Database R) (GetDescriptor : R -> TupleDescriptor).
Context `{!SessionTable workerId}.
#[local] Notation stays := (stays workerId).

Lemma stays_begin_scan snap : stays (begin_scan snap).
Proof. unfold begin_scan. stays_tac. Qed.
#[local] Hint Resolve stays_begin_scan : stays.

Lemma stays_Start node snap : stays (Start node snap).
Proof. destruct node; cbn [Start]; stays_tac. Qed.

Lemma stays_End node : stays (End node).
Proof. destruct node; cbn [End]; stays_tac. Qed.

Lemma stays_seq_scan fuel qual sc : stays (seq_scan fuel qual sc).
Proof. revert sc. induction fuel as [|fuel IH]; intros sc; cbn [seq_scan]; stays_tac. Qed.

Lemma stays_insert_all tuples n : stays (insert_all tuples n).
Proof. revert n. induction tuples as [|t tuples IH]; intros n; cbn [insert_all]; stays_tac. Qed.

Lemma stays_update_loop fuel qual ups sc n : stays (update_loop fuel qual ups sc n).
Proof. revert sc n. induction fuel as [|fuel IH]; intros sc n; cbn [update_loop]; stays_tac. Qed.

Lemma stays_delete_loop fuel qual sc n : stays (delete_loop fuel qual sc n).
Proof. revert sc n. induction fuel as [|fuel IH]; intros sc n; cbn [delete_loop]; stays_tac. Qed.
#[local] Hint Resolve stays_Start stays_End stays_seq_scan stays_insert_all stays_update_loop stays_delete_loop : stays.

Lemma stays_Execute fuel node : stays (Execute fuel node).
Proof. destruct node; cbn [Execute]; stays_tac. Qed.
#[local] Hint Resolve stays_Execute : stays.

Lemma stays_execute_all fuel each node : (forall t, stays (each t)) -> stays (execute_all fuel each node).
Proof. intros He. revert node. induction fuel as [|fuel IH]; intros node; cbn [execute_all]; stays_tac. Qed.

Lemma stays_Send p : stays (Send p : M Session unit).
Proof. apply stays_on_client. Qed.
#[local] Hint Resolve stays_Send : stays.

Lemma stays_SendTuple desc t : stays (SendTuple DatabaseGlobal desc t : M Session unit).
Proof. unfold SendTuple, getOutputFunctions. stays_tac. Qed.
#[local] Hint Resolve stays_SendTuple : stays.

Lemma stays_send_rows fuel b desc node : stays (send_rows DatabaseGlobal fuel b desc node).
Proof. apply stays_execute_all. intros t. destruct b; auto with stays. Qed.
#[local] Hint Resolve stays_send_rows : stays.

Lemma stays_begin_statement : stays (begin_statement workerId : M Session Snapshot).
Proof.
  intros s r s' E Hr. unfold begin_statement in E. unfold mbind at 1, M_bind at 1, get in E.
  destruct (tm_transactions (s_tm s) !! workerId) as [t|] eqn:Ht; [|unfold mbind, M_bind, lift in E; cbn in E; by injection E as <- <-].
  erewrite lift_Ok in E by reflexivity. unfold mbind at 1, M_bind at 1, on_tm at 1 in E.
  destruct (BeginNewStatement t (s_tm s)) as [[t'|e] m'] eqn:Eb.
  2: { exfalso. unfold BeginNewStatement in Eb. destruct (t_snapshot t) as [sn|]; [destruct (t_undoLog t)|]; try done. by destruct (UndoSeqNumber.IsValid _). }
  assert (m' = s_tm s /\ t_xid t' = t_xid t /\ t_workerId t' = t_workerId t /\ t_status t' = t_status t /\ t_latch t' = t_latch t) as (-> & E1 & E2 & E3 & E4).
  { unfold BeginNewStatement in Eb. destruct (t_snapshot t) as [sn|].
    - destruct (t_undoLog t) as [h|]; [destruct (UndoSeqNumber.IsValid _)|]; by injection Eb as <- <-.
    - unfold GetCurrentCSN, gets, mbind, M_bind in Eb. by injection Eb as <- <-. }
  unfold mbind, M_bind, lift in E. destruct (assert_ _ _) as [[]|e]; [|injection E as <- <-; by destruct s].
  unfold on_tm, modify in E. injection E as _ <-. unfold core, set_tm, set_transactions. cbn. rewrite lookup_insert_eq, Ht. cbn. congruence.
Qed.
#[local] Hint Resolve stays_begin_statement : stays.

Lemma stays_run_statement fuel stmt : stays (run_statement workerId DatabaseGlobal GetDescriptor fuel stmt).
Proof. unfold run_statement, SendTupleDescriptor, SendCommandComplete. stays_tac. Qed.
End keeping.

(** ** Tables of the storage

    A table over the storage under the transaction manager is one for sessions, and obeys their law. *)
Section lifted.
Context {W C L T Sc : Type} `{ITable W T Sc}.
#[local] Notation Session := (Session W C L).

Definition Session_table : ITable Session T Sc := {|
  as_ITuple := as_ITuple;
  tbl_StartScan snap := on_tm (on_world (tbl_StartScan snap));
  tbl_BeginScan s := on_tm (on_world (tbl_BeginScan s));
  tbl_GetNextTuple s := on_tm (on_world (tbl_GetNextTuple s));
  tbl_EndScan s := on_tm (on_world (tbl_EndScan s));
  tbl_InsertTuple new := on_tm (on_world (tbl_InsertTuple new));
  tbl_UpdateTuple t new := on_tm (on_world (tbl_UpdateTuple t new));
  tbl_DeleteTuple t := on_tm (on_world (tbl_DeleteTuple t))
|}.

Lemma stays_on_world workerId {A} (m : M W A) : stays workerId (on_tm (on_world m) : M Session A).
Proof. intros s r s'. unfold on_tm, on_world. destruct (m (tm_world (s_tm s))) as [r0 w]. by intros [= <- <-]. Qed.

Lemma Session_table_laws workerId : SessionTable (H2 := Session_table) workerId.
Proof. split; intros; apply stays_on_world. Qed.
End lifted.

(** ** Transactions of a session *)
Section transactions.
Context `{Build} {W C L : Type} `{Client C} `{ILogHandler L}.
#[local] Notation Session := (Session W C L).
Context (Flush : Z -> M W unit) (UndoAllRecords : list Z -> M W unit) (workerId : Z).
#[local] Notation core := (core workerId).
#[local] Notation commit_transaction_command := (commit_transaction_command Flush workerId).
#[local] Notation abort_transaction_command := (abort_transaction_command UndoAllRecords workerId).

(** The mutex is free and the worker's transaction is as the mode says. *)
Definition in_mode (s : Session) (m : mode) : Prop :=
  tm_mutex (s_tm s) = false /\
  match m with
  | NoTransaction => s_my s = false /\ tm_transactions (s_tm s) !! workerId = None
  | InTransaction x st => s_my s = true /\ is_Some (tm_xidToWorker (s_tm s) !! x) /\
      exists t, tm_transactions (s_tm s) !! workerId = Some t /\ t_xid t = x /\ t_workerId t = workerId /\ t_status t = st /\ t_latch t = true
  end.

Definition counters (s : Session) : Z * Z := (tm_xid (s_tm s), tm_csn (s_tm s)).
Definition history (s : Session) (x : Z) : option Z := tm_history (s_tm s) !! x.

Lemma core_mode s s' m : core s' = core s -> in_mode s m -> in_mode s' m /\ counters s' = counters s.
Proof.
  intros Hc. injection Hc as Hmy Hmx Hcsn Hxid Htab Hown. unfold in_mode, counters. rewrite Hmx, Htab, Hmy, Hcsn, Hxid.
  intros [Hm Hin]. split; [|done]. split; [done|]. destruct m as [|x st].
  - destruct Hin as [Hf Hn]. split; [done|]. rewrite Hn in Hown. by destruct (tm_transactions (s_tm s') !! workerId).
  - destruct Hin as (Ht & Hsome & t & E & Hx & Hw & Hst & Hl). split; [done|]. split; [done|]. rewrite E in Hown.
    destruct (tm_transactions (s_tm s') !! workerId) as [t'|]; [|done]. injection Hown as E1 E2 E3 E4. exists t'. split; [done|]. split_and!; congruence.
Qed.

(** A new transaction has no snapshot yet, and all but the transaction manager is as it was. *)
Definition begun (s s' : Session) : Prop :=
  tm_csn (s_tm s') = tm_csn (s_tm s) /\ tm_world (s_tm s') = tm_world (s_tm s) /\
  s_client s' = s_client s /\ s_outputs s' = s_outputs s /\ s_log s' = s_log s /\
  exists t, tm_transactions (s_tm s') !! workerId = Some t /\ t_snapshot t = None.

Lemma session_begin_ok s :
  in_mode s NoTransaction ->
  exists s', start_new_transaction_command workerId s = (Ok tt, s') /\
    in_mode s' (InTransaction (tm_xid (s_tm s)) RUNNING) /\ begun s s'.
Proof.
  intros (Hm & Hmy & Hn). unfold start_new_transaction_command, BeginMyTransaction, begin_create, begin_publish, locked, on_tm.
  unfold mbind, M_bind, gets, set_my, modify, fetch_add_xid, lift, mret, M_ret. rewrite Hmy. cbn. rewrite Hn, assert_true. cbn. rewrite Hm. cbn.
  rewrite assert_true. eexists. split; [reflexivity|]. split.
  - split; [done|]. cbn. split; [done|]. split; [by rewrite lookup_insert_eq|]. eexists. by rewrite lookup_insert_eq.
  - split_and!; try done. eexists. cbn. by rewrite lookup_insert_eq.
Qed.

Lemma get_own_at (m : TransactionManager (W := W)) t :
  tm_transactions m !! workerId = Some t -> t_workerId t = workerId -> get_own workerId m = (Ok t, m).
Proof. intros Ht Hw. unfold get_own, mbind, M_bind, get. rewrite Ht. unfold lift. by rewrite Hw, assert_Ok by lia. Qed.

Lemma get_own_ok s x st : in_mode s (InTransaction x st) ->
  exists t, get_own workerId (s_tm s) = (Ok t, s_tm s) /\ t_xid t = x /\ tm_transactions (s_tm s) !! workerId = Some t /\ t_workerId t = workerId.
Proof. intros (_ & _ & _ & t & E & Hx & Hw & _ & _). exists t. split; [by apply get_own_at | done]. Qed.

(** A COMMIT that returns has committed with the next number; one that throws has changed
    nothing but the storage. *)
Lemma commit_ok s x st r s' :
  in_mode s (InTransaction x st) -> CommitSeqNumber.Min <= tm_csn (s_tm s) -> commit_transaction_command s = (r, s') ->
  match r with
  | Ok _ => in_mode s' NoTransaction /\ history s' x = Some (tm_csn (s_tm s))
  | Fault (Throw _) => in_mode s' (InTransaction x st) /\ counters s' = counters s
  | _ => True
  end /\ ((forall lsn w, exists w', Flush lsn w = (Ok tt, w')) -> r = Ok tt).
Proof.
  intros Hs Hc. destruct (get_own_ok s x st Hs) as (t & Hg & Hx & Ht & Hwk). pose proof Hs as (Hm & Hmy & [w Hw] & _).
  unfold commit_transaction_command, CommitTransaction, on_tm. unfold mbind at 1, M_bind at 1. unfold mbind at 1, M_bind at 1. rewrite Hg. cbv beta iota.
  assert (Hfl : exists rf w', (if LogSeqNumber.IsValid (t_lastLsn t) then on_world (Flush (t_lastLsn t)) else mret tt) (s_tm s) = (rf, set_world w' (s_tm s)) /\
    ((forall lsn w, exists w', Flush lsn w = (Ok tt, w')) -> rf = Ok tt)).
  { destruct (LogSeqNumber.IsValid _); unfold on_world.
    - destruct (Flush _ _) as [rf w'] eqn:Ef. exists rf, w'. split; [done|]. intros Ha. destruct (Ha (t_lastLsn t) (tm_world (s_tm s))) as (w2 & E2). congruence.
    - exists (Ok tt), (tm_world (s_tm s)). by destruct (s_tm s). }
  destruct Hfl as (rf & w' & Hfl & Hans). unfold mbind at 1, M_bind at 1. rewrite Hfl. destruct rf as [[]|e].
  - unfold commit_mark, commit_publish, commit_finish, end_entry, locked, set_my. unfold mbind, M_bind, fetch_add_csn, modify, get, put, lift. cbn.
    rewrite Hm. cbn. rewrite Hm. cbn. rewrite Hx, Hw. unfold get_own, mbind, M_bind, get, lift, mret, M_ret. cbn. rewrite Ht.
    rewrite assert_Ok by lia. cbn.
    unfold Commit. rewrite assert_Ok by (unfold CommitSeqNumber.IsNormal; lia). cbn. intros [= <- <-].
    split; [|done]. split; [|unfold history; cbn; by rewrite lookup_insert_eq]. split; [done|]. split; [done|]. cbn. by rewrite lookup_delete_eq.
  - intros [= <- <-]. split; [by destruct e | by intros Ha%Hans].
Qed.

(** The same for ROLLBACK. *)
Lemma abort_ok s x st r s' :
  in_mode s (InTransaction x st) -> abort_transaction_command s = (r, s') ->
  match r with
  | Ok _ => in_mode s' NoTransaction /\ history s' x = Some CommitSeqNumber.Aborted
  | Fault (Throw _) => in_mode s' (InTransaction x st) /\ counters s' = counters s
  | _ => True
  end.
Proof.
  intros Hs. destruct (get_own_ok s x st Hs) as (t & Hg & Hx & Ht & Hwk). pose proof Hs as (Hm & Hmy & [w Hw] & _).
  unfold abort_transaction_command, rollback_state, AbortTransaction, on_tm. unfold mbind at 1, M_bind at 1, gets. rewrite Hmy. cbn [negb].
  unfold mbind at 1, M_bind at 1. unfold mbind at 1, M_bind at 1, get. cbv beta iota. rewrite Ht. cbn [of_option]. erewrite lift_Ok by reflexivity.
  assert (Hu : exists ru w', (match t_undoLog t with Some h => on_world (UndoAllRecords h) | None => mret tt end) (s_tm s) = (ru, set_world w' (s_tm s))).
  { destruct (t_undoLog t) as [h|]; unfold on_world.
    - destruct (UndoAllRecords _ _) as [ru w']. by exists ru, w'.
    - exists (Ok tt), (tm_world (s_tm s)). by destruct (s_tm s). }
  destruct Hu as (ru & w' & Hu). unfold mbind at 1, M_bind at 1. rewrite Hu. destruct ru as [[]|e].
  - assert (Hg' : get_own workerId (set_world w' (s_tm s)) = (Ok t, set_world w' (s_tm s))) by by apply get_own_at.
    unfold mbind at 1, M_bind at 1. rewrite Hg'. unfold abort_publish, abort_finish, end_entry, locked, set_my.
    unfold mbind, M_bind, modify, get, put. cbn. rewrite Hm. cbn. rewrite Hx, Hw. cbn. intros [= <- <-].
    split; [|unfold history; cbn; by rewrite lookup_insert_eq]. split; [done|]. split; [done|]. cbn. by rewrite lookup_delete_eq.
  - intros [= <- <-]. by destruct e.
Qed.
End transactions.

(** ** Queries *)
Section queries.
Context `{Build} {W C L T Sc R : Type} `{Client C} `{ILogHandler L}.
#[local] Notation Session := (Session W C L).
Context `{ITable Session T Sc}.
Context (Flush : Z -> M W unit) (UndoAllRecords : list Z -> M W unit).
Context (workerId : Z) (DatabaseGlobal : Database R) (GetDescriptor : R -> TupleDescriptor).
Context (parse : bytes -> bool * SQLParserResult).
Context `{!SessionTable workerId}.
#[local] Notation in_mode := (in_mode workerId).
#[local] Notation handle_query := (handle_query Flush UndoAllRecords workerId DatabaseGlobal GetDescriptor parse).
#[local] Notation exec_plannable_query := (exec_plannable_query Flush UndoAllRecords workerId DatabaseGlobal GetDescriptor).
#[local] Notation exec_tcl_query := (exec_tcl_query Flush UndoAllRecords workerId).
#[local] Notation exec_statement := (exec_statement Flush UndoAllRecords workerId DatabaseGlobal GetDescriptor).

(** The history has the event. *)
Definition recorded (ev : option (Z * Z)) (s : Session) : Prop :=
  match ev with Some (x, v) => history s x = Some v | None => True end.

(** What the handler of an exception makes of the mode. *)
Definition fail (m : mode) : mode := match m with NoTransaction => NoTransaction | InTransaction x _ => InTransaction x ABORTED end.

(** The outcome of a query before an exception is handled. *)
Definition steps (s : Session) (m : mode) (q : query_kind) {A} (r : result A) (s' : Session) : Prop :=
  match r with
  | Ok _ => exists ev m', session_step (tm_xid (s_tm s)) (tm_csn (s_tm s)) m q ev m' /\ in_mode s' m' /\ recorded ev s'
  | Fault (Throw _) => exists ev m', session_step (tm_xid (s_tm s)) (tm_csn (s_tm s)) m q ev (fail m') /\ in_mode s' m' /\ recorded ev s'
  | _ => True
  end.

Lemma steps_returns {A} s m q (r : result A) s' : (returns r -> steps s m q r s') -> steps s m q r s'.
Proof. destruct r as [|[]]; cbn; auto. Qed.

Lemma stays_mode {A} (m : M Session A) s md r s' :
  stays workerId m -> in_mode s md -> m s = (r, s') -> returns r -> in_mode s' md /\ counters s' = counters s.
Proof. intros Hk Hs E Hr. eapply core_mode; [by eapply Hk | done]. Qed.

(** A reply has no effect on the transaction, and none on the history. *)
Lemma Send_history (p : IPacket) (s : Session) r s' x : Send p s = (r, s') -> history s' x = history s x.
Proof. unfold Send, on_client. destruct (cl_SendPacket p (s_client s)) as [r0 c]. by intros [= _ <-]. Qed.

Lemma log_history {A} (m : M L A) (s : Session) r s' x : on_log m s = (r, s') -> history s' x = history s x.
Proof. unfold on_log. destruct (m (s_log s)) as [r0 l]. by intros [= _ <-]. Qed.

Lemma reply_steps (cmd : M Session unit) p s m q ev m' s1 r s' :
  cmd s = (Ok tt, s1) -> session_step (tm_xid (s_tm s)) (tm_csn (s_tm s)) m q ev m' ->
  session_step (tm_xid (s_tm s)) (tm_csn (s_tm s)) m q ev (fail m') -> in_mode s1 m' -> recorded ev s1 ->
  (_ ← cmd; Send p) s = (r, s') -> steps s m q r s'.
Proof.
  intros E Hst Hf Hm Hrec. erewrite M_bind_Ok by exact E. intros E2.
  assert (Hrec' : recorded ev s') by (destruct ev as [[x v]|]; [cbn; by rewrite (Send_history _ _ _ _ _ E2) | done]).
  assert (Hm' : returns r -> in_mode s' m') by (intros Hr; by eapply stays_mode; [apply stays_Send | | exact E2 |]).
  unfold steps. destruct r as [a|[]]; try done; exists ev, m'; (split; [done|]); (split; [by apply Hm' | done]).
Qed.

(** A command of transactions that throws leaves the mode as it was. *)
Lemma command_steps (cmd : M Session unit) p s m q ev r s' :
  (forall rc s1, cmd s = (rc, s1) -> match rc with
     | Ok _ => in_mode s1 NoTransaction /\ recorded ev s1
     | Fault (Throw _) => in_mode s1 m
     | _ => True end) ->
  session_step (tm_xid (s_tm s)) (tm_csn (s_tm s)) m q ev NoTransaction ->
  session_step (tm_xid (s_tm s)) (tm_csn (s_tm s)) m q None (fail m) ->
  (_ ← cmd; Send p) s = (r, s') -> steps s m q r s'.
Proof.
  intros Hc Hok Hf. destruct (cmd s) as [[[]|e] s1] eqn:E; pose proof (Hc _ _ eq_refl) as Hr.
  - destruct Hr as [Hm Hrec]. intros E2. by eapply (reply_steps cmd p s m q ev NoTransaction).
  - erewrite M_bind_fault by exact E. intros [= <- <-]. destruct e; try done. by exists None, m.
Qed.

Lemma tcl_steps (s : Session) m c r (s' : Session) :
  in_mode s m -> CommitSeqNumber.Min <= tm_csn (s_tm s) -> exec_tcl_query c s = (r, s') -> steps s m (kind_of (Ok (Transaction c))) r s'.
Proof.
  intros Hs Hc. destruct c; cbn [Session.exec_tcl_query kind_of]; unfold handle_begin, handle_commit, handle_rollback, SendCommandComplete.
  - destruct m as [|x st].
    + destruct (session_begin_ok workerId s Hs) as (s1 & E1 & Hm1 & _). by eapply reply_steps; [exact E1 | apply begin_new | apply begin_new | exact Hm1 | ].
    + assert (E1 : start_new_transaction_command workerId s = (Ok tt, s)).
      { unfold start_new_transaction_command, mbind, M_bind, gets. by destruct Hs as (_ & -> & _). }
      by eapply reply_steps; [exact E1 | by apply unchanged | apply failed | exact Hs | ].
  - destruct m as [|x st].
    + intros E. apply steps_returns. intros Hr. exfalso.
      unfold commit_transaction_command, on_tm, CommitTransaction, get_own, mbind, M_bind, get, lift in E. destruct Hs as (_ & _ & Hn). rewrite Hn in E.
      unfold assert_ in E. destruct asserts_on; injection E as <- <-; by destruct Hr.
    + eapply command_steps; [| apply committed | apply failed]. intros rc s1 E1.
      pose proof (commit_ok Flush workerId s x st rc s1 Hs Hc E1) as [Hk _]. destruct rc as [[]|[]]; try done. by destruct Hk.
  - destruct m as [|x st].
    + assert (E1 : abort_transaction_command UndoAllRecords workerId s = (Fault (Throw "There is no transaction"), s)).
      { unfold abort_transaction_command, mbind, M_bind, gets. by destruct Hs as (_ & -> & _). }
      erewrite M_bind_fault by exact E1. intros [= <- <-]. exists None, NoTransaction. split; [by apply refused | done].
    + eapply command_steps; [| apply rolled_back | apply failed]. intros rc s1 E1.
      pose proof (abort_ok UndoAllRecords workerId s x st rc s1 Hs E1) as Hk. destruct rc as [[]|[]]; try done. by destruct Hk.
Qed.

(** The end of the block of an implicit transaction that has not been committed. *)
Lemma leave_ok {A} (s : Session) x st (res : result A) r (s' : Session) :
  in_mode s (InTransaction x st) -> guard_leave UndoAllRecords workerId true res s = (r, s') -> returns r ->
  r = res /\ in_mode s' NoTransaction /\ history s' x = Some CommitSeqNumber.Aborted.
Proof.
  intros Hs. unfold guard_leave, guard_abort. unfold mbind at 1, M_bind at 1.
  destruct (abort_transaction_command UndoAllRecords workerId s) as [ra s1] eqn:E.
  pose proof (abort_ok UndoAllRecords workerId s x st ra s1 Hs E) as Ha. destruct ra as [[]|[]]; cbn; intros [= <- <-]; try done.
Qed.

Lemma plannable_steps fuel (s : Session) m st r (s' : Session) :
  in_mode s m -> CommitSeqNumber.Min <= tm_csn (s_tm s) -> exec_plannable_query fuel st s = (r, s') -> steps s m QStatement r s'.
Proof.
  intros Hs Hc. unfold exec_plannable_query. destruct (Plan (Sc := Sc) DatabaseGlobal st) as [p|e].
  2: { unfold mbind, M_bind, lift. intros [= <- <-]. destruct e; try done. exists None, m. destruct m; (split; [|done]); [by apply refused | apply failed]. }
  erewrite lift_Ok by reflexivity. unfold with_guard.
  pose proof (stays_run_statement workerId DatabaseGlobal GetDescriptor fuel p) as Hk. destruct m as [|x s0].
  - destruct (session_begin_ok workerId s Hs) as (s1 & E1 & Hm1 & Hc1 & _).
    assert (Eg : guard_enter workerId s = (Ok true, s1)).
    { unfold guard_enter, mbind, M_bind, gets. destruct Hs as (_ & -> & _). by rewrite E1. }
    erewrite M_bind_Ok by exact Eg. unfold guard_scope. unfold mbind at 1, M_bind at 1.
    destruct (run_statement workerId DatabaseGlobal GetDescriptor fuel p s1) as [rr s2] eqn:E2.
    assert (Hab : forall msg s3, in_mode s3 (InTransaction (tm_xid (s_tm s)) RUNNING) ->
      guard_leave UndoAllRecords workerId true (Fault (Throw msg)) s3 = (r, s') -> steps s NoTransaction QStatement r s').
    { intros msg s3 H3 E3. apply steps_returns. intros Hr.
      destruct (leave_ok s3 _ _ _ r s' H3 E3 Hr) as (-> & Hm & Hh). eexists _, NoTransaction. split; [apply auto_failed | done]. }
    destruct rr as [u|[]]; try (by intros [= <- <-]); cycle 1.
    { destruct (stays_mode _ _ _ _ _ Hk Hm1 E2 I) as [Hm2 _]. by apply Hab. }
    destruct (stays_mode _ _ _ _ _ Hk Hm1 E2 I) as [Hm2 Hc2]. injection Hc2 as _ Hc2.
    unfold guard_commit. unfold mbind at 1, M_bind at 1. destruct (commit_transaction_command Flush workerId s2) as [rc s3] eqn:E3.
    pose proof (commit_ok Flush workerId s2 _ _ rc s3 Hm2 ltac:(lia) E3) as [Hcm _].
    destruct rc as [[]|[]]; try (by intros [= <- <-]); [|by apply Hab, Hcm].
    cbn. intros [= <- <-]. destruct Hcm as [Hm3 Hh3]. eexists _, NoTransaction. split; [apply auto_done|]. split; [done|]. cbn. rewrite Hh3. congruence.
  - assert (Eg : guard_enter workerId s = (Ok false, s)).
    { unfold guard_enter, mbind, M_bind, gets. by destruct Hs as (_ & -> & _). }
    erewrite M_bind_Ok by exact Eg. unfold guard_scope. unfold mbind at 1, M_bind at 1.
    destruct (run_statement workerId DatabaseGlobal GetDescriptor fuel p s) as [rr s2] eqn:E2.
    destruct rr as [u|[]]; cbn; intros [= <- <-]; try done; destruct (stays_mode _ _ _ _ _ Hk Hs E2 I) as [Hm2 _]; exists None, (InTransaction x s0);
      (split; [by apply unchanged || apply failed | done]).
Qed.

Lemma statement_steps fuel (s : Session) m st r (s' : Session) :
  in_mode s m -> CommitSeqNumber.Min <= tm_csn (s_tm s) -> exec_statement fuel st s = (r, s') -> steps s m (kind_of (Ok st)) r s'.
Proof.
  intros Hs Hc. unfold Session.exec_statement. destruct st as [| | | |c|o]; cbn [kind_of IsPlannableStatement];
    try (by apply plannable_steps); [by apply tcl_steps|].
  intros E. assert (Hm : returns r -> in_mode s' m) by (intros Hr; by eapply stays_mode; [apply stays_Send | | exact E |]).
  unfold steps. destruct r as [a|[]]; try done; exists None, m.
  - split; [|split; [by apply Hm | done]]. destruct m; [by apply refused | by apply unchanged].
  - split; [|split; [by apply Hm | done]]. destruct m; [by apply refused | by apply failed].
Qed.

Lemma handle_error_ok query what (s : Session) m (s' : Session) :
  in_mode s m -> handle_error workerId query what s = (Ok tt, s') -> in_mode s' (fail m) /\ forall x, history s' x = history s x.
Proof.
  intros Hs E. unfold handle_error in E. apply M_bind_inv in E as ([] & s0 & E0 & E). apply M_bind_inv in E as ([] & s1 & E1 & E).
  destruct (stays_mode _ _ _ _ _ (stays_Send workerId _) Hs E0 I) as [Hm0 _].
  destruct (stays_mode _ _ _ _ _ (stays_on_log workerId _) Hm0 E1 I) as [Hm1 _]. apply M_bind_inv in E as (my & s2 & [= <- <-] & E).
  assert (Hh : forall x, history s1 x = history s x) by (intros x; erewrite log_history by exact E1; by eapply Send_history). destruct m as [|x st].
  - destruct Hm1 as (Hm & Hmy & Hn). rewrite Hmy in E. by injection E as <-.
  - destruct Hm1 as (Hm & Hmy & Hw & t & Ht & Hx & Hwk & Hst & Hl). rewrite Hmy in E.
    unfold SetStatus, on_tm, modify in E. injection E as <-. split; [|done]. split; [done|]. split; [done|]. split; [done|].
    eexists. split; [cbn; by rewrite lookup_alter_eq, Ht | done].
Qed.

(** C9: Every query of a session that is answered is a step of the abstract session: a statement
    outside of a transaction runs in one of its own, which is committed with the next number
    or, after an exception, aborted, and is over in any case; inside of a transaction a
    statement leaves it open, and an exception marks it ABORTED but leaves it open as well,
    with its changes; only COMMIT and ROLLBACK end it, whatever its status is. *)
Theorem session_refines fuel query (s : Session) m (s' : Session) :
  in_mode s m -> CommitSeqNumber.Min <= tm_csn (s_tm s) -> handle_query fuel query s = (Ok tt, s') ->
  exists ev m', session_step (tm_xid (s_tm s)) (tm_csn (s_tm s)) m (kind_of (ParseStatement parse query)) ev m' /\
    in_mode s' m' /\ recorded ev s'.
Proof.
  intros Hs Hc E0. unfold Session.handle_query in E0. apply M_bind_inv in E0 as ([] & s0 & E0 & Eh).
  destruct (stays_mode _ _ _ _ _ (stays_on_log workerId _) Hs E0 I) as [Hs0 [= Hxid Hcsn]]. rewrite <-Hxid, <-Hcsn in *. clear Hs E0 Hxid Hcsn.
  revert Eh. unfold try_catch. destruct (ParseStatement parse query) as [st|e].
  - erewrite lift_Ok by reflexivity. destruct (exec_statement fuel st s0) as [r s1] eqn:E.
    pose proof (statement_steps fuel s0 m st r s1 Hs0 Hc E) as Hst. destruct r as [[]|[]]; cbn in Hst; try done; [by intros [= <-]|].
    destruct Hst as (ev & m' & Hstep & Hm' & Hrec). intros Eh. destruct (handle_error_ok _ _ _ _ _ Hm' Eh) as [Hm2 Hh].
    exists ev, (fail m'). split; [done|]. split; [done|]. destruct ev as [[x v]|]; [|done]. cbn. by rewrite Hh.
  - destruct e; unfold mbind, M_bind, lift; try done. intros Eh. destruct (handle_error_ok _ _ _ _ _ Hs0 Eh) as [Hm2 _].
    exists None, (fail m). split; [|done]. destruct m; [by apply refused | by apply failed].
Qed.

(** A query that does not fit the buffer of the log ends in undefined behaviour before it is
    parsed, whatever it is and in whatever transaction: a client needs no valid statement. *)
Theorem long_query_faults fuel query (s : Session) :
  1005 < zlen (c_str query) < 2 ^ 31 - 11 ->
  handle_query fuel query s = (Fault (UB "read past the end of the array"), s).
Proof.
  intros Hq. unfold Session.handle_query. erewrite M_bind_fault; [reflexivity|]. unfold on_log, Debug.
  rewrite log_overflow; [by destruct s | unfold query_text; rewrite zlen_app; change (zlen (bytes_of "got query: ")) with 11; lia|].
  unfold query_text. rewrite zlen_app. change (zlen (bytes_of "got query: ")) with 11. change (zlen (levelMsg DEBUG)) with 8. unfold MaxLogMessageSize. lia.
Qed.

(** The write-ahead log, the handler of the log and the client answer. *)
Hypothesis Log_answers : forall text (l : L), exists l', handler_Write text l = (Ok tt, l').
Hypothesis Flush_answers : forall lsn w, exists w', Flush lsn w = (Ok tt, w').
Hypothesis Send_answers : forall p c, exists c', cl_SendPacket p c = (Ok tt, c').

Lemma log_answers level text (s : Session) :
  zlen (levelMsg level) + zlen text < MaxLogMessageSize ->
  exists l', on_log (log level text) s = (Ok tt, mkSession (s_tm s) (s_my s) (s_client s) (s_outputs s) l').
Proof.
  intros Hl. destruct (Log_answers (levelMsg level ++ text) (s_log s)) as (l' & E). exists l'. unfold on_log. by rewrite log_fits, E.
Qed.

(** C36: A transaction in which a statement has failed commits: COMMIT does not look at the
    status, so the changes that the transaction made before the error, and after it, are
    committed with a number, and the client is told so. *)
Theorem failed_transaction_commits fuel query (s : Session) x :
  in_mode s (InTransaction x ABORTED) -> CommitSeqNumber.Min <= tm_csn (s_tm s) -> zlen (c_str query) <= 1004 ->
  ParseStatement parse query = Ok (Transaction kCommitTransaction) ->
  exists s' c', handle_query fuel query s = (Ok tt, s') /\ in_mode s' NoTransaction /\ history s' x = Some (tm_csn (s_tm s)) /\
    cl_SendPacket (CommandCompletePacket (bytes_of "COMMIT") (-1)) c' = (Ok tt, s_client s').
Proof.
  intros Hs Hc Hq Hp. destruct (log_answers DEBUG (query_text query) s) as (l0 & E0); [unfold query_text; rewrite zlen_app; change (zlen (bytes_of "got query: ")) with 11;
    change (zlen (levelMsg DEBUG)) with 8; unfold MaxLogMessageSize; lia|].
  set (s0 := mkSession (s_tm s) (s_my s) (s_client s) (s_outputs s) l0) in *.
  destruct (stays_mode _ _ _ _ _ (stays_on_log workerId _) Hs E0 I) as [Hs0 _].
  change (tm_csn (s_tm s)) with (tm_csn (s_tm s0)) in *. destruct (commit_transaction_command Flush workerId s0) as [rc s1] eqn:E.
  destruct (commit_ok Flush workerId s0 x ABORTED rc s1 Hs0 Hc E) as [Hk Hok]. rewrite (Hok Flush_answers) in *. destruct Hk as [Hm1 Hh1].
  destruct (Send_answers (CommandCompletePacket (bytes_of "COMMIT") (-1)) (s_client s1)) as (c' & Ec).
  assert (Es : Send (CommandCompletePacket (bytes_of "COMMIT") (-1)) s1 = (Ok tt, mkSession (s_tm s1) (s_my s1) c' (s_outputs s1) (s_log s1))).
  { unfold Send, on_client. by rewrite Ec. }
  exists (mkSession (s_tm s1) (s_my s1) c' (s_outputs s1) (s_log s1)), (s_client s1). split; [|by split_and!].
  unfold Session.handle_query. erewrite M_bind_Ok by exact E0. unfold try_catch. rewrite Hp. erewrite lift_Ok by reflexivity.
  cbn [Session.exec_statement Session.exec_tcl_query]. unfold handle_commit, SendCommandComplete. unfold mbind, M_bind. rewrite E, Es. done.
Qed.

(** C37: A client that disconnects inside of a transaction leaves it open: the session ends
    without a word about it. The next session on this worker, which knows of no transaction,
    fails an assertion when it begins one, as the latch of the old one is still held; and its
    COMMIT, which does not look whether the session has a transaction, commits the old one. *)
Theorem disconnect_abandons fuel (s : Session) x st c :
  in_mode s (InTransaction x st) -> CommitSeqNumber.Min <= tm_csn (s_tm s) -> zlen (start_text workerId) <= 1000 ->
  cl_ReceivePacket (s_client s) = (Ok None, c) ->
  exists s', handle_loop Flush UndoAllRecords workerId DatabaseGlobal GetDescriptor parse (S fuel) s = (Ok tt, s') /\ s_tm s' = s_tm s /\
    forall c' (l' : L), let s2 := mkSession (s_tm s') false c' None l' in
      (asserts_on = true -> (exec_tcl_query kBeginTransaction s2).1 = Fault (Abort "(this->_state.load() & LockCountMask) == 0")) /\
      exists s3, exec_tcl_query kCommitTransaction s2 = (Ok tt, s3) /\ history s3 x = Some (tm_csn (s_tm s)).
Proof.
  intros Hs Hc Hst Hrec. destruct (log_answers INFO (start_text workerId) s) as (l0 & E0); [change (zlen (levelMsg INFO)) with 7; unfold MaxLogMessageSize; lia|].
  eexists. split; [|split].
  - unfold handle_loop, Info. erewrite M_bind_Ok by exact E0. cbn [handle_packets]. unfold ReadNextPacket, on_client, mbind, M_bind. cbn [s_client].
    rewrite Hrec. reflexivity.
  - done.
  - intros c' l'. cbn [s_tm]. split.
    + intros Ha. destruct Hs as (_ & _ & _ & t & Ht & _ & _ & _ & Hl). cbn [Session.exec_tcl_query]. unfold handle_begin, start_new_transaction_command.
      unfold BeginMyTransaction, begin_create, on_tm. unfold mbind, M_bind, gets, fetch_add_xid, modify, lift. cbn. rewrite Ht, Hl. cbn [negb].
      unfold assert_. by rewrite Ha.
    + set (s2 := mkSession (s_tm s) true c' None l'). assert (Hs2 : in_mode s2 (InTransaction x st)).
      { destruct Hs as (Hm & _ & Hrest). by split. }
      destruct (commit_transaction_command Flush workerId s2) as [rc s1] eqn:E.
      destruct (commit_ok Flush workerId s2 x st rc s1 Hs2 Hc E) as [Hk Hok]. rewrite (Hok Flush_answers) in *. destruct Hk as [_ Hh].
      assert (E' : commit_transaction_command Flush workerId (mkSession (s_tm s) false c' None l') = (Ok tt, s1)).
      { revert E. unfold commit_transaction_command, on_tm, set_tm, set_my, mbind, M_bind, modify, s2. cbn.
        destruct (CommitTransaction Flush workerId (s_tm s)) as [[[]|e] tm']; cbn; congruence. }
      destruct (Send_answers (CommandCompletePacket (bytes_of "COMMIT") (-1)) (s_client s1)) as (c2 & Ec).
      cbn [Session.exec_tcl_query]. unfold handle_commit, SendCommandComplete. unfold mbind, M_bind. rewrite E'. unfold Send, on_client. rewrite Ec.
      eexists. split; [reflexivity | exact Hh].
Qed.
End queries.

(** ** Witnesses *)

(** A client that the packets to receive are left of, and that stays those it was sent. *)
#[export] Instance List_client : Client (list IPacket * list IPacket) := {
  cl_SendPacket p := modify (fun c => (c.1, c.2 ++ [p]));
  cl_ReceivePacket := fun c => match c.1 with [] => (Ok None, c) | p :: ps => (Ok (Some p), (ps, c.2)) end
}.

Notation ex_W := (list (change (list (option Datum)))).
Notation ex_session := (Session ex_W (list IPacket * list IPacket) ConsoleLogHandler).

(** The table in memory, as the storage under the session. *)
#[export] Instance ex_table_session : ITable ex_session (list (option Datum)) (list (list (option Datum))) := Session_table.
#[export] Instance ex_table_session_laws workerId : SessionTable (W := ex_W) (C := list IPacket * list IPacket) (L := ConsoleLogHandler) (H2 := ex_table_session) workerId :=
  Session_table_laws workerId.

Definition ex_db : Database unit := main_db (H := DebugBuild) tt.
Definition ex_flush : Z -> M ex_W unit := fun _ => mret tt.
Definition ex_undo : list Z -> M ex_W unit := fun _ => mret tt.
Definition ex_desc : unit -> TupleDescriptor := fun _ => main_descriptor.

(** The parser, on three queries. *)
Definition ex_parse (q : bytes) : bool * SQLParserResult :=
  (true, mkParserResult true "" [match q with
    | [] => Select (mkSelect (Some kTableName) false [] (Some (op_equals (column_ref "a") (int_literal 2))) false false false false false)
    | [_] => Transaction kBeginTransaction
    | _ => Transaction kCommitTransaction end]).
Definition ex_query (q : bytes) : M ex_session unit :=
  handle_query (H := DebugBuild) ex_flush ex_undo 3 ex_db ex_desc ex_parse 5 q.
Definition ex_s0 : ex_session := mkSession (Transactions.init []) false ([], []) None (mkConsole []).

(** The SELECT, committed, and what the client is told. *)
Lemma session_refines_witness :
  s_client (ex_query [] ex_s0).2 = ([], [TupleDescriptionPacket [bytes_of "a"; bytes_of "b"];
    DataRowPacket [Some (bytes_of "2"); None]; CommandCompletePacket (bytes_of "SELECT") 1]) /\
  exists ev m', session_step 1 5 NoTransaction QStatement ev m' /\ in_mode 3 (ex_query [] ex_s0).2 m' /\ recorded ev (ex_query [] ex_s0).2.
Proof.
  split; [vm_compute; reflexivity|].
  apply (session_refines (H := DebugBuild) ex_flush ex_undo 3 ex_db ex_desc ex_parse 5 [] ex_s0 NoTransaction (ex_query [] ex_s0).2).
  - split; [reflexivity | split; reflexivity].
  - vm_compute. discriminate.
  - assert (Er : (ex_query [] ex_s0).1 = Ok tt) by (vm_compute; reflexivity). change (ex_query [] ex_s0 = (Ok tt, (ex_query [] ex_s0).2)).
    rewrite <-Er. apply surjective_pairing.
Defined.

(** A transaction that has failed. *)
Definition ex_failed : ex_session := ((_ ← ex_query [x00]; SetStatus 3 ABORTED) ex_s0).2.

Lemma ex_failed_mode : in_mode 3 ex_failed (InTransaction 1 ABORTED).
Proof. split; [reflexivity|]. split; [reflexivity|]. split; [by eexists|]. eexists. split; [reflexivity|]. split_and!; reflexivity. Qed.

Lemma ex_send (p : IPacket) (c : list IPacket * list IPacket) : exists c', cl_SendPacket p c = (Ok tt, c').
Proof. by eexists. Qed.

Lemma ex_write (text : bytes) (l : ConsoleLogHandler) : exists l', handler_Write text l = (Ok tt, l').
Proof. by eexists. Qed.

Lemma failed_transaction_commits_witness :
  exists s', ex_query [x00; x00] ex_failed = (Ok tt, s') /\ history s' 1 = Some 5.
Proof.
  destruct (failed_transaction_commits (H := DebugBuild) ex_flush ex_undo 3 ex_db ex_desc ex_parse
    ex_write (fun _ w => ex_intro _ w eq_refl) ex_send 5 [x00; x00] ex_failed 1 ex_failed_mode) as (s' & c' & E & _ & Hh & _).
  - vm_compute. discriminate.
  - vm_compute. discriminate.
  - reflexivity.
  - exists s'. split; [exact E | exact Hh].
Defined.

Lemma disconnect_abandons_witness :
  exists s', handle_loop (H := DebugBuild) ex_flush ex_undo 3 ex_db ex_desc ex_parse 5 ex_failed = (Ok tt, s') /\
    (exec_tcl_query (H := DebugBuild) ex_flush ex_undo 3 kBeginTransaction (mkSession (s_tm s') false ([], []) None (mkConsole []))).1 =
      Fault (Abort "(this->_state.load() & LockCountMask) == 0").
Proof.
  destruct (disconnect_abandons (H := DebugBuild) ex_flush ex_undo 3 ex_db ex_desc ex_parse
    ex_write (fun _ w => ex_intro _ w eq_refl) ex_send 4 ex_failed 1 ABORTED (s_client ex_failed) ex_failed_mode) as (s' & E & _ & Hn).
  - vm_compute. discriminate.
  - vm_compute. discriminate.
  - reflexivity.
  - exists s'. split; [exact E|]. destruct (Hn ([], []) (mkConsole [])) as [Hb _]. exact (Hb eq_refl).
Defined.
