(* ===== verification/BufferPool.v ===== *)
(** The buffer pool: [storage/buffer/BufferManager.cpp] with its cache entries
    ([internal/CacheEntry.cpp]), buffers, pins, the page table ([adt/HashTable.hpp]) and the
    list of free buffers ([adt/LinkedList.hpp]).

    The operations of one worker, while the others are between theirs: the latches of the lists,
    of the partitions and of the pages are free, and are not part of the state; the spin
    lock and the I/O flag of an entry are bits of its state word. *)
From S2P Require Import Prelude Types File.

(** ** HashTable: the maps of the partitions; [hash] is [PageTagHash] *)
Module HashTable.
Notation t := (list (gmap PageTag Z)).

Section table.
Context (hash : PageTag -> Z).

Definition make (npartitions : nat) : t := replicate npartitions ∅.

Definition getElementIndex (maps : t) (key : PageTag) : nat := Z.to_nat (hash key mod zlen maps).

(** The value that the table has for the key then, and whether it was inserted. *)
Definition Insert (maps : t) (key : PageTag) (value : Z) : result (Z * bool * t) :=
  let index := getElementIndex maps key in
  map ← vec_get maps index;
  match map !! key with
  | Some v => mret (v, false, maps)
  | None => maps ← vec_set maps index (<[key := value]> map); mret (value, true, maps)
  end.

Definition Get (maps : t) (key : PageTag) : result (option Z) :=
  map ← vec_get maps (getElementIndex maps key);
  mret (map !! key).

Definition Remove (maps : t) (key : PageTag) : result (bool * t) :=
  let index := getElementIndex maps key in
  map ← vec_get maps index;
  maps ← vec_set maps index (delete key map);
  mret (bool_decide (is_Some (map !! key)), maps).

Definition Has (maps : t) (key : PageTag) : result bool :=
  map ← vec_get maps (getElementIndex maps key);
  mret (bool_decide (is_Some (map !! key))).
End table.
End HashTable.

(** [PageTagHash], over the hash of an [int], on 64 bits. *)
Definition PageTagHash (hash_int : Z -> Z) (tag : PageTag) : Z :=
  Z.lxor (hash_int (swrap 32 (Relid tag))) (wrap 64 (Z.shiftl (hash_int (swrap 32 (PageNo tag))) 1)).

(** ** Cache entries *)

(** The state word of an entry, as an unsigned number of 32 bits. [IoError] and [Dirty] are the
    same bit. *)
Module CacheEntryFlags.
Definition Locked : Z := 2 ^ 31.
Definition TagValid : Z := 2 ^ 30.
Definition IsTopList : Z := 2 ^ 29.
Definition IsFrequencyList : Z := 2 ^ 28.
Definition IoInProgress : Z := 2 ^ 27.
Definition IoError : Z := 2 ^ 26.
Definition DataValid : Z := 2 ^ 25.
Definition Dirty : Z := 2 ^ 26.
End CacheEntryFlags.
Import CacheEntryFlags.

Definition CacheEntryListMask : Z := Z.lor IsTopList IsFrequencyList.
Definition BufferRefCountMask : Z := 2 ^ 20 - 1.
Definition BufferRefCountOne : Z := 1.

(** Pointers to entries and to buffers are their indexes in the vectors of the pool. *)
Record CacheEntry := mkEntry { Tag : PageTag; BlockId : Z; State : Z; Buffer : option nat; Prev : option nat; Next : option nat }.
Record BufferData := mkBuffer { Page : list byte; buf_Next : option nat }.
Record CacheEntryList := mkList { head : option nat; tail : option nat; list_size : Z }.

Definition IsRouge (e : CacheEntry) : bool := match Prev e, Next e with None, None => true | _, _ => false end.

Inductive ListId := T1 | T2 | B1 | B2 | FreeList.

#[export] Instance ListId_eq_dec : EqDecision ListId.
Proof. solve_decision. Defined.

Record BufferManager := mkPool {
  bm_map : HashTable.t; bm_npages : Z; bm_entries : list CacheEntry; bm_buffers : list BufferData;
  freeBuffers : option nat; bm_lists : ListId -> CacheEntryList; bm_P : Z; bm_files : gmap Z (list byte) }.

(** A pin on a page: its tag and the block id of its buffer, which is the index of the entry
    plus one. *)
Record BufferPin := mkPin { pin_tag : PageTag; pin_blockId : Z }.
Definition InvalidBlockId : Z := 0.

Section pool.
Context `{Build} `{Posix} (hash : PageTag -> Z).
#[local] Notation BM := (M BufferManager).

(** *** Access to the parts *)
Definition set_map (v : HashTable.t) (s : BufferManager) : BufferManager :=
  mkPool v (bm_npages s) (bm_entries s) (bm_buffers s) (freeBuffers s) (bm_lists s) (bm_P s) (bm_files s).
Definition set_entries (v : list CacheEntry) (s : BufferManager) : BufferManager :=
  mkPool (bm_map s) (bm_npages s) v (bm_buffers s) (freeBuffers s) (bm_lists s) (bm_P s) (bm_files s).
Definition set_buffers (v : list BufferData) (s : BufferManager) : BufferManager :=
  mkPool (bm_map s) (bm_npages s) (bm_entries s) v (freeBuffers s) (bm_lists s) (bm_P s) (bm_files s).
Definition set_free (v : option nat) (s : BufferManager) : BufferManager :=
  mkPool (bm_map s) (bm_npages s) (bm_entries s) (bm_buffers s) v (bm_lists s) (bm_P s) (bm_files s).
Definition set_list (l : ListId) (v : CacheEntryList) (s : BufferManager) : BufferManager :=
  mkPool (bm_map s) (bm_npages s) (bm_entries s) (bm_buffers s) (freeBuffers s)
    (fun l' => if decide (l' = l) then v else bm_lists s l') (bm_P s) (bm_files s).
Definition set_P (v : Z) (s : BufferManager) : BufferManager :=
  mkPool (bm_map s) (bm_npages s) (bm_entries s) (bm_buffers s) (freeBuffers s) (bm_lists s) v (bm_files s).
Definition set_files (v : gmap Z (list byte)) (s : BufferManager) : BufferManager :=
  mkPool (bm_map s) (bm_npages s) (bm_entries s) (bm_buffers s) (freeBuffers s) (bm_lists s) (bm_P s) v.

Definition get_entry (i : nat) : BM CacheEntry := s ← get; lift (vec_get (bm_entries s) i).
Definition upd_entry (i : nat) (f : CacheEntry -> CacheEntry) : BM unit :=
  e ← get_entry i;
  modify (fun s => set_entries (<[i := f e]> (bm_entries s)) s).
Definition set_State (v : Z) (e : CacheEntry) : CacheEntry := mkEntry (Tag e) (BlockId e) v (Buffer e) (Prev e) (Next e).
Definition set_Prev (v : option nat) (e : CacheEntry) : CacheEntry := mkEntry (Tag e) (BlockId e) (State e) (Buffer e) v (Next e).
Definition set_Next (v : option nat) (e : CacheEntry) : CacheEntry := mkEntry (Tag e) (BlockId e) (State e) (Buffer e) (Prev e) v.
Definition set_Buffer (v : option nat) (e : CacheEntry) : CacheEntry := mkEntry (Tag e) (BlockId e) (State e) v (Prev e) (Next e).
Definition set_Tag (v : PageTag) (e : CacheEntry) : CacheEntry := mkEntry v (BlockId e) (State e) (Buffer e) (Prev e) (Next e).

Definition buffer_data (b : nat) : BM BufferData := s ← get; lift (vec_get (bm_buffers s) b).
Definition get_list (l : ListId) : BM CacheEntryList := gets (fun s => bm_lists s l).
Definition put_list (l : ListId) (v : CacheEntryList) : BM unit := modify (set_list l v).
Definition Size (l : ListId) : BM Z := cl ← get_list l; mret (list_size cl).
Definition check (c : bool) (what : string) : BM unit := lift (assert_ c what).

(** *** CacheEntry: the atomic operations on the state word, which return the old value *)
Definition load (i : nat) : BM Z := e ← get_entry i; mret (State e).
Definition fetch (f : Z -> Z) (i : nat) : BM Z :=
  old ← load i;
  _ ← upd_entry i (set_State (f old));
  mret old.
Definition fetch_or (i : nat) (v : Z) : BM Z := fetch (fun old => Z.lor old v) i.
Definition fetch_and_not (i : nat) (v : Z) : BM Z := fetch (fun old => Z.ldiff old v) i.
Definition fetch_add (i : nat) (v : Z) : BM Z := fetch (fun old => wrap 32 (old + v)) i.
Definition has (state flag : Z) : bool := negb (Z.land state flag =? 0).

Definition Pin (i : nat) : BM unit :=
  old ← fetch_add i BufferRefCountOne;
  check (negb (Z.land old BufferRefCountMask =? BufferRefCountMask)) "(old & BufferRefCountMask) != BufferRefCountMask".

Definition Unpin (i : nat) : BM unit :=
  old ← fetch_add i (- BufferRefCountOne);
  check (0 <? Z.land old BufferRefCountMask) "(old & BufferRefCountMask) > 0".

(** The spin lock waits while another worker has it. *)
Definition Lock (i : nat) : BM Z :=
  old ← fetch_or i Locked;
  if has old Locked then throw (Blocked "CacheEntry") else mret (Z.lor old Locked).

Definition Unlock (i : nat) : BM unit :=
  prev ← fetch_add i (- Locked);
  check (has prev Locked) "prev & CacheEntryFlags::Locked".

Definition TearDown (i : nat) : BM unit :=
  state ← load i;
  _ ← check (negb (has state IsTopList)) "!(this->State.load() & CacheEntryFlags::IsTopList)";
  _ ← check (negb (has state Locked)) "!(this->State.load() & CacheEntryFlags::Locked)";
  upd_entry i (set_State 0).

(** Waiting for the I/O of another worker. *)
Definition waitIO (i : nat) : BM unit :=
  e ← get_entry i;
  _ ← check (match Buffer e with Some _ => true | None => false end) "this->Buffer != nullptr";
  state ← Lock i;
  _ ← Unlock i;
  if has state IoInProgress then throw (Blocked "IOCondVar") else mret tt.

Definition TerminateBufferIO (i : nat) (setFlags unsetFlags : Z) : BM unit :=
  _ ← check (Z.land setFlags unsetFlags =? 0) "(setFlags & unsetFlags) == 0";
  state ← Lock i;
  _ ← check (has state IoInProgress) "state & CacheEntryFlags::IoInProgress";
  _ ← fetch_and_not i (Z.lor IoInProgress IoError);
  _ ← fetch_and_not i unsetFlags;
  _ ← fetch_or i setFlags;
  _ ← Unlock i;
  e ← get_entry i;
  check (match Buffer e with Some _ => true | None => false end) "this->Buffer != nullptr".

Definition ShouldStartIO (i : nat) (forInput : bool) : BM bool :=
  state ← Lock i;
  if has state IoInProgress then
    _ ← Unlock i;
    _ ← waitIO i;
    throw (Blocked "CacheEntry")
  else if (if forInput then has state DataValid else negb (has state Dirty)) then
    _ ← Unlock i;
    mret false
  else
    _ ← fetch_or i IoInProgress;
    _ ← Unlock i;
    mret true.

(** *** Input and output *)

(** An operation on the file of a relation. *)
Definition on_file {A} (relid mode : Z) (m : M (list byte) A) : BM A := fun s =>
  match RelFile.Open relid mode with
  | Fault e => (Fault e, s)
  | Ok _ =>
      let f := default [] (bm_files s !! relid) in
      let '(r, f') := m f in (r, set_files (<[relid := f']> (bm_files s)) s)
  end.

Definition O_RDONLY : Z := 0.
Definition O_WRONLY : Z := 1.
Definition O_RDWR : Z := 2.

(** [try { body } catch (...) { cleanup; throw; }]. *)
Definition try_cleanup {A} (body : BM A) (cleanup : BM unit) : BM A := fun s =>
  match body s with
  | (Fault (Throw msg), s') =>
      match cleanup s' with
      | (Ok _, s') => (Fault (Throw msg), s')
      | (Fault e, s') => (Fault e, s')
      end
  | r => r
  end.

Definition buffer_of (i : nat) (what : string) : BM nat :=
  e ← get_entry i;
  _ ← check (match Buffer e with Some _ => true | None => false end) what;
  lift (of_option (UB "null pointer") (Buffer e)).

Definition set_page (b : nat) (page : list byte) : BM unit :=
  d ← buffer_data b;
  modify (fun s => set_buffers (<[b := mkBuffer page (buf_Next d)]> (bm_buffers s)) s).

(** A read that fails leaves the page with what it had (a short read may have written to it). *)
Definition ReadBuffer (i : nat) : BM unit :=
  state ← load i;
  if has state DataValid then mret tt
  else
    start ← ShouldStartIO i true;
    if negb start then mret tt
    else
      b ← buffer_of i "this->Buffer != nullptr";
      _ ← try_cleanup
        (e ← get_entry i;
         page ← on_file (Relid (Tag e)) O_RDONLY (RelFile.Read (PageNo (Tag e)));
         set_page b page)
        (TerminateBufferIO i IoError 0);
      TerminateBufferIO i DataValid 0.

Definition FlushBuffer (i : nat) : BM unit :=
  start ← ShouldStartIO i false;
  if negb start then mret tt
  else
    b ← buffer_of i "this->Buffer != nullptr";
    _ ← try_cleanup
      (e ← get_entry i;
       d ← buffer_data b;
       on_file (Relid (Tag e)) O_WRONLY (_ ← RelFile.Write (Page d) (PageNo (Tag e)); RelFile.Fsync))
      (TerminateBufferIO i IoError 0);
    TerminateBufferIO i DataValid Dirty.

(** *** CacheEntryList *)
Definition InsertMRU (l : ListId) (i : nat) : BM unit :=
  e ← get_entry i;
  _ ← check (IsRouge e) "entry->IsRouge()";
  cl ← get_list l;
  _ ← (if list_size cl =? 0 then put_list l (mkList (Some i) (Some i) (list_size cl))
       else
         h ← lift (of_option (UB "null pointer") (head cl));
         _ ← upd_entry h (set_Prev (Some i));
         _ ← upd_entry i (set_Next (Some h));
         put_list l (mkList (Some i) (tail cl) (list_size cl)));
  cl ← get_list l;
  put_list l (mkList (head cl) (tail cl) (wrap 32 (list_size cl + 1))).

Definition points (p : option nat) (i : nat) : bool := bool_decide (p = Some i).

(** The middle of [RemoveEntry]: the entry is taken out of a list of several. *)
Definition unlink (l : ListId) (i : nat) : BM unit :=
  e ← get_entry i;
  cl ← get_list l;
  _ ← check (negb (IsRouge e)) "!entry->IsRouge()";
  _ ← (match Next e, Prev e with
       | None, _ => check (points (tail cl) i) "this->_tail == entry"
       | _, None => check (points (head cl) i) "this->_head == entry"
       | _, _ => mret tt
       end);
  _ ← (match Prev e with Some prev => upd_entry prev (set_Next (Next e)) | None => mret tt end);
  _ ← (match Next e with Some next => upd_entry next (set_Prev (Prev e)) | None => mret tt end);
  if points (head cl) i then put_list l (mkList (Next e) (tail cl) (list_size cl))
  else if points (tail cl) i then put_list l (mkList (head cl) (Prev e) (list_size cl))
  else mret tt.

Definition RemoveEntry (l : ListId) (i : nat) : BM unit :=
  cl ← get_list l;
  _ ← check (0 <? list_size cl) "this->_size > 0";
  if list_size cl =? 0 then throw (Throw "can not remove entry from list: list is empty")
  else
    _ ← (if list_size cl =? 1 then
           e ← get_entry i;
           _ ← check (IsRouge e) "entry->IsRouge()";
           _ ← check (bool_decide (head cl = tail cl) && points (tail cl) i) "this->_head == this->_tail && this->_tail == entry";
           put_list l (mkList None None (list_size cl))
         else unlink l i);
    _ ← upd_entry i (set_Next None);
    _ ← upd_entry i (set_Prev None);
    cl ← get_list l;
    put_list l (mkList (head cl) (tail cl) (wrap 32 (list_size cl - 1))).

Definition MoveMRU (l : ListId) (i : nat) : BM unit :=
  cl ← get_list l;
  _ ← check (0 <? list_size cl) "this->_size > 0";
  e ← get_entry i;
  if list_size cl =? 1 then check (IsRouge e) "entry->IsRouge()"
  else
    _ ← check (negb (IsRouge e)) "!entry->IsRouge()";
    _ ← RemoveEntry l i;
    InsertMRU l i.

(** The loops from the tail of a list to its head; [fuel] bounds the number of entries. *)
Fixpoint from_tail {A} (fuel : nat) (at_ : option nat) (visit : nat -> BM (option A)) : BM (option A) :=
  match fuel with
  | O => throw NoFuel
  | S k =>
      match at_ with
      | None => mret None
      | Some i =>
          r ← visit i;
          match r with
          | Some r => mret (Some r)
          | None => e ← get_entry i; from_tail k (Prev e) visit
          end
      end
  end.

Definition for_tail {A} (l : ListId) (visit : nat -> BM (option A)) : BM (option A) :=
  cl ← get_list l;
  s ← get;
  from_tail (S (length (bm_entries s))) (tail cl) visit.

(** [RemoveEntry] has counted the entry already. *)
Definition PopTail (l : ListId) : BM (option nat) :=
  for_tail l (fun i =>
    state ← Lock i;
    if negb (Z.land state BufferRefCountMask =? 0) then _ ← Unlock i; mret None
    else
      _ ← RemoveEntry l i;
      _ ← Unlock i;
      cl ← get_list l;
      _ ← put_list l (mkList (head cl) (tail cl) (wrap 32 (list_size cl - 1)));
      mret (Some i)).

(** *** BufferManager *)
Definition unpinned (state : Z) : bool := Z.land state BufferRefCountMask =? 0.

(** LinkedList: a stack through the pointers of its nodes. *)
Definition LinkedList_Add (b : nat) : BM unit :=
  d ← buffer_data b;
  s ← get;
  _ ← modify (set_buffers (<[b := mkBuffer (Page d) (freeBuffers s)]> (bm_buffers s)));
  modify (set_free (Some b)).

Definition LinkedList_Get : BM (option nat) :=
  s ← get;
  match freeBuffers s with
  | None => mret None
  | Some old => d ← buffer_data old; _ ← modify (set_free (buf_Next d)); mret (Some old)
  end.

Definition map_insert (tag : PageTag) (v : Z) : BM (Z * bool) :=
  s ← get;
  '(existing, inserted, maps) ← lift (HashTable.Insert hash (bm_map s) tag v);
  _ ← modify (set_map maps);
  mret (existing, inserted).
Definition map_get (tag : PageTag) : BM (option Z) := s ← get; lift (HashTable.Get hash (bm_map s) tag).
Definition map_remove (tag : PageTag) : BM bool :=
  s ← get;
  '(removed, maps) ← lift (HashTable.Remove hash (bm_map s) tag);
  _ ← modify (set_map maps);
  mret removed.

Definition tryVacateEntry (i : nat) (isFrequency : bool) : BM bool :=
  state ← Lock i;
  if negb (unpinned state) then _ ← Unlock i; mret false
  else
    _ ← Pin i;
    _ ← Unlock i;
    _ ← FlushBuffer i;
    let l := if isFrequency then B2 else B1 in
    state ← Lock i;
    _ ← Unlock i;
    if negb (Z.land state BufferRefCountMask =? 1) then mret false
    else
      state ← Lock i;
      if negb (Z.land state BufferRefCountMask =? 1) then _ ← Unlock i; mret false
      else
        buffer ← buffer_of i "buffer";
        _ ← upd_entry i (set_Buffer None);
        _ ← Unpin i;
        _ ← fetch_and_not i IsTopList;
        _ ← (if isFrequency then fetch_or i IsFrequencyList else fetch_and_not i IsFrequencyList);
        _ ← InsertMRU l i;
        _ ← Unlock i;
        _ ← LinkedList_Add buffer;
        mret true.

(** A loop that vacates the first entry that it can. *)
Definition vacate_any (l : ListId) (isFrequency : bool) : BM unit :=
  _ ← for_tail l (fun i => ok ← tryVacateEntry i isFrequency; mret (if ok : bool then Some tt else None));
  mret tt.

Definition adjust (p : Z) (fromB2 : bool) : BM unit :=
  t1size ← Size T1;
  if (0 <? t1size) && ((p <? t1size) || ((t1size =? p) && fromB2)) then vacate_any T1 false
  else vacate_any T2 true.

(** One entry of a list B: nothing when it is pinned. *)
Definition evict_from (l : ListId) (i : nat) : BM (option nat) :=
  state ← Lock i;
  _ ← Unlock i;
  if negb (unpinned state) then mret None
  else
    state ← load i;
    if negb (unpinned state) then mret None
    else
      e ← get_entry i;
      removed ← map_remove (Tag e);
      if negb removed then throw (Throw "buffer page map is broken - entry is not presented in list")
      else
        _ ← RemoveEntry l i;
        _ ← TearDown i;
        mret (Some i).

Definition evictCacheEntry : BM (option nat) :=
  x ← PopTail FreeList;
  match x with
  | Some x => _ ← TearDown x; mret (Some x)
  | None =>
      x ← for_tail B1 (evict_from B1);
      match x with Some x => mret (Some x) | None => for_tail B2 (evict_from B2) end
  end.

(** The entry stays in its list. *)
Definition forgetAnyEntry (l : ListId) : BM unit :=
  _ ← for_tail l (fun i =>
    state ← load i;
    if negb (unpinned state) then mret None
    else
      state ← load i;
      if negb (unpinned state) then mret None
      else
        e ← get_entry i;
        removed ← map_remove (Tag e);
        if negb removed then throw (Throw "page table is broken - cache entry must be in map but absent")
        else _ ← InsertMRU FreeList i; mret (Some tt));
  mret tt.

Definition preinsertCleanup : BM unit :=
  t1size ← Size T1;
  b1size ← Size B1;
  s ← get;
  if bm_npages s <=? wrap 32 (t1size + b1size) then
    if t1size <? bm_npages s then
      _ ← forgetAnyEntry B1;
      adjust (bm_P s) false
    else vacate_any T1 false
  else
    t2size ← Size T2;
    b2size ← Size B2;
    let sum := wrap 32 (t1size + b1size + t2size + b2size) in
    if bm_npages s <=? sum then
      _ ← (if sum =? wrap 32 (bm_npages s * 2) then forgetAnyEntry B2 else mret tt);
      adjust (bm_P s) false
    else mret tt.

Definition handleCacheHit (i : nat) : BM unit :=
  state ← load i;
  _ ← check (has state IsTopList) "state & CacheEntryFlags::IsTopList";
  if has state IsFrequencyList then
    state ← Lock i;
    _ ← check (Z.land state CacheEntryListMask =? Z.lor IsTopList IsFrequencyList)
          "(state & CacheEntryListMask) == (CacheEntryFlags::IsTopList | CacheEntryFlags::IsFrequencyList)";
    _ ← MoveMRU T2 i;
    Unlock i
  else
    state ← Lock i;
    _ ← (if negb (Z.land state CacheEntryListMask =? IsFrequencyList) then
           _ ← RemoveEntry T1 i;
           _ ← InsertMRU T2 i;
           _ ← fetch_or i IsFrequencyList;
           mret tt
         else MoveMRU T2 i);
    Unlock i.

(** Division of unsigned integers: undefined by zero. *)
Definition udiv (a b : Z) : result Z := if b =? 0 then Fault (UB "division by zero") else Ok (a / b).

Definition handleGhostHit (i : nat) (isFrequency : bool) : BM unit :=
  b1size ← Size B1;
  b2size ← Size B2;
  s ← get;
  let p := bm_P s in
  newP ← lift (if isFrequency then
                 delta ← (if b2size <=? b1size then Ok 1 else udiv b2size b1size);
                 mret (Z.min (wrap 32 (p + delta)) (bm_npages s))
               else
                 delta ← (if b1size <=? b2size then Ok 1 else udiv b1size b2size);
                 mret (Z.max (wrap 32 (p - delta)) 0));
  _ ← modify (set_P newP);
  _ ← adjust p isFrequency;
  let '(oldList, oldListMask) := if isFrequency then (B1, IsFrequencyList) else (B2, 0) in
  state ← Lock i;
  _ ← (if Z.land state CacheEntryListMask =? oldListMask then
         _ ← RemoveEntry oldList i;
         _ ← InsertMRU T2 i;
         _ ← fetch_or i (Z.lor IsTopList IsFrequencyList);
         mret tt
       else mret tt);
  Unlock i.

Definition makeBufferPin (i : nat) : BM BufferPin :=
  state ← load i;
  _ ← check (has state DataValid) "entry->State.load() & CacheEntryFlags::DataValid";
  _ ← check (0 <? Z.land state BufferRefCountMask) "(entry->State.load() & BufferRefCountMask) > 0";
  e ← get_entry i;
  _ ← check (match Buffer e with Some _ => true | None => false end) "entry->Buffer != nullptr";
  mret (mkPin (Tag e) (wrap 32 (BlockId e + 1))).

(** The entry of a page that is not in the table: a new one for it, or the one that another
    worker has inserted meanwhile; and whether it is new. *)
Definition create_entry (tag : PageTag) : BM (nat * bool) :=
  _ ← preinsertCleanup;
  x ← evictCacheEntry;
  match x with
  | Some i =>
      _ ← upd_entry i (set_Tag tag);
      _ ← upd_entry i (set_State TagValid);
      e ← get_entry i;
      _ ← check (match Buffer e with None => true | Some _ => false end) "entry->Buffer == nullptr";
      '(existing, inserted) ← map_insert tag (BlockId e);
      if inserted : bool then
        _ ← fetch_or i IsTopList;
        _ ← Pin i;
        buffer ← LinkedList_Get;
        match buffer with
        | None =>
            removed ← map_remove tag;
            _ ← check removed "removed";
            state ← load i;
            _ ← check (Z.land state BufferRefCountMask =? 1) "(entry->State.load() & BufferRefCountMask) == 1";
            _ ← InsertMRU FreeList i;
            throw (Throw "can not get buffer: no free pages")
        | Some buffer =>
            _ ← upd_entry i (set_Buffer (Some buffer));
            _ ← Lock i;
            _ ← InsertMRU T1 i;
            _ ← Unlock i;
            mret (i, true)
        end
      else
        let other := Z.to_nat existing in
        _ ← Pin other;
        _ ← InsertMRU FreeList i;
        mret (other, false)
  | None =>
      blkId ← map_get tag;
      match blkId with
      | None => throw (Throw "no free cache entries found")
      | Some blkId => _ ← Pin (Z.to_nat blkId); mret (Z.to_nat blkId, false)
      end
  end.

Definition handle_hit (i : nat) : BM unit :=
  _ ← Lock i;
  _ ← Unlock i;
  state ← load i;
  if has state IsTopList then handleCacheHit i else handleGhostHit i (has state IsFrequencyList).

Definition GetBuffer (tag : PageTag) : BM BufferPin :=
  blkId ← map_get tag;
  '(i, created) ← (match blkId with
    | None => create_entry tag
    | Some blkId => _ ← Pin (Z.to_nat blkId); mret (Z.to_nat blkId, false)
    end);
  _ ← (if created : bool then mret tt else handle_hit i);
  e ← get_entry i;
  _ ← check (match Buffer e with Some _ => true | None => false end) "entry->Buffer != nullptr";
  if has (State e) DataValid then makeBufferPin i
  else
    _ ← ReadBuffer i;
    state ← load i;
    _ ← check (has state DataValid) "entry->State.load() & CacheEntryFlags::DataValid";
    makeBufferPin i.

(** *** Buffer and BufferPin *)
Definition IsValid (blockId : Z) : bool := negb (blockId =? InvalidBlockId).
Definition GetIndex (blockId : Z) : BM nat :=
  _ ← check (IsValid blockId) "this->IsValid()";
  mret (Z.to_nat (wrap 32 (blockId - 1))).

Definition GetContents (blockId : Z) : BM (list byte) :=
  i ← GetIndex blockId;
  b ← buffer_of i "buffer != nullptr";
  d ← buffer_data b;
  mret (Page d).

Definition MarkDirty (blockId : Z) : BM unit :=
  i ← GetIndex blockId;
  _ ← fetch_or i Dirty;
  mret tt.

Definition ReturnBuffer (blockId : Z) : BM unit :=
  i ← GetIndex blockId;
  state ← load i;
  _ ← check (negb (unpinned state)) "(entry->State.load() & BufferRefCountMask) != 0";
  Unpin i.

(** The move assignment of a pin: the buffer that it had is returned, and is then swapped into
    the other pin, whose destructor returns it again. *)
Definition pin_invalid : BufferPin := mkPin (mkPageTag Oid.Invalid PageNumber.InvalidValue) InvalidBlockId.
Definition pin_move_assign (this other : BufferPin) : BM (BufferPin * BufferPin) :=
  _ ← (if IsValid (pin_blockId this) then ReturnBuffer (pin_blockId this) else mret tt);
  mret (other, this).
Definition pin_destroy (this : BufferPin) : BM unit :=
  if IsValid (pin_blockId this) then ReturnBuffer (pin_blockId this) else mret tt.

(** *** ExtendRelation *)

(** The table's entry for the new page: ours, or one that a failed attempt has left. The last
    loop makes one turn, as nobody else can set [DataValid] in between. *)
Definition extend_entry (tag : PageTag) (i : nat) : BM nat :=
  e ← get_entry i;
  '(existing, inserted) ← map_insert tag (BlockId e);
  if inserted : bool then
    state ← load i;
    _ ← check (negb (has state (Z.lor DataValid (Z.lor TagValid Dirty)))) "!(entry->State.load() & emptyEntryFlags)";
    _ ← upd_entry i (set_Tag tag);
    _ ← fetch_or i TagValid;
    _ ← Pin i;
    buffer ← LinkedList_Get;
    match buffer with
    | None =>
        removed ← map_remove tag;
        _ ← check removed "removed";
        _ ← InsertMRU FreeList i;
        throw (Throw "could not get buffer: no free pages")
    | Some buffer =>
        _ ← upd_entry i (set_Buffer (Some buffer));
        _ ← InsertMRU T1 i;
        _ ← fetch_or i IsTopList;
        _ ← Lock i;
        _ ← InsertMRU T1 i;
        _ ← fetch_or i IsTopList;
        _ ← Unlock i;
        shouldStart ← ShouldStartIO i true;
        _ ← check shouldStart "shouldStart";
        mret i
    end
  else
    let other := Z.to_nat existing in
    _ ← Pin other;
    _ ← InsertMRU FreeList i;
    state ← load other;
    _ ← (if negb (has state IsTopList) then handleGhostHit other (has state IsFrequencyList) else mret tt);
    _ ← Lock other;
    _ ← fetch_and_not other DataValid;
    _ ← Unlock other;
    start ← ShouldStartIO other true;
    if start : bool then mret other else throw NoFuel.

Definition ExtendRelation (relid : Z) : BM BufferPin :=
  _ ← check (Oid.IsValid relid) "relid.IsValid()";
  _ ← preinsertCleanup;
  x ← evictCacheEntry;
  match x with
  | None => throw (Throw "no free cache entry found")
  | Some i =>
      nblocks ← on_file relid O_RDWR RelFile.GetPagesCount;
      i ← extend_entry (mkPageTag relid nblocks) i;
      b ← buffer_of i "entry->Buffer != nullptr";
      _ ← try_cleanup (on_file relid O_RDWR (RelFile.Extend nblocks)) (TerminateBufferIO i IoError 0);
      _ ← set_page b (zeros Config.PageSize);
      _ ← TerminateBufferIO i DataValid 0;
      makeBufferPin i
  end.

(** *** The constructor *)
Definition default_entry (i : nat) : CacheEntry :=
  mkEntry (mkPageTag Oid.Invalid PageNumber.InvalidValue) (Z.of_nat i) 0 None None None.

Definition newBufferManager (npages : nat) (files : gmap Z (list byte)) : result BufferManager :=
  if 2 ^ 32 - 1 <=? Z.of_nat npages * 2 then Fault (Throw "too many blocks in buffer")
  else
    let start := mkPool (HashTable.make 8) (Z.of_nat npages) (map default_entry (seq 0 (npages * 2)))
      (replicate npages (mkBuffer (zeros Config.PageSize) None)) None (fun _ => mkList None None 0) 0 files in
    match (_ ← mapM_ (InsertMRU FreeList) (seq 0 (npages * 2)); mapM_ LinkedList_Add (seq 0 npages)) start with
    | (Ok _, s) => Ok s
    | (Fault e, _) => Fault e
    end.
End pool.
