(* ===== verification/BufferSpec.v ===== *)
(** What the buffer pool promises and how it breaks: it serves as many distinct pages as it has
    buffers, and no more. *)
From S2P Require Import Prelude Types File BufferPool.
Import CacheEntryFlags.

(** ** The page table *)
Section table.
Context (hash : PageTag -> Z).

(** A table whose partitions hold each key where its hash says. *)
Definition table_get (maps : HashTable.t) (key : PageTag) : option Z :=
  match maps !! HashTable.getElementIndex hash maps key with Some m => m !! key | None => None end.

Lemma element_index maps key : (0 < length maps)%nat -> (HashTable.getElementIndex hash maps key < length maps)%nat.
Proof. intros Hl. unfold HashTable.getElementIndex, zlen. pose proof (Z.mod_pos_bound (hash key) (Z.of_nat (length maps)) ltac:(lia)). lia. Qed.

Lemma Get_ok maps key : (0 < length maps)%nat -> HashTable.Get hash maps key = Ok (table_get maps key).
Proof.
  intros Hl. unfold HashTable.Get, table_get. destruct (lookup_lt_is_Some_2 maps _ (element_index maps key Hl)) as [m Hm].
  by rewrite (vec_get_Ok _ _ _ Hm), bind_Ok, Hm.
Qed.

Lemma Insert_ok maps key v :
  (0 < length maps)%nat -> table_get maps key = None ->
  exists maps', HashTable.Insert hash maps key v = Ok (v, true, maps') /\ length maps' = length maps /\
    forall key', table_get maps' key' = if decide (key' = key) then Some v else table_get maps key'.
Proof.
  intros Hl Hn. unfold HashTable.Insert, table_get in *. destruct (lookup_lt_is_Some_2 maps _ (element_index maps key Hl)) as [m Hm].
  rewrite (vec_get_Ok _ _ _ Hm), bind_Ok. rewrite Hm in Hn. rewrite Hn, vec_set_Ok by by apply element_index. rewrite bind_Ok.
  eexists. split; [done|]. split; [by rewrite length_insert|]. intros key'.
  assert (Hi : HashTable.getElementIndex hash (<[HashTable.getElementIndex hash maps key := <[key := v]> m]> maps) key' = HashTable.getElementIndex hash maps key').
  { unfold HashTable.getElementIndex, zlen. by rewrite length_insert. }
  rewrite Hi. destruct (decide (HashTable.getElementIndex hash maps key' = HashTable.getElementIndex hash maps key)) as [E|E].
  - rewrite E, list_lookup_insert_eq by by apply element_index. rewrite Hm. case_decide as Hk; [subst; by rewrite lookup_insert_eq | by rewrite lookup_insert_ne].
  - rewrite list_lookup_insert_ne by done. case_decide as Hk; [by subst | done].
Qed.
End table.

(** ** States with entries given by a function of their index *)
Section states.
Implicit Type E : nat -> CacheEntry.
Context `{Build} `{Posix} (hash : PageTag -> Z) (N : nat) (np : Z).
#[local] Notation BM := (M BufferManager).

Definition st (mp : HashTable.t) (E : nat -> CacheEntry) (bufs : list BufferData) (fb : option nat)
    (L : ListId -> CacheEntryList) (P : Z) (fs : gmap Z (list byte)) : BufferManager :=
  mkPool mp np (map E (seq 0 N)) bufs fb L P fs.

Section ops.
Context (mp : HashTable.t) (E : nat -> CacheEntry) (bufs : list BufferData) (fb : option nat).
Context (L : ListId -> CacheEntryList) (P : Z) (fs : gmap Z (list byte)).
#[local] Notation stE E := (st mp E bufs fb L P fs).

Lemma get_entry_st i : (i < N)%nat -> get_entry i (stE E) = (Ok (E i), stE E).
Proof. intros Hi. unfold get_entry, mbind, M_bind, get, lift. cbn. by rewrite (vec_get_Ok _ _ _ (lookup_map_seq E N i Hi)). Qed.

Lemma upd_entry_st i f : (i < N)%nat -> upd_entry i f (stE E) = (Ok tt, stE (fupd E i (f (E i)))).
Proof.
  intros Hi. unfold upd_entry. erewrite M_bind_Ok by by apply get_entry_st. unfold modify, set_entries, st. cbn.
  by rewrite insert_map_seq.
Qed.

Lemma load_st i : (i < N)%nat -> load i (stE E) = (Ok (State (E i)), stE E).
Proof. intros Hi. unfold load. by erewrite M_bind_Ok by by apply get_entry_st. Qed.

Lemma fetch_st f i : (i < N)%nat -> fetch f i (stE E) = (Ok (State (E i)), stE (fupd E i (set_State (f (State (E i))) (E i)))).
Proof. intros Hi. unfold fetch. erewrite M_bind_Ok by by apply load_st. by erewrite M_bind_Ok by by apply upd_entry_st. Qed.

Lemma check_st c what {A} (k : unit -> BM A) (s : BufferManager) : c = true -> mbind k (check c what) s = k tt s.
Proof. intros Hc. unfold check. by erewrite lift_Ok by by apply assert_Ok. Qed.

Lemma Pin_st i : (i < N)%nat -> Z.land (State (E i)) BufferRefCountMask <> BufferRefCountMask ->
  Pin i (stE E) = (Ok tt, stE (fupd E i (set_State (wrap 32 (State (E i) + 1)) (E i)))).
Proof.
  intros Hi Hm. unfold Pin, fetch_add. erewrite M_bind_Ok by by apply fetch_st. unfold check, lift.
  by rewrite assert_Ok by by apply negb_true_iff, Z.eqb_neq.
Qed.

Lemma Unpin_st i : (i < N)%nat -> 0 < Z.land (State (E i)) BufferRefCountMask ->
  Unpin i (stE E) = (Ok tt, stE (fupd E i (set_State (wrap 32 (State (E i) + - 1)) (E i)))).
Proof.
  intros Hi Hm. unfold Unpin, fetch_add. erewrite M_bind_Ok by by apply fetch_st. unfold check, lift.
  by rewrite assert_Ok by by apply Z.ltb_lt.
Qed.

Lemma Lock_st i : (i < N)%nat -> has (State (E i)) Locked = false ->
  Lock i (stE E) = (Ok (Z.lor (State (E i)) Locked), stE (fupd E i (set_State (Z.lor (State (E i)) Locked) (E i)))).
Proof. intros Hi Hl. unfold Lock, fetch_or. erewrite M_bind_Ok by by apply fetch_st. by rewrite Hl. Qed.

Lemma Unlock_st i : (i < N)%nat -> has (State (E i)) Locked = true ->
  Unlock i (stE E) = (Ok tt, stE (fupd E i (set_State (wrap 32 (State (E i) + - Locked)) (E i)))).
Proof.
  intros Hi Hl. unfold Unlock, fetch_add. erewrite M_bind_Ok by by apply fetch_st. unfold check, lift.
  by rewrite assert_Ok by done.
Qed.

Lemma get_list_st l : get_list l (stE E) = (Ok (L l), stE E).
Proof. done. Qed.

Lemma put_list_st l v : put_list l v (stE E) = (Ok tt, st mp E bufs fb (fun l' => if decide (l' = l) then v else L l') P fs).
Proof. done. Qed.
End ops.
End states.

(** Simplification of entries and of lists that were updated. *)
Ltac fup := repeat first [rewrite fupd_eq | rewrite fupd_ne by (congruence || lia)].
Ltac entry_fields := cbn [Tag BlockId State Buffer Prev Next set_State set_Prev set_Next set_Buffer set_Tag] in *.
(** One operation of the pool, by its lemma. *)
Ltac run lem := erewrite M_bind_Ok by (apply lem; [lia | fup; entry_fields; first [done | vm_compute; done]]).
Ltac run_upd := erewrite M_bind_Ok by (apply upd_entry_st; lia).
Ltac run_get := erewrite M_bind_Ok by (apply get_entry_st; lia).

Section lists.
Context `{Build} `{Posix} (hash : PageTag -> Z) (N : nat) (np : Z).
Context (mp : HashTable.t) (bufs : list BufferData) (fb : option nat) (P : Z) (fs : gmap Z (list byte)).
Implicit Type E : nat -> CacheEntry.
#[local] Notation st E L := (st N np mp E bufs fb L P fs).

(** The tail of a list of several entries is taken out. *)
Lemma RemoveEntry_tail l E L k h sz tg b s :
  (S k < N)%nat -> L l = mkList (Some h) (Some k) sz -> h <> k -> 1 < sz -> E k = mkEntry tg b s None (Some (S k)) None ->
  exists E' L', RemoveEntry l k (st E L) = (Ok tt, st E' L') /\
    E' k = mkEntry tg b s None None None /\ E' (S k) = set_Next None (E (S k)) /\ (forall j, j <> k -> j <> S k -> E' j = E j) /\
    L' l = mkList (Some h) (Some (S k)) (wrap 32 (sz - 1)) /\ (forall l', l' <> l -> L' l' = L l').
Proof.
  intros Hk HL Hh Hsz HE. unfold RemoveEntry. erewrite M_bind_Ok by apply get_list_st. rewrite HL. cbn [list_size].
  rewrite check_st by lia. rewrite (proj2 (Z.eqb_neq sz 0)), (proj2 (Z.eqb_neq sz 1)) by lia.
  assert (Hu : unlink l k (st E L) = (Ok tt, st (fupd E (S k) (set_Next None (E (S k))))
    (fun l' => if decide (l' = l) then mkList (Some h) (Some (S k)) sz else L l'))).
  { unfold unlink. run_get. erewrite M_bind_Ok by apply get_list_st. rewrite HE, HL. entry_fields. cbn [head tail list_size IsRouge].
    rewrite check_st by done. unfold check at 1. erewrite lift_Ok by (apply assert_Ok; unfold points; by rewrite bool_decide_true).
    erewrite M_bind_Ok by (apply upd_entry_st; lia). cbn [mret]. erewrite M_bind_Ok by reflexivity.
    unfold points. rewrite bool_decide_false, bool_decide_true by congruence. apply put_list_st. }
  erewrite M_bind_Ok by exact Hu. run_upd. run_upd. erewrite M_bind_Ok by apply get_list_st. rewrite put_list_st.
  eexists _, _. split; [reflexivity|]. fup. rewrite HE. entry_fields. rewrite !decide_True by done. cbn [head tail list_size].
  split_and!; [done | done | | done |].
  - intros j H1 H2. by fup.
  - intros l' Hl. by rewrite !decide_False by done.
Qed.

(** [PopTail] of such a list, whose tail is not pinned. *)
Lemma PopTail_ok l E L k h sz tg b :
  (S k < N)%nat -> L l = mkList (Some h) (Some k) sz -> h <> k -> 1 < sz < 2 ^ 32 -> E k = mkEntry tg b 0 None (Some (S k)) None ->
  exists E' L', PopTail l (st E L) = (Ok (Some k), st E' L') /\
    E' k = mkEntry tg b 0 None None None /\ E' (S k) = set_Next None (E (S k)) /\ (forall j, j <> k -> j <> S k -> E' j = E j) /\
    L' l = mkList (Some h) (Some (S k)) (sz - 2) /\ (forall l', l' <> l -> L' l' = L l').
Proof.
  intros Hk HL Hh Hsz HE. unfold PopTail, for_tail. erewrite M_bind_Ok by apply get_list_st. unfold get at 1.
  unfold mbind at 1, M_bind at 1. cbn [bm_entries BufferSpec.st]. rewrite HL. cbn [tail from_tail].
  assert (Hl0 : Lock k (st E L) = (Ok (Z.lor 0 Locked), st (fupd E k (set_State (Z.lor 0 Locked) (E k))) L)).
  { rewrite Lock_st by (rewrite ?HE; done || lia). by rewrite HE. }
  set (E1 := fupd E k (set_State (Z.lor 0 Locked) (E k))) in *.
  assert (HE1 : E1 k = mkEntry tg b Locked None (Some (S k)) None) by (unfold E1; fup; rewrite HE; reflexivity).
  destruct (RemoveEntry_tail l E1 L k h sz tg b Locked Hk HL Hh ltac:(lia) HE1) as (E2 & L2 & Hr & Hk2 & Hs2 & Ho2 & HL2 & HLo).
  erewrite M_bind_Ok; [|erewrite M_bind_Ok by exact Hl0; change (negb (Z.land (Z.lor 0 Locked) BufferRefCountMask =? 0)) with false; cbv iota;
    erewrite M_bind_Ok by exact Hr; erewrite M_bind_Ok by (apply Unlock_st; [lia | by rewrite Hk2]);
    erewrite M_bind_Ok by apply get_list_st; rewrite HL2; cbn [head tail list_size]; erewrite M_bind_Ok by apply put_list_st; reflexivity].
  cbv beta iota. eexists _, _. split; [reflexivity|]. fup. rewrite Hk2. cbn [set_State Tag BlockId State Buffer Prev Next].
  rewrite decide_True by done. split_and!.
  - reflexivity.
  - fup. rewrite Hs2. unfold E1. by fup.
  - intros j H1 H2. fup. rewrite Ho2 by done. unfold E1. by fup.
  - f_equal. rewrite (wrap_small 32 (sz - 1)) by lia. rewrite wrap_small by lia. lia.
  - intros l' Hl. rewrite decide_False by done. by apply HLo.
Qed.

(** A first entry, or one at the head of a list with a head. *)
Lemma InsertMRU_empty l E L k :
  (k < N)%nat -> list_size (L l) = 0 -> IsRouge (E k) = true ->
  exists L', InsertMRU l k (st E L) = (Ok tt, st E L') /\ L' l = mkList (Some k) (Some k) 1 /\ (forall l', l' <> l -> L' l' = L l').
Proof.
  intros Hk HL Hr. unfold InsertMRU. run_get. rewrite check_st by done. erewrite M_bind_Ok by apply get_list_st. rewrite HL.
  change (0 =? 0) with true. cbv iota. erewrite M_bind_Ok by apply put_list_st. erewrite M_bind_Ok by apply get_list_st.
  rewrite put_list_st. eexists. split; [reflexivity|]. rewrite !decide_True by done. split; [done|]. intros l' Hl. by rewrite !decide_False by done.
Qed.

Lemma InsertMRU_head l E L k h t sz tg b s bf :
  (k < N)%nat -> (h < N)%nat -> h <> k -> L l = mkList (Some h) t sz -> 0 < sz < 2 ^ 32 - 1 -> E k = mkEntry tg b s bf None None ->
  exists E' L', InsertMRU l k (st E L) = (Ok tt, st E' L') /\
    E' k = mkEntry tg b s bf None (Some h) /\ E' h = set_Prev (Some k) (E h) /\ (forall j, j <> k -> j <> h -> E' j = E j) /\
    L' l = mkList (Some k) t (sz + 1) /\ (forall l', l' <> l -> L' l' = L l').
Proof.
  intros Hk Hh Hne HL Hsz HE. unfold InsertMRU. run_get. rewrite HE, check_st by done. erewrite M_bind_Ok by apply get_list_st. rewrite HL.
  cbn [list_size head tail]. rewrite (proj2 (Z.eqb_neq sz 0)) by lia. cbn [of_option].
  erewrite M_bind_Ok; [|erewrite lift_Ok by reflexivity; run_upd; run_upd; apply put_list_st].
  erewrite M_bind_Ok by apply get_list_st. rewrite put_list_st. eexists _, _. split; [reflexivity|]. fup. rewrite HE. entry_fields.
  rewrite !decide_True by done. cbn [head tail list_size]. rewrite wrap_small by lia.
  split_and!; [done | done | intros j H1 H2; by fup | done | intros l' Hl; by rewrite !decide_False by done].
Qed.
End lists.

(** ** The operations on the entry of a new page *)

(** The state word of an entry of T1 whose page is valid. *)
Definition in_T1 : Z := TagValid + IsTopList.
Definition used : Z := in_T1 + DataValid.

Definition only (k : nat) (E E' : nat -> CacheEntry) : Prop := forall j, j <> k -> E' j = E j.

Definition page_of (fs : gmap Z (list byte)) (tag : PageTag) : list byte :=
  slice (Config.PageSize * PageNo tag) Config.PageSize (default [] (fs !! Relid tag)).

Definition readable (fs : gmap Z (list byte)) (tag : PageTag) : Prop :=
  exists f, fs !! Relid tag = Some f /\ zlen f < 2 ^ 62 /\ 0 <= PageNo tag < 2 ^ 32 - 1 /\ Config.PageSize * (PageNo tag + 1) <= zlen f.

Section entry.
Context `{Build} `{PosixOk} (hash : PageTag -> Z) (N : nat) (np : Z) (P : Z) (fs : gmap Z (list byte)).
Implicit Type E : nat -> CacheEntry.
#[local] Notation st mp E bufs fb L := (st N np mp E bufs fb L P fs).

Lemma Read_page tag : readable fs tag -> exists f, fs !! Relid tag = Some f /\ RelFile.Read (PageNo tag) f = (Ok (page_of fs tag), f).
Proof.
  intros (f & Hf & Hl & Hp & Hs). exists f. split; [done|]. unfold RelFile.Read, page_of. rewrite Hf. cbn [from_option id].
  rewrite RelFile.page_valid by lia. cbn [negb]. unfold Config.PageSize in *. erewrite M_bind_Ok by (apply File.Read_ok; lia).
  rewrite zlen_slice by lia. done.
Qed.

Lemma on_file_read mp E bufs fb L tag :
  readable fs tag -> on_file (Relid tag) O_RDONLY (RelFile.Read (PageNo tag)) (st mp E bufs fb L) = (Ok (page_of fs tag), st mp E bufs fb L).
Proof.
  intros Hr. destruct (Read_page tag Hr) as (f & Hf & E1). unfold on_file. unfold RelFile.Open. rewrite File.Open_ok.
  cbn [bm_files BufferSpec.st]. rewrite Hf. cbn [from_option id]. rewrite E1. unfold set_files, BufferSpec.st. cbn. by rewrite insert_id.
Qed.

Lemma buffer_of_st mp E bufs fb L k what bf : (k < N)%nat -> Buffer (E k) = Some bf ->
  buffer_of k what (st mp E bufs fb L) = (Ok bf, st mp E bufs fb L).
Proof. intros Hk Hb. unfold buffer_of. run_get. rewrite Hb, check_st by done. reflexivity. Qed.

Lemma buffer_data_st mp E bufs fb L bf d : bufs !! bf = Some d -> buffer_data bf (st mp E bufs fb L) = (Ok d, st mp E bufs fb L).
Proof. intros Hd. unfold buffer_data, mbind, M_bind, get, lift. cbn. by rewrite (vec_get_Ok _ _ _ Hd). Qed.

Lemma TerminateBufferIO_ok mp E bufs fb L k tg b s bf p nx :
  (k < N)%nat -> E k = mkEntry tg b (s + IoInProgress) (Some bf) p nx -> s = in_T1 + 1 ->
  exists E', TerminateBufferIO k DataValid 0 (st mp E bufs fb L) = (Ok tt, st mp E' bufs fb L) /\
    E' k = mkEntry tg b (used + 1) (Some bf) p nx /\ only k E E'.
Proof.
  intros Hk HE ->. unfold TerminateBufferIO. rewrite check_st by done.
  assert (HS : State (E k) = in_T1 + 1 + IoInProgress) by by rewrite HE.
  erewrite M_bind_Ok by (apply Lock_st; [lia | rewrite HS; reflexivity]). rewrite check_st by (rewrite HS; reflexivity).
  unfold fetch_and_not, fetch_or. erewrite M_bind_Ok by (apply fetch_st; lia). erewrite M_bind_Ok by (apply fetch_st; lia).
  erewrite M_bind_Ok by (apply fetch_st; lia). fup. entry_fields. rewrite HS.
  erewrite M_bind_Ok by (apply Unlock_st; [lia | fup; reflexivity]). run_get. fup. rewrite HE. entry_fields. unfold check, lift. rewrite assert_true.
  eexists. split; [reflexivity|]. fup. split; [reflexivity|]. intros j Hj. by fup.
Qed.

(** The page is read into the buffer of the entry. *)
Lemma ReadBuffer_ok mp E bufs fb L k tg b bf p nx d :
  (k < N)%nat -> E k = mkEntry tg b (in_T1 + 1) (Some bf) p nx -> bufs !! bf = Some d -> readable fs tg ->
  exists E', ReadBuffer k (st mp E bufs fb L) = (Ok tt, st mp E' (<[bf := mkBuffer (page_of fs tg) (buf_Next d)]> bufs) fb L) /\
    E' k = mkEntry tg b (used + 1) (Some bf) p nx /\ only k E E'.
Proof.
  intros Hk HE Hd Hr. assert (HS : State (E k) = in_T1 + 1) by by rewrite HE.
  unfold ReadBuffer. erewrite M_bind_Ok by (apply load_st; lia). rewrite HS. change (has (in_T1 + 1) DataValid) with false. cbv iota.
  assert (Hst : exists E1, ShouldStartIO k true (st mp E bufs fb L) = (Ok true, st mp E1 bufs fb L) /\
    E1 k = mkEntry tg b (in_T1 + 1 + IoInProgress) (Some bf) p nx /\ only k E E1).
  { unfold ShouldStartIO. erewrite M_bind_Ok by (apply Lock_st; [lia | rewrite HS; reflexivity]). rewrite HS.
    change (has (Z.lor (in_T1 + 1) Locked) IoInProgress) with false. change (has (Z.lor (in_T1 + 1) Locked) DataValid) with false. cbv iota.
    unfold fetch_or. erewrite M_bind_Ok by (apply fetch_st; lia). fup. entry_fields.
    erewrite M_bind_Ok by (apply Unlock_st; [lia | fup; reflexivity]). eexists. split; [reflexivity|]. fup. rewrite HE. split; [reflexivity|].
    intros j Hj. by fup. }
  destruct Hst as (E1 & Est & HE1 & Ho1). erewrite M_bind_Ok by exact Est. cbn [negb].
  erewrite M_bind_Ok by (apply buffer_of_st; [lia | by rewrite HE1]).
  assert (Htry : try_cleanup (e ← get_entry k; page ← on_file (Relid (Tag e)) O_RDONLY (RelFile.Read (PageNo (Tag e))); set_page bf page)
      (TerminateBufferIO k IoError 0) (st mp E1 bufs fb L) =
    (Ok tt, st mp E1 (<[bf := mkBuffer (page_of fs tg) (buf_Next d)]> bufs) fb L)).
  { unfold try_cleanup. run_get. rewrite HE1. entry_fields. erewrite M_bind_Ok by by apply on_file_read.
    unfold set_page. by erewrite M_bind_Ok by by apply buffer_data_st. }
  erewrite M_bind_Ok by exact Htry.
  destruct (TerminateBufferIO_ok mp E1 (<[bf := mkBuffer (page_of fs tg) (buf_Next d)]> bufs) fb L k tg b (in_T1 + 1) bf p nx Hk HE1 eq_refl)
    as (E2 & Et & HE2 & Ho2). exists E2. split; [exact Et|]. split; [done|]. intros j Hj. by rewrite Ho2, Ho1.
Qed.
End entry.

(** ** Serving new pages *)
Section serving.
Context `{Build} `{PosixOk} (hash : PageTag -> Z) (n : nat) (fs : gmap Z (list byte)).
Hypothesis Hn : (0 < n)%nat.
Hypothesis Hmax : Z.of_nat n * 2 < 2 ^ 32 - 1.
Implicit Type E : nat -> CacheEntry.
#[local] Notation N := (n * 2)%nat.
#[local] Notation st mp E bufs fb L := (st N (Z.of_nat n) mp E bufs fb L 0 fs).

Definition pred_of (i : nat) : option nat := match i with O => None | S j => Some j end.
Definition below (m i : nat) : option nat := if decide (S i < m)%nat then Some (S i) else None.

(** The entries after the pages [tags] were served: they are in T1, the last one first, and the
    other entries are in the free list. *)
Definition entry_at (tags : list PageTag) (i : nat) : CacheEntry :=
  let k := length tags in
  match tags !! i with
  | Some tag => mkEntry tag (Z.of_nat i) used (Some (n - 1 - i)%nat) (below k i) (pred_of i)
  | None => mkEntry (Tag (default_entry i)) (Z.of_nat i) 0 None (below N i) (if decide (k < i)%nat then Some (i - 1)%nat else None)
  end.

Record served (tags : list PageTag) (mp : HashTable.t) (E : nat -> CacheEntry) (bufs : list BufferData) (fb : option nat)
    (L : ListId -> CacheEntryList) : Prop := mk_served {
  sv_map : length mp = 8%nat /\ forall key, key ∉ tags -> table_get hash mp key = None;
  sv_entries i : (i < N)%nat -> E i = entry_at tags i;
  sv_free : L FreeList = mkList (Some (N - 1)%nat) (Some (length tags)) (Z.of_nat (N - 2 * length tags));
  sv_T1 : L T1 = mkList (pred_of (length tags)) (if decide (0 < length tags)%nat then Some O else None) (Z.of_nat (length tags));
  sv_T2 : L T2 = mkList None None 0;
  sv_B1 : list_size (L B1) = 0;
  sv_B2 : list_size (L B2) = 0;
  sv_fb : fb = pred_of (n - length tags);
  sv_bufs j : (j < n)%nat -> exists page, bufs !! j = Some (mkBuffer page (pred_of j))
}.

Lemma preinsert_room mp E bufs fb L :
  0 <= list_size (L T1) -> 0 <= list_size (L T2) -> list_size (L B1) = 0 -> list_size (L B2) = 0 -> list_size (L T1) + list_size (L T2) < Z.of_nat n ->
  preinsertCleanup hash (st mp E bufs fb L) = (Ok tt, st mp E bufs fb L).
Proof.
  intros HT1 HT2 HB1 HB2 Hk. assert (Hsz : forall l, Size l (st mp E bufs fb L) = (Ok (list_size (L l)), st mp E bufs fb L)) by done.
  unfold preinsertCleanup. erewrite M_bind_Ok by apply Hsz. erewrite M_bind_Ok by apply Hsz. erewrite M_bind_Ok by reflexivity. cbn [bm_npages BufferSpec.st].
  rewrite HB1, wrap_small, (proj2 (Z.leb_gt _ _)) by lia.
  erewrite M_bind_Ok by apply Hsz. erewrite M_bind_Ok by apply Hsz. rewrite HB2. by rewrite wrap_small, (proj2 (Z.leb_gt _ _)) by lia.
Qed.

Lemma preinsert_nothing tags mp E bufs fb L :
  served tags mp E bufs fb L -> (length tags < n)%nat -> preinsertCleanup hash (st mp E bufs fb L) = (Ok tt, st mp E bufs fb L).
Proof.
  intros [_ _ _ HT1 HT2 HB1 HB2 _ _] Hk. apply preinsert_room; rewrite ?HT1, ?HT2; cbn [list_size]; done || lia.
Qed.

(** The free list, when its first [k] entries are used: it counts twice what was taken. *)
Definition free_from (k : nat) E L : Prop :=
  L FreeList = mkList (Some (N - 1)%nat) (Some k) (Z.of_nat (N - 2 * k)) /\
  E k = mkEntry (Tag (default_entry k)) (Z.of_nat k) 0 None (Some (S k)) None.

Lemma served_free tags mp E bufs fb L : served tags mp E bufs fb L -> (length tags < n)%nat -> free_from (length tags) E L.
Proof.
  intros [_ HE HF _ _ _ _ _ _] Hk. split; [done|]. rewrite HE by lia. unfold entry_at. rewrite lookup_ge_None_2 by lia.
  unfold below. rewrite decide_True by lia. by rewrite decide_False by lia.
Qed.

(** The entry that a miss gets, torn down. *)
Lemma evict_ok k mp E bufs fb L :
  (k < n)%nat -> free_from k E L ->
  exists E' L', evictCacheEntry hash (st mp E bufs fb L) = (Ok (Some k), st mp E' bufs fb L') /\
    E' k = default_entry k /\ E' (S k) = set_Next None (E (S k)) /\ (forall j, j <> k -> j <> S k -> E' j = E j) /\
    L' FreeList = mkList (Some (N - 1)%nat) (Some (S k)) (Z.of_nat (N - 2 * S k)) /\ (forall l, l <> FreeList -> L' l = L l).
Proof.
  intros Hk [HF HEk].
  destruct (PopTail_ok N (Z.of_nat n) mp bufs fb 0 fs FreeList E L k (N - 1)%nat (Z.of_nat (N - 2 * k)) (Tag (default_entry k)) (Z.of_nat k))
    as (E' & L' & Hp & Q1 & Q2 & Q3 & Q4 & Q5); [lia | exact HF | lia | lia | exact HEk |].
  unfold evictCacheEntry. erewrite M_bind_Ok by exact Hp. cbv beta iota.
  assert (Ht : TearDown k (st mp E' bufs fb L') = (Ok tt, st mp (fupd E' k (set_State 0 (E' k))) bufs fb L')).
  { unfold TearDown. erewrite M_bind_Ok by (apply load_st; lia). rewrite Q1. rewrite !check_st by done. rewrite <-Q1. apply upd_entry_st. lia. }
  erewrite M_bind_Ok by exact Ht. eexists _, L'. split; [reflexivity|]. fup. rewrite Q1.
  split; [done|]. split; [done|]. split; [intros j Hj Hj'; fup; by apply Q3|]. split; [|done].
  rewrite Q4. f_equal. lia.
Qed.

(** The new entry in T1, pinned, with a buffer. *)
Lemma insert_T1 (tags : list PageTag) mp E bufs fb L tg :
  (length tags < n)%nat -> let k := length tags in
  L T1 = mkList (pred_of k) (if decide (0 < k)%nat then Some O else None) (Z.of_nat k) ->
  E k = mkEntry tg (Z.of_nat k) (in_T1 + 1 + Locked) (Some (n - 1 - k)%nat) None None ->
  exists E' L', InsertMRU T1 k (st mp E bufs fb L) = (Ok tt, st mp E' bufs fb L') /\
    E' k = mkEntry tg (Z.of_nat k) (in_T1 + 1 + Locked) (Some (n - 1 - k)%nat) None (pred_of k) /\
    (forall j, j <> k -> S j <> k -> E' j = E j) /\ (forall j, S j = k -> E' j = set_Prev (Some k) (E j)) /\
    L' T1 = mkList (Some k) (Some O) (Z.of_nat (S k)) /\ (forall l, l <> T1 -> L' l = L l).
Proof.
  intros Hlt k HL HE. destruct k as [|k'] eqn:Ek.
  - destruct (InsertMRU_empty N (Z.of_nat n) mp bufs fb 0 fs T1 E L 0) as (L' & Hi & Q1 & Q2); [lia | by rewrite HL | by rewrite HE |].
    exists E, L'. by split_and!.
  - assert (Hk' : (S k' < n)%nat) by (unfold k in Ek; lia). cbn [pred_of] in HL. rewrite decide_True in HL by lia.
    destruct (InsertMRU_head N (Z.of_nat n) mp bufs fb 0 fs T1 E L (S k') k' (Some O) (Z.of_nat (S k')) tg (Z.of_nat (S k')) (in_T1 + 1 + Locked) (Some (n - 1 - S k')%nat))
      as (E' & L' & Hi & Q1 & Q2 & Q3 & Q4 & Q5); [lia | lia | lia | exact HL | lia | exact HE |].
    exists E', L'. split; [exact Hi|]. split; [exact Q1|]. split; [intros j Hj Hj'; apply Q3; lia|].
    split; [intros j Hj; by replace j with k' by lia|]. split; [rewrite Q4; f_equal; lia | done].
Qed.

Lemma map_insert_st mp E bufs fb L tag v :
  length mp = 8%nat -> table_get hash mp tag = None ->
  exists mp', map_insert hash tag v (st mp E bufs fb L) = (Ok (v, true), st mp' E bufs fb L) /\ length mp' = 8%nat /\
    forall key, table_get hash mp' key = if decide (key = tag) then Some v else table_get hash mp key.
Proof.
  intros Hl Hg. destruct (Insert_ok hash mp tag v) as (mp' & Hi & Hl' & Hk); [lia | done |]. exists mp'. split; [|split; [lia | done]].
  unfold map_insert, mbind, M_bind, get, lift. cbn [bm_map BufferSpec.st]. by rewrite Hi.
Qed.

Lemma LinkedList_Get_st mp E bufs b d L : bufs !! b = Some d ->
  LinkedList_Get (st mp E bufs (Some b) L) = (Ok (Some b), st mp E bufs (buf_Next d) L).
Proof.
  intros Hd. unfold LinkedList_Get, mbind, M_bind, get. cbn [freeBuffers BufferSpec.st].
  erewrite buffer_data_st by exact Hd. done.
Qed.

(** The entries that are not touched look after the next page as they did before. *)
Lemma entry_at_other tags tag i : i <> length tags ->
  entry_at (tags ++ [tag]) i =
    (if decide (S i = length tags) then set_Prev (Some (length tags)) (entry_at tags i)
     else if decide (i = S (length tags)) then set_Next None (entry_at tags i) else entry_at tags i).
Proof.
  intros Hi. unfold entry_at. destruct (tags !! i) as [tg|] eqn:Et.
  - pose proof (lookup_lt_Some _ _ _ Et). rewrite lookup_app_l, Et by done. rewrite length_app. cbn [length]. unfold below.
    destruct (decide (S i = length tags)) as [Hs|Hs].
    + rewrite decide_True by lia. unfold set_Prev. cbn. by rewrite Hs.
    + rewrite (decide_False (P := i = S _)) by lia. by rewrite !decide_True by lia.
  - apply lookup_ge_None in Et. rewrite lookup_ge_None_2 by (rewrite length_app; cbn; lia). rewrite length_app. cbn [length].
    rewrite (decide_False (P := S i = _)) by lia. destruct (decide (i = S (length tags))) as [Hs|Hs].
    + rewrite decide_False by lia. done.
    + by rewrite !decide_True by lia.
Qed.

Lemma entry_at_new (tags : list PageTag) tag : let k := length tags in
  entry_at (tags ++ [tag]) k = mkEntry tag (Z.of_nat k) used (Some (n - 1 - k)%nat) None (pred_of k).
Proof.
  intros k. unfold entry_at, k. rewrite lookup_app_r, Nat.sub_diag by done. cbn [lookup list_lookup]. rewrite length_app. cbn [length].
  unfold below. by rewrite decide_False by lia.
Qed.

(** The entry of a new page, up to its insertion into T1. *)
Lemma create_entry_new k tag mp E bufs L page nx :
  (k < n)%nat -> free_from k E L -> length mp = 8%nat -> table_get hash mp tag = None -> bufs !! (n - 1 - k)%nat = Some (mkBuffer page nx) ->
  preinsertCleanup hash (st mp E bufs (Some (n - 1 - k)%nat) L) = (Ok tt, st mp E bufs (Some (n - 1 - k)%nat) L) ->
  exists mp' E' L', create_entry hash tag (st mp E bufs (Some (n - 1 - k)%nat) L) =
      (_ ← InsertMRU T1 k; _ ← Unlock k; mret (k, true)) (st mp' E' bufs nx L') /\
    length mp' = 8%nat /\ (forall key, table_get hash mp' key = if decide (key = tag) then Some (Z.of_nat k) else table_get hash mp key) /\
    E' k = mkEntry tag (Z.of_nat k) (in_T1 + 1 + Locked) (Some (n - 1 - k)%nat) None None /\
    E' (S k) = set_Next None (E (S k)) /\ (forall j, j <> k -> j <> S k -> E' j = E j) /\
    L' FreeList = mkList (Some (N - 1)%nat) (Some (S k)) (Z.of_nat (N - 2 * S k)) /\ (forall l, l <> FreeList -> L' l = L l).
Proof.
  intros Hk Hfree Hl Hm Hb Hpre. destruct (evict_ok k mp E bufs (Some (n - 1 - k)%nat) L Hk Hfree) as (E1 & L1 & Hev & Ek & Esk & Eo & LF & Lo).
  unfold create_entry. erewrite M_bind_Ok by exact Hpre. erewrite M_bind_Ok by exact Hev. cbv beta iota.
  run_upd. run_upd. run_get. fup. entry_fields. rewrite Ek. cbn [Buffer default_entry BlockId]. rewrite check_st by done.
  destruct (map_insert_st mp (fupd (fupd E1 k (set_Tag tag (default_entry k))) k (set_State TagValid (set_Tag tag (default_entry k)))) bufs
    (Some (n - 1 - k)%nat) L1 tag (Z.of_nat k) Hl Hm) as (mp' & Hins & Hl' & Hm').
  erewrite M_bind_Ok by exact Hins. cbv beta iota. unfold fetch_or.
  erewrite M_bind_Ok by (apply fetch_st; lia). erewrite M_bind_Ok by (apply Pin_st; [lia | fup; vm_compute; done]).
  erewrite M_bind_Ok by (eapply LinkedList_Get_st; exact Hb). cbv beta iota. run_upd. erewrite M_bind_Ok by (apply Lock_st; [lia | fup; vm_compute; done]).
  eexists mp', _, L1. split; [reflexivity|]. fup. split; [done|]. split; [done|]. split; [reflexivity|]. split; [done|].
  split; [intros j Hj Hj'; fup; by apply Eo | done].
Qed.

(** The entry of a new page is made: all is as after serving it, but for the state word. *)
Lemma create_new tags tag mp E bufs fb L :
  served tags mp E bufs fb L -> tag ∉ tags -> let k := length tags in (k < n)%nat ->
  exists mp' E' fb' L', create_entry hash tag (st mp E bufs fb L) = (Ok (k, true), st mp' E' bufs fb' L') /\
    E' k = mkEntry tag (Z.of_nat k) (in_T1 + 1) (Some (n - 1 - k)%nat) None (pred_of k) /\
    served (tags ++ [tag]) mp' (fupd E' k (set_State used (E' k))) bufs fb' L'.
Proof.
  intros Hs Hfresh k Hk. pose proof (preinsert_nothing _ _ _ _ _ _ Hs Hk) as Hpre. pose proof (served_free _ _ _ _ _ _ Hs Hk) as Hfree.
  destruct Hs as [[Hl Hm] HE _ HT1 HT2 HB1 HB2 Hfb Hbufs]. destruct (Hbufs (n - 1 - k)%nat) as [page Hb]; [lia|].
  rewrite Hfb in *. replace (pred_of (n - length tags)) with (Some (n - 1 - k)%nat) in * by (destruct (n - length tags)%nat as [|x] eqn:Ex; [lia | cbn; f_equal; lia]).
  destruct (create_entry_new k tag mp E bufs L page _ Hk Hfree Hl (Hm _ Hfresh) Hb Hpre) as (mp' & E2 & L1 & Hc & Hl' & Hm' & E2k & E2s & E2o & LF & Lo).
  destruct (insert_T1 tags mp' E2 bufs (pred_of (n - 1 - k)) L1 tag Hk) as (E3 & L3 & Hi & E3k & E3o & E3p & LT & L3o); [by rewrite Lo, HT1 | done |].
  erewrite M_bind_Ok in Hc by exact Hi. cbv zeta in E3k. fold k in E3k. assert (HU := Unlock_st N (Z.of_nat n) mp' E3 bufs (pred_of (n - 1 - k)) L3 0 fs k ltac:(lia)). rewrite E3k in HU. erewrite M_bind_Ok in Hc by (apply HU; reflexivity).
  eexists mp', _, _, L3. split; [exact Hc|]. fup. split; [reflexivity|].
  subst k. constructor.
  - split; [done|]. intros key Hkey. rewrite Hm'. rewrite decide_False by set_solver. apply Hm. set_solver.
  - intros i Hi'. destruct (decide (i = length tags)) as [->|Hne]; [fup; rewrite entry_at_new; reflexivity|]. fup.
    rewrite entry_at_other by done. destruct (decide (S i = length tags)) as [Hp|Hp].
    + rewrite E3p, E2o, HE by lia. done.
    + rewrite E3o by lia. destruct (decide (i = S (length tags))) as [Hn'|Hn']; [subst i; by rewrite E2s, HE by lia|]. by rewrite E2o, HE by lia.
  - rewrite L3o, LF by done. rewrite length_app. cbn [length]. by rewrite Nat.add_1_r.
  - rewrite LT, length_app. cbn [length]. replace (length tags + 1)%nat with (S (length tags)) by lia. done.
  - rewrite L3o, Lo; done.
  - rewrite L3o, Lo; done.
  - rewrite L3o, Lo; done.
  - rewrite length_app. cbn. f_equal. lia.
  - done.
Qed.

(** A page is got, read and returned. *)
Definition use_page (tag : PageTag) : M BufferManager (list byte) :=
  pin ← GetBuffer hash tag;
  page ← GetContents (pin_blockId pin);
  _ ← ReturnBuffer (pin_blockId pin);
  mret page.

Fixpoint use_pages (tags : list PageTag) : M BufferManager (list (list byte)) :=
  match tags with
  | [] => mret []
  | tag :: tags => page ← use_page tag; pages ← use_pages tags; mret (page :: pages)
  end.

Lemma map_get_new tags mp E bufs fb L tag :
  served tags mp E bufs fb L -> tag ∉ tags -> map_get hash tag (st mp E bufs fb L) = (Ok None, st mp E bufs fb L).
Proof.
  intros [[Hl Hm] _ _ _ _ _ _ _ _] Ht. unfold map_get, mbind, M_bind, get, lift. cbn [bm_map BufferSpec.st].
  rewrite Get_ok by lia. by rewrite Hm.
Qed.

Lemma GetIndex_ok k (s : BufferManager) : (k < N)%nat -> GetIndex (wrap 32 (Z.of_nat k + 1)) s = (Ok k, s).
Proof.
  intros Hk. unfold GetIndex, IsValid, InvalidBlockId. rewrite (wrap_small 32 (Z.of_nat k + 1)) by lia.
  rewrite check_st by (apply negb_true_iff, Z.eqb_neq; lia). rewrite wrap_small by lia. by replace (Z.to_nat (Z.of_nat k + 1 - 1)) with k by lia.
Qed.

(** The page of an entry that was made is read, and its pin is returned. *)
Lemma get_created k tag s mp E bufs fb L bf p nx d :
  map_get hash tag s = (Ok None, s) -> create_entry hash tag s = (Ok (k, true), st mp E bufs fb L) ->
  (k < N)%nat -> E k = mkEntry tag (Z.of_nat k) (in_T1 + 1) (Some bf) p nx -> bufs !! bf = Some d -> readable fs tag ->
  exists E', GetBuffer hash tag s = (Ok (mkPin tag (wrap 32 (Z.of_nat k + 1))), st mp E' (<[bf := mkBuffer (page_of fs tag) (buf_Next d)]> bufs) fb L) /\
    E' k = mkEntry tag (Z.of_nat k) (used + 1) (Some bf) p nx /\ only k E E'.
Proof.
  intros Hg Hc Hk E1k Hb Hr.
  destruct (ReadBuffer_ok N (Z.of_nat n) 0 fs mp E bufs fb L k tag (Z.of_nat k) bf p nx _ Hk E1k Hb Hr) as (E2 & Hrd & E2k & Ho).
  exists E2. split; [|done]. unfold GetBuffer. erewrite M_bind_Ok by exact Hg. cbv beta iota. erewrite M_bind_Ok by exact Hc. cbv beta iota.
  erewrite M_bind_Ok by reflexivity. run_get. rewrite E1k. entry_fields. rewrite check_st by done. change (has (in_T1 + 1) DataValid) with false. cbv iota.
  erewrite M_bind_Ok by exact Hrd. erewrite M_bind_Ok by (apply load_st; lia). rewrite E2k. entry_fields. rewrite check_st by done.
  unfold makeBufferPin. erewrite M_bind_Ok by (apply load_st; lia). rewrite E2k. entry_fields. rewrite !check_st by done.
  run_get. rewrite E2k. entry_fields. by rewrite check_st by done.
Qed.

Lemma use_new tags tag mp E bufs fb L :
  served tags mp E bufs fb L -> tag ∉ tags -> (length tags < n)%nat -> readable fs tag ->
  exists mp' E' bufs' fb' L', use_page tag (st mp E bufs fb L) = (Ok (page_of fs tag), st mp' E' bufs' fb' L') /\
    served (tags ++ [tag]) mp' E' bufs' fb' L'.
Proof.
  intros Hs Hfresh Hk Hr. destruct (create_new _ _ _ _ _ _ _ Hs Hfresh Hk) as (mp' & E1 & fb' & L' & Hc & E1k & [S1 S2 S3 S4 S5 S6 S7 S8 S9]).
  set (k := length tags) in *. destruct (S9 (n - 1 - k)%nat) as [page Hb]; [lia|].
  destruct (get_created k tag _ mp' E1 bufs fb' L' (n - 1 - k) None (pred_of k) _ (map_get_new _ _ _ _ _ _ _ Hs Hfresh) Hc ltac:(lia) E1k Hb Hr) as (E2 & Hg & E2k & Ho).
  set (bufs' := <[(n - 1 - k)%nat := _]> bufs) in *.
  unfold use_page. erewrite M_bind_Ok by exact Hg. cbn [pin_blockId].
  assert (Hc' : GetContents (wrap 32 (Z.of_nat k + 1)) (st mp' E2 bufs' fb' L') = (Ok (page_of fs tag), st mp' E2 bufs' fb' L')).
  { unfold GetContents. erewrite M_bind_Ok by (apply GetIndex_ok; lia). erewrite M_bind_Ok by (apply buffer_of_st; [lia | by rewrite E2k]).
    erewrite M_bind_Ok; [|apply buffer_data_st; unfold bufs'; apply list_lookup_insert_eq; by eapply lookup_lt_Some]. done. }
  erewrite M_bind_Ok by exact Hc'.
  assert (Hu := Unpin_st N (Z.of_nat n) mp' E2 bufs' fb' L' 0 fs k ltac:(lia)). rewrite E2k in Hu.
  assert (Hret : ReturnBuffer (wrap 32 (Z.of_nat k + 1)) (st mp' E2 bufs' fb' L') =
    (Ok tt, st mp' (fupd E2 k (mkEntry tag (Z.of_nat k) used (Some (n - 1 - k)%nat) None (pred_of k))) bufs' fb' L')).
  { unfold ReturnBuffer. erewrite M_bind_Ok by (apply GetIndex_ok; lia). erewrite M_bind_Ok by (apply load_st; lia). rewrite E2k. entry_fields.
    rewrite check_st by done. rewrite Hu by done. reflexivity. }
  erewrite M_bind_Ok by exact Hret. eexists _, _, _, _, _. split; [reflexivity|]. constructor; try done.
  - intros i Hi. specialize (S2 i Hi). destruct (decide (i = k)) as [->|Hne]; [rewrite <-S2; fup; by rewrite E1k|]. rewrite <-S2. fup. by apply Ho.
  - intros j Hj. unfold bufs'. destruct (decide (j = (n - 1 - k)%nat)) as [->|Hne].
    + rewrite list_lookup_insert_eq by (by eapply lookup_lt_Some). eauto.
    + rewrite list_lookup_insert_ne by done. eauto.
Qed.

Lemma use_all more : forall tags mp E bufs fb L,
  served tags mp E bufs fb L -> NoDup (tags ++ more) -> (length (tags ++ more) <= n)%nat -> Forall (readable fs) more ->
  exists mp' E' bufs' fb' L', use_pages more (st mp E bufs fb L) = (Ok (map (page_of fs) more), st mp' E' bufs' fb' L') /\
    served (tags ++ more) mp' E' bufs' fb' L'.
Proof.
  induction more as [|tag more IH]; intros tags mp E bufs fb L Hs Hn' Hl Hr.
  - rewrite app_nil_r. eexists _, _, _, _, _. split; [reflexivity | exact Hs].
  - apply Forall_cons in Hr as [Hr1 Hr]. pose proof (NoDup_app tags (tag :: more)) as Hd. apply Hd in Hn' as (Hn1 & Hn2 & Hn3). clear Hd.
    rewrite length_app in Hl. cbn [length] in Hl.
    destruct (use_new tags tag mp E bufs fb L Hs) as (mp1 & E1 & bufs1 & fb1 & L1 & Hu & Hs1); [| lia | done |].
    { intros Hin. eapply Hn2; [done | by left]. }
    replace (tags ++ tag :: more) with ((tags ++ [tag]) ++ more) by by rewrite <-app_assoc.
    destruct (IH (tags ++ [tag]) mp1 E1 bufs1 fb1 L1 Hs1) as (mp' & E' & bufs' & fb' & L' & Hu' & Hs'); [| rewrite <-app_assoc, length_app; cbn; lia | done |].
    { rewrite <-app_assoc. cbn. apply NoDup_app. done. }
    exists mp', E', bufs', fb', L'. split; [|done]. cbn [use_pages]. erewrite M_bind_Ok by exact Hu. erewrite M_bind_Ok by exact Hu'. done.
Qed.

(** The pool as the constructor makes it serves no page. *)
Definition free_entry (m i : nat) : CacheEntry :=
  mkEntry (Tag (default_entry i)) (Z.of_nat i) 0 None (below m i) (if decide (i < m)%nat then pred_of i else None).

Definition filled (m : nat) E (L : ListId -> CacheEntryList) : Prop :=
  (forall i, (i < N)%nat -> E i = free_entry m i) /\
  L FreeList = mkList (pred_of m) (if decide (0 < m)%nat then Some O else None) (Z.of_nat m) /\
  forall l, l <> FreeList -> L l = mkList None None 0.

Lemma fill_one m mp E bufs fb L :
  filled m E L -> (m < N)%nat ->
  exists E' L', InsertMRU FreeList m (st mp E bufs fb L) = (Ok tt, st mp E' bufs fb L') /\ filled (S m) E' L'.
Proof.
  intros (HE & HF & Ho) Hm. assert (Hem : E m = mkEntry (Tag (default_entry m)) (Z.of_nat m) 0 None None None).
  { rewrite HE by done. unfold free_entry, below. by rewrite !decide_False by lia. }
  destruct m as [|h].
  - destruct (InsertMRU_empty N (Z.of_nat n) mp bufs fb 0 fs FreeList E L 0) as (L' & Hi & Q1 & Q2); [lia | by rewrite HF | by rewrite Hem |].
    exists E, L'. split; [done|]. split; [|split; [done | intros l Hl; by rewrite Q2, Ho]].
    intros i Hi'. rewrite HE by done. unfold free_entry, below. rewrite !(decide_False (P := (_ < 0)%nat)), (decide_False (P := (S i < 1)%nat)) by lia.
    by destruct i.
  - cbn [pred_of] in HF. rewrite decide_True in HF by lia.
    destruct (InsertMRU_head N (Z.of_nat n) mp bufs fb 0 fs FreeList E L (S h) h (Some O) (Z.of_nat (S h)) (Tag (default_entry (S h))) (Z.of_nat (S h)) 0 None)
      as (E' & L' & Hi & Q1 & Q2 & Q3 & Q4 & Q5); [lia | lia | lia | exact HF | lia | exact Hem |].
    exists E', L'. split; [done|]. split; [|split; [rewrite Q4; f_equal; lia | intros l Hl; by rewrite Q5, Ho]].
    intros i Hi'. unfold free_entry, below. destruct (decide (i = S h)) as [->|Hne]; [|destruct (decide (i = h)) as [->|Hne']].
    + rewrite Q1, decide_False, decide_True by lia. done.
    + rewrite Q2, HE by done. unfold free_entry, below. rewrite (decide_False (P := (S h < S h)%nat)), !decide_True by lia. done.
    + rewrite Q3, HE by done. unfold free_entry, below. destruct (decide (i < S h)%nat); [rewrite !decide_True by lia; done|].
      by rewrite !decide_False by lia.
Qed.

Lemma fill_all mp bufs fb c : forall m E L,
  filled m E L -> (m + c = N)%nat ->
  exists E' L', mapM_ (InsertMRU FreeList) (seq m c) (st mp E bufs fb L) = (Ok tt, st mp E' bufs fb L') /\ filled N E' L'.
Proof.
  induction c as [|c IH]; intros m E L Hf Hc.
  - exists E, L. split; [done|]. by replace N with m by lia.
  - destruct (fill_one m mp E bufs fb L Hf) as (E1 & L1 & Hi & Hf1); [lia|]. destruct (IH (S m) E1 L1 Hf1) as (E' & L' & Hr & Hf'); [lia|].
    exists E', L'. split; [|done]. cbn [seq mapM_]. by erewrite M_bind_Ok by exact Hi.
Qed.

Definition stacked (m : nat) (bufs : list BufferData) : Prop :=
  length bufs = n /\ forall j, (j < n)%nat -> exists next, bufs !! j = Some (mkBuffer (zeros Config.PageSize) next) /\ ((j < m)%nat -> next = pred_of j).

Lemma stack_all mp E L c : forall m bufs,
  stacked m bufs -> (m + c = n)%nat ->
  exists bufs', mapM_ LinkedList_Add (seq m c) (st mp E bufs (pred_of m) L) = (Ok tt, st mp E bufs' (pred_of n) L) /\ stacked n bufs'.
Proof.
  induction c as [|c IH]; intros m bufs [Hl Hs] Hc.
  - exists bufs. replace m with n in * by lia. by split.
  - destruct (Hs m) as (next & Hm & _); [lia|].
    destruct (IH (S m) (<[m := mkBuffer (zeros Config.PageSize) (pred_of m)]> bufs)) as (bufs' & Hr & Hs'); [|lia|].
    { split; [by rewrite length_insert|]. intros j Hj. destruct (decide (j = m)) as [->|Hne].
      - rewrite list_lookup_insert_eq by lia. eauto.
      - rewrite list_lookup_insert_ne by done. destruct (Hs j Hj) as (nx & Hnx & Hp). exists nx. split; [done|]. intros. apply Hp. lia. }
    exists bufs'. split; [|done]. cbn [seq mapM_]. erewrite M_bind_Ok; [exact Hr|]. unfold LinkedList_Add.
    erewrite M_bind_Ok by (apply buffer_data_st; exact Hm). reflexivity.
Qed.

Lemma new_serves_none : exists mp E bufs L,
  newBufferManager n fs = Ok (st mp E bufs (pred_of n) L) /\ served [] mp E bufs (pred_of n) L.
Proof.
  set (L0 := fun _ : ListId => mkList None None 0). set (b0 := replicate n (mkBuffer (zeros Config.PageSize) None)).
  destruct (fill_all (HashTable.make 8) b0 None N 0 default_entry L0) as (E & L & Hf & HE & HF & Ho); [|lia|].
  { split; [|split; [done | done]]. intros i Hi. unfold free_entry, below. by rewrite !decide_False by lia. }
  destruct (stack_all (HashTable.make 8) E L n 0 b0) as (bufs & Hst & Hl & Hb); [|lia|].
  { split; [apply length_replicate|]. intros j Hj. exists None. unfold b0. rewrite lookup_replicate_2 by done. split; [done | lia]. }
  exists (HashTable.make 8), E, bufs, L. split.
  - unfold newBufferManager. rewrite (proj2 (Z.leb_gt _ _)) by lia. cbv zeta.
    unfold mbind at 1, M_bind at 1. unfold BufferSpec.st in Hf, Hst. unfold BufferSpec.st. unfold b0 in *. fold L0. rewrite Hf.
    cbn [pred_of] in Hst. by rewrite Hst.
  - constructor.
    + split; [done|]. intros key _. unfold table_get, HashTable.make.
      destruct (lookup_lt_is_Some_2 (replicate 8 (∅ : gmap PageTag Z)) _ (element_index hash (replicate 8 ∅) key ltac:(cbn; lia))) as [x Hx].
      rewrite Hx. apply lookup_replicate in Hx as [-> _]. done.
    + intros i Hi. rewrite HE by done. unfold free_entry, entry_at, below. cbn [lookup list_lookup length]. rewrite (decide_True (P := (i < N)%nat)) by done.
      destruct i as [|i]; [done|]. rewrite (decide_True (P := (0 < S i)%nat)) by lia. cbn [pred_of]. by replace (S i - 1)%nat with i by lia.
    + rewrite HF. rewrite decide_True by lia. cbn [length]. rewrite Nat.mul_0_r, Nat.sub_0_r.
      destruct N as [|N'] eqn:EN; [lia|]. cbn [pred_of Nat.sub]. by rewrite Nat.sub_0_r.
    + by rewrite Ho.
    + by rewrite Ho.
    + by rewrite Ho.
    + by rewrite Ho.
    + cbn [length]. by rewrite Nat.sub_0_r.
    + intros j Hj. destruct (Hb j Hj) as (next & Hj' & Hp). exists (zeros Config.PageSize). rewrite Hj'. by rewrite Hp.
Qed.

(** *** The full pool *)

(** Why one page more is not served. *)
Definition full_error : fault :=
  if asserts_on then Abort (if decide (1 < n)%nat then "entry->IsRouge()" else "this->_size > 0")
  else Throw "can not remove entry from list: list is empty".

Lemma vacate_first mp E bufs fb L tg b nx :
  E 0%nat = mkEntry tg 0 used (Some b) nx None ->
  exists E', tryVacateEntry 0 false (st mp E bufs fb L) =
    (_ ← InsertMRU B1 0; _ ← Unlock 0; _ ← LinkedList_Add b; mret true) (st mp E' bufs fb L) /\
    E' 0%nat = mkEntry tg 0 (TagValid + DataValid + Locked) None nx None /\ only 0 E E'.
Proof.
  intros HE. assert (HS : State (E 0%nat) = used) by by rewrite HE.
  unfold tryVacateEntry. erewrite M_bind_Ok by (apply Lock_st; [lia | rewrite HS; reflexivity]). rewrite HS. change (negb (unpinned (Z.lor used Locked))) with false. cbv iota.
  erewrite M_bind_Ok by (apply Pin_st; [lia | fup; vm_compute; done]). erewrite M_bind_Ok by (apply Unlock_st; [lia | fup; reflexivity]).
  fup. entry_fields.
  match goal with |- context [BufferSpec.st _ _ mp ?X bufs fb L _ _] => set (E1 := X) end.
  assert (HE1 : E1 0%nat = mkEntry tg 0 (used + 1) (Some b) nx None) by (unfold E1; fup; rewrite HE; reflexivity).
  assert (Ho1 : only 0 E E1) by (intros j Hj; unfold E1; by fup). clearbody E1.
  assert (HS1 : State (E1 0%nat) = used + 1) by by rewrite HE1.
  assert (Hflush : exists E2, FlushBuffer 0 (st mp E1 bufs fb L) = (Ok tt, st mp E2 bufs fb L) /\ E2 0%nat = E1 0%nat /\ only 0 E1 E2).
  { assert (Hst : exists E2, ShouldStartIO 0 false (st mp E1 bufs fb L) = (Ok false, st mp E2 bufs fb L) /\ E2 0%nat = E1 0%nat /\ only 0 E1 E2).
    { unfold ShouldStartIO. erewrite M_bind_Ok by (apply Lock_st; [lia | rewrite HS1; reflexivity]). rewrite HS1.
      change (has (Z.lor (used + 1) Locked) IoInProgress) with false. change (has (Z.lor (used + 1) Locked) Dirty) with false. cbn [negb].
      erewrite M_bind_Ok by (apply Unlock_st; [lia | fup; reflexivity]). eexists. split; [reflexivity|]. fup. split; [by rewrite HE1|]. intros j Hj. by fup. }
    destruct Hst as (E2 & Hst & Hr). exists E2. split; [|done]. unfold FlushBuffer. by erewrite M_bind_Ok by exact Hst. }
  destruct Hflush as (E2 & Hf & HE2 & Ho2). rewrite HE1 in HE2. assert (HS2 : State (E2 0%nat) = used + 1) by by rewrite HE2.
  erewrite M_bind_Ok by exact Hf. cbv zeta.
  erewrite M_bind_Ok by (apply Lock_st; [lia | rewrite HS2; reflexivity]). rewrite HS2.
  erewrite M_bind_Ok by (apply Unlock_st; [lia | fup; reflexivity]). change (negb (Z.land (Z.lor (used + 1) Locked) BufferRefCountMask =? 1)) with false. cbv iota.
  erewrite M_bind_Ok by (apply Lock_st; [lia | fup; reflexivity]). fup. entry_fields.
  change (negb (Z.land (Z.lor (wrap 32 (Z.lor (used + 1) Locked + - Locked)) Locked) BufferRefCountMask =? 1)) with false. cbv iota.
  erewrite M_bind_Ok by (apply buffer_of_st; [lia | fup; by rewrite HE2]). run_upd.
  erewrite M_bind_Ok by (apply Unpin_st; [lia | fup; reflexivity]). unfold fetch_and_not.
  erewrite M_bind_Ok by (apply fetch_st; lia). erewrite M_bind_Ok by (apply fetch_st; lia). fup. entry_fields.
  eexists. split; [reflexivity|]. fup. rewrite HE2. split; [reflexivity|]. intros j Hj. fup. by rewrite Ho2, Ho1.
Qed.

(** The free list has counted every entry twice: it is empty by its size, not by its pointers. *)
Lemma PopTail_exhausted mp E bufs fb L h k :
  (k < N)%nat -> L FreeList = mkList h (Some k) 0 -> State (E k) = 0 ->
  fst (PopTail FreeList (st mp E bufs fb L)) =
    Fault (if asserts_on then Abort "this->_size > 0" else Throw "can not remove entry from list: list is empty").
Proof.
  intros Hk HL HS. unfold PopTail, for_tail. erewrite M_bind_Ok by apply get_list_st. unfold get at 1.
  unfold mbind at 1, M_bind at 1. cbn [bm_entries BufferSpec.st]. rewrite HL. cbn [BufferPool.tail from_tail].
  unfold mbind at 1, M_bind at 1. unfold mbind at 1, M_bind at 1. rewrite Lock_st by (rewrite ?HS; done || lia).
  rewrite HS. change (negb (Z.land (Z.lor 0 Locked) BufferRefCountMask =? 0)) with false. cbv iota.
  unfold mbind at 1, M_bind at 1. unfold RemoveEntry. erewrite M_bind_Ok by apply get_list_st. rewrite HL. cbn [list_size].
  unfold check, assert_, lift. unfold mbind at 1, M_bind at 1. by destruct asserts_on.
Qed.

Lemma check_case c what {A} (k : unit -> M BufferManager A) (s : BufferManager) :
  mbind k (check c what) s = if asserts_on && negb c then (Fault (Abort what), s) else k tt s.
Proof. unfold check, assert_, lift, mbind, M_bind. by destruct (asserts_on && negb c). Qed.

Lemma entry_first (tags : list PageTag) : length tags = n ->
  exists tg, entry_at tags 0 = mkEntry tg 0 used (Some (n - 1)%nat) (if decide (1 < n)%nat then Some 1%nat else None) None.
Proof.
  intros Hl. destruct tags as [|tg tags]; [cbn in Hl; lia|]. exists tg. unfold entry_at, below. cbn [lookup list_lookup].
  rewrite Hl. cbn [pred_of]. by rewrite Nat.sub_0_r.
Qed.

(** The entry at the tail of T1 is put in B1, and stays the tail of T1. *)
Lemma vacate_rest mp E bufs fb L b d :
  list_size (L B1) = 0 -> asserts_on && negb (IsRouge (E 0%nat)) = false -> has (State (E 0%nat)) Locked = true -> bufs !! b = Some d ->
  exists E' bufs' fb' L', (_ ← InsertMRU B1 0; _ ← Unlock 0; _ ← LinkedList_Add b; mret true) (st mp E bufs fb L) = (Ok true, st mp E' bufs' fb' L') /\
    only 0 E E' /\ L' FreeList = L FreeList.
Proof.
  intros HB1 Ha HS Hd.
  assert (Hi : exists L', InsertMRU B1 0 (st mp E bufs fb L) = (Ok tt, st mp E bufs fb L') /\ L' FreeList = L FreeList).
  { unfold InsertMRU. erewrite M_bind_Ok by (apply get_entry_st; lia). rewrite check_case, Ha.
    erewrite M_bind_Ok by apply get_list_st. rewrite HB1. change (0 =? 0) with true. cbv iota. erewrite M_bind_Ok by apply put_list_st.
    erewrite M_bind_Ok by apply get_list_st. rewrite put_list_st. eexists. by split. }
  destruct Hi as (L' & Hi & HL). erewrite M_bind_Ok by exact Hi. erewrite M_bind_Ok by (apply Unlock_st; [lia | done]).
  erewrite M_bind_Ok; [|unfold LinkedList_Add; erewrite M_bind_Ok by (apply buffer_data_st; exact Hd); reflexivity].
  eexists _, _, _, _. split; [reflexivity|]. split; [|exact HL]. intros j Hj. by fup.
Qed.

Lemma bind_fst_fault {A B} (m : M BufferManager A) (k : A -> M BufferManager B) s e : fst (m s) = Fault e -> fst (mbind k m s) = Fault e.
Proof. unfold mbind, M_bind. destruct (m s) as [[a|e'] s']; cbn [fst]; [done | by intros [= ->]]. Qed.

Lemma preinsert_full tags mp E bufs fb L :
  served tags mp E bufs fb L -> length tags = n ->
  if asserts_on && bool_decide (1 < n)%nat
  then fst (preinsertCleanup hash (st mp E bufs fb L)) = Fault (Abort "entry->IsRouge()")
  else exists E' bufs' fb' L', preinsertCleanup hash (st mp E bufs fb L) = (Ok tt, st mp E' bufs' fb' L') /\
    State (E' n) = 0 /\ L' FreeList = mkList (Some (N - 1)%nat) (Some n) 0.
Proof.
  intros [_ HE HF HT1 HT2 HB1 HB2 _ Hbufs] Hk. destruct (entry_first tags Hk) as [tg H0']. rewrite <-HE in H0' by lia.
  assert (Hsz : forall l, Size l (st mp E bufs fb L) = (Ok (list_size (L l)), st mp E bufs fb L)) by done.
  destruct (vacate_first mp E bufs fb L tg (n - 1) _ H0') as (E1 & Hv & HE1 & Ho). destruct (Hbufs (n - 1)%nat) as [page Hd]; [lia|].
  assert (Ha : asserts_on && negb (IsRouge (E1 0%nat)) = asserts_on && bool_decide (1 < n)%nat).
  { rewrite HE1. destruct (decide (1 < n)%nat) as [Hn1|Hn1]; [by rewrite bool_decide_true | by rewrite bool_decide_false]. }
  unfold preinsertCleanup. erewrite M_bind_Ok by apply Hsz. erewrite M_bind_Ok by apply Hsz.
  erewrite M_bind_Ok by reflexivity. cbn [bm_npages BufferSpec.st]. rewrite HT1, HB1. cbn [list_size]. rewrite wrap_small, (proj2 (Z.leb_le _ _)) by lia.
  rewrite (proj2 (Z.ltb_ge _ _)) by lia. unfold vacate_any, for_tail. rewrite <-Ha. destruct (asserts_on && negb (IsRouge (E1 0%nat))) eqn:Hr.
  - apply bind_fst_fault. erewrite M_bind_Ok by apply get_list_st. erewrite M_bind_Ok by reflexivity.
    rewrite HT1, decide_True by lia. cbn [BufferPool.tail from_tail]. do 2 apply bind_fst_fault. rewrite Hv. apply bind_fst_fault.
    unfold InsertMRU. erewrite M_bind_Ok by (apply get_entry_st; lia). by rewrite check_case, Hr.
  - destruct (vacate_rest mp E1 bufs fb L (n - 1) (mkBuffer page (pred_of (n - 1))) HB1 Hr) as (E2 & bufs2 & fb2 & L2 & Hw & Ho2 & HL2);
      [by rewrite HE1 | exact Hd |].
    exists E2, bufs2, fb2, L2. split; [|split].
    + unfold mbind at 1, M_bind at 1. erewrite M_bind_Ok by apply get_list_st. erewrite M_bind_Ok by reflexivity.
      rewrite HT1, decide_True by lia. cbn [BufferPool.tail from_tail].
      erewrite M_bind_Ok by (erewrite M_bind_Ok by (rewrite Hv; exact Hw); reflexivity). done.
    + rewrite Ho2, Ho, HE by lia. unfold entry_at. by rewrite lookup_ge_None_2 by lia.
    + rewrite HL2, HF, Hk. by replace (N - 2 * n)%nat with O by lia.
Qed.

Lemma create_full tags tag mp E bufs fb L :
  served tags mp E bufs fb L -> length tags = n -> fst (create_entry hash tag (st mp E bufs fb L)) = Fault full_error.
Proof.
  intros Hs Hk. pose proof (preinsert_full tags mp E bufs fb L Hs Hk) as Hp. unfold create_entry, full_error.
  destruct (asserts_on && bool_decide (1 < n)%nat) eqn:Ha.
  - apply bind_fst_fault. rewrite Hp. apply andb_true_iff in Ha as [-> Hn1]. apply bool_decide_eq_true in Hn1. by rewrite decide_True.
  - destruct Hp as (E2 & bufs2 & fb2 & L2 & Hp & HS & HF). erewrite M_bind_Ok by exact Hp. do 2 apply bind_fst_fault.
    rewrite (PopTail_exhausted mp E2 bufs2 fb2 L2 _ n ltac:(lia) HF HS). destruct asserts_on; [|done].
    apply bool_decide_eq_false in Ha. by rewrite decide_False.
Qed.

Lemma get_full tags tag mp E bufs fb L :
  served tags mp E bufs fb L -> length tags = n -> tag ∉ tags -> fst (GetBuffer hash tag (st mp E bufs fb L)) = Fault full_error.
Proof.
  intros Hs Hk Ht. pose proof (create_full tags tag _ _ _ _ _ Hs Hk) as Hc. unfold GetBuffer. erewrite M_bind_Ok by by eapply map_get_new. cbv beta iota.
  unfold mbind at 1, M_bind at 1. by destruct (create_entry hash tag _) as [[x|e] s']; [|injection Hc as ->].
Qed.
End serving.

(** C16: For any hash function, file contents and pool of [n > 0] buffers: as many distinct readable pages as
    the pool has buffers can be got, read and returned one after the other, each with the bytes that its file has; and the
    next page cannot be got, although nothing is pinned: in a debug build an assertion on the links of the
    entry fails (or, with one buffer, on the size of the free list), in a release build the list of free
    entries, whose size was decremented twice for each entry taken, is reported as empty. *)
Theorem pool_serves_npages `{Build} `{PosixOk} (hash : PageTag -> Z) (n : nat) (fs : gmap Z (list byte)) (tags : list PageTag) :
  (0 < n)%nat -> Z.of_nat n * 2 < 2 ^ 32 - 1 -> NoDup tags -> (length tags <= n)%nat -> Forall (readable fs) tags ->
  exists pool pool', newBufferManager n fs = Ok pool /\
    use_pages hash tags pool = (Ok (map (page_of fs) tags), pool') /\
    (length tags = n -> forall tag, tag ∉ tags -> fst (GetBuffer hash tag pool') = Fault (full_error n)).
Proof.
  intros Hn Hmax Hd Hl Hr. destruct (new_serves_none hash n fs Hn Hmax) as (mp & E & bufs & L & Hnew & Hs).
  destruct (use_all hash n fs Hn Hmax tags [] _ _ _ _ _ Hs Hd Hl Hr) as (mp' & E' & bufs' & fb' & L' & Hu & Hs').
  eexists _, _. split; [exact Hnew|]. split; [exact Hu|]. intros Hk tag Ht. by eapply (get_full hash n fs).
Qed.

(** *** Extending a relation *)
Section extension.
Context `{Build} `{PosixOk} (hash : PageTag -> Z) (n : nat) (fs : gmap Z (list byte)).
Hypothesis Hmax : Z.of_nat n * 2 < 2 ^ 32 - 1.
#[local] Notation N := (n * 2)%nat.
#[local] Notation st mp E bufs fb L := (st N (Z.of_nat n) mp E bufs fb L 0 fs).

(** The tag of the page that an extension adds. *)
Definition next_page (relid : Z) : PageTag := mkPageTag relid (wrap 32 (zlen (default [] (fs !! relid)) / Config.PageSize)).

Lemma pages_count_ok mp E bufs fb L relid f :
  fs !! relid = Some f -> on_file relid O_RDWR RelFile.GetPagesCount (st mp E bufs fb L) = (Ok (PageNo (next_page relid)), st mp E bufs fb L).
Proof.
  intros Hf. unfold on_file, RelFile.Open. rewrite File.Open_ok. cbn [bm_files BufferSpec.st]. rewrite Hf. cbn [default from_option id].
  unfold RelFile.GetPagesCount. erewrite M_bind_Ok by apply File.Size_ok. unfold next_page. rewrite Hf. cbn [PageNo default from_option id mret M_ret].
  unfold set_files, BufferSpec.st. cbn. by rewrite insert_id.
Qed.

Lemma next_page_new tags relid f :
  fs !! relid = Some f -> zlen f < 2 ^ 45 -> Forall (readable fs) tags -> next_page relid ∉ tags.
Proof.
  intros Hf Hl Hr Hin. rewrite Forall_forall in Hr. destruct (Hr _ Hin) as (f' & Hf' & _ & Hp & Hs). unfold next_page in *. cbn [Relid PageNo] in *.
  rewrite Hf in Hf'. injection Hf' as <-. rewrite Hf in Hs. cbn [default from_option id] in Hs. unfold Config.PageSize in *.
  pose proof (zlen_nonneg f). rewrite wrap_small in Hs by (split; [apply Z.div_pos; lia | apply Z.div_lt_upper_bound; lia]).
  pose proof (Z.mod_pos_bound (zlen f) 8192 ltac:(lia)). pose proof (Z.div_mod (zlen f) 8192 ltac:(lia)). lia.
Qed.

Lemma extend_again tags relid f mp E bufs fb L :
  served hash n tags mp E bufs fb L -> (0 < length tags < n)%nat -> asserts_on = true -> Oid.IsValid relid = true ->
  fs !! relid = Some f -> next_page relid ∉ tags ->
  fst (ExtendRelation hash relid (st mp E bufs fb L)) = Fault (Abort "entry->IsRouge()").
Proof.
  intros Hs Hk Ha Hv Hf Hfresh. pose proof (preinsert_nothing hash n fs ltac:(lia) Hmax _ _ _ _ _ _ Hs ltac:(lia)) as Hpre.
  destruct (evict_ok hash n fs ltac:(lia) Hmax (length tags) mp E bufs fb L ltac:(lia) (served_free hash n ltac:(lia) _ _ _ _ _ _ Hs ltac:(lia))) as (E1 & L1 & Hev & Ek & Esk & Eo & LF & Lo). destruct Hs as [[Hl Hm] HE _ HT1 _ _ _ Hfb Hbufs].
  set (k := length tags) in *. destruct (Hbufs (n - 1 - k)%nat) as [page Hb]; [lia|]. destruct k as [|h] eqn:Ekk; [lia|].
  unfold ExtendRelation. rewrite check_st by done. erewrite M_bind_Ok by exact Hpre. erewrite M_bind_Ok by exact Hev. cbv beta iota.
  erewrite M_bind_Ok by by eapply pages_count_ok. apply bind_fst_fault. change (mkPageTag relid (PageNo (next_page relid))) with (next_page relid).
  unfold extend_entry. run_get. rewrite Ek. cbn [BlockId default_entry].
  destruct (map_insert_st hash n fs ltac:(lia) mp E1 bufs fb L1 (next_page relid) (Z.of_nat (S h)) Hl (Hm _ Hfresh)) as (mp' & Hins & _ & _).
  erewrite M_bind_Ok by exact Hins. cbv beta iota. erewrite M_bind_Ok by (apply load_st; lia). rewrite Ek. rewrite check_st by done.
  run_upd. unfold fetch_or. erewrite M_bind_Ok by (apply fetch_st; lia). erewrite M_bind_Ok by (apply Pin_st; [lia | fup; rewrite Ek; vm_compute; done]).
  rewrite Hfb. replace (pred_of (n - S h)) with (Some (n - 1 - S h)%nat) by (destruct (n - S h)%nat as [|x] eqn:Ex; [lia | cbn; f_equal; lia]).
  erewrite M_bind_Ok by (eapply (LinkedList_Get_st n fs); exact Hb). cbv beta iota. run_upd. fup. rewrite Ek. entry_fields. cbn [pred_of] in HT1.
  match goal with |- context [BufferSpec.st _ _ mp' ?X bufs _ L1 _ _] => set (E2 := X) end.
  destruct (InsertMRU_head N (Z.of_nat n) mp' bufs (pred_of (n - 1 - S h)) 0 fs T1 E2 L1 (S h) h (Some O) (Z.of_nat (S h)) (next_page relid) (Z.of_nat (S h)) (TagValid + 1) (Some (n - 1 - S h)%nat))
    as (E3 & L3 & Hi & E3k & _); [lia | lia | lia | by rewrite Lo, HT1, decide_True by (done || lia) | lia | unfold E2; by fup |].
  erewrite M_bind_Ok by exact Hi. erewrite M_bind_Ok by (apply fetch_st; lia). rewrite E3k.
  erewrite M_bind_Ok by (apply Lock_st; [lia | fup; reflexivity]). apply bind_fst_fault.
  unfold InsertMRU. run_get. fup. rewrite check_case, Ha. reflexivity.
Qed.
End extension.

(** In a debug build, extending a relation after at least one page was served, while the pool still has a free buffer,
    fails the assertion that a list takes only entries that are in no list: the entry of the new page is
    inserted into T1 twice. *)
Theorem extend_inserts_twice `{Build} `{PosixOk} (hash : PageTag -> Z) (n : nat) (fs : gmap Z (list byte)) (tags : list PageTag)
    (relid : Z) (f : list byte) :
  asserts_on = true -> Z.of_nat n * 2 < 2 ^ 32 - 1 -> NoDup tags -> (0 < length tags < n)%nat -> Forall (readable fs) tags ->
  Oid.IsValid relid = true -> fs !! relid = Some f -> zlen f < 2 ^ 45 ->
  exists pool pool', newBufferManager n fs = Ok pool /\ use_pages hash tags pool = (Ok (map (page_of fs) tags), pool') /\
    fst (ExtendRelation hash relid pool') = Fault (Abort "entry->IsRouge()").
Proof.
  intros Ha Hmax Hd Hl Hr Hv Hf Hfl. destruct (new_serves_none hash n fs ltac:(lia) Hmax) as (mp & E & bufs & L & Hnew & Hs).
  destruct (use_all hash n fs ltac:(lia) Hmax tags [] _ _ _ _ _ Hs Hd ltac:(cbn; lia) Hr) as (mp' & E' & bufs' & fb' & L' & Hu & Hs').
  eexists _, _. split; [exact Hnew|]. split; [exact Hu|]. eapply extend_again; try done. by eapply next_page_new.
Qed.

Lemma pool_serves_npages_witness :
  let fs := {[16384 := zeros (2 * Config.PageSize)]} : gmap Z (list byte) in
  let tags := [mkPageTag 16384 1; mkPageTag 16384 0] in
  let hash := PageTagHash (wrap 64) in
  exists pool pool', @newBufferManager DebugBuild 2 fs = Ok pool /\
    @use_pages DebugBuild File.RamFile hash tags pool = (Ok (map (page_of fs) tags), pool') /\
    fst (@GetBuffer DebugBuild File.RamFile hash (mkPageTag 16384 2) pool') = Fault (Abort "entry->IsRouge()").
Proof.
  intros fs tags hash.
  destruct (@pool_serves_npages DebugBuild File.RamFile File.RamFile_ok hash 2 fs tags) as (pool & pool' & Hn & Hu & Hf).
  - lia.
  - vm_compute. reflexivity.
  - unfold tags. apply NoDup_ListNoDup. repeat constructor; cbn; intros Hin; repeat destruct Hin as [Hin|Hin]; done.
  - cbn. lia.
  - assert (Hr : forall p, 0 <= p < 2 -> readable fs (mkPageTag 16384 p)).
    { intros p Hp. exists (zeros (2 * Config.PageSize)). split; [reflexivity|]. rewrite zlen_zeros by (vm_compute; discriminate). cbn [PageNo].
      unfold Config.PageSize. lia. }
    repeat constructor; apply Hr; lia.
  - exists pool, pool'. split; [exact Hn|]. split; [exact Hu|]. exact (Hf eq_refl (mkPageTag 16384 2) ltac:(set_solver)).
Defined.

Lemma extend_inserts_twice_witness :
  let fs := {[16384 := zeros (2 * Config.PageSize)]} : gmap Z (list byte) in
  let tags := [mkPageTag 16384 1] in
  let hash := PageTagHash (wrap 64) in
  exists pool pool', @newBufferManager DebugBuild 2 fs = Ok pool /\
    @use_pages DebugBuild File.RamFile hash tags pool = (Ok (map (page_of fs) tags), pool') /\
    fst (@ExtendRelation DebugBuild File.RamFile hash 16384 pool') = Fault (Abort "entry->IsRouge()").
Proof.
  intros fs tags hash.
  apply (@extend_inserts_twice DebugBuild File.RamFile File.RamFile_ok hash 2 fs tags 16384 (zeros (2 * Config.PageSize))).
  - reflexivity.
  - vm_compute. reflexivity.
  - apply NoDup_singleton.
  - cbn. lia.
  - repeat constructor. exists (zeros (2 * Config.PageSize)). split; [reflexivity|]. rewrite zlen_zeros by (vm_compute; discriminate). cbn [PageNo].
    unfold Config.PageSize. lia.
  - reflexivity.
  - reflexivity.
  - rewrite zlen_zeros by (vm_compute; discriminate). unfold Config.PageSize. lia.
Defined.
