(* ===== verification/PoolLists.v ===== *)
(** The lists of the buffer pool as lists: the links of the entries, through which [CacheEntryList] keeps its
    members, and what its operations do to the list of the members. *)
From S2P Require Import Prelude Types File BufferPool BufferSpec.

(** ** Lists through links *)

(** All of an entry but its links. *)
Definition core_of (e : CacheEntry) : PageTag * Z * Z * option nat := (Tag e, BlockId e, State e, Buffer e).

Definition first_or (ids : list nat) (nx : option nat) : option nat := match ids with i :: _ => Some i | [] => nx end.
Fixpoint last_or (p : option nat) (ids : list nat) : option nat := match ids with i :: ids => last_or (Some i) ids | [] => p end.

(** The entries [ids] are linked in this order, between [p] and [nx]. *)
Fixpoint segment (E : nat -> CacheEntry) (p : option nat) (ids : list nat) (nx : option nat) : Prop :=
  match ids with
  | [] => True
  | i :: ids => Prev (E i) = p /\ Next (E i) = first_or ids nx /\ segment E (Some i) ids nx
  end.

Record represents (N : nat) (E : nat -> CacheEntry) (cl : CacheEntryList) (ids : list nat) : Prop := mk_represents {
  rep_head : head cl = first_or ids None;
  rep_tail : tail cl = last_or None ids;
  rep_size : list_size cl = zlen ids;
  rep_links : segment E None ids None;
  rep_nodup : NoDup ids;
  rep_range : Forall (fun i => (i < N)%nat) ids
}.

Section segments.
Implicit Types (E : nat -> CacheEntry) (a b ids : list nat) (p nx : option nat).

Lemma last_of_app p a b : last_or p (a ++ b) = last_or (last_or p a) b.
Proof. revert p. induction a as [|i a IH]; intros p; [done | apply IH]. Qed.

Lemma first_or_app a b nx : first_or (a ++ b) nx = first_or a (first_or b nx).
Proof. by destruct a. Qed.

Lemma last_or_in p ids i : last_or p ids = Some i -> p <> Some i -> i ∈ ids.
Proof.
  revert p. induction ids as [|j ids IH]; intros p; cbn [last_or]; [done|]. intros Hl _.
  destruct (decide (j = i)) as [->|Hne]; [by left | right; eapply IH; [done | congruence]].
Qed.

Lemma last_or_None p ids : last_or p ids = None -> ids = [] /\ p = None.
Proof.
  revert p. induction ids as [|j ids IH]; intros p; cbn [last_or]; [done|]. by intros [_ ?]%IH.
Qed.

Lemma segment_app E p a b nx : segment E p (a ++ b) nx <-> segment E p a (first_or b nx) /\ segment E (last_or p a) b nx.
Proof.
  revert p. induction a as [|i a IH]; intros p; cbn [app segment last_or]; [tauto|]. rewrite IH, first_or_app. tauto.
Qed.

Lemma segment_same E E' p ids nx : (forall i, i ∈ ids -> E' i = E i) -> segment E p ids nx -> segment E' p ids nx.
Proof.
  revert p. induction ids as [|i ids IH]; intros p Hs; cbn [segment]; [done|]. intros (Hp & Hn & Hr).
  rewrite Hs by by left. split; [done|]. split; [done|]. apply IH; [|done]. intros j Hj. apply Hs. by right.
Qed.

Lemma segment_links E E' p ids nx :
  (forall i, i ∈ ids -> Prev (E' i) = Prev (E i) /\ Next (E' i) = Next (E i)) -> segment E p ids nx -> segment E' p ids nx.
Proof.
  revert p. induction ids as [|i ids IH]; intros p Hs; cbn [segment]; [done|]. intros (Hp & Hn & Hr).
  destruct (Hs i) as [-> ->]; [by left|]. split; [done|]. split; [done|]. apply IH; [|done]. intros j Hj. apply Hs. by right.
Qed.

(** The entry before, and the one after, are linked to something else. *)
Lemma segment_set_first E p i ids nx q :
  i ∉ ids -> segment E p (i :: ids) nx -> segment (fupd E i (set_Prev q (E i))) q (i :: ids) nx.
Proof.
  intros Hi (Hp & Hn & Hr). cbn [segment]. rewrite fupd_eq. split; [done|]. split; [done|].
  eapply segment_same; [|exact Hr]. intros j Hj. rewrite fupd_ne; [done | by intros ->].
Qed.

Lemma segment_set_last E p ids i nx nx' :
  NoDup (ids ++ [i]) -> segment E p (ids ++ [i]) nx -> segment (fupd E i (set_Next nx' (E i))) p (ids ++ [i]) nx'.
Proof.
  intros [Hnd [Hd _]]%NoDup_app. rewrite !segment_app. intros [Hs (Hp & Hn & _)]. split.
  - eapply segment_same; [|exact Hs]. intros j Hj. rewrite fupd_ne; [done|]. intros ->. eapply Hd; [done | by left].
  - cbn [segment]. by rewrite fupd_eq.
Qed.
End segments.

(** What remains of the links when the entry between [x] and [y] is taken out. *)
Definition relink (E : nat -> CacheEntry) (x y : option nat) : nat -> CacheEntry :=
  let E := match x with Some x => fupd E x (set_Next y (E x)) | None => E end in
  match y with Some y => fupd E y (set_Prev x (E y)) | None => E end.

Definition unlinked (e : CacheEntry) : CacheEntry := set_Prev None (set_Next None e).

Lemma relink_segment E a b nx p :
  NoDup (a ++ b) -> segment E None a nx -> segment E p b None -> segment (relink E (last_or None a) (first_or b None)) None (a ++ b) None.
Proof.
  intros Hnd Ha Hb. pose proof Hnd as [Hna [Hd Hnb]]%NoDup_app. apply segment_app. unfold relink. cbv zeta.
  set (E1 := match last_or None a with Some x => fupd E x (set_Next (first_or b None) (E x)) | None => E end).
  assert (H1 : segment E1 None a (first_or b None) /\ segment E1 p b None).
  { destruct a as [|x a _] using rev_ind; [done|]. unfold E1. rewrite last_of_app. cbn [last_or]. split; [by eapply segment_set_last|].
    eapply segment_same; [|exact Hb]. intros j Hj. apply fupd_ne. intros ->. eapply Hd; [|exact Hj]. apply elem_of_app. right. by left. }
  clearbody E1. destruct H1 as [H1 H2]. destruct b as [|y b]; [by split|]. cbn [first_or] in *. apply NoDup_cons in Hnb as [Hy Hnb].
  split; [|by eapply segment_set_first].
  eapply segment_same; [|exact H1]. intros j Hj. apply fupd_ne. intros ->. eapply Hd; [exact Hj | by left].
Qed.

Lemma relink_other E x y j : x <> Some j -> y <> Some j -> relink E x y j = E j.
Proof. intros Hx Hy. unfold relink. destruct y as [y|], x as [x|]; repeat rewrite fupd_ne by congruence; done. Qed.

Lemma relink_core E x y j : core_of (relink E x y j) = core_of (E j).
Proof. unfold relink, fupd. destruct x as [x|], y as [y|]; repeat case_decide; subst; done. Qed.

(** ** The operations *)
Section operations.
Context `{Build} (N : nat) (np : Z) (mp : HashTable.t) (bufs : list BufferData) (fb : option nat) (P : Z) (fs : gmap Z (list byte)).
Hypothesis HN : Z.of_nat N < 2 ^ 32.
Implicit Types (E : nat -> CacheEntry) (L : ListId -> CacheEntryList).
#[local] Notation st E L := (st N np mp E bufs fb L P fs).
#[local] Notation represents := (represents N).

(** What an operation on the list [l] of members [ids] leaves as it was. *)
Definition frame (l : ListId) (ids : list nat) E E' L L' : Prop :=
  (forall j, j ∉ ids -> E' j = E j) /\ (forall j, core_of (E' j) = core_of (E j)) /\ (forall l', l' <> l -> L' l' = L l').

Lemma represents_length E cl ids : represents E cl ids -> zlen ids < 2 ^ 32.
Proof.
  intros [_ _ _ _ Hnd Hr]. unfold zlen. assert (Hs : ids ⊆+ seq 0 N).
  { apply NoDup_submseteq; [done|]. intros i Hi. apply elem_of_seq. rewrite Forall_forall in Hr. specialize (Hr i Hi). lia. }
  apply submseteq_length in Hs. rewrite length_seq in Hs. lia.
Qed.

Lemma represents_links E cl a i b : represents E cl (a ++ i :: b) -> Prev (E i) = last_or None a /\ Next (E i) = first_or b None.
Proof. intros [_ _ _ Hl _ _]. apply segment_app in Hl as [_ (Hp & Hn & _)]. done. Qed.

Lemma IsRouge_member E cl a i b : represents E cl (a ++ i :: b) -> IsRouge (E i) = bool_decide (a ++ b = []).
Proof.
  intros Hr. destruct (represents_links E cl a i b Hr) as [Hp Hn]. unfold IsRouge. rewrite Hp, Hn.
  destruct a as [|x a]; [by destruct b|]. cbn [last_or]. destruct (last_or (Some x) a) eqn:El; [done | by apply last_or_None in El as [_ ?]].
Qed.

Lemma member_ends E cl a i b : represents E cl (a ++ i :: b) ->
  points (head cl) i = bool_decide (a = []) /\ points (tail cl) i = bool_decide (b = []).
Proof.
  intros [Hh Ht _ _ Hnd _]. unfold points. rewrite Hh, Ht. apply NoDup_app in Hnd as (Hna & Hd & [Hb Hnb]%NoDup_cons). split; apply bool_decide_ext.
  - destruct a as [|x a]; [done|]. cbn [app first_or]. split; [|done]. intros [= ->]. exfalso. eapply Hd; by left.
  - rewrite last_of_app. cbn [last_or]. split; [|by intros ->]. destruct b as [|y b _] using rev_ind; [done|].
    rewrite last_of_app. cbn [last_or]. intros [= ->]. exfalso. apply Hb, elem_of_app. right. by left.
Qed.

Lemma check_ok c what (s : BufferManager) : c = true -> check c what s = (Ok tt, s).
Proof. intros Hc. unfold check, lift. by rewrite assert_Ok. Qed.

Lemma ends_None a b :
  bool_decide (a = []) = (match last_or None a with None => true | Some _ => false end) /\
  bool_decide (b = []) = match first_or b None with None => true | Some _ => false end.
Proof.
  split; [|by destruct b]. destruct a as [|z a]; [done|]. cbn [last_or].
  destruct (last_or (Some z) a) eqn:El; [done | by apply last_or_None in El as [_ ?]].
Qed.

Lemma unlink_ok l E L a i b :
  represents E (L l) (a ++ i :: b) -> a ++ b <> [] ->
  exists L', unlink l i (st E L) = (Ok tt, st (relink E (last_or None a) (first_or b None)) L') /\
    L' l = mkList (first_or (a ++ b) None) (last_or None (a ++ b)) (list_size (L l)) /\ (forall l', l' <> l -> L' l' = L l').
Proof.
  intros Hr Hab. pose proof (represents_links _ _ _ _ _ Hr) as [Hp Hn]. pose proof (IsRouge_member _ _ _ _ _ Hr) as Hro.
  pose proof (member_ends _ _ _ _ _ Hr) as [Hh Ht]. rewrite bool_decide_false in Hro by done. destruct Hr as [Rh Rt _ _ _ Rr].
  rewrite Forall_forall in Rr. assert (Hx : forall x, last_or None a = Some x -> (x < N)%nat).
  { intros x Hx. apply Rr, elem_of_app. left. by eapply last_or_in. }
  assert (Hy : forall y, first_or b None = Some y -> (y < N)%nat).
  { intros y Hy. apply Rr, elem_of_app. right. right. destruct b; [done|]. injection Hy as ->. by left. }
  unfold unlink. erewrite M_bind_Ok by (apply get_entry_st, Rr, elem_of_app; right; by left).
  erewrite M_bind_Ok by apply get_list_st. rewrite Hro, check_st by done. rewrite Hh, Ht, Hp, Hn. destruct (ends_None a b) as [-> ->].
  set (E1 := match last_or None a with Some x => fupd E x (set_Next (first_or b None) (E x)) | None => E end).
  set (E2 := relink E (last_or None a) (first_or b None)).
  assert (H1 : (match last_or None a with Some prev => upd_entry prev (set_Next (first_or b None)) | None => mret tt end) (st E L) = (Ok tt, st E1 L)).
  { unfold E1. destruct (last_or None a) as [x|]; [by apply upd_entry_st, Hx | reflexivity]. }
  assert (H2 : (match first_or b None with Some next => upd_entry next (set_Prev (last_or None a)) | None => mret tt end) (st E1 L) = (Ok tt, st E2 L)).
  { unfold E2, relink. fold E1. destruct (first_or b None) as [y|]; [by apply upd_entry_st, Hy | reflexivity]. }
  assert (Hlast : last_or None (a ++ b) = match b with [] => last_or None a | _ => last_or None (a ++ i :: b) end).
  { rewrite !last_of_app. cbn [last_or]. by destruct b. }
  assert (Hfirst : first_or (a ++ b) None = match a with [] => first_or b None | _ => first_or (a ++ i :: b) None end) by by destruct a.
  erewrite (M_bind_Ok _ _ (st E L)); [|destruct b; [|destruct (last_or None a)]; cbn [first_or]; by try apply check_ok].
  erewrite M_bind_Ok by exact H1. erewrite M_bind_Ok by exact H2.
  destruct (last_or None a) as [x|] eqn:Ea, (first_or b None) as [y|] eqn:Eb.
  - exists L. split; [done|]. split; [|done]. rewrite Hlast, Hfirst. destruct a, b; [done..|]. by rewrite <-Rh, <-Rt; destruct (L l).
  - rewrite put_list_st. eexists. split; [reflexivity|]. cbv beta. rewrite decide_True by done.
    split; [|intros l' Hl; by rewrite decide_False].
    rewrite Hlast, Hfirst, Rh. destruct b; [|done]. by destruct a.
  - rewrite put_list_st. eexists. split; [reflexivity|]. cbv beta. rewrite decide_True by done.
    split; [|intros l' Hl; by rewrite decide_False].
    rewrite Hlast, Hfirst, Rt. apply last_or_None in Ea as [-> _]. by destruct b.
  - apply last_or_None in Ea as [-> _]. by destruct b.
Qed.
Lemma frame_trans l ids ids2 E1 E2 E3 L1 L2 L3 :
  (forall j, j ∈ ids2 -> j ∈ ids) -> frame l ids E1 E2 L1 L2 -> frame l ids2 E2 E3 L2 L3 -> frame l ids E1 E3 L1 L3.
Proof.
  intros Hs (A1 & A2 & A3) (B1 & B2 & B3). split; [|split].
  - intros j Hj. rewrite B1, A1; auto.
  - intros j. by rewrite B2.
  - intros l' Hl. by rewrite B3, A3.
Qed.

Lemma represents_at E cl a i b : represents E cl (a ++ i :: b) -> (i < N)%nat.
Proof. intros [_ _ _ _ _ Hr]. rewrite Forall_forall in Hr. apply Hr, elem_of_app. right. by left. Qed.

Lemma represents_member_size E cl a i b : represents E cl (a ++ i :: b) -> list_size cl = zlen (a ++ b) + 1.
Proof. intros Hr. rewrite (rep_size _ _ _ _ Hr), !zlen_app, zlen_cons. lia. Qed.

(** [i] is taken out of the list, wherever it is. *)
Lemma RemoveEntry_rep l E L a i b :
  represents E (L l) (a ++ i :: b) ->
  exists E' L', RemoveEntry l i (st E L) = (Ok tt, st E' L') /\ represents E' (L' l) (a ++ b) /\
    E' i = unlinked (E i) /\ frame l (a ++ i :: b) E E' L L'.
Proof.
  intros Hr. pose proof (represents_at _ _ _ _ _ Hr) as Hi. pose proof (represents_member_size _ _ _ _ _ Hr) as Hsz.
  pose proof (represents_length _ _ _ Hr) as Hlen. rewrite zlen_app, zlen_cons in Hlen. pose proof (zlen_nonneg (a ++ b)) as H0. rewrite zlen_app in H0.
  assert (Hnd : NoDup (a ++ b) /\ i ∉ a ++ b).
  { destruct Hr as [_ _ _ _ Hnd _]. rewrite <-Permutation_middle in Hnd. by apply NoDup_cons in Hnd as [? ?]. }
  destruct Hnd as [Hnd Hni]. unfold RemoveEntry. erewrite M_bind_Ok by apply get_list_st. rewrite check_st by (rewrite zlen_app in Hsz; lia).
  rewrite (proj2 (Z.eqb_neq _ 0)) by (rewrite zlen_app in Hsz; lia).
  assert (Hmid : exists L1, (if list_size (L l) =? 1 then
           e ← get_entry i;
           _ ← check (IsRouge e) "entry->IsRouge()";
           _ ← check (bool_decide (head (L l) = tail (L l)) && points (tail (L l)) i) "this->_head == this->_tail && this->_tail == entry";
           put_list l (mkList None None (list_size (L l)))
         else unlink l i) (st E L) = (Ok tt, st (relink E (last_or None a) (first_or b None)) L1) /\
    L1 l = mkList (first_or (a ++ b) None) (last_or None (a ++ b)) (list_size (L l)) /\ (forall l', l' <> l -> L1 l' = L l')).
  { destruct (decide (a ++ b = [])) as [Hab|Hab].
    - apply app_nil in Hab as [-> ->]. pose proof (IsRouge_member _ _ _ _ _ Hr) as Hro. destruct (member_ends _ _ _ _ _ Hr) as [Hh Ht].
      rewrite Hsz. change (zlen (@app nat [] []) + 1 =? 1) with true. cbv iota. erewrite M_bind_Ok by by apply get_entry_st.
      rewrite Hro, check_st by done. rewrite check_st; [|rewrite Ht; unfold points in Hh, Ht; apply bool_decide_eq_true in Hh, Ht; rewrite Hh, Ht; by rewrite bool_decide_true].
      rewrite put_list_st. eexists. split; [reflexivity|]. cbv beta. rewrite decide_True by done. split; [done|]. intros l' Hl. by rewrite decide_False.
    - destruct (list_size (L l) =? 1) eqn:E1; [|by apply unlink_ok]. exfalso. apply Z.eqb_eq in E1. destruct (a ++ b); [done|].
      rewrite zlen_cons in Hsz. pose proof (zlen_nonneg l0). lia. }
  destruct Hmid as (L1 & Hmid & HL1 & Ho). erewrite M_bind_Ok by exact Hmid. set (E1 := relink _ _ _) in *.
  erewrite M_bind_Ok by by apply upd_entry_st. erewrite M_bind_Ok by by apply upd_entry_st. erewrite M_bind_Ok by apply get_list_st. rewrite put_list_st.
  assert (Hx : forall j, j ∉ a ++ b -> E1 j = E j).
  { intros j Hj. apply relink_other; intros Hj'; apply Hj, elem_of_app; [left; by eapply last_or_in|]. right. destruct b; [done|]. injection Hj' as ->. by left. }
  eexists _, _. split; [reflexivity|]. cbv beta. rewrite decide_True by done. fup. rewrite (Hx i Hni). split; [|split; [done|split; [|split]]].
  - pose proof Hr as [_ _ _ Hl _ Hrg]. apply segment_app in Hl as [Ha (_ & _ & Hb)]. split.
    + by rewrite HL1.
    + by rewrite HL1.
    + rewrite HL1. cbn [list_size]. rewrite Hsz, wrap_small; rewrite zlen_app; lia.
    + eapply segment_same; [|eapply relink_segment; [done | exact Ha | exact Hb]]. intros j Hj. by rewrite !fupd_ne by (intros ->; by apply Hni).
    + done.
    + rewrite Forall_app, Forall_cons in Hrg. rewrite Forall_app. tauto.
  - intros j Hj. rewrite !fupd_ne by (intros ->; apply Hj, elem_of_app; right; by left). apply Hx. intros Hj'. apply Hj. set_solver.
  - intros j. destruct (decide (j = i)) as [->|Hne]; [by fup | rewrite !fupd_ne by done; apply relink_core].
  - intros l' Hl. rewrite decide_False by done. by apply Ho.
Qed.

(** An entry that is in no list becomes the first of one. *)
Lemma InsertMRU_rep l E L i ids :
  represents E (L l) ids -> (i < N)%nat -> i ∉ ids -> IsRouge (E i) = true ->
  exists E' L', InsertMRU l i (st E L) = (Ok tt, st E' L') /\ represents E' (L' l) (i :: ids) /\ frame l (i :: ids) E E' L L'.
Proof.
  intros [Rh Rt Rs Rl Rn Rr] Hi Hni Hro. unfold InsertMRU. erewrite M_bind_Ok by by apply get_entry_st. rewrite check_st by done.
  erewrite M_bind_Ok by apply get_list_st.
  assert (Hlen : zlen (i :: ids) < 2 ^ 32).
  { assert (Hs : i :: ids ⊆+ seq 0 N).
    { apply NoDup_submseteq; [by apply NoDup_cons|]. intros j Hj. apply elem_of_seq. rewrite Forall_forall in Rr. apply elem_of_cons in Hj as [->|Hj]; [lia | specialize (Rr j Hj); lia]. }
    apply submseteq_length in Hs. rewrite length_seq in Hs. unfold zlen. lia. }
  rewrite zlen_cons in Hlen. pose proof (zlen_nonneg ids).
  assert (Hli : Prev (E i) = None /\ Next (E i) = None) by (unfold IsRouge in Hro; by destruct (Prev (E i)), (Next (E i))). destruct Hli as [Hp Hn].
  assert (Hmid : exists E1, (if list_size (L l) =? 0 then put_list l (mkList (Some i) (Some i) (list_size (L l)))
       else
         h ← lift (of_option (UB "null pointer") (head (L l)));
         _ ← upd_entry h (set_Prev (Some i));
         _ ← upd_entry i (set_Next (Some h));
         put_list l (mkList (Some i) (tail (L l)) (list_size (L l)))) (st E L) =
      (Ok tt, st E1 (fun l' => if decide (l' = l) then mkList (Some i) (last_or None (i :: ids)) (list_size (L l)) else L l')) /\
      segment E1 None (i :: ids) None /\ (forall j, j ∉ i :: ids -> E1 j = E j) /\ forall j, core_of (E1 j) = core_of (E j)).
  { rewrite Rs. destruct ids as [|h ids].
    - change (zlen (@nil nat) =? 0) with true. cbv iota. exists E. split; [by rewrite put_list_st|]. by split_and!.
    - rewrite zlen_cons in *. pose proof (zlen_nonneg ids). rewrite (proj2 (Z.eqb_neq _ 0)) by lia. rewrite Rh. erewrite lift_Ok by reflexivity.
      apply Forall_cons in Rr as [Hh Rr]. apply not_elem_of_cons in Hni as [Hih Hni]. erewrite M_bind_Ok by by apply upd_entry_st. erewrite M_bind_Ok by by apply upd_entry_st. rewrite put_list_st, Rt.
      eexists. split; [reflexivity|]. fup. split; [|split].
      + cbn [segment]. fup. cbn. split; [done|]. split; [done|]. split; [done|]. split; [by destruct Rl as (_ & ? & _)|].
        destruct Rl as (_ & _ & Rl). apply NoDup_cons in Rn as [Rh' Rn]. eapply segment_same; [|exact Rl]. intros j Hj. by rewrite !fupd_ne by (intros ->; done).
      + intros j Hj. by rewrite !fupd_ne by set_solver.
      + intros j. unfold fupd. repeat case_decide; subst; done. }
  destruct Hmid as (E1 & Hmid & Hseg & Ho & Hc). erewrite M_bind_Ok by exact Hmid. erewrite M_bind_Ok by apply get_list_st. rewrite put_list_st.
  eexists _, _. split; [reflexivity|]. cbv beta. rewrite !decide_True by done. cbn [head tail list_size]. split.
  - split; cbn [head tail list_size]; [done | done | rewrite Rs, wrap_small, zlen_cons; lia | exact Hseg | by apply NoDup_cons | by apply Forall_cons].
  - split; [exact Ho|]. split; [exact Hc|]. intros l' Hl. by rewrite !decide_False by done.
Qed.

(** An entry of the list becomes the first of it. *)
Lemma MoveMRU_rep l E L a i b :
  represents E (L l) (a ++ i :: b) ->
  exists E' L', MoveMRU l i (st E L) = (Ok tt, st E' L') /\ represents E' (L' l) (i :: a ++ b) /\ frame l (a ++ i :: b) E E' L L'.
Proof.
  intros Hr. pose proof (represents_at _ _ _ _ _ Hr) as Hi. pose proof (represents_member_size _ _ _ _ _ Hr) as Hsz. pose proof (zlen_nonneg (a ++ b)).
  pose proof (IsRouge_member _ _ _ _ _ Hr) as Hro. unfold MoveMRU. erewrite M_bind_Ok by apply get_list_st. rewrite check_st by lia.
  erewrite M_bind_Ok by by apply get_entry_st. destruct (decide (a ++ b = [])) as [Hab|Hab].
  - rewrite Hsz, Hab. change (zlen (@nil nat) + 1 =? 1) with true. cbv iota. rewrite check_ok by (rewrite Hro; by apply bool_decide_true).
    exists E, L. split; [done|]. apply app_nil in Hab as [-> ->]. by split.
  - rewrite (proj2 (Z.eqb_neq _ 1)) by (destruct (a ++ b); [done|]; rewrite zlen_cons in *; pose proof (zlen_nonneg l0); lia).
    rewrite Hro, bool_decide_false, check_st by done. destruct (RemoveEntry_rep l E L a i b Hr) as (E1 & L1 & E1r & Hr1 & Hi1 & Hf1).
    erewrite M_bind_Ok by exact E1r. destruct (InsertMRU_rep l E1 L1 i (a ++ b)) as (E2 & L2 & E2r & Hr2 & Hf2); [done | done | | by rewrite Hi1 |].
    { destruct Hr as [_ _ _ _ Hnd _]. rewrite <-Permutation_middle in Hnd. by apply NoDup_cons in Hnd as [? ?]. }
    exists E2, L2. split; [done|]. split; [done|]. eapply frame_trans; [|exact Hf1 | exact Hf2]. set_solver.
Qed.

(** Another list is not touched, nor are its members. *)
Lemma represents_frame l l' ids ids' E E' L L' :
  frame l ids E E' L L' -> l' <> l -> (forall i, i ∈ ids' -> i ∉ ids) -> represents E (L l') ids' -> represents E' (L' l') ids'.
Proof.
  intros (Ho & _ & Hl) Hne Hd [Rh Rt Rs Rl Rn Rr]. split; rewrite ?Hl by done; try done.
  eapply segment_same; [|exact Rl]. intros j Hj. by apply Ho, Hd.
Qed.
End operations.

(** ** Sequences of operations on all lists *)
Inductive list_op := ListInsert (l : ListId) (i : nat) | ListRemove (l : ListId) (i : nat) | ListMove (l : ListId) (i : nat).

Definition run_list_op `{Build} (o : list_op) : M BufferManager unit :=
  match o with ListInsert l i => InsertMRU l i | ListRemove l i => RemoveEntry l i | ListMove l i => MoveMRU l i end.

(** The members of the lists. *)
Notation members := (ListId -> list nat).
Definition set_members (A : members) (l : ListId) (ids : list nat) : members := fun l' => if decide (l' = l) then ids else A l'.
Definition without (i : nat) (ids : list nat) : list nat := filter (fun j => j <> i) ids.
Definition listed (A : members) (i : nat) : bool :=
  existsb (fun l => bool_decide (i ∈ A l)) [T1; T2; B1; B2; FreeList].

(** What an operation is on lists: it is used on entries that are in no list, or in the given one. *)
Definition apply_list_op (N : nat) (A : members) (o : list_op) : option members :=
  match o with
  | ListInsert l i => if bool_decide (i < N)%nat && negb (listed A i) then Some (set_members A l (i :: A l)) else None
  | ListRemove l i => if bool_decide (i ∈ A l) then Some (set_members A l (without i (A l))) else None
  | ListMove l i => if bool_decide (i ∈ A l) then Some (set_members A l (i :: without i (A l))) else None
  end.

Fixpoint apply_list_ops (N : nat) (A : members) (os : list list_op) : option members :=
  match os with
  | [] => Some A
  | o :: os => match apply_list_op N A o with Some A => apply_list_ops N A os | None => None end
  end.

(** The lists of a pool have these members, no two lists share one, and an entry that is in no list has no links. *)
Definition pool_lists (s : BufferManager) (A : members) : Prop :=
  exists E, bm_entries s = map E (seq 0 (length (bm_entries s))) /\
    (forall l, represents (length (bm_entries s)) E (bm_lists s l) (A l)) /\
    (forall l l' i, i ∈ A l -> i ∈ A l' -> l = l') /\
    (forall i, listed A i = false -> IsRouge (E i) = true).

(** All of the pool but the links and the lists. *)
Definition pool_rest (s : BufferManager) :=
  (bm_map s, bm_npages s, map core_of (bm_entries s), bm_buffers s, freeBuffers s, bm_P s, bm_files s).

Lemma listed_false A i : listed A i = false <-> forall l, i ∉ A l.
Proof.
  unfold listed. cbn [existsb]. rewrite !orb_false_iff, !bool_decide_eq_false. split; [|by intros Hl; split_and!; auto].
  intros (H1 & H2 & H3 & H4 & H5 & _) l. by destruct l.
Qed.

Lemma without_absent i ids : i ∉ ids -> without i ids = ids.
Proof.
  unfold without. induction ids as [|j ids IH]; [done|]. intros [Hne Hni]%not_elem_of_cons.
  by rewrite filter_cons_True, IH by auto.
Qed.

Lemma without_middle i a b : NoDup (a ++ i :: b) -> without i (a ++ i :: b) = a ++ b.
Proof.
  intros Hnd. rewrite <-Permutation_middle in Hnd. apply NoDup_cons in Hnd as [Hni _]. unfold without.
  rewrite filter_app, filter_cons_False by auto. rewrite <-filter_app. by apply without_absent.
Qed.

Section sequences.
Context `{Build}.

Lemma list_op_ok s A o A' :
  Z.of_nat (length (bm_entries s)) < 2 ^ 32 -> pool_lists s A -> apply_list_op (length (bm_entries s)) A o = Some A' ->
  exists s', run_list_op o s = (Ok tt, s') /\ pool_lists s' A' /\ pool_rest s' = pool_rest s.
Proof.
  destruct s as [mp np es bufs fb L P fs]. unfold pool_lists, pool_rest. cbn [bm_entries bm_lists bm_map bm_npages bm_buffers freeBuffers bm_P bm_files].
  remember (length es) as N eqn:HNe. intros HN (E & HE & Hr & Hd & Hu) Ho.
  assert (Hstep : exists l ids E' L', run_list_op o (st N np mp E bufs fb L P fs) = (Ok tt, st N np mp E' bufs fb L' P fs) /\
    A' = set_members A l ids /\ represents N E' (L' l) ids /\ frame l (A l ++ ids) E E' L L' /\
    (forall i, i ∈ ids -> i ∈ A l \/ listed A i = false) /\ (forall i, i ∈ A l -> i ∉ ids -> IsRouge (E' i) = true)).
  { destruct o as [l i|l i|l i]; cbn [apply_list_op run_list_op] in *.
    - destruct (bool_decide _ && negb _) eqn:Ec; [|done]. apply andb_true_iff in Ec as [Hi%bool_decide_eq_true Hli%negb_true_iff]. injection Ho as <-.
      pose proof (proj1 (listed_false A i) Hli) as Hni.
      destruct (InsertMRU_rep N np mp bufs fb P fs HN l E L i (A l)) as (E' & L' & Er & Hr' & Hf); [done | done | done | by apply Hu |].
      exists l, (i :: A l), E', L'. split; [done|]. split; [done|]. split; [done|]. split; [|split].
      + destruct Hf as (F1 & F2). split; [|done]. intros j Hj. apply F1. set_solver.
      + intros j [->|Hj]%elem_of_cons; auto.
      + set_solver.
    - case_bool_decide as Hin; [|done]. injection Ho as <-. apply list_elem_of_split in Hin as (a & b & Hab). pose proof (Hr l) as Hrl. rewrite Hab in *.
      rewrite without_middle by apply Hrl.
      destruct (RemoveEntry_rep N np mp bufs fb P fs HN l E L a i b) as (E' & L' & Er & Hr' & Hi' & Hf); [done|].
      exists l, (a ++ b), E', L'. rewrite Hab. split; [done|]. split; [done|]. split; [done|]. split; [|split].
      + destruct Hf as (F1 & F2). split; [|done]. intros j Hj. apply F1. set_solver.
      + set_solver.
      + intros j Hj Hj'. replace j with i by set_solver. by rewrite Hi'.
    - case_bool_decide as Hin; [|done]. injection Ho as <-. apply list_elem_of_split in Hin as (a & b & Hab). pose proof (Hr l) as Hrl. rewrite Hab in *.
      rewrite without_middle by apply Hrl.
      destruct (MoveMRU_rep N np mp bufs fb P fs HN l E L a i b) as (E' & L' & Er & Hr' & Hf); [done|].
      exists l, (i :: a ++ b), E', L'. rewrite Hab. split; [done|]. split; [done|]. split; [done|]. split; [|split].
      + destruct Hf as (F1 & F2). split; [|done]. intros j Hj. apply F1. set_solver.
      + set_solver.
      + set_solver. }
  destruct Hstep as (l & ids & E' & L' & Er & -> & Hr' & Hf & Hids & Hro). pose proof Hf as (F1 & F2 & F3).
  exists (st N np mp E' bufs fb L' P fs). unfold BufferSpec.st in Er. rewrite <-HE in Er. split; [exact Er|].
  unfold BufferSpec.st. cbn [bm_entries bm_lists bm_map bm_npages bm_buffers freeBuffers bm_P bm_files]. rewrite length_map, length_seq. split.
  - exists E'. split; [done|]. split; [|split].
    + intros l'. unfold set_members. case_decide as Hl; [by subst|]. eapply represents_frame; [exact Hf | done | | apply Hr].
      intros i Hi [Hi'|Hi']%elem_of_app; [by apply Hl, (Hd _ _ i)|]. destruct (Hids i Hi') as [Hil|Hil]; [by apply Hl, (Hd _ _ i)|].
      by apply (proj1 (listed_false A i) Hil l').
    + intros l1 l2 i. unfold set_members. repeat case_decide; subst; try done; [| |by apply Hd]; intros HA HB;
        (destruct (Hids i ltac:(done)) as [Hil|Hil]; [by eauto | exfalso; by eapply (proj1 (listed_false A i) Hil)]).
    + intros i Hi. pose proof (proj1 (listed_false _ i) Hi) as Hni. destruct (decide (i ∈ A l)) as [Hil|Hil].
      * apply Hro; [done|]. specialize (Hni l). unfold set_members in Hni. by rewrite decide_True in Hni.
      * rewrite F1; [apply Hu, listed_false|].
        -- intros l'. specialize (Hni l'). unfold set_members in Hni. case_decide; by subst.
        -- specialize (Hni l). unfold set_members in Hni. rewrite decide_True in Hni by done. by rewrite elem_of_app; intros [].
  - assert (Hm : map core_of (map E' (seq 0 N)) = map core_of es) by (rewrite HE, !map_map; apply map_ext; intros j; apply F2). by rewrite Hm.
Qed.

(** C15: The lists of the buffer pool behave as lists: any sequence of insertions of entries that are in no list, removals
    and moves of members, wherever in their lists they are, passes all assertions, and has the effect on the
    members of all five lists that the corresponding functions on lists have; the doubly linked entries keep nothing else,
    and the rest of the pool is not touched. *)
Theorem cache_lists_equivalent s A os A' :
  Z.of_nat (length (bm_entries s)) < 2 ^ 32 -> pool_lists s A -> apply_list_ops (length (bm_entries s)) A os = Some A' ->
  exists s', mapM_ run_list_op os s = (Ok tt, s') /\ pool_lists s' A' /\ pool_rest s' = pool_rest s.
Proof.
  revert s A. induction os as [|o os IH]; intros s A HN Hp; cbn [apply_list_ops mapM_].
  - intros [= <-]. by exists s.
  - destruct (apply_list_op _ A o) as [A1|] eqn:Eo; [|done]. intros Ho.
    destruct (list_op_ok s A o A1 HN Hp Eo) as (s1 & E1 & Hp1 & Hr1).
    assert (Hlen : length (bm_entries s1) = length (bm_entries s)).
    { injection Hr1 as _ _ Hm _ _ _ _. apply (f_equal length) in Hm. by rewrite !length_map in Hm. }
    destruct (IH s1 A1) as (s2 & E2 & Hp2 & Hr2); [by rewrite Hlen | done | by rewrite Hlen |].
    exists s2. split; [by erewrite M_bind_Ok by exact E1|]. split; [done | congruence].
Qed.
End sequences.

(** Four entries: the first is moved to the front from the tail of a list, another is taken out of the middle. *)
Definition ex_list_pool : BufferManager :=
  mkPool [] 2 (map default_entry (seq 0 4)) [] None (fun _ => mkList None None 0) 0 ∅.

Lemma cache_lists_equivalent_witness :
  exists s', mapM_ (run_list_op (H := DebugBuild))
      [ListInsert T1 0; ListInsert T1 1; ListInsert T1 2; ListInsert B2 3; ListMove T1 0; ListRemove T1 2; ListInsert T2 2] ex_list_pool = (Ok tt, s') /\
    exists A, pool_lists s' A /\ A T1 = [0; 1]%nat /\ A T2 = [2]%nat /\ A B2 = [3]%nat.
Proof.
  edestruct (cache_lists_equivalent (H := DebugBuild) ex_list_pool (fun _ => [])
    [ListInsert T1 0; ListInsert T1 1; ListInsert T1 2; ListInsert B2 3; ListMove T1 0; ListRemove T1 2; ListInsert T2 2]) as (s' & E & Hp & _).
  - vm_compute. reflexivity.
  - exists default_entry. split; [reflexivity|]. split; [by intros l; split; try apply NoDup_nil_2; try apply Forall_nil_2|]. split; [set_solver|].
    reflexivity.
  - vm_compute. reflexivity.
  - exists s'. split; [exact E|]. eexists. split; [exact Hp|]. split_and!; reflexivity.
Defined.
