(* ===== verification/PoolSpec.v ===== *)
(** The buffer pool as a map from page tags to pages: what its users see of it as long as they use no
    more pages than it has buffers, in any order, with any number of pins and hits. *)
From S2P Require Import Prelude Types File BufferPool BufferSpec PoolLists.
Import CacheEntryFlags.

(** ** State words: the flags [c], over twenty bits for the pins [p] *)
Definition word (c p : Z) : Z := c * 2 ^ 20 + p.

Section words.
Implicit Types c p f : Z.

Lemma word_testbit c p n : 0 <= p < 2 ^ 20 -> 0 <= n -> Z.testbit (word c p) n = if n <? 20 then Z.testbit p n else Z.testbit c (n - 20).
Proof.
  intros Hp Hn. unfold word. destruct (n <? 20) eqn:En.
  - apply Z.ltb_lt in En. rewrite <-(Z.mod_pow2_bits_low (c * 2 ^ 20 + p) 20 n) by lia.
    rewrite Z.add_comm, Z.mod_add by lia. by rewrite Z.mod_small.
  - apply Z.ltb_ge in En. replace (Z.testbit (c * 2 ^ 20 + p) n) with (Z.testbit (Z.shiftr (c * 2 ^ 20 + p) 20) (n - 20))
      by (rewrite Z.shiftr_spec by lia; f_equal; lia). rewrite Z.shiftr_div_pow2 by lia. rewrite Z.div_add_l by lia. rewrite (Z.div_small p) by lia. f_equal. lia.
Qed.

Lemma word_op (op : Z -> Z -> Z) (b : bool -> bool -> bool) :
  (forall x y n, Z.testbit (op x y) n = b (Z.testbit x n) (Z.testbit y n)) -> 
  forall c p f, 0 <= p < 2 ^ 20 -> 0 <= op p 0 < 2 ^ 20 -> op (word c p) (word f 0) = word (op c f) (op p 0).
Proof.
  intros Hop c p f Hp Hp'. apply Z.bits_inj'. intros n Hn. rewrite Hop, !word_testbit by lia.
  destruct (n <? 20); by rewrite Hop.
Qed.

Lemma word_lor c p f : 0 <= p < 2 ^ 20 -> Z.lor (word c p) (word f 0) = word (Z.lor c f) p.
Proof. intros Hp. rewrite (word_op Z.lor orb); rewrite ?Z.lor_0_r; auto using Z.lor_spec. Qed.

Lemma word_land c p f : 0 <= p < 2 ^ 20 -> Z.land (word c p) (word f 0) = word (Z.land c f) 0.
Proof. intros Hp. rewrite (word_op Z.land andb); rewrite ?Z.land_0_r; auto using Z.land_spec. lia. Qed.

Lemma word_pins c p : 0 <= p < 2 ^ 20 -> Z.land (word c p) BufferRefCountMask = p.
Proof.
  intros Hp. unfold BufferRefCountMask. change (2 ^ 20 - 1) with (Z.ones 20). rewrite Z.land_ones by lia. unfold word.
  rewrite Z.add_comm, Z.mod_add by lia. by apply Z.mod_small.
Qed.

Lemma word_has c p f : 0 <= p < 2 ^ 20 -> has (word c p) (word f 0) = has c f.
Proof. intros Hp. unfold has. rewrite word_land by done. unfold word. f_equal. destruct (Z.eqb_spec (Z.land c f) 0); [by apply Z.eqb_eq; lia | apply Z.eqb_neq; lia]. Qed.

Lemma word_range c p : 0 <= c < 2 ^ 12 -> 0 <= p < 2 ^ 20 -> 0 <= word c p < 2 ^ 32.
Proof. unfold word. lia. Qed.
End words.

(** The flags of an entry that holds a page. *)
Definition flags (frequent dirty : bool) : Z := 1024 + 512 + 32 + (if frequent then 256 else 0) + (if dirty then 64 else 0).

(** ** Operations on entries whose state word is given by flags and pins *)
Section entries.
Context `{Build} (N : nat) (np : Z) (mp : HashTable.t) (bufs : list BufferData) (fb : option nat) (P : Z) (fs : gmap Z (list byte)).
Implicit Types (E : nat -> CacheEntry) (L : ListId -> CacheEntryList).
#[local] Notation st E L := (st N np mp E bufs fb L P fs).

Lemma st_same E E' L : (forall j, (j < N)%nat -> E' j = E j) -> st E' L = st E L.
Proof. intros Hs. unfold BufferSpec.st. f_equal. by apply map_seq_eq. Qed.

Lemma Lock_word i c p E L : (i < N)%nat -> State (E i) = word c p -> 0 <= p < 2 ^ 20 -> has c 2048 = false ->
  Lock i (st E L) = (Ok (word (Z.lor c 2048) p), st (fupd E i (set_State (word (Z.lor c 2048) p) (E i))) L).
Proof.
  intros Hi Hs Hp Hc. change Locked with (word 2048 0) in *. rewrite Lock_st; rewrite ?Hs; change Locked with (word 2048 0).
  - by rewrite word_lor.
  - done.
  - by rewrite word_has.
Qed.

Lemma Unlock_word i c p E L : (i < N)%nat -> State (E i) = word c p -> 0 <= p < 2 ^ 20 -> has c 2048 = true -> 2048 <= c < 4096 ->
  Unlock i (st E L) = (Ok tt, st (fupd E i (set_State (word (c - 2048) p) (E i))) L).
Proof.
  intros Hi Hs Hp Hc Hc'. rewrite Unlock_st; rewrite ?Hs; [|done|change Locked with (word 2048 0); by rewrite word_has].
  do 4 f_equal. change Locked with (2048 * 2 ^ 20). unfold word. rewrite wrap_small; lia.
Qed.

Lemma Pin_word i c p E L : (i < N)%nat -> State (E i) = word c p -> 0 <= p < 2 ^ 20 - 1 -> 0 <= c < 4096 ->
  Pin i (st E L) = (Ok tt, st (fupd E i (set_State (word c (p + 1)) (E i))) L).
Proof.
  intros Hi Hs Hp Hc. rewrite Pin_st; rewrite ?Hs; [|done|rewrite word_pins by lia; unfold BufferRefCountMask; lia].
  do 4 f_equal. unfold word. rewrite wrap_small; lia.
Qed.

Lemma Unpin_word i c p E L : (i < N)%nat -> State (E i) = word c p -> 0 < p < 2 ^ 20 -> 0 <= c < 4096 ->
  Unpin i (st E L) = (Ok tt, st (fupd E i (set_State (word c (p - 1)) (E i))) L).
Proof.
  intros Hi Hs Hp Hc. rewrite Unpin_st; rewrite ?Hs; [|done|rewrite word_pins; lia]. do 4 f_equal. unfold word. rewrite wrap_small; lia.
Qed.

Lemma fetch_or_flags i c p f E L : (i < N)%nat -> State (E i) = word c p -> 0 <= p < 2 ^ 20 ->
  fetch_or i (word f 0) (st E L) = (Ok (word c p), st (fupd E i (set_State (word (Z.lor c f) p) (E i))) L).
Proof. intros Hi Hs Hp. unfold fetch_or. rewrite fetch_st, Hs by done. by rewrite word_lor. Qed.

(** The lock is taken and released. *)
Lemma lock_unlock {A} (K : Z -> M BufferManager A) i c p E L :
  (i < N)%nat -> State (E i) = word c p -> 0 <= p < 2 ^ 20 -> has c 2048 = false -> 0 <= c < 2048 ->
  (state ← Lock i; _ ← Unlock i; K state) (st E L) = K (word (Z.lor c 2048) p) (st E L).
Proof.
  intros Hi Hs Hp Hc Hr. erewrite M_bind_Ok by by apply Lock_word.
  assert (Hor : Z.lor c 2048 = c + 2048).
  { rewrite <-Z.add_lor_land. unfold has in Hc. apply negb_false_iff, Z.eqb_eq in Hc. rewrite Hc. lia. }
  rewrite Hor. erewrite M_bind_Ok by (apply Unlock_word; [done | by fup | done | | lia]; rewrite <-Hor; unfold has;
    apply negb_true_iff, Z.eqb_neq; intros Hz; apply (f_equal (fun z => Z.testbit z 11)) in Hz; rewrite Z.land_spec, Z.lor_spec, orb_true_r in Hz; done).
  f_equal. apply st_same. intros j Hj. destruct (decide (j = i)) as [->|Hne]; fup; [|done].
  replace (c + 2048 - 2048) with c by lia. rewrite <-Hs. by destruct (E i).
Qed.
End entries.

Lemma represents_links_same N E E' cl ids :
  (forall j, j ∈ ids -> Prev (E' j) = Prev (E j) /\ Next (E' j) = Next (E j)) -> represents N E cl ids -> represents N E' cl ids.
Proof. intros Hs [Rh Rt Rs Rl Rn Rr]. split; try done. by eapply segment_links. Qed.

Lemma represents_upd N E cl ids i e :
  Prev e = Prev (E i) -> Next e = Next (E i) -> represents N E cl ids -> represents N (fupd E i e) cl ids.
Proof. intros Hp Hn. apply represents_links_same. intros j _. unfold fupd. case_decide; by subst. Qed.

Lemma represents_state N E cl ids i v : represents N E cl ids -> represents N (fupd E i (set_State v (E i))) cl ids.
Proof. by apply represents_upd. Qed.

(** ** A hit *)
Section hits.
Context `{Build} `{Posix} (N : nat) (np : Z) (mp : HashTable.t) (bufs : list BufferData) (fb : option nat) (P : Z) (fs : gmap Z (list byte)).
Hypothesis HN : Z.of_nat N < 2 ^ 32.
Implicit Types (E : nat -> CacheEntry) (L : ListId -> CacheEntryList).
#[local] Notation st E L := (st N np mp E bufs fb L P fs).
#[local] Notation represents := (represents N).

(** The entry is then the first of T2, and nothing but its flag and the links is changed. *)
Definition moved (i : nat) (t1 t2 t1' t2' : list nat) E E' L L' : Prop :=
  represents E' (L' T1) t1' /\ represents E' (L' T2) t2' /\ t1' ++ t2' ≡ₚ t1 ++ t2 /\ i ∈ t2' /\ (forall j, j <> i -> j ∈ t2' <-> j ∈ t2) /\
  (forall j, j ∉ t1 ++ t2 -> E' j = E j) /\ (forall j, j <> i -> core_of (E' j) = core_of (E j)) /\
  (forall l, l <> T1 -> l <> T2 -> L' l = L l).

Lemma hit_T1 i dirty p a b t2 E L :
  represents E (L T1) (a ++ i :: b) -> represents E (L T2) t2 -> (forall j, j ∈ a ++ i :: b -> j ∉ t2) ->
  State (E i) = word (flags false dirty) p -> 0 <= p < 2 ^ 20 ->
  exists E' L', handleCacheHit i (st E L) = (Ok tt, st E' L') /\ moved i (a ++ i :: b) t2 (a ++ b) (i :: t2) E E' L L' /\
    core_of (E' i) = (Tag (E i), BlockId (E i), word (flags true dirty) p, Buffer (E i)).
Proof.
  intros H1 H2 Hd Hs Hp. pose proof (represents_at _ _ _ _ _ _ H1) as Hi. unfold handleCacheHit.
  erewrite M_bind_Ok by by apply load_st. rewrite Hs. rewrite check_st by (change IsTopList with (word 512 0); rewrite word_has by done; by destruct dirty).
  replace (has (word (flags false dirty) p) IsFrequencyList) with false by (change IsFrequencyList with (word 256 0); rewrite word_has by done; by destruct dirty).
  erewrite M_bind_Ok by (apply Lock_word; [done | done | done | by destruct dirty]).
  assert (Hm : Z.land (word (Z.lor (flags false dirty) 2048) p) CacheEntryListMask =? IsFrequencyList = false).
  { change CacheEntryListMask with (word 768 0). rewrite word_land by done. by destruct dirty. }
  rewrite Hm. cbn [negb]. set (E1 := fupd E i _). set (c1 := Z.lor (flags false dirty) 2048) in *.
  destruct (RemoveEntry_rep N np mp bufs fb P fs HN T1 E1 L a i b) as (E2 & L2 & R2 & H12 & Hi2 & F2); [by apply represents_state|].
  assert (H22 : represents E2 (L2 T2) t2).
  { eapply represents_frame; [exact F2 | done | | by apply represents_state]. intros j Hj Hj'. by apply (Hd j). }
  assert (Hit2 : i ∉ t2) by (apply Hd, elem_of_app; right; by left).
  destruct (InsertMRU_rep N np mp bufs fb P fs HN T2 E2 L2 i t2) as (E3 & L3 & R3 & H23 & F3); [done | done | done | by rewrite Hi2 |].
  assert (Hnd : i ∉ a ++ b) by (pose proof (rep_nodup _ _ _ _ H1) as Hn; rewrite <-Permutation_middle in Hn; by apply NoDup_cons in Hn as [? ?]).
  assert (H13 : represents E3 (L3 T1) (a ++ b)).
  { eapply represents_frame; [exact F3 | done | | done]. intros j Hj [->|Hj']%elem_of_cons; [done | apply (Hd j); [set_solver | done]]. }
  destruct F2 as (F21 & F22 & F23), F3 as (F31 & F32 & F33).
  assert (Hs3 : core_of (E3 i) = (Tag (E i), BlockId (E i), word c1 p, Buffer (E i))) by (rewrite F32, F22; unfold E1; by fup).
  assert (Hc1 : State (E3 i) = word c1 p) by by injection Hs3.
  erewrite M_bind_Ok; cycle 1.
  { erewrite M_bind_Ok by exact R2. erewrite M_bind_Ok by exact R3. change IsFrequencyList with (word 256 0).
    erewrite M_bind_Ok by by apply (fetch_or_flags _ _ _ _ _ _ _ i c1 p). reflexivity. }
  erewrite (Unlock_word _ _ _ _ _ _ _ i (Z.lor c1 256) p); [|done | by fup | done | by destruct dirty | by destruct dirty].
  eexists _, L3. split; [reflexivity|]. fup. split.
  - split; [apply represents_upd; fup; [done..|]; by apply represents_state|]. split; [apply represents_upd; fup; [done..|]; by apply represents_state|]. split; [by rewrite <-!Permutation_middle|].
    split; [by left|]. split; [set_solver|]. split; [|split].
    + intros j Hj. rewrite !fupd_ne by (intros ->; apply Hj; set_solver). rewrite F31 by set_solver. rewrite F21 by set_solver. unfold E1. by rewrite fupd_ne by set_solver.
    + intros j Hj. rewrite !fupd_ne by done. rewrite F32, F22. unfold E1. by rewrite fupd_ne.
    + intros l Hl1 Hl2. by rewrite F33, F23.
  - unfold core_of in *. entry_fields. injection Hs3 as -> -> _ ->. by destruct dirty.
Qed.

Lemma hit_T2 i dirty p t1 a b E L :
  represents E (L T1) t1 -> represents E (L T2) (a ++ i :: b) -> (forall j, j ∈ t1 -> j ∉ a ++ i :: b) ->
  State (E i) = word (flags true dirty) p -> 0 <= p < 2 ^ 20 ->
  exists E' L', handleCacheHit i (st E L) = (Ok tt, st E' L') /\ moved i t1 (a ++ i :: b) t1 (i :: a ++ b) E E' L L' /\
    core_of (E' i) = (Tag (E i), BlockId (E i), word (flags true dirty) p, Buffer (E i)).
Proof.
  intros H1 H2 Hd Hs Hp. pose proof (represents_at _ _ _ _ _ _ H2) as Hi. unfold handleCacheHit.
  erewrite M_bind_Ok by by apply load_st. rewrite Hs. rewrite check_st by (change IsTopList with (word 512 0); rewrite word_has by done; by destruct dirty).
  replace (has (word (flags true dirty) p) IsFrequencyList) with true by (change IsFrequencyList with (word 256 0); rewrite word_has by done; by destruct dirty).
  erewrite M_bind_Ok by (apply Lock_word; [done | done | done | by destruct dirty]).
  rewrite check_st by (change CacheEntryListMask with (word 768 0); rewrite word_land by done; by destruct dirty).
  set (E1 := fupd E i _). set (c1 := Z.lor (flags true dirty) 2048) in *.
  destruct (MoveMRU_rep N np mp bufs fb P fs HN T2 E1 L a i b) as (E2 & L2 & R2 & H22 & F2); [by apply represents_state|].
  assert (H12 : represents E2 (L2 T1) t1) by (eapply represents_frame; [exact F2 | done | done | by apply represents_state]).
  destruct F2 as (F21 & F22 & F23).
  assert (Hs2 : core_of (E2 i) = (Tag (E i), BlockId (E i), word c1 p, Buffer (E i))) by (rewrite F22; unfold E1; by fup).
  assert (Hc1 : State (E2 i) = word c1 p) by by injection Hs2.
  erewrite M_bind_Ok by exact R2.
  erewrite (Unlock_word _ _ _ _ _ _ _ i c1 p); [|done | done | done | by destruct dirty | by destruct dirty].
  eexists _, L2. split; [reflexivity|]. fup. split.
  - split; [by apply represents_state|]. split; [by apply represents_state|]. split; [apply Permutation_app_head, Permutation_middle|].
    split; [by left|]. split; [set_solver|]. split; [|split].
    + intros j Hj. rewrite !fupd_ne by (intros ->; apply Hj; set_solver). rewrite F21 by set_solver. unfold E1. by rewrite fupd_ne by set_solver.
    + intros j Hj. rewrite !fupd_ne by done. rewrite F22. unfold E1. by rewrite fupd_ne.
    + intros l Hl1 Hl2. by rewrite F23.
  - unfold core_of in *. entry_fields. injection Hs2 as -> -> _ ->. by destruct dirty.
Qed.

Lemma hit_ok i dirty p t1 t2 E L :
  represents E (L T1) t1 -> represents E (L T2) t2 -> NoDup (t1 ++ t2) -> i ∈ t1 ++ t2 ->
  State (E i) = word (flags (bool_decide (i ∈ t2)) dirty) p -> 0 <= p < 2 ^ 20 ->
  exists E' L' t1' t2', handle_hit i (st E L) = (Ok tt, st E' L') /\ moved i t1 t2 t1' t2' E E' L L' /\
    core_of (E' i) = (Tag (E i), BlockId (E i), word (flags true dirty) p, Buffer (E i)).
Proof.
  intros H1 H2 Hnd Hin Hs Hp. apply NoDup_app in Hnd as (_ & Hd & _).
  assert (Hi : (i < N)%nat). { apply elem_of_app in Hin as [Hin|Hin]; [pose proof (rep_range _ _ _ _ H1) as Hr | pose proof (rep_range _ _ _ _ H2) as Hr]; rewrite Forall_forall in Hr; by apply Hr. }
  set (c := flags (bool_decide (i ∈ t2)) dirty) in *.
  assert (Hc : has c 2048 = false /\ 0 <= c < 2048 /\ has c 512 = true) by (unfold c; destruct (bool_decide _), dirty; done).
  destruct Hc as (Hc1 & Hc2 & Hc3).
  assert (Hh : handle_hit i (st E L) = handleCacheHit i (st E L)).
  { unfold handle_hit. rewrite (lock_unlock _ _ _ _ _ _ _ _ i c p) by done. erewrite M_bind_Ok by by apply load_st.
    rewrite Hs. change IsTopList with (word 512 0). by rewrite word_has, Hc3. }
  rewrite Hh. unfold c in Hs. destruct (decide (i ∈ t2)) as [Hi2|Hi2].
  - rewrite bool_decide_true in Hs by done. apply list_elem_of_split in Hi2 as (a & b & ->).
    destruct (hit_T2 i dirty p t1 a b E L) as (E' & L' & Hr); [done..|]. by exists E', L', t1, (i :: a ++ b).
  - rewrite bool_decide_false in Hs by done. apply elem_of_app in Hin as [Hi1|]; [|done]. apply list_elem_of_split in Hi1 as (a & b & ->).
    destruct (hit_T1 i dirty p a b t2 E L) as (E' & L' & Hr); [done..|]. by exists E', L', (a ++ b), (i :: t2).
Qed.
End hits.

(** ** What the users of the pool see: the pages that were used, their contents, and how often each is pinned *)
Record view := mkView { v_tags : list PageTag; v_page : PageTag -> list byte; v_held : PageTag -> Z }.

Definition set_at {A} (f : PageTag -> A) (tag : PageTag) (a : A) : PageTag -> A := fun t => if decide (t = tag) then a else f t.

Section invariant.
Context (hash : PageTag -> Z) (n : nat) (fs : gmap Z (list byte)).
#[local] Notation N := (n * 2)%nat.

Record serving (v : view) (t1 t2 : list nat) (mp : HashTable.t) (E : nat -> CacheEntry) (bufs : list BufferData) (fb : option nat)
    (L : ListId -> CacheEntryList) : Prop := mk_serving {
  sg_tags : NoDup (v_tags v) /\ (length (v_tags v) <= n)%nat;
  sg_map : length mp = 8%nat;
  sg_absent key : key ∉ v_tags v -> table_get hash mp key = None /\ v_page v key = page_of fs key /\ v_held v key = 0;
  sg_present i tag : v_tags v !! i = Some tag -> table_get hash mp tag = Some (Z.of_nat i);
  sg_entry i tag : v_tags v !! i = Some tag -> exists dirty,
    core_of (E i) = (tag, Z.of_nat i, word (flags (bool_decide (i ∈ t2)) dirty) (v_held v tag), Some (n - 1 - i)%nat);
  sg_held tag : 0 <= v_held v tag < 2 ^ 20;
  sg_page i tag : v_tags v !! i = Some tag -> exists next, bufs !! (n - 1 - i)%nat = Some (mkBuffer (v_page v tag) next);
  sg_fresh i : (length (v_tags v) <= i < N)%nat -> E i = entry_at n (v_tags v) i;
  sg_T1 : represents N E (L T1) t1;
  sg_T2 : represents N E (L T2) t2;
  sg_lists : t1 ++ t2 ≡ₚ seq 0 (length (v_tags v));
  sg_free : L FreeList = mkList (Some (N - 1)%nat) (Some (length (v_tags v))) (Z.of_nat (N - 2 * length (v_tags v)));
  sg_ghosts : list_size (L B1) = 0 /\ list_size (L B2) = 0;
  sg_fb : fb = pred_of (n - length (v_tags v));
  sg_bufs j : (j < n - length (v_tags v))%nat -> exists page, bufs !! j = Some (mkBuffer page (pred_of j))
}.
End invariant.

Section users.
Context `{Build} `{PosixOk} (hash : PageTag -> Z) (n : nat) (fs : gmap Z (list byte)).
Hypothesis Hn : (0 < n)%nat.
Hypothesis Hmax : Z.of_nat n * 2 < 2 ^ 32 - 1.
#[local] Notation N := (n * 2)%nat.
#[local] Notation st mp E bufs fb L := (st N (Z.of_nat n) mp E bufs fb L 0 fs).
#[local] Notation serving := (serving hash n fs).
#[local] Notation pin_of tag i := (mkPin tag (wrap 32 (Z.of_nat i + 1))).

(** The pages between two operations of the users: some lists and entries make them. *)
Definition serves (v : view) (s : BufferManager) : Prop :=
  exists t1 t2 mp E bufs fb L, s = st mp E bufs fb L /\ serving v t1 t2 mp E bufs fb L.

Lemma serving_member v t1 t2 mp E bufs fb L i tag :
  serving v t1 t2 mp E bufs fb L -> v_tags v !! i = Some tag -> i ∈ t1 ++ t2 /\ (i < n)%nat /\ NoDup (t1 ++ t2).
Proof.
  intros Hs Hi. apply lookup_lt_Some in Hi. pose proof (sg_lists _ _ _ _ _ _ _ _ _ _ _ Hs) as Hp. destruct (sg_tags _ _ _ _ _ _ _ _ _ _ _ Hs) as [_ Hl].
  rewrite Hp. split; [apply elem_of_seq; lia|]. split; [lia | apply NoDup_seq].
Qed.

(** The state word, the links and the contents of one entry change. *)
Lemma serving_change v v' t1 t2 t1' t2' mp E E' bufs bufs' fb L L' i tag dirty :
  serving v t1 t2 mp E bufs fb L -> v_tags v !! i = Some tag -> v_tags v' = v_tags v ->
  (forall key, key <> tag -> v_page v' key = v_page v key /\ v_held v' key = v_held v key) -> 0 <= v_held v' tag < 2 ^ 20 ->
  core_of (E' i) = (tag, Z.of_nat i, word (flags (bool_decide (i ∈ t2')) dirty) (v_held v' tag), Some (n - 1 - i)%nat) ->
  (exists next, bufs' !! (n - 1 - i)%nat = Some (mkBuffer (v_page v' tag) next)) -> (forall j, j <> (n - 1 - i)%nat -> bufs' !! j = bufs !! j) ->
  (forall j, j <> i -> core_of (E' j) = core_of (E j)) -> (forall j, (length (v_tags v) <= j)%nat -> E' j = E j) ->
  represents N E' (L' T1) t1' -> represents N E' (L' T2) t2' -> t1' ++ t2' ≡ₚ t1 ++ t2 -> (forall j, j <> i -> j ∈ t2' <-> j ∈ t2) ->
  (forall l, l <> T1 -> l <> T2 -> L' l = L l) ->
  serving v' t1' t2' mp E' bufs' fb L'.
Proof.
  intros [S1 S2 S3 S4 S5 S6 S7 S8 S9 S10 S11 S12 S13 S14 S15] Hi Ht Hv Hh Hc Hb Hbo Hco Hfr HT1 HT2 Hp Hm Hl. destruct S1 as [Snd Sle].
  assert (Hother : forall j tg, v_tags v !! j = Some tg -> j <> i -> tg <> tag).
  { intros j tg Hj Hne ->. apply Hne. by eapply NoDup_lookup. }
  pose proof (lookup_lt_Some _ _ _ Hi) as Hlt.
  constructor; rewrite ?Ht; try done.
  - intros key Hkey. destruct (Hv key) as [-> ->]; [|by apply S3]. intros ->. apply Hkey. by eapply list_elem_of_lookup_2.
  - intros j tg Hj. destruct (decide (j = i)) as [->|Hne]; [rewrite Hi in Hj; injection Hj as <-; eauto|].
    destruct (Hv tg) as [_ ->]; [by eapply Hother|]. rewrite Hco by done. destruct (S5 j tg Hj) as [d Hd]. exists d. rewrite Hd.
    by rewrite (bool_decide_ext _ _ (Hm j Hne)).
  - intros tg. destruct (decide (tg = tag)) as [->|Hne]; [done|]. destruct (Hv tg Hne) as [_ ->]. apply S6.
  - intros j tg Hj. destruct (decide (j = i)) as [->|Hne]; [rewrite Hi in Hj; injection Hj as <-; eauto|].
    destruct (Hv tg) as [-> _]; [by eapply Hother|]. pose proof (lookup_lt_Some _ _ _ Hj). rewrite Hbo by lia. by apply S7.
  - intros j Hj. rewrite Hfr by lia. by apply S8.
  - by rewrite Hp.
  - by rewrite Hl.
  - rewrite !Hl by done. done.
  - intros j Hj. rewrite Hbo by lia. by apply S15.
Qed.

(** *** The four operations of a user *)
Definition hold (v : view) (tag : PageTag) (d : Z) : view := mkView (v_tags v) (v_page v) (set_at (v_held v) tag (v_held v tag + d)).
Definition write (v : view) (tag : PageTag) (page : list byte) : view := mkView (v_tags v) (set_at (v_page v) tag page) (v_held v).

(** A user writes through the pointer to the contents, and marks the page. *)
Definition write_page (blockId : Z) (page : list byte) : M BufferManager unit :=
  i ← GetIndex blockId;
  b ← buffer_of i "buffer != nullptr";
  _ ← set_page b page;
  MarkDirty blockId.

Lemma set_at_eq {A} (f : PageTag -> A) tag a : set_at f tag a tag = a.
Proof. unfold set_at. by rewrite decide_True. Qed.
Lemma set_at_ne {A} (f : PageTag -> A) tag a t : t <> tag -> set_at f tag a t = f t.
Proof. intros. unfold set_at. by rewrite decide_False. Qed.

(** Only the state word of an entry changes: the flags that it had, perhaps dirty, with other pins. *)
Lemma serving_state v v' t1 t2 mp E bufs bufs' fb L i tag dirty :
  serving v t1 t2 mp E bufs fb L -> v_tags v !! i = Some tag -> v_tags v' = v_tags v ->
  (forall key, key <> tag -> v_page v' key = v_page v key /\ v_held v' key = v_held v key) -> 0 <= v_held v' tag < 2 ^ 20 ->
  (exists next, bufs' !! (n - 1 - i)%nat = Some (mkBuffer (v_page v' tag) next)) -> (forall j, j <> (n - 1 - i)%nat -> bufs' !! j = bufs !! j) ->
  serving v' t1 t2 mp (fupd E i (set_State (word (flags (bool_decide (i ∈ t2)) dirty) (v_held v' tag)) (E i))) bufs' fb L.
Proof.
  intros Hs Hi Ht Hv Hh Hb Hbo. destruct (sg_entry _ _ _ _ _ _ _ _ _ _ _ Hs i tag Hi) as [d Hd]. pose proof (lookup_lt_Some _ _ _ Hi).
  eapply (serving_change v v' t1 t2 t1 t2 mp E _ bufs bufs' fb L L i tag dirty); try done.
  - fup. unfold core_of in *. entry_fields. by injection Hd as -> -> _ ->.
  - intros j Hj. by fup.
  - intros j Hj. by fup.
  - apply represents_state, (sg_T1 _ _ _ _ _ _ _ _ _ _ _ Hs).
  - apply represents_state, (sg_T2 _ _ _ _ _ _ _ _ _ _ _ Hs).
Qed.

Lemma read_ok v t1 t2 mp E bufs fb L i tag :
  serving v t1 t2 mp E bufs fb L -> v_tags v !! i = Some tag ->
  GetContents (wrap 32 (Z.of_nat i + 1)) (st mp E bufs fb L) = (Ok (v_page v tag), st mp E bufs fb L).
Proof.
  intros Hs Hi. destruct (serving_member _ _ _ _ _ _ _ _ _ _ Hs Hi) as (_ & Hlt & _). destruct (sg_entry _ _ _ _ _ _ _ _ _ _ _ Hs i tag Hi) as [d Hd].
  destruct (sg_page _ _ _ _ _ _ _ _ _ _ _ Hs i tag Hi) as [nx Hb]. injection Hd as _ _ _ Hbuf.
  unfold GetContents. erewrite M_bind_Ok by (apply (GetIndex_ok n); lia). erewrite M_bind_Ok by (apply buffer_of_st; [lia | exact Hbuf]).
  by erewrite M_bind_Ok by (apply buffer_data_st; exact Hb).
Qed.

Lemma return_ok v t1 t2 mp E bufs fb L i tag :
  serving v t1 t2 mp E bufs fb L -> v_tags v !! i = Some tag -> 0 < v_held v tag ->
  exists s', ReturnBuffer (wrap 32 (Z.of_nat i + 1)) (st mp E bufs fb L) = (Ok tt, s') /\ serves (hold v tag (-1)) s'.
Proof.
  intros Hs Hi Hh. destruct (serving_member _ _ _ _ _ _ _ _ _ _ Hs Hi) as (_ & Hlt & _). destruct (sg_entry _ _ _ _ _ _ _ _ _ _ _ Hs i tag Hi) as [d Hd].
  pose proof (sg_held _ _ _ _ _ _ _ _ _ _ _ Hs tag) as Hr. assert (HS := f_equal (fun x => x.1.2) Hd). cbn in HS.
  unfold ReturnBuffer. erewrite M_bind_Ok by (apply (GetIndex_ok n); lia). erewrite M_bind_Ok by (apply load_st; lia).
  rewrite check_st by (unfold unpinned; rewrite HS, word_pins by done; apply negb_true_iff, Z.eqb_neq; lia).
  erewrite Unpin_word; [|lia | exact HS | lia | by destruct (bool_decide _), d]. eexists. split; [reflexivity|].
  exists t1, t2, mp, (fupd E i (set_State (word (flags (bool_decide (i ∈ t2)) d) (v_held (hold v tag (-1)) tag)) (E i))), bufs, fb, L.
  split; [cbn [v_held hold]; by rewrite set_at_eq|].
  apply (serving_state v (hold v tag (-1)) t1 t2 mp E bufs bufs fb L i tag d); cbn [hold v_tags v_page v_held]; rewrite ?set_at_eq; try done.
  - intros key Hk. by rewrite set_at_ne.
  - lia.
  - by eapply sg_page.
Qed.

Lemma write_ok v t1 t2 mp E bufs fb L i tag page :
  serving v t1 t2 mp E bufs fb L -> v_tags v !! i = Some tag ->
  exists s', write_page (wrap 32 (Z.of_nat i + 1)) page (st mp E bufs fb L) = (Ok tt, s') /\ serves (write v tag page) s'.
Proof.
  intros Hs Hi. destruct (serving_member _ _ _ _ _ _ _ _ _ _ Hs Hi) as (_ & Hlt & _). destruct (sg_entry _ _ _ _ _ _ _ _ _ _ _ Hs i tag Hi) as [d Hd].
  pose proof (sg_held _ _ _ _ _ _ _ _ _ _ _ Hs tag) as Hr. destruct (sg_page _ _ _ _ _ _ _ _ _ _ _ Hs i tag Hi) as [nx Hb].
  assert (HS := f_equal (fun x => x.1.2) Hd). injection Hd as _ _ _ Hbuf. cbn in HS.
  unfold write_page. erewrite M_bind_Ok by (apply (GetIndex_ok n); lia). erewrite M_bind_Ok by (apply buffer_of_st; [lia | exact Hbuf]).
  set (bufs' := <[(n - 1 - i)%nat := mkBuffer page nx]> bufs).
  assert (Hset : set_page (n - 1 - i) page (st mp E bufs fb L) = (Ok tt, st mp E bufs' fb L)).
  { unfold set_page. by erewrite M_bind_Ok by by apply buffer_data_st. }
  erewrite M_bind_Ok by exact Hset. unfold MarkDirty. erewrite M_bind_Ok by (apply (GetIndex_ok n); lia). change Dirty with (word 64 0).
  erewrite M_bind_Ok by (apply fetch_or_flags; [lia | exact HS | lia]). eexists. split; [reflexivity|].
  exists t1, t2, mp, (fupd E i (set_State (word (flags (bool_decide (i ∈ t2)) true) (v_held (write v tag page) tag)) (E i))), bufs', fb, L.
  split; [cbn [v_held write]; by destruct (bool_decide _), d|].
  apply (serving_state v (write v tag page) t1 t2 mp E bufs bufs' fb L i tag true); cbn [write v_tags v_page v_held]; rewrite ?set_at_eq; try done.
  - intros key Hk. by rewrite set_at_ne.
  - exists nx. unfold bufs'. apply list_lookup_insert_eq. by eapply lookup_lt_Some.
  - intros j Hj. unfold bufs'. by rewrite list_lookup_insert_ne.
Qed.

Lemma map_get_st mp E bufs fb L tag : length mp = 8%nat -> map_get hash tag (st mp E bufs fb L) = (Ok (table_get hash mp tag), st mp E bufs fb L).
Proof. intros Hl. unfold map_get, mbind, M_bind, get, lift. cbn [bm_map BufferSpec.st]. by rewrite Get_ok by lia. Qed.

Lemma makeBufferPin_ok i tag c p b mp E bufs fb L :
  (i < N)%nat -> core_of (E i) = (tag, Z.of_nat i, word c p, Some b) -> has c 32 = true -> 0 < p < 2 ^ 20 ->
  makeBufferPin i (st mp E bufs fb L) = (Ok (pin_of tag i), st mp E bufs fb L).
Proof.
  intros Hi Hc Hv Hp. injection Hc as Ht Hb HS Hbuf. unfold makeBufferPin. erewrite M_bind_Ok by by apply load_st. rewrite HS.
  rewrite check_st by (change DataValid with (word 32 0); rewrite word_has by lia; done). rewrite check_st by (rewrite word_pins by lia; apply Z.ltb_lt; lia).
  erewrite M_bind_Ok by by apply get_entry_st. rewrite Hbuf, check_st by done. by rewrite Ht, Hb.
Qed.

(** A page that is in the pool. *)
Lemma acquire_hit v t1 t2 mp E bufs fb L i tag :
  serving v t1 t2 mp E bufs fb L -> v_tags v !! i = Some tag -> v_held v tag < 2 ^ 20 - 1 ->
  exists s', GetBuffer hash tag (st mp E bufs fb L) = (Ok (pin_of tag i), s') /\ serves (hold v tag 1) s'.
Proof.
  intros Hs Hi Hh. destruct (serving_member _ _ _ _ _ _ _ _ _ _ Hs Hi) as (Hin & Hlt & Hnd). destruct (sg_entry _ _ _ _ _ _ _ _ _ _ _ Hs i tag Hi) as [d Hd].
  pose proof (sg_held _ _ _ _ _ _ _ _ _ _ _ Hs tag) as Hr. assert (HS := f_equal (fun x => x.1.2) Hd). cbn in HS.
  set (c := flags (bool_decide (i ∈ t2)) d) in *. set (E1 := fupd E i (set_State (word c (v_held v tag + 1)) (E i))).
  unfold GetBuffer. erewrite M_bind_Ok by (apply map_get_st, (sg_map _ _ _ _ _ _ _ _ _ _ _ Hs)).
  rewrite (sg_present _ _ _ _ _ _ _ _ _ _ _ Hs i tag Hi). cbv iota. rewrite Nat2Z.id.
  erewrite M_bind_Ok; cycle 1.
  { erewrite M_bind_Ok by (apply Pin_word; [lia | exact HS | lia | unfold c; by destruct (bool_decide _), d]). reflexivity. }
  cbv beta iota. fold E1.
  destruct (hit_ok N (Z.of_nat n) mp bufs fb 0 fs ltac:(lia) i d (v_held v tag + 1) t1 t2 E1 L) as (E2 & L2 & t1' & t2' & Hh2 & Hm & Hc2).
  { apply represents_state, (sg_T1 _ _ _ _ _ _ _ _ _ _ _ Hs). }
  { apply represents_state, (sg_T2 _ _ _ _ _ _ _ _ _ _ _ Hs). }
  { done. } { done. } { unfold E1. by fup. } { lia. }
  destruct Hm as (M1 & M2 & M3 & M4 & M5 & M6 & M7 & M8).
  assert (Hc2' : core_of (E2 i) = (tag, Z.of_nat i, word (flags true d) (v_held v tag + 1), Some (n - 1 - i)%nat)).
  { rewrite Hc2. unfold E1. fup. entry_fields. unfold core_of in Hd. by injection Hd as -> -> _ ->. }
  erewrite M_bind_Ok by exact Hh2. erewrite M_bind_Ok by (apply get_entry_st; lia). pose proof Hc2' as Hc3. unfold core_of in Hc3. injection Hc3 as _ _ HS2 Hb2.
  rewrite Hb2, check_st by done. rewrite HS2.
  replace (has (word (flags true d) (v_held v tag + 1)) DataValid) with true by (change DataValid with (word 32 0); rewrite word_has by lia; by destruct d).
  erewrite makeBufferPin_ok; [|lia | exact Hc2' | by destruct d | lia]. eexists. split; [reflexivity|].
  exists t1', t2', mp, E2, bufs, fb, L2. split; [done|].
  eapply (serving_change v (hold v tag 1) t1 t2 t1' t2' mp E E2 bufs bufs fb L L2 i tag d); cbn [hold v_tags v_page v_held]; rewrite ?set_at_eq; try done.
  - intros key Hk. by rewrite set_at_ne.
  - lia.
  - by rewrite bool_decide_true.
  - by eapply sg_page.
  - intros j Hj. rewrite M7 by done. unfold E1. by fup.
  - intros j Hj. pose proof (lookup_lt_Some _ _ _ Hi). rewrite M6; [unfold E1; by fup|]. rewrite (sg_lists _ _ _ _ _ _ _ _ _ _ _ Hs), elem_of_seq. lia.
Qed.

(** A page that is not, while there is room. *)
Lemma acquire_new v t1 t2 mp E bufs fb L tag :
  serving v t1 t2 mp E bufs fb L -> tag ∉ v_tags v -> (length (v_tags v) < n)%nat -> readable fs tag ->
  exists s', GetBuffer hash tag (st mp E bufs fb L) = (Ok (pin_of tag (length (v_tags v))), s') /\
    serves (hold (mkView (v_tags v ++ [tag]) (v_page v) (v_held v)) tag 1) s'.
Proof.
  intros [S1 S2 S3 S4 S5 S6 S7 S8 S9 S10 S11 S12 S13 S14 S15] Hfresh Hk Hr. set (k := length (v_tags v)) in *. destruct S1 as [Snd Sle].
  destruct (S3 tag Hfresh) as (Stab & Sview & Sheld). destruct (S15 (n - 1 - k)%nat) as [page Hb]; [lia|].
  replace fb with (Some (n - 1 - k)%nat) in * by (rewrite S14; destruct (n - k)%nat as [|x] eqn:Ex; [lia | cbn; f_equal; lia]).
  assert (Hfree : free_from n k E L).
  { split; [done|]. rewrite S8 by lia. unfold entry_at. rewrite lookup_ge_None_2 by done. unfold below. rewrite decide_True by lia. by rewrite decide_False by lia. }
  assert (Hsize : list_size (L T1) + list_size (L T2) = Z.of_nat k).
  { rewrite (rep_size _ _ _ _ S9), (rep_size _ _ _ _ S10). unfold zlen. apply Permutation_length in S11. rewrite length_app, length_seq in S11. lia. }
  assert (Hpre := preinsert_room hash n fs Hn Hmax mp E bufs (Some (n - 1 - k)%nat) L). rewrite (rep_size _ _ _ _ S9), (rep_size _ _ _ _ S10) in *. unfold zlen in *.
  destruct S13 as [SB1 SB2]. specialize (Hpre ltac:(lia) ltac:(lia) SB1 SB2 ltac:(lia)).
  destruct (create_entry_new hash n fs Hn Hmax k tag mp E bufs L page _ Hk Hfree S2 Stab Hb Hpre) as (mp' & E1 & L1 & Hc & Hl' & Hm' & E1k & E1s & E1o & LF & Lo).
  assert (Hlists : forall j, j ∈ t1 ++ t2 -> (j < k)%nat) by (intros j; rewrite S11, elem_of_seq; lia).
  assert (Hrep : forall l ids, l <> FreeList -> (forall j, j ∈ ids -> (j < k)%nat) -> represents N E (L l) ids -> represents N E1 (L1 l) ids).
  { intros l ids Hne Hlt. rewrite Lo by done. apply represents_links_same. intros j Hj%Hlt. by rewrite E1o by lia. }
  destruct (InsertMRU_rep N (Z.of_nat n) mp' bufs (pred_of (n - 1 - k)) 0 fs ltac:(lia) T1 E1 L1 k t1) as (E2 & L2 & Hi & R1 & F1 & F2 & F3).
  { apply Hrep; [done | | done]. intros j Hj. apply Hlists. set_solver. }
  { lia. } { intros Hin. assert (k < k)%nat by (apply Hlists; set_solver). lia. } { by rewrite E1k. }
  erewrite M_bind_Ok in Hc by exact Hi.
  assert (H22 : represents N E2 (L2 T2) t2).
  { eapply (represents_frame N); [by split | done | |].
    - intros j Hj. assert (j < k)%nat by (apply Hlists; set_solver). intros [->|Hj']%elem_of_cons; [lia|].
      assert (Hnd : NoDup (t1 ++ t2)) by (rewrite S11; apply NoDup_seq). apply NoDup_app in Hnd as (_ & Hd & _). by apply (Hd j).
    - apply Hrep; [done | | done]. intros j Hj. apply Hlists. set_solver. }
  assert (E2k : core_of (E2 k) = (tag, Z.of_nat k, word 3584 1, Some (n - 1 - k)%nat)) by (rewrite F2, E1k; reflexivity).
  assert (HS2 : State (E2 k) = word 3584 1) by by injection E2k.
  erewrite M_bind_Ok in Hc by (apply Unlock_word; [lia | exact HS2 | done | done | done]).
  set (E3 := fupd E2 k _) in *. set (bufs' := <[(n - 1 - k)%nat := mkBuffer (page_of fs tag) (pred_of (n - 1 - k))]> bufs).
  destruct (get_created hash n fs Hn k tag _ mp' E3 bufs (pred_of (n - 1 - k)) L2 (n - 1 - k) (Prev (E2 k)) (Next (E2 k)) (mkBuffer page (pred_of (n - 1 - k)))
    ltac:(by rewrite map_get_st, Stab) Hc) as (E4 & Hg & E4k & Ho).
  { lia. } { unfold E3. fup. unfold core_of in E2k. unfold set_State. by injection E2k as -> -> _ ->. } { done. } { done. }
  cbn [buf_Next] in Hg. fold bufs' in Hg. eexists. split; [exact Hg|].
  assert (Hlinks : forall j, j ∈ k :: t1 ++ t2 -> Prev (E4 j) = Prev (E2 j) /\ Next (E4 j) = Next (E2 j)).
  { intros j _. destruct (decide (j = k)) as [->|Hj]; [by rewrite E4k|]. rewrite Ho by done. unfold E3. by fup. }
  assert (Hother : forall j, j <> k -> core_of (E4 j) = core_of (E1 j)) by (intros j Hj; rewrite Ho by done; unfold E3; fup; apply F2).
  exists (k :: t1), t2, mp', E4, bufs', (pred_of (n - 1 - k)), L2. split; [done|].
  assert (Hkt2 : k ∉ t2) by (intros Hin; assert (k < k)%nat by (apply Hlists; set_solver); lia).
  constructor; cbn [hold v_tags v_page v_held]; rewrite ?length_app; cbn [length]; fold k.
  - split; [|lia]. apply NoDup_app. split; [done|]. split; [|apply NoDup_singleton]. set_solver.
  - done.
  - intros key [Hkey Hne%not_elem_of_cons]%not_elem_of_app. destruct Hne as [Hne _]. rewrite Hm', decide_False, set_at_ne by done. by apply S3.
  - intros i tg [Hi'|[Hge Hi']]%lookup_app_Some.
    + rewrite Hm', decide_False; [by apply S4|]. intros ->. by eapply Hfresh, list_elem_of_lookup_2.
    + apply list_lookup_singleton_Some in Hi' as [Hi0 <-]. fold k in Hi0, Hge. rewrite Hm', decide_True by done. do 2 f_equal. lia.
  - intros i tg [Hi'|[Hge Hi']]%lookup_app_Some.
    + pose proof (lookup_lt_Some _ _ _ Hi') as Hlt. fold k in Hlt. rewrite Hother, E1o by lia. rewrite set_at_ne; [by apply S5|].
      intros ->. by eapply Hfresh, list_elem_of_lookup_2.
    + apply list_lookup_singleton_Some in Hi' as [Hi0 <-]. fold k in Hi0, Hge. replace i with k by lia. exists false.
      rewrite E4k, set_at_eq, Sheld, bool_decide_false by done. reflexivity.
  - intros tg. destruct (decide (tg = tag)) as [->|Hne]; [rewrite set_at_eq; lia | rewrite set_at_ne by done; apply S6].
  - intros i tg [Hi'|[Hge Hi']]%lookup_app_Some.
    + pose proof (lookup_lt_Some _ _ _ Hi') as Hlt. fold k in Hlt. unfold bufs'. rewrite list_lookup_insert_ne by lia. by apply S7.
    + apply list_lookup_singleton_Some in Hi' as [Hi0 <-]. fold k in Hi0, Hge. replace i with k by lia. exists (pred_of (n - 1 - k)).
      unfold bufs'. rewrite list_lookup_insert_eq by (by eapply lookup_lt_Some). by rewrite Sview.
  - intros i Hi'. rewrite entry_at_other by (fold k; lia). fold k. rewrite decide_False by lia. rewrite Ho by lia. unfold E3. fup. rewrite F1.
    + destruct (decide (i = S k)) as [->|Hne]; [rewrite E1s, S8 by lia; done | rewrite E1o, S8 by lia; done].
    + intros [->|Hin]%elem_of_cons; [lia|]. assert (i < k)%nat by (apply Hlists; set_solver). lia.
  - eapply represents_links_same; [|exact R1]. intros j Hj. apply Hlinks. set_solver.
  - eapply represents_links_same; [|exact H22]. intros j Hj. apply Hlinks. set_solver.
  - rewrite seq_app, <-S11. cbn [seq app]. rewrite Permutation_app_comm. cbn. by rewrite Permutation_cons_append.
  - rewrite F3, LF by done. by rewrite Nat.add_1_r.
  - rewrite !F3, !Lo by done. by split.
  - f_equal. lia.
  - intros j Hj. unfold bufs'. rewrite list_lookup_insert_ne by lia. apply S15. lia.
Qed.

(** *** Scripts of users *)
Inductive page_op := Acquire (tag : PageTag) | ReadPage (tag : PageTag) | WritePage (tag : PageTag) (page : list byte) | Release (tag : PageTag).

(** What they do to the pool, with the pins that the users have got, and the contents that are read. *)
Definition run_page_op (pins : gmap PageTag BufferPin) (o : page_op) : M BufferManager (gmap PageTag BufferPin * list (list byte)) :=
  match o with
  | Acquire tag => pin ← GetBuffer hash tag; mret (<[tag := pin]> pins, [])
  | ReadPage tag => pin ← lift (of_option (UB "no pin") (pins !! tag)); page ← GetContents (pin_blockId pin); mret (pins, [page])
  | WritePage tag page => pin ← lift (of_option (UB "no pin") (pins !! tag)); _ ← write_page (pin_blockId pin) page; mret (pins, [])
  | Release tag => pin ← lift (of_option (UB "no pin") (pins !! tag)); _ ← ReturnBuffer (pin_blockId pin); mret (pins, [])
  end.

Fixpoint run_page_ops (pins : gmap PageTag BufferPin) (os : list page_op) : M BufferManager (list (list byte)) :=
  match os with
  | [] => mret []
  | o :: os => '(pins, out) ← run_page_op pins o; outs ← run_page_ops pins os; mret (out ++ outs)
  end.

(** What they do to a map of pages: a page is got when it was already, or while there is room,
    and is used only while it is held. *)
Definition apply_page_op (v : view) (o : page_op) : option (view * list (list byte)) :=
  match o with
  | Acquire tag =>
      if bool_decide (tag ∈ v_tags v) then if v_held v tag <? 2 ^ 20 - 1 then Some (hold v tag 1, []) else None
      else if bool_decide (length (v_tags v) < n)%nat then Some (hold (mkView (v_tags v ++ [tag]) (v_page v) (v_held v)) tag 1, []) else None
  | ReadPage tag => if 0 <? v_held v tag then Some (v, [v_page v tag]) else None
  | WritePage tag page => if 0 <? v_held v tag then Some (write v tag page, []) else None
  | Release tag => if 0 <? v_held v tag then Some (hold v tag (-1), []) else None
  end.

Fixpoint apply_page_ops (v : view) (os : list page_op) : option (view * list (list byte)) :=
  match os with
  | [] => Some (v, [])
  | o :: os =>
      match apply_page_op v o with
      | Some (v, out) => match apply_page_ops v os with Some (v, outs) => Some (v, out ++ outs) | None => None end
      | None => None
      end
  end.

Definition pins_of (v : view) (pins : gmap PageTag BufferPin) : Prop := forall i tag, v_tags v !! i = Some tag -> pins !! tag = Some (pin_of tag i).

Lemma serves_held v s tag : serves v s -> 0 < v_held v tag -> exists i, v_tags v !! i = Some tag.
Proof.
  intros (t1 & t2 & mp & E & bufs & fb & L & -> & Hs) Hh. destruct (decide (tag ∈ v_tags v)) as [Hin|Hin]; [by apply list_elem_of_lookup in Hin|].
  destruct (sg_absent _ _ _ _ _ _ _ _ _ _ _ Hs tag Hin) as (_ & _ & H0'). lia.
Qed.

Lemma page_op_ok v s pins o v' out :
  serves v s -> pins_of v pins -> (forall tag, o = Acquire tag -> readable fs tag) -> apply_page_op v o = Some (v', out) ->
  exists pins' s', run_page_op pins o s = (Ok (pins', out), s') /\ serves v' s' /\ pins_of v' pins'.
Proof.
  intros Hs Hp Hr Ho. pose proof (serves_held v s) as Hheld. pose proof Hs as Hsv. destruct Hs as (t1 & t2 & mp & E & bufs & fb & L & -> & Hs).
  destruct o as [tag|tag|tag page|tag]; cbn [apply_page_op run_page_op] in *.
  2-4: destruct (0 <? v_held v tag) eqn:Eh; [|done]; injection Ho as <- <-; apply Z.ltb_lt in Eh;
       (destruct (Hheld tag) as [i Hi]; [exact Hsv | done |]); rewrite (Hp i tag Hi); erewrite lift_Ok by reflexivity; cbn [pin_blockId].
  - case_bool_decide as Hin.
    + destruct (_ <? _) eqn:Eh; [|done]. apply Z.ltb_lt in Eh. injection Ho as <- <-. apply list_elem_of_lookup in Hin as [i Hi].
      destruct (acquire_hit v t1 t2 mp E bufs fb L i tag Hs Hi Eh) as (s' & Eg & Hs'). eexists _, s'. split; [by erewrite M_bind_Ok by exact Eg|].
      split; [done|]. intros j tg Hj. destruct (decide (tg = tag)) as [->|Hne].
      * rewrite lookup_insert_eq. cbn [hold v_tags] in Hj. replace j with i; [done|]. by eapply NoDup_lookup; [apply (sg_tags _ _ _ _ _ _ _ _ _ _ _ Hs)|..].
      * rewrite lookup_insert_ne by done. by apply Hp.
    + case_bool_decide as Hl; [|done]. injection Ho as <- <-.
      destruct (acquire_new v t1 t2 mp E bufs fb L tag Hs Hin Hl (Hr tag eq_refl)) as (s' & Eg & Hs'). eexists _, s'. split; [by erewrite M_bind_Ok by exact Eg|].
      split; [done|]. cbn [hold v_tags]. intros j tg [Hj|[Hge Hj]]%lookup_app_Some.
      * rewrite lookup_insert_ne; [by apply Hp|]. intros ->. by eapply Hin, list_elem_of_lookup_2.
      * apply list_lookup_singleton_Some in Hj as [Hj <-]. rewrite lookup_insert_eq. do 4 f_equal. lia.
  - eexists _, _. split; [by erewrite M_bind_Ok by (by eapply read_ok)|]. by split.
  - destruct (write_ok v t1 t2 mp E bufs fb L i tag page Hs Hi) as (s' & Ew & Hs'). eexists _, s'. split; [by erewrite M_bind_Ok by exact Ew | done].
  - destruct (return_ok v t1 t2 mp E bufs fb L i tag Hs Hi Eh) as (s' & Ew & Hs'). eexists _, s'. split; [by erewrite M_bind_Ok by exact Ew | done].
Qed.

Lemma page_ops_ok os : forall v s pins v' outs,
  serves v s -> pins_of v pins -> (forall tag, Acquire tag ∈ os -> readable fs tag) -> apply_page_ops v os = Some (v', outs) ->
  exists s', run_page_ops pins os s = (Ok outs, s') /\ serves v' s'.
Proof.
  induction os as [|o os IH]; intros v s pins v' outs Hs Hp Hr; cbn [apply_page_ops run_page_ops].
  - intros [= <- <-]. by exists s.
  - destruct (apply_page_op v o) as [[v1 out]|] eqn:Eo; [|done]. destruct (apply_page_ops v1 os) as [[v2 outs2]|] eqn:Eos; [|done]. intros [= <- <-].
    destruct (page_op_ok v s pins o v1 out Hs Hp) as (pins1 & s1 & E1 & Hs1 & Hp1); [|done|].
    { intros tag ->. apply Hr. by left. }
    destruct (IH v1 s1 pins1 v2 outs2 Hs1 Hp1) as (s2 & E2 & Hs2); [|done|]. { intros tag Hin. apply Hr. by right. }
    exists s2. split; [|done]. erewrite M_bind_Ok by exact E1. cbv beta iota. by erewrite M_bind_Ok by exact E2.
Qed.

Definition initial_view : view := mkView [] (page_of fs) (fun _ => 0).

Lemma new_serves : exists pool, newBufferManager n fs = Ok pool /\ serves initial_view pool.
Proof.
  destruct (new_serves_none hash n fs Hn Hmax) as (mp & E & bufs & L & Hnew & [[S1 S1'] S2 S3 S4 S5 S6 S7 S8 S9]). eexists. split; [exact Hnew|].
  exists [], [], mp, E, bufs, (pred_of n), L. split; [done|]. cbn [length] in *. constructor; cbn [initial_view v_tags v_page v_held length]; try done.
  - split; [apply NoDup_nil_2 | lia].
  - intros key _. split; [apply S1'; set_solver | done].
  - intros i Hi. apply S2. lia.
  - rewrite S4. split; try done; constructor.
  - rewrite S5. split; try done; constructor.
  - intros j Hj. apply S9. lia.
Qed.
End users.

(** C14: As long as its users need no more distinct pages than it has buffers, the buffer pool is a map of pages: for any hash
    function and files, every script that gets, reads, writes and returns pages in any order, with pages got again while they are pinned
    or after they were returned, is carried out without a failure, every read gives what was written last
    (the page of the file at first), and nothing is written to the files. *)
Theorem pool_refines_pages `{Build} `{PosixOk} (hash : PageTag -> Z) (n : nat) (fs : gmap Z (list byte)) (os : list page_op) v' outs :
  (0 < n)%nat -> Z.of_nat n * 2 < 2 ^ 32 - 1 -> (forall tag, Acquire tag ∈ os -> readable fs tag) ->
  apply_page_ops n (initial_view fs) os = Some (v', outs) ->
  exists pool pool', newBufferManager n fs = Ok pool /\ run_page_ops hash ∅ os pool = (Ok outs, pool') /\ bm_files pool' = fs.
Proof.
  intros Hn Hmax Hr Ho. destruct (new_serves hash n fs Hn Hmax) as (pool & Hnew & Hs).
  destruct (page_ops_ok hash n fs Hn Hmax os _ pool ∅ v' outs Hs) as (pool' & Hrun & Hs'); [done | done | done |].
  exists pool, pool'. split; [done|]. split; [done|]. by destruct Hs' as (t1 & t2 & mp & E & bufs & fb & L & -> & _).
Qed.

Lemma pool_refines_pages_witness :
  let fs := {[16384 := zeros (2 * Config.PageSize)]} : gmap Z (list byte) in
  let p := mkPageTag 16384 in
  let ones := replicate (Z.to_nat Config.PageSize) x01 in
  exists pool pool', @newBufferManager DebugBuild 2 fs = Ok pool /\
    @run_page_ops DebugBuild File.RamFile (PageTagHash (wrap 64)) ∅ [Acquire (p 0); WritePage (p 0) ones; Acquire (p 1); Acquire (p 0); ReadPage (p 1);
      Release (p 0); Release (p 0); Release (p 1); Acquire (p 0); ReadPage (p 0)] pool = (Ok [zeros Config.PageSize; ones], pool').
Proof.
  intros fs p ones.
  edestruct (@pool_refines_pages DebugBuild File.RamFile File.RamFile_ok (PageTagHash (wrap 64)) 2 fs
    [Acquire (p 0); WritePage (p 0) ones; Acquire (p 1); Acquire (p 0); ReadPage (p 1); Release (p 0); Release (p 0); Release (p 1); Acquire (p 0); ReadPage (p 0)])
    as (pool & pool' & Hnew & Hrun & _).
  - lia.
  - vm_compute. reflexivity.
  - assert (Hr : forall q, 0 <= q < 2 -> readable fs (p q)).
    { intros q Hq. exists (zeros (2 * Config.PageSize)). split; [reflexivity|]. rewrite zlen_zeros by (vm_compute; discriminate). cbn [PageNo p].
      unfold Config.PageSize. lia. }
    intros tag Hin. repeat (apply elem_of_cons in Hin as [Hin|Hin]; [try discriminate; injection Hin as ->; apply Hr; lia|]). by apply elem_of_nil in Hin.
  - reflexivity.
  - exists pool, pool'. split; [exact Hnew|]. exact Hrun.
Defined.
