(* ===== verification/EntryIO.v ===== *)
(** The input and output of one cache entry under concurrency: [Lock], [waitIO], [ShouldStartIO], [TerminateBufferIO],
    [ReadBuffer] and [FlushBuffer] of [storage/buffer/internal/CacheEntry.cpp] in their accesses to shared memory, interleaved with the
    workers that use the page, pin it or move the entry between lists. The model keeps the order of the accesses to the state
    word, the latch, the page and the file that the code has; the invariant says what each place of a worker knows, and
    the owners of the lock of the entry, of the latch and of the input or output in progress are unique. *)
From stdpp Require Import functions relations.
From S2P Require Import Prelude BufferPool.
Import CacheEntryFlags.

(** ** The shared memory

    [s_word] is the state word of the entry; [s_latch] is the worker that has the latch of the buffer; [s_page] is the page in the buffer
    and [s_file] the bytes of the page in the file. [s_last] is for the specification: the bytes that were written
    last by a user of the page, those of the file at first. *)
Record Shared := mkShared { s_word : Z; s_latch : option nat; s_page : list byte; s_file : list byte; s_last : list byte }.

Definition set_word (w : Z) (sh : Shared) : Shared := mkShared w (s_latch sh) (s_page sh) (s_file sh) (s_last sh).
Definition set_latch (l : option nat) (sh : Shared) : Shared := mkShared (s_word sh) l (s_page sh) (s_file sh) (s_last sh).
Definition set_page (p : list byte) (sh : Shared) : Shared := mkShared (s_word sh) (s_latch sh) p (s_file sh) (s_last sh).
Definition set_file (f : list byte) (sh : Shared) : Shared := mkShared (s_word sh) (s_latch sh) (s_page sh) f (s_last sh).
Definition write_page (p : list byte) (sh : Shared) : Shared := mkShared (s_word sh) (s_latch sh) p (s_file sh) p.

(** ** The workers

    [forInput]: the worker reads the page in, or else it flushes it. *)
Inductive Direction := Input | Output.

(** Who locks the entry: [ShouldStartIO], [waitIO], [TerminateBufferIO] after a transfer that has succeeded or not, and the
    operations on lists. *)
Inductive Caller := CStart (d : Direction) | CWait (d : Direction) | CTerminate (d : Direction) (ok : bool) | CList.

(** The place of a worker: the access to shared memory that it makes next. *)
Inductive place :=
| Idle | Finished (d : Direction) (ok : bool)
| Read_load
| Locking (c : Caller) | Spinning (c : Caller) | Unlocking (next : place)
| Start_set (d : Direction)
| Wait_latch (d : Direction) | Wait_check (d : Direction) | Wait_sleep (d : Direction) | Asleep (d : Direction)
| Wait_relatch (d : Direction) | Wait_unlatch (d : Direction)
| Io_latch (d : Direction) | Io_transfer (d : Direction)
| Term_clear (d : Direction) (ok : bool) | Term_unset (d : Direction) (ok : bool) | Term_set (d : Direction) (ok : bool)
| Term_notify (d : Direction) (ok : bool) | Io_unlatch (d : Direction) (ok : bool)
| List_change
| Use_latch | Use_write | Use_mark | Use_unlatch
| Crashed (what : string).

(** What is not determined by the code of the entry: what an idle worker calls, whether a transfer succeeds, the flags of
    lists that change, and what a user writes. *)
Inductive choice :=
| Call_read | Call_flush | Call_list | Call_use | Do_pin | Do_unpin
| Go | Fails (rest : list byte) | Or_flags (v : Z) | And_not_flags (v : Z) | Bytes (p : list byte).

(** What a worker does when [Lock] gives it the entry, with the state word before. *)
Definition locked_as (c : Caller) (old : Z) : place :=
  match c with
  | CStart d =>
      if has old IoInProgress then Unlocking (Locking (CWait d))
      else if match d with Input => has old DataValid | Output => negb (has old Dirty) end then Unlocking (Finished d true)
      else Start_set d
  | CWait d => Unlocking (if has old IoInProgress then Wait_latch d else Locking (CStart d))
  | CTerminate d ok => if has old IoInProgress then Term_clear d ok else Crashed "state & CacheEntryFlags::IoInProgress"
  | CList => List_change
  end.

(** The flags that [TerminateBufferIO] sets and clears. *)
Definition set_flags (d : Direction) (ok : bool) : Z := if ok then DataValid else IoError.
Definition unset_flags (d : Direction) (ok : bool) : Z := match d with Input => 0 | Output => if ok then Dirty else 0 end.

Definition acquire (me : nat) (next : place) (sh : Shared) : option (Shared * place) :=
  match s_latch sh with None => Some (set_latch (Some me) sh, next) | Some _ => None end.

(** What is left out of the operations on lists is that [tryVacateEntry] takes the buffer from an entry that is pinned by nobody else
    (BufferManager.cpp:435): the workers here keep their pin while they are in an operation. *)
Section steps.
(** Whether the users of a page mark it dirty when they have written to it. *)
Context (marks : bool).

(** The next access of the worker [me]; a call that waits has none. [wait] of the condition variable gives the latch back.
    A page is read by users that have seen it valid, and is evicted only when it is: [GetBuffer] returns no other. *)
Definition access (o : choice) (me : nat) (sh : Shared) (p : place) : option (Shared * place) :=
  let w := s_word sh in
  let word w next := Some (set_word w sh, next) in
  match p, o with
  | Idle, Call_read => Some (sh, Read_load)
  | Idle, Call_flush => if has w DataValid then Some (sh, Locking (CStart Output)) else None
  | Idle, Call_list => Some (sh, Locking CList)
  | Idle, Call_use => if has w DataValid then Some (sh, Use_latch) else None
  | Idle, Do_pin => if Z.land w BufferRefCountMask =? BufferRefCountMask then None else word (wrap 32 (w + BufferRefCountOne)) Idle
  | Idle, Do_unpin => if 0 <? Z.land w BufferRefCountMask then word (wrap 32 (w - BufferRefCountOne)) Idle else None
  | Finished _ _, Go => Some (sh, Idle)
  | Read_load, Go => Some (sh, if has w DataValid then Finished Input true else Locking (CStart Input))
  | Locking c, Go => word (Z.lor w Locked) (if has w Locked then Spinning c else locked_as c w)
  | Spinning c, Go => Some (sh, if has w Locked then Spinning c else Locking c)
  | Unlocking next, Go => word (wrap 32 (w - Locked)) (if has w Locked then next else Crashed "prev & CacheEntryFlags::Locked")
  | Start_set d, Go => word (Z.lor w IoInProgress) (Unlocking (Io_latch d))
  | Wait_latch d, Go => acquire me (Wait_check d) sh
  | Wait_check d, Go => Some (sh, if has w IoInProgress then Wait_sleep d else Wait_unlatch d)
  | Wait_sleep d, Go => Some (set_latch None sh, Asleep d)
  | Asleep d, Go => Some (sh, Wait_relatch d)
  | Wait_relatch d, Go => acquire me (Wait_unlatch d) sh
  | Wait_unlatch d, Go => Some (set_latch None sh, Locking (CWait d))
  | Io_latch d, Go => acquire me (Io_transfer d) sh
  | Io_transfer Input, Go => Some (set_page (s_file sh) sh, Locking (CTerminate Input true))
  | Io_transfer Input, Fails rest => Some (set_page rest sh, Locking (CTerminate Input false))
  | Io_transfer Output, Go => Some (set_file (s_page sh) sh, Locking (CTerminate Output true))
  | Io_transfer Output, Fails rest =>
      Some (set_file rest sh, Locking (CTerminate Output false))
  | Term_clear d ok, Go => word (Z.ldiff w (Z.lor IoInProgress IoError)) (Term_unset d ok)
  | Term_unset d ok, Go => word (Z.ldiff w (unset_flags d ok)) (Term_set d ok)
  | Term_set d ok, Go => word (Z.lor w (set_flags d ok)) (Unlocking (Term_notify d ok))
  | Io_unlatch d ok, Go => Some (set_latch None sh, Finished d ok)
  | List_change, Or_flags v => word (Z.lor w (Z.land v CacheEntryListMask)) List_change
  | List_change, And_not_flags v => word (Z.ldiff w (Z.land v CacheEntryListMask)) List_change
  | List_change, Go => Some (sh, Unlocking Idle)
  | Use_latch, Go => acquire me Use_write sh
  | Use_write, Bytes p => Some (write_page p sh, if marks then Use_mark else Use_unlatch)
  | Use_mark, Go => word (Z.lor w Dirty) Use_unlatch
  | Use_unlatch, Go => Some (set_latch None sh, Idle)
  | _, _ => None
  end.

Record state := mkState { shared : Shared; places : nat -> place }.

(** [notify_all]. *)
Definition wake (p : place) : place := match p with Asleep d => Wait_relatch d | _ => p end.

(** The step of a worker: an access, or the notification. A sleeper may also wake up by itself. *)
Inductive step : nat -> state -> state -> Prop :=
| step_access o i sh ps sh' p' : access o i sh (ps i) = Some (sh', p') -> step i (mkState sh ps) (mkState sh' (<[i := p']> ps))
| step_notify i sh ps d ok : ps i = Term_notify d ok -> step i (mkState sh ps) (mkState sh (<[i := Io_unlatch d ok]> (fun j => wake (ps j)))).

(** A new entry with any pins and list flags: its page was not read, nobody has a latch or uses it. *)
Definition start (word : Z) (file rest : list byte) : state := mkState (mkShared word None rest file file) (fun _ => Idle).

Definition any_step (s s' : state) : Prop := exists i, step i s s'.
End steps.

(** ** The flags of the state word *)
Lemma flag_bit w k : 0 <= k -> has w (2 ^ k) = Z.testbit w k.
Proof.
  intros Hk. unfold has. destruct (Z.testbit w k) eqn:E.
  - apply negb_true_iff, Z.eqb_neq. intros Hz. assert (Z.testbit (Z.land w (2 ^ k)) k = false) as Hf by by rewrite Hz, Z.bits_0.
    rewrite Z.land_spec, E, Z.pow2_bits_true in Hf by lia. done.
  - apply negb_false_iff, Z.eqb_eq, Z.bits_inj'. intros i Hi. rewrite Z.land_spec, Z.pow2_bits_eqb, Z.bits_0 by lia.
    destruct (Z.eqb_spec k i) as [<-|]; [by rewrite E | by rewrite andb_false_r].
Qed.

Definition is_flag (f : Z) : Prop := exists k, 20 <= k /\ f = 2 ^ k.
Lemma is_flags : is_flag Locked /\ is_flag IoInProgress /\ is_flag Dirty /\ is_flag DataValid.
Proof. split_and!; [exists 31 | exists 27 | exists 26 | exists 25]; by split. Qed.

Lemma has_lor w v f : is_flag f -> has (Z.lor w v) f = has w f || has v f.
Proof. intros (k & Hk & ->). rewrite !flag_bit by lia. apply Z.lor_spec. Qed.
Lemma has_ldiff w v f : is_flag f -> has (Z.ldiff w v) f = has w f && negb (has v f).
Proof. intros (k & Hk & ->). rewrite !flag_bit by lia. apply Z.ldiff_spec. Qed.
Lemma has_land w v f : is_flag f -> has (Z.land w v) f = has w f && has v f.
Proof. intros (k & Hk & ->). rewrite !flag_bit by lia. apply Z.land_spec. Qed.

(** Numbers that agree above the count of pins have the same flags. *)
Lemma has_high w w' f : is_flag f -> w' / 2 ^ 20 = w / 2 ^ 20 -> has w' f = has w f.
Proof.
  intros (k & Hk & ->) He. rewrite !flag_bit by lia. replace k with (k - 20 + 20) by lia. rewrite <-!Z.div_pow2_bits by lia. by rewrite He.
Qed.

Lemma pins_spec w : Z.land w BufferRefCountMask = w mod 2 ^ 20.
Proof. change BufferRefCountMask with (Z.ones 20). by rewrite Z.land_ones. Qed.

Definition word_ok (w : Z) : Prop := 0 <= w < 2 ^ 32.

Lemma pin_high w : word_ok w -> Z.land w BufferRefCountMask <> BufferRefCountMask ->
  word_ok (wrap 32 (w + BufferRefCountOne)) /\ wrap 32 (w + BufferRefCountOne) / 2 ^ 20 = w / 2 ^ 20.
Proof.
  rewrite pins_spec. unfold word_ok, BufferRefCountMask, BufferRefCountOne. intros Hw Hp.
  assert (w + 1 < 2 ^ 32) by (destruct (Z.eq_dec w (2 ^ 32 - 1)) as [->|]; [by destruct Hp | lia]).
  rewrite wrap_small by lia. split; [lia|]. pose proof (Z.div_mod w (2 ^ 20)). pose proof (Z.mod_pos_bound w (2 ^ 20)).
  symmetry. apply Z.div_unique with (w mod 2 ^ 20 + 1); lia.
Qed.

Lemma unpin_high w : word_ok w -> 0 < Z.land w BufferRefCountMask ->
  word_ok (wrap 32 (w - BufferRefCountOne)) /\ wrap 32 (w - BufferRefCountOne) / 2 ^ 20 = w / 2 ^ 20.
Proof.
  rewrite pins_spec. unfold word_ok, BufferRefCountOne. intros Hw Hp.
  pose proof (Z.div_mod w (2 ^ 20)). pose proof (Z.mod_pos_bound w (2 ^ 20)). pose proof (Z.div_pos w (2 ^ 20)).
  rewrite wrap_small by lia. split; [lia|]. symmetry. apply Z.div_unique with (w mod 2 ^ 20 - 1); lia.
Qed.

Lemma unlock_word w : word_ok w -> has w Locked = true -> wrap 32 (w - Locked) = Z.ldiff w Locked.
Proof.
  intros Hw Hl. unfold Locked in *. assert (Hs : w - 2 ^ 31 = Z.ldiff w (2 ^ 31)).
  { apply Z.sub_nocarry_ldiff, Z.bits_inj'. intros i Hi. rewrite Z.ldiff_spec, Z.pow2_bits_eqb, Z.bits_0 by lia.
    destruct (Z.eqb_spec 31 i) as [<-|]; [|done]. rewrite flag_bit in Hl by lia. by rewrite Hl. }
  rewrite Hs. apply wrap_small. rewrite <-Hs. unfold word_ok in Hw.
  assert (2 ^ 31 <= w); [|lia]. rewrite flag_bit in Hl by lia. destruct (Z.le_gt_cases (2 ^ 31) w) as [|Hlt]; [done|].
  rewrite Z.bits_above_log2 in Hl; [done | lia |]. destruct (Z.eq_dec w 0) as [->|]; [done|]. apply Z.log2_lt_pow2; lia.
Qed.

Lemma lor_ok w v : word_ok w -> word_ok v -> word_ok (Z.lor w v).
Proof.
  unfold word_ok. intros Hw Hv. split; [apply Z.lor_nonneg; lia|]. destruct (Z.eq_dec (Z.lor w v) 0) as [->|]; [done|].
  apply Z.log2_lt_pow2; [pose proof (proj2 (Z.lor_nonneg w v)); lia|]. rewrite Z.log2_lor by lia.
  assert (forall x, 0 <= x < 2 ^ 32 -> Z.log2 x < 32) as Hx; [|apply Z.max_lub_lt; by apply Hx].
  intros x Hx. destruct (Z.eq_dec x 0) as [->|]; [done|]. apply Z.log2_lt_pow2; lia.
Qed.

Lemma ldiff_ok w v : word_ok w -> word_ok (Z.ldiff w v).
Proof.
  unfold word_ok. intros Hw. split; [apply Z.ldiff_nonneg; lia|]. 
  assert (Hd : w - Z.land w v = Z.ldiff w v).
  { rewrite Z.sub_nocarry_ldiff; apply Z.bits_inj'; intros i Hi; rewrite !Z.ldiff_spec, ?Z.land_spec, ?Z.bits_0; by destruct (Z.testbit w i), (Z.testbit v i). }
  assert (0 <= Z.land w v) by (apply Z.land_nonneg; lia). lia.
Qed.

Ltac flag := first [apply is_flags | apply (proj2 is_flags) | apply (proj2 (proj2 is_flags))].

Lemma flag_ok f : f ∈ [Locked; IoInProgress; Dirty; DataValid] -> word_ok f.
Proof. rewrite !elem_of_cons, elem_of_nil. unfold word_ok. intros [->|[->|[->|[->|[]]]]]; by compute. Qed.

(** ** What the place of a worker says *)

(** The worker has locked the entry; the latch of the buffer is its; it is the one that does input or output. *)
Definition holds_spin (p : place) : bool :=
  match p with Unlocking _ | Start_set _ | Term_clear _ _ | Term_unset _ _ | Term_set _ _ | List_change => true | _ => false end.

Fixpoint holds_latch (p : place) : bool :=
  match p with
  | Wait_check _ | Wait_sleep _ | Wait_unlatch _ | Io_transfer _ | Term_clear _ _ | Term_unset _ _ | Term_set _ _ | Term_notify _ _
  | Io_unlatch _ _ | Use_write | Use_mark | Use_unlatch | Locking (CTerminate _ _) | Spinning (CTerminate _ _) => true
  | Unlocking next => holds_latch next
  | _ => false
  end.

Fixpoint in_io (p : place) : bool :=
  match p with
  | Io_latch _ | Io_transfer _ | Locking (CTerminate _ _) | Spinning (CTerminate _ _) | Term_clear _ _ => true
  | Unlocking next => in_io next
  | _ => false
  end.

(** It has cleared the flag and has not yet woken up the others. *)
Fixpoint notifying (p : place) : bool :=
  match p with Term_unset _ _ | Term_set _ _ | Term_notify _ _ => true | Unlocking next => notifying next | _ => false end.
Definition sleepy (p : place) : bool := match p with Wait_sleep _ | Asleep _ => true | _ => false end.
(** The page may differ from the file although the word does not say it. *)
Definition noisy (p : place) : bool := match p with Use_mark | Term_unset Output false | Term_set Output false => true | _ => false end.

(** Whether the data are valid, are not, and whether the page is dirty, where the place says it. *)
Fixpoint needs_valid (p : place) : bool :=
  match p with
  | Start_set Output | Io_latch Output | Io_transfer Output | Locking (CTerminate Output _) | Spinning (CTerminate Output _)
  | Locking (CStart Output) | Spinning (CStart Output) | Locking (CWait Output) | Spinning (CWait Output)
  | Wait_latch Output | Wait_check Output | Wait_sleep Output | Asleep Output | Wait_relatch Output | Wait_unlatch Output
  | Term_clear Output _ | Term_unset Output _ | Term_set Output _
  | Use_latch | Use_write | Use_mark | Use_unlatch
  | Term_notify Input true | Io_unlatch Input true | Finished Input true => true
  | Unlocking next => needs_valid next
  | _ => false
  end.
Fixpoint needs_invalid (p : place) : bool :=
  match p with
  | Start_set Input | Io_latch Input | Io_transfer Input | Locking (CTerminate Input _) | Spinning (CTerminate Input _)
  | Term_clear Input _ | Term_unset Input _ | Term_set Input _ => true
  | Unlocking next => needs_invalid next
  | _ => false
  end.
Fixpoint needs_dirty (p : place) : bool :=
  match p with
  | Start_set Output | Io_latch Output | Io_transfer Output | Locking (CTerminate Output _) | Spinning (CTerminate Output _)
  | Term_clear Output _ => true
  | Unlocking next => needs_dirty next
  | _ => false
  end.
(** No input or output goes on. *)
Definition no_io (p : place) : bool := match p with Start_set _ | Term_unset _ _ | Term_set _ _ => true | _ => false end.
(** The page has been read, or been written to the file. *)
Definition loaded (p : place) : bool :=
  match p with
  | Locking (CTerminate Input true) | Spinning (CTerminate Input true) | Term_clear Input true | Term_unset Input true | Term_set Input true => true
  | _ => false
  end.
Definition saved (p : place) : bool :=
  match p with
  | Locking (CTerminate Output true) | Spinning (CTerminate Output true) | Term_clear Output true | Term_unset Output true
  | Term_set Output true => true
  | _ => false
  end.

(** Where [Unlock] returns to. *)
Definition calm (p : place) : bool :=
  match p with
  | Idle | Finished _ true | Locking (CStart _) | Locking (CWait _) | Wait_latch _ | Io_latch _ | Term_notify _ _ => true
  | _ => false
  end.
Definition place_ok (p : place) : bool := match p with Crashed _ => false | Unlocking next => calm next | _ => true end.

Record agrees (sh : Shared) (p : place) : Prop := {
  ag_ok : place_ok p = true;
  ag_valid : needs_valid p = true -> has (s_word sh) DataValid = true;
  ag_invalid : needs_invalid p = true -> has (s_word sh) DataValid = false;
  ag_dirty : needs_dirty p = true -> has (s_word sh) Dirty = true;
  ag_no_io : no_io p = true -> has (s_word sh) IoInProgress = false;
  ag_loaded : loaded p = true -> s_page sh = s_last sh;
  ag_saved : saved p = true -> s_file sh = s_last sh
}.

(** The bytes written last are in the page when its data are valid, and in the file when they are not. *)
Definition data_ok (sh : Shared) : Prop := (if has (s_word sh) DataValid then s_page sh else s_file sh) = s_last sh.
Definition clean_ok (sh : Shared) : Prop :=
  has (s_word sh) DataValid = true -> has (s_word sh) Dirty = false -> s_file sh = s_last sh.

Definition is_some {A} (o : option A) : bool := match o with Some _ => true | None => false end.
Definition new_owner (Q : place -> bool) (i : nat) (p p' : place) (o : option nat) : option nat :=
  if Q p' then Some i else if Q p then None else o.

(** ** One access *)

(** The flags of the word after the access of a worker at a place. *)
Definition new_locked (p : place) (b : bool) : bool := match p with Locking _ => true | Unlocking _ => false | _ => b end.
Definition new_io (p : place) (b : bool) : bool := match p with Start_set _ => true | Term_clear _ _ => false | _ => b end.
Definition new_dirty (p : place) (b : bool) : bool :=
  match p with
  | Term_clear _ _ | Term_unset Output true => false
  | Term_set _ false | Use_mark => true
  | _ => b
  end.
Definition new_valid (p : place) (b : bool) : bool := match p with Term_set _ true => true | _ => b end.

Record word_step (p : place) (w w' : Z) : Prop := {
  ws_ok : word_ok w';
  ws_locked : has w' Locked = new_locked p (has w Locked);
  ws_io : has w' IoInProgress = new_io p (has w IoInProgress);
  ws_dirty : has w' Dirty = new_dirty p (has w Dirty);
  ws_valid : has w' DataValid = new_valid p (has w DataValid)
}.

Lemma word_same p w : word_ok w -> new_locked p = id -> new_io p = id -> new_dirty p = id -> new_valid p = id -> word_step p w w.
Proof. intros Hw H1 H2 H3 H4. split; by rewrite ?H1, ?H2, ?H3, ?H4. Qed.

Lemma word_high p w w' : new_locked p = id -> new_io p = id -> new_dirty p = id -> new_valid p = id ->
  word_ok w' /\ w' / 2 ^ 20 = w / 2 ^ 20 -> word_step p w w'.
Proof. intros H1 H2 H3 H4 [Hw He]. split; rewrite ?H1, ?H2, ?H3, ?H4; try done; apply has_high; (done || flag). Qed.

Lemma step_lor p w v : word_ok w -> word_ok v ->
  (forall b, new_locked p b = b || has v Locked) -> (forall b, new_io p b = b || has v IoInProgress) ->
  (forall b, new_dirty p b = b || has v Dirty) -> (forall b, new_valid p b = b || has v DataValid) -> word_step p w (Z.lor w v).
Proof. intros Hw Hv H1 H2 H3 H4. split; [by apply lor_ok | ..]; rewrite has_lor by flag; done. Qed.

Lemma step_ldiff p w v : word_ok w ->
  (forall b, new_locked p b = b && negb (has v Locked)) -> (forall b, new_io p b = b && negb (has v IoInProgress)) ->
  (forall b, new_dirty p b = b && negb (has v Dirty)) -> (forall b, new_valid p b = b && negb (has v DataValid)) -> word_step p w (Z.ldiff w v).
Proof. intros Hw H1 H2 H3 H4. split; [by apply ldiff_ok | ..]; rewrite has_ldiff by flag; done. Qed.

Lemma mask_ok v : word_ok (Z.land v CacheEntryListMask).
Proof.
  change CacheEntryListMask with (Z.land CacheEntryListMask (Z.ones 32)). rewrite Z.land_assoc, Z.land_ones by lia.
  apply Z.mod_pos_bound. lia.
Qed.

Lemma mask_has v f : is_flag f -> has CacheEntryListMask f = false -> has (Z.land v CacheEntryListMask) f = false.
Proof. intros Hf Hm. rewrite has_land by done. rewrite Hm. apply andb_false_r. Qed.

(** The cases of an access, one for each place and choice that has one. *)
Ltac access_cases H p o :=
  destruct p, o; cbn [access] in H; try discriminate H; unfold acquire, locked_as in H; repeat case_match; simplify_eq; cbn [set_word set_latch set_page set_file write_page s_word s_latch s_page s_file s_last] in *.

Lemma access_word marks o i sh p sh' p' : word_ok (s_word sh) -> (holds_spin p = true -> has (s_word sh) Locked = true) ->
  access marks o i sh p = Some (sh', p') -> word_step p (s_word sh) (s_word sh').
Proof.
  intros Hw Hs Ha. access_cases Ha p o; try by apply word_same.
  all: try by specialize (Hs eq_refl).
  all: try (rewrite unlock_word by auto; apply step_ldiff; [done | by intros [] ..]).
  all: try (apply step_lor; [done | by apply mask_ok | intros b; rewrite mask_has; [by rewrite orb_false_r | flag | done] ..]).
  all: try (apply step_ldiff; [done | intros b; rewrite mask_has; [by rewrite andb_true_r | flag | done] ..]).
  all: try (apply word_high; [done ..|]; first [apply pin_high; [done | by apply Z.eqb_neq] | apply unpin_high; [done | by apply Z.ltb_lt]]).
  all: repeat match goal with d : Direction |- _ => destruct d | b : bool |- _ => destruct b end.
  all: try (apply step_lor; [done | by compute | by intros [] ..]).
  all: apply step_ldiff; [done | by intros [] ..].
Qed.

(** What holds of the worker [me] at [p] and the shared memory, when [spin] has locked the entry and [iow] does its input or output. *)
Record view (me : nat) (p : place) (sh : Shared) (spin iow : option nat) : Prop := {
  v_word : word_ok (s_word sh);
  v_locked : has (s_word sh) Locked = is_some spin;
  v_io : has (s_word sh) IoInProgress = is_some iow;
  v_spin : holds_spin p = true <-> spin = Some me;
  v_latch : holds_latch p = true <-> s_latch sh = Some me;
  v_iow : in_io p = true <-> iow = Some me;
  v_agrees : agrees sh p;
  v_data : data_ok sh
}.

(** What an access of it keeps and what it grants: the owners after it, and what the other workers rely on. *)
Record granted (marks : bool) (me : nat) (p p' : place) (sh sh' : Shared) (spin iow : option nat) : Prop := {
  g_spin : has (s_word sh') Locked = is_some (new_owner holds_spin me p p' spin);
  g_io : has (s_word sh') IoInProgress = is_some (new_owner in_io me p p' iow);
  g_latch : s_latch sh' = new_owner holds_latch me p p' (s_latch sh);
  g_spin_free : holds_spin p' = true -> holds_spin p = true \/ is_some spin = false;
  g_io_free : in_io p' = true -> in_io p = true \/ is_some iow = false;
  g_latch_free : holds_latch p' = true -> holds_latch p = true \/ s_latch sh = None;
  g_agrees : agrees sh' p';
  g_data : data_ok sh';
  g_clean : marks = true -> clean_ok sh \/ noisy p = true -> clean_ok sh' \/ noisy p' = true;
  g_sleepy : sleepy p' = true -> sleepy p = true \/ is_some iow = true;
  g_end : in_io p = true -> in_io p' = true \/ notifying p' = true;
  g_notifying : notifying p = true -> notifying p' = true;
  g_io_word : has (s_word sh') IoInProgress = has (s_word sh) IoInProgress \/ holds_spin p = true;
  g_frame : holds_latch p = true \/ (s_page sh' = s_page sh /\ s_file sh' = s_file sh /\ s_last sh' = s_last sh)
}.

Lemma access_granted marks o me p p' sh sh' spin iow : view me p sh spin iow -> access marks o me sh p = Some (sh', p') ->
  granted marks me p p' sh sh' spin iow.
Proof.
  intros V Ha. assert (W : word_step p (s_word sh) (s_word sh')).
  { eapply access_word; [exact (v_word _ _ _ _ _ V) | | exact Ha]. intros Hs. rewrite (v_locked _ _ _ _ _ V).
    by rewrite (proj1 (v_spin _ _ _ _ _ V) Hs). }
  destruct W as [_ W1 W2 W3 W4]. destruct V as [_ V1 V2 V3 V4 V5 [A1 A2 A3 A4 A5 A6 A7] V7].
  rewrite V1 in W1. rewrite V2 in W2. unfold data_ok, clean_ok in *.
  access_cases Ha p o.
  all: repeat match goal with
    | d : Direction |- _ => destruct d | ok : bool |- _ => destruct ok
    | c : Caller |- _ => destruct c | A : place_ok (Unlocking ?n) = true |- _ => is_var n; destruct n; try discriminate A
    | N : negb _ = false |- _ => apply negb_false_iff in N
    end; try discriminate.
  all: cbn in V3, V4, V5, W1, W2, W3, W4, A2, A3, A4, A5, A6, A7; repeat match goal with
    | Q : true = true <-> _ |- _ => apply proj1 in Q; specialize (Q eq_refl)
    | Q : true = true -> _ |- _ => specialize (Q eq_refl)
    end; simplify_eq; cbn in W1, W2, V1, V2.
  all: split; unfold new_owner, data_ok, clean_ok; cbn; rewrite ?W3, ?W4; try done; try congruence; try tauto;
    try (left; congruence); try (right; congruence); try (split; cbn; intros; congruence); case_match; congruence.
Qed.

(** ** The other workers *)

Lemma invalid_owner q : place_ok q = true -> needs_invalid q = true -> holds_spin q = true \/ in_io q = true.
Proof. destruct q as [| | |[]|[]| | | | | | | | | | | | | | | | | | | | |]; cbn; auto; done. Qed.
Lemma dirty_owner q : needs_dirty q = true -> holds_spin q = true \/ in_io q = true.
Proof. destruct q as [| | |[]|[]| | | | | | | | | | | | | | | | | | | | |]; cbn; auto; done. Qed.
Lemma no_io_owner q : no_io q = true -> holds_spin q = true.
Proof. by destruct q. Qed.
Lemma moved_owner q : loaded q = true \/ saved q = true -> holds_latch q = true.
Proof. destruct q as [| | |[]|[]| | | | | | | | | | | | | | | | | | | | |]; cbn; intros [|]; done. Qed.

Lemma agrees_stable marks me j p p' q sh sh' spin iow : j <> me -> view me p sh spin iow -> view j q sh spin iow ->
  word_step p (s_word sh) (s_word sh') -> granted marks me p p' sh sh' spin iow -> agrees sh' q.
Proof.
  intros Hj Vp Vq W G. destruct (v_agrees _ _ _ _ _ Vq) as [A1 A2 A3 A4 A5 A6 A7].
  assert (Hs : holds_spin q = true -> holds_spin p = false).
  { intros Hq. apply (v_spin _ _ _ _ _ Vq) in Hq. apply not_true_iff_false. intros Hp%(v_spin _ _ _ _ _ Vp). congruence. }
  assert (Hl : holds_latch q = true -> holds_latch p = false).
  { intros Hq. apply (v_latch _ _ _ _ _ Vq) in Hq. apply not_true_iff_false. intros Hp%(v_latch _ _ _ _ _ Vp). congruence. }
  assert (Hi : in_io q = true -> in_io p = false /\ no_io p = false).
  { intros Hq. apply (v_iow _ _ _ _ _ Vq) in Hq. split; apply not_true_iff_false; [intros Hp%(v_iow _ _ _ _ _ Vp); congruence|].
    intros Hp%(ag_no_io _ _ (v_agrees _ _ _ _ _ Vp)). rewrite (v_io _ _ _ _ _ Vp), Hq in Hp. done. }
  split; [done | ..].
  - intros Hq. rewrite (ws_valid _ _ _ W), A2 by done. destruct p; cbn; by repeat case_match.
  - intros Hq. rewrite (ws_valid _ _ _ W), A3 by done. destruct (invalid_owner q A1 Hq) as [Hp%Hs | [_ Hp]%Hi]; by destruct p.
  - intros Hq. rewrite (ws_dirty _ _ _ W), A4 by done. destruct (dirty_owner q Hq) as [Hp%Hs | [Hp Hp']%Hi];
      destruct p; cbn in *; repeat case_match; done.
  - intros Hq. destruct (g_io_word _ _ _ _ _ _ _ _ G) as [->|Hp]; [by apply A5|]. rewrite Hs in Hp by by apply no_io_owner. done.
  - intros Hq. destruct (g_frame _ _ _ _ _ _ _ _ G) as [Hp|(-> & _ & ->)]; [|by apply A6]. rewrite Hl in Hp by (apply moved_owner; tauto). done.
  - intros Hq. destruct (g_frame _ _ _ _ _ _ _ _ G) as [Hp|(_ & -> & ->)]; [|by apply A7]. rewrite Hl in Hp by (apply moved_owner; tauto). done.
Qed.

(** The owner of a thing after one worker has moved. *)
Lemma new_owner_me Q me p p' o : (Q p = true <-> o = Some me) -> Q p' = true <-> new_owner Q me p p' o = Some me.
Proof. intros H. unfold new_owner. destruct (Q p') eqn:E'; [done|]. destruct (Q p) eqn:E; [done|]. rewrite <-H. done. Qed.

Lemma new_owner_other Q me j p p' q o : j <> me -> (Q p = true <-> o = Some me) -> (Q q = true <-> o = Some j) ->
  (Q p' = true -> Q p = true \/ is_some o = false) -> Q q = true <-> new_owner Q me p p' o = Some j.
Proof.
  intros Hj Hp Hq Hf. unfold new_owner. destruct (Q p') eqn:E'; [|destruct (Q p) eqn:E; [|done]]; rewrite Hq.
  - destruct (Hf eq_refl) as [Hp'|Ho]; [apply Hp in Hp'; subst; split; congruence|]. destruct o; [done|]. split; congruence.
  - rewrite (proj1 Hp eq_refl). split; congruence.
Qed.

Lemma granted_views marks me p' sh sh' ps spin iow : (forall i, view i (ps i) sh spin iow) ->
  word_step (ps me) (s_word sh) (s_word sh') -> granted marks me (ps me) p' sh sh' spin iow ->
  forall j, view j (<[me := p']> ps j) sh' (new_owner holds_spin me (ps me) p' spin) (new_owner in_io me (ps me) p' iow).
Proof.
  intros V W G j. pose proof (V me) as Vp. pose proof (V j) as Vj. destruct (decide (j = me)) as [->|Hj].
  - rewrite fn_lookup_insert. split; try apply G; try apply W; try apply new_owner_me; try apply Vp.
    rewrite (g_latch _ _ _ _ _ _ _ _ G). apply new_owner_me, Vp.
  - rewrite fn_lookup_insert_ne by done. split; try apply G; try apply W; try (apply new_owner_other; [done | apply Vp | apply Vj | apply G]).
    + rewrite (g_latch _ _ _ _ _ _ _ _ G). apply new_owner_other; [done | apply Vp | apply Vj |].
      intros Hf. destruct (g_latch_free _ _ _ _ _ _ _ _ G Hf) as [Hq | ->]; [by left | by right].
    + by eapply agrees_stable.
Qed.

(** ** The invariant *)

Record invariant (marks : bool) (s : state) (spin iow : option nat) : Prop := {
  inv_views i : view i (places s i) (shared s) spin iow;
  inv_clean : marks = true -> clean_ok (shared s) \/ exists k, noisy (places s k) = true;
  inv_sleepy i : sleepy (places s i) = true -> is_some iow = true \/ exists k, notifying (places s k) = true
}.

Lemma start_invariant marks word file rest : word_ok word -> has word Locked = false -> has word IoInProgress = false ->
  has word DataValid = false -> invariant marks (start word file rest) None None.
Proof.
  intros Hw Hl Hi Hv. split; cbn; [|intros _; left; unfold clean_ok; cbn; congruence | done].
  intros i. split; cbn; try done. unfold data_ok. cbn. by rewrite Hv.
Qed.

Lemma access_invariant marks o i sh ps sh' p' spin iow : invariant marks (mkState sh ps) spin iow ->
  access marks o i sh (ps i) = Some (sh', p') ->
  invariant marks (mkState sh' (<[i := p']> ps)) (new_owner holds_spin i (ps i) p' spin) (new_owner in_io i (ps i) p' iow).
Proof.
  intros [V C S] Ha. cbn in *. pose proof (V i) as Vi. assert (G := access_granted _ _ _ _ _ _ _ _ _ Vi Ha).
  assert (W : word_step (ps i) (s_word sh) (s_word sh')).
  { eapply access_word; [apply Vi | | exact Ha]. intros Hs%(v_spin _ _ _ _ _ Vi). by rewrite (v_locked _ _ _ _ _ Vi), Hs. }
  assert (K : forall Q : place -> bool, (Q (ps i) = true -> Q p' = true) -> (exists k, Q (ps k) = true) -> exists k, Q (<[i := p']> ps k) = true).
  { intros Q HQ [k Hk]. exists k. destruct (decide (k = i)) as [->|]; [rewrite fn_lookup_insert | rewrite fn_lookup_insert_ne]; auto. }
  split; cbn; [by eapply granted_views | |].
  - intros Hm. destruct (C Hm) as [Hc|[k Hk]].
    + destruct (g_clean _ _ _ _ _ _ _ _ G Hm (or_introl Hc)) as [|Hn]; [by left|]. right. exists i. by rewrite fn_lookup_insert.
    + destruct (decide (k = i)) as [->|]; [|right; exists k; by rewrite fn_lookup_insert_ne].
      destruct (g_clean _ _ _ _ _ _ _ _ G Hm (or_intror Hk)) as [|Hn]; [by left|]. right. exists i. by rewrite fn_lookup_insert.
  - intros j Hj. assert (Hs : is_some iow = true \/ exists k, notifying (ps k) = true).
    { destruct (decide (j = i)) as [->|Hn]; [rewrite fn_lookup_insert in Hj | rewrite fn_lookup_insert_ne in Hj by done; by apply (S j)].
      destruct (g_sleepy _ _ _ _ _ _ _ _ G Hj) as [Hj'|]; [by apply (S i) | by left]. }
    destruct Hs as [Hs|Hs]; [|right; apply K; [apply G | done]].
    unfold new_owner. destruct (in_io p') eqn:E'; [by left|]. destruct (in_io (ps i)) eqn:E; [|by left].
    destruct (g_end _ _ _ _ _ _ _ _ G E); [congruence|]. right. exists i. by rewrite fn_lookup_insert.
Qed.

Lemma wake_view j p sh spin iow : view j p sh spin iow -> view j (wake p) sh spin iow.
Proof. intros [V1 V2 V3 V4 V5 V6 [A1 A2 A3 A4 A5 A6 A7] V8]. destruct p; split; done. Qed.

Lemma unlatch_view j d ok sh spin iow : view j (Term_notify d ok) sh spin iow -> view j (Io_unlatch d ok) sh spin iow.
Proof. intros [V1 V2 V3 V4 V5 V6 [A1 A2 A3 A4 A5 A6 A7] V8]. split; done. Qed.

Lemma notify_invariant marks i sh ps d ok spin iow : invariant marks (mkState sh ps) spin iow -> ps i = Term_notify d ok ->
  invariant marks (mkState sh (<[i := Io_unlatch d ok]> (fun j => wake (ps j)))) spin iow.
Proof.
  intros [V C S] Hi. cbn in *. split; cbn.
  - intros j. destruct (decide (j = i)) as [->|]; [rewrite fn_lookup_insert; apply unlatch_view; by rewrite <-Hi|].
    rewrite fn_lookup_insert_ne by done. by apply wake_view.
  - intros Hm. destruct (C Hm) as [|[k Hk]]; [by left|]. right. exists k. destruct (decide (k = i)) as [->|]; [by rewrite Hi in Hk|].
    rewrite fn_lookup_insert_ne by done. by destruct (ps k).
  - intros j Hj. destruct (decide (j = i)) as [->|Hn]; [by rewrite fn_lookup_insert in Hj|]. rewrite fn_lookup_insert_ne in Hj by done.
    pose proof (V i) as Vi. pose proof (V j) as Vj. rewrite Hi in Vi. apply v_latch in Vi as [Vi _]. specialize (Vi eq_refl).
    assert (holds_latch (ps j) = true) as Hl%(v_latch _ _ _ _ _ Vj) by (by destruct (ps j)). congruence.
Qed.

Lemma step_invariant marks i s s' spin iow : invariant marks s spin iow -> step marks i s s' ->
  exists spin' iow', invariant marks s' spin' iow'.
Proof.
  intros I Hs. destruct Hs as [o i sh ps sh' p' Ha | i sh ps d ok Hn].
  - do 2 eexists. by eapply access_invariant.
  - do 2 eexists. by eapply notify_invariant.
Qed.

(** An entry with any pins and list flags whose page has not been read. *)
Definition fresh (word : Z) : Prop :=
  word_ok word /\ has word Locked = false /\ has word IoInProgress = false /\ has word DataValid = false.

Lemma reach_invariant marks word file rest s : fresh word -> rtc (any_step marks) (start word file rest) s ->
  exists spin iow, invariant marks s spin iow.
Proof.
  intros (Hw & Hl & Hi & Hv) Hr. revert s Hr. apply rtc_ind_r; [do 2 eexists; by apply start_invariant|].
  intros s s' _ [i Hs] (spin & iow & I). by eapply step_invariant.
Qed.

Lemma invariant_owner marks s spin iow i j : invariant marks s spin iow ->
  (holds_latch (places s i) = true -> holds_latch (places s j) = true -> i = j) /\
  (in_io (places s i) = true -> in_io (places s j) = true -> i = j).
Proof.
  intros [V _ _]. split; intros Hi Hj.
  - apply (v_latch _ _ _ _ _ (V i)) in Hi. apply (v_latch _ _ _ _ _ (V j)) in Hj. congruence.
  - apply (v_iow _ _ _ _ _ (V i)) in Hi. apply (v_iow _ _ _ _ _ (V j)) in Hj. congruence.
Qed.

(** ** The executions of given choices *)

Definition exec1 (marks : bool) (io : nat * choice) (s : state) : option state :=
  let (i, o) := io in
  match places s i with
  | Term_notify d ok => Some (mkState (shared s) (<[i := Io_unlatch d ok]> (fun j => wake (places s j))))
  | p => match access marks o i (shared s) p with Some (sh', p') => Some (mkState sh' (<[i := p']> (places s))) | None => None end
  end.

Fixpoint exec (marks : bool) (l : list (nat * choice)) (s : state) : option state :=
  match l with [] => Some s | io :: l => match exec1 marks io s with Some s' => exec marks l s' | None => None end end.

Lemma exec1_step marks i o s s' : exec1 marks (i, o) s = Some s' -> step marks i s s'.
Proof.
  destruct s as [sh ps]. unfold exec1. cbn [places shared]. intros H.
  assert (Ha : (exists d ok, ps i = Term_notify d ok /\ s' = mkState sh (<[i := Io_unlatch d ok]> (fun j => wake (ps j)))) \/
    exists sh' p', access marks o i sh (ps i) = Some (sh', p') /\ s' = mkState sh' (<[i := p']> ps)).
  { destruct (ps i); repeat case_match; simplify_eq; eauto 10. }
  destruct Ha as [(d & ok & Hp & ->) | (sh' & p' & Hp & ->)]; [by apply step_notify | by eapply step_access].
Qed.

Lemma exec_steps marks l s s' : exec marks l s = Some s' -> rtc (any_step marks) s s'.
Proof.
  revert s. induction l as [|[i o] l IH]; intros s H; cbn [exec] in H; [by simplify_eq|].
  destruct (exec1 marks (i, o) s) as [s1|] eqn:E; [|done]. eapply rtc_l; [exists i; by apply (exec1_step _ _ o) | by apply IH].
Qed.

(** The choices of a worker that reads the page in, of one that flushes it, and of one that writes to it. *)
Definition reads (i : nat) : list (nat * choice) := (i, Call_read) :: replicate 14 (i, Go).
Definition flushes (i : nat) : list (nat * choice) := (i, Call_flush) :: replicate 13 (i, Go).
Definition skips (i : nat) : list (nat * choice) := (i, Call_flush) :: replicate 3 (i, Go).
Definition writes (marks : bool) (i : nat) (p : list byte) : list (nat * choice) :=
  [(i, Call_use); (i, Go); (i, Bytes p); (i, Go)] ++ (if marks then [(i, Go)] else []).

(** ** What holds of the concurrent operations on an entry *)

(** C6: However [ReadBuffer], [FlushBuffer], the users of a page and the operations on lists are interleaved, with failures: no
    assertion of [Unlock] or [TerminateBufferIO] fails, the buffer has one user and the entry one input or output at a time, who returns
    from [ReadBuffer] finds the data valid, valid data are the bytes written last, and if the users mark what they write
    then a page that is not dirty has these bytes in the file unless a worker has yet to mark it. *)
Theorem entry_io_safe marks word file rest s : fresh word -> rtc (any_step marks) (start word file rest) s ->
  (forall i what, places s i <> Crashed what) /\
  (forall i j, holds_latch (places s i) = true -> holds_latch (places s j) = true -> i = j) /\
  (forall i j, in_io (places s i) = true -> in_io (places s j) = true -> i = j) /\
  (forall i, places s i = Finished Input true -> has (s_word (shared s)) DataValid = true) /\
  (if has (s_word (shared s)) DataValid then s_page (shared s) else s_file (shared s)) = s_last (shared s) /\
  (marks = true -> has (s_word (shared s)) DataValid = true -> has (s_word (shared s)) Dirty = false ->
   (forall i, noisy (places s i) = false) -> s_file (shared s) = s_last (shared s)).
Proof.
  intros Hf Hr. destruct (reach_invariant _ _ _ _ _ Hf Hr) as (spin & iow & I). pose proof (inv_views _ _ _ _ I) as V. split_and!.
  - intros i what Hp. pose proof (ag_ok _ _ (v_agrees _ _ _ _ _ (V i))) as Ho. by rewrite Hp in Ho.
  - intros i j. apply (invariant_owner _ _ _ _ i j I).
  - intros i j. apply (invariant_owner _ _ _ _ i j I).
  - intros i Hp. apply (ag_valid _ _ (v_agrees _ _ _ _ _ (V i))). by rewrite Hp.
  - apply (v_data _ _ _ _ _ (V 0%nat)).
  - intros Hm Hv Hd Hn. destruct (inv_clean _ _ _ _ I Hm) as [Hc|[k Hk]]; [by apply Hc|]. by rewrite Hn in Hk.
Qed.

(** Two workers read a page in, and one of them sleeps until the other is done; then another writes to it, and it is flushed. *)
Definition example_wait : list (nat * choice) :=
  ((0, Call_read) :: replicate 4 (0, Go) ++ (1, Call_read) :: replicate 8 (1, Go))%nat.
Definition example_done : list (nat * choice) :=
  example_wait ++ (replicate 10 (0, Go) ++ replicate 6 (1, Go))%nat ++ writes true 2 [Byte.x01] ++ flushes 0.
Definition example_state : state := default (start 1 [Byte.x00] [Byte.x07]) (exec true example_done (start 1 [Byte.x00] [Byte.x07])).
Definition waiting_state : state := default (start 1 [Byte.x00] [Byte.x07]) (exec true example_wait (start 1 [Byte.x00] [Byte.x07])).

Lemma exec_reached marks l s : rtc (any_step marks) s (default s (exec marks l s)).
Proof. destruct (exec marks l s) as [s'|] eqn:E; [by apply (exec_steps marks l) | done]. Qed.

Lemma fresh_example : fresh 1.
Proof. by split_and!. Qed.
Lemma example_reached : rtc (any_step true) (start 1 [Byte.x00] [Byte.x07]) example_state.
Proof. apply exec_reached. Qed.
Lemma waiting_reached : rtc (any_step true) (start 1 [Byte.x00] [Byte.x07]) waiting_state.
Proof. apply exec_reached. Qed.

Theorem entry_io_safe_witness : fresh 1 /\ rtc (any_step true) (start 1 [Byte.x00] [Byte.x07]) example_state /\
  places example_state 1%nat = Finished Input true /\ s_file (shared example_state) = [Byte.x01] /\
  (if has (s_word (shared example_state)) DataValid then s_page (shared example_state) else s_file (shared example_state)) = s_last (shared example_state).
Proof.
  split; [exact fresh_example|]. split; [exact example_reached|]. split; [reflexivity|]. split; [reflexivity|].
  destruct (entry_io_safe true 1 [Byte.x00] [Byte.x07] example_state fresh_example example_reached) as (_ & _ & _ & _ & H & _). exact H.
Defined.

(** A write that is not marked is not flushed: nobody is busy, the page is valid and not dirty, and the file has the bytes from before. *)
Definition lost_state : state :=
  default (start 1 [Byte.x00] [Byte.x07]) (exec false (reads 0 ++ writes false 0 [Byte.x01] ++ skips 0) (start 1 [Byte.x00] [Byte.x07])).

Example unmarked_writes_lost : rtc (any_step false) (start 1 [Byte.x00] [Byte.x07]) lost_state /\ (forall i, places lost_state i = Idle) /\
  has (s_word (shared lost_state)) DataValid = true /\ has (s_word (shared lost_state)) Dirty = false /\
  s_last (shared lost_state) = [Byte.x01] /\ s_file (shared lost_state) = [Byte.x00].
Proof. split; [apply exec_reached|]. split; [by intros [|i]; vm_compute|]. by vm_compute. Qed.

(** ** Nobody waits for ever *)

(** The next access of a worker that is not asleep and waits for nothing. *)
Definition can_step (marks : bool) (i : nat) (s : state) : Prop :=
  exists s', step marks i s s' /\ (forall c, places s' i <> Spinning c).

Lemma access_can_step marks o i s sh' p' : access marks o i (shared s) (places s i) = Some (sh', p') -> (forall c, p' <> Spinning c) ->
  can_step marks i s.
Proof.
  intros Ha Hp. destruct s as [sh ps]. eexists. split; [by eapply step_access|]. intros c. cbn. rewrite fn_lookup_insert. apply Hp.
Qed.

Lemma locked_as_not_spinning c w c' : locked_as c w <> Spinning c'.
Proof. unfold locked_as. repeat case_match; done. Qed.

Lemma calm_not_spinning p c : calm p = true -> p <> Spinning c.
Proof. by intros H ->. Qed.

(** A worker that has locked the entry goes on. *)
Lemma spin_owner_steps marks s i spin iow : invariant marks s spin iow -> holds_spin (places s i) = true -> can_step marks i s.
Proof.
  intros I Hp. pose proof (inv_views _ _ _ _ I i) as V. pose proof (v_locked _ _ _ _ _ V) as Hl.
  rewrite (proj1 (v_spin _ _ _ _ _ V) Hp) in Hl. pose proof (ag_ok _ _ (v_agrees _ _ _ _ _ V)) as Ho.
  destruct (places s i) eqn:E; try done; (eapply (access_can_step _ Go); [by rewrite E|]; try done).
  intros c. cbn in Hl. rewrite Hl. by apply calm_not_spinning.
Qed.

Definition asleep (p : place) : bool := match p with Asleep _ => true | _ => false end.

(** When the entry is not locked, a busy worker goes on that has the latch, or when nobody has. *)
Lemma unlocked_steps marks s i : place_ok (places s i) = true -> has (s_word (shared s)) Locked = false -> holds_spin (places s i) = false ->
  holds_latch (places s i) = true \/ s_latch (shared s) = None -> places s i <> Idle -> asleep (places s i) = false -> can_step marks i s.
Proof.
  intros Ho Hl Hs Hf Hb Ha. destruct (places s i) eqn:E; try done;
    try (eapply (access_can_step _ Go); [rewrite E; cbn; rewrite ?Hl; reflexivity|]; intros; try case_match; try apply locked_as_not_spinning; done);
    try (destruct Hf as [|Hf]; [done|]; eapply (access_can_step _ Go); [rewrite E; cbn; unfold acquire; rewrite Hf; reflexivity | done]).
  - destruct d; (eapply (access_can_step _ Go); [rewrite E; reflexivity | done]).
  - destruct s as [sh ps]. eexists. split; [by eapply step_notify|]. intros c. cbn. by rewrite fn_lookup_insert.
  - eapply (access_can_step _ (Bytes [])); [rewrite E; reflexivity|]. by destruct marks.
Qed.

(** C7: As long as a worker is in an operation, some worker that is in one and does not sleep makes an access that is not a turn of a spin
    loop: there is no deadlock between the lock of the entry, the latch and the condition variable, and no wake-up
    is lost. *)
Theorem entry_io_progress marks word file rest s i : fresh word -> rtc (any_step marks) (start word file rest) s -> places s i <> Idle ->
  exists j, places s j <> Idle /\ asleep (places s j) = false /\ can_step marks j s.
Proof.
  intros Hf Hr Hb. destruct (reach_invariant _ _ _ _ _ Hf Hr) as (spin & iow & I). pose proof (inv_views _ _ _ _ I) as V.
  assert (Hno : forall k, holds_spin (places s k) = true \/ holds_latch (places s k) = true \/ in_io (places s k) = true ->
    places s k <> Idle /\ asleep (places s k) = false).
  { intros k Hk. destruct (places s k); cbn in *; naive_solver. }
  destruct spin as [k|].
  { pose proof (proj2 (v_spin _ _ _ _ _ (V k)) eq_refl) as Hk. exists k. split; [apply Hno; auto|]. split; [apply Hno; auto|].
    by eapply spin_owner_steps. }
  assert (Hl : has (s_word (shared s)) Locked = false) by apply (v_locked _ _ _ _ _ (V i)).
  assert (Ho : forall k, place_ok (places s k) = true) by (intros k; apply (v_agrees _ _ _ _ _ (V k))).
  assert (Hs : forall k, holds_spin (places s k) = false) by (intros k; apply not_true_iff_false; by intros Hk%(v_spin _ _ _ _ _ (V k))).
  destruct (s_latch (shared s)) as [k|] eqn:El.
  { pose proof (proj2 (v_latch _ _ _ _ _ (V k)) El) as Hk. destruct (Hno k) as [H1 H2]; [auto|]. exists k. split_and!; [done ..|].
    apply unlocked_steps; auto. }
  destruct (asleep (places s i)) eqn:Ea; [|exists i; split_and!; [done .. | apply unlocked_steps; auto]].
  destruct (inv_sleepy _ _ _ _ I i) as [Hi|[k Hk]]; [by destruct (places s i) | |].
  - destruct iow as [k|]; [|done]. pose proof (proj2 (v_iow _ _ _ _ _ (V k)) eq_refl) as Hk. destruct (Hno k) as [H1 H2]; [auto|].
    exists k. split_and!; [done ..|]. apply unlocked_steps; auto.
  - exists k. assert (holds_latch (places s k) = true) as Hlk%(v_latch _ _ _ _ _ (V k)); [|congruence].
    specialize (Hs k). by destruct (places s k).
Qed.

Theorem entry_io_progress_witness : fresh 1 /\ rtc (any_step true) (start 1 [Byte.x00] [Byte.x07]) waiting_state /\
  places waiting_state 1%nat = Asleep Input /\
  exists j, places waiting_state j <> Idle /\ asleep (places waiting_state j) = false /\ can_step true j waiting_state.
Proof.
  split; [exact fresh_example|]. split; [exact waiting_reached|]. assert (Hp : places waiting_state 1%nat = Asleep Input) by reflexivity.
  split; [exact Hp|]. apply (entry_io_progress true 1 [Byte.x00] [Byte.x07] waiting_state 1 fresh_example waiting_reached). by rewrite Hp.
Defined.
