(* ===== verification/ClientProgram.v ===== *)
(** The terminal client: [src/client] with its table formatter, its sources of commands and its
    main loop, over the client of the protocol. *)
From stdpp Require Import pretty.
From S2P Require Import Prelude Types Network Packets Executor.

(** [std::string (n, c)]. *)
Definition chars (n : Z) (c : byte) : bytes := replicate (Z.to_nat n) c.
Definition endl : bytes := [x0a].
Definition space : byte := x20.
Definition bar : byte := x7c.
Definition dash : byte := x2d.
Definition plus : byte := x2b.

(** ** TableFormatter: the state is what was written to its stream *)
Section formatter.
Context `{Build}.

Definition write (s : bytes) : M bytes unit := modify (fun out => out ++ s).

Definition writeColumnValue (value : bytes) (width : Z) (align : bool) : M bytes unit :=
  _ ← lift (assert_ (wrap 64 (zlen value + 2) <=? width) "value.size() + 2 <= width");
  let spacesCount := wrap 64 (width - zlen value) in
  let leftSpaces := if align then spacesCount / 2 else 1 in
  let rightSpaces := wrap 64 (spacesCount - leftSpaces) in
  _ ← write (chars leftSpaces space);
  _ ← write value;
  write (chars rightSpaces space).

(** The size of a value, none for NULL. *)
Definition value_width (value : option bytes) : Z := match value with None => 0 | Some value => zlen value end.

(** The body of the loops over the values: the indexes are not checked. *)
Definition widen (values : list (option bytes)) (maxWidths : list Z) (attno : nat) : result (list Z) :=
  value ← vec_get values attno;
  width ← vec_get maxWidths attno;
  if width <? value_width value then vec_set maxWidths attno (value_width value) else mret maxWidths.

Definition column_widths (attrs : list bytes) (rows : list (list (option bytes))) : result (list Z) :=
  let natts := length attrs in
  maxWidths ← foldM (fun maxWidths values => foldM (widen values) (seq 0 natts) maxWidths) rows (map zlen attrs);
  mret (map (fun width => wrap 64 (width + 2)) maxWidths).

(** A line: the columns with a separator between them. *)
Definition write_line (natts : nat) (sep : byte) (column : nat -> M bytes unit) : M bytes unit :=
  _ ← mapM_ (fun attno => _ ← column attno; if (attno <? natts - 1)%nat then write [sep] else mret tt) (seq 0 natts);
  write endl.

Definition Format (attrs : list bytes) (rows : list (list (option bytes))) : M bytes unit :=
  maxWidths ← lift (column_widths attrs rows);
  let natts := length attrs in
  _ ← write_line natts bar (fun attno =>
    attr ← lift (vec_get attrs attno);
    width ← lift (vec_get maxWidths attno);
    writeColumnValue attr width true);
  _ ← write_line natts plus (fun attno => width ← lift (vec_get maxWidths attno); write (chars width dash));
  mapM_ (fun values => write_line natts bar (fun attno =>
    width ← lift (vec_get maxWidths attno);
    value ← lift (vec_get values attno);
    match value with
    | Some value => writeColumnValue value width false
    | None => write (chars width space)
    end)) rows.
End formatter.

(** ** Sources of commands *)

(** A file is what is left to read of it; a read that fails ends it. *)
Inductive ICommandSource :=
| FDCommandSource (file : bytes) (interactive : bool)
| SingleCommandCommandSource (command : bytes) (executed : bool).

(** The loop that reads a line byte by byte: the line, and what is left of the file. *)
Fixpoint read_line (file command : bytes) : bytes * bytes :=
  match file with
  | [] => (command, [])
  | c :: file =>
      if bool_decide (c = x0a) then (if zlen command =? 0 then read_line file command else (command, file))
      else read_line file (command ++ [c])
  end.

Definition GetNextLine (source : ICommandSource) : option bytes * ICommandSource :=
  match source with
  | FDCommandSource file interactive =>
      let '(command, file) := read_line file [] in
      (if zlen command =? 0 then None else Some command, FDCommandSource file interactive)
  | SingleCommandCommandSource command executed =>
      if executed then (None, source) else (Some command, SingleCommandCommandSource command true)
  end.

Definition IsInteractive (source : ICommandSource) : bool :=
  match source with FDCommandSource _ interactive => interactive | SingleCommandCommandSource _ _ => false end.

(** ** FileCommandDest: [fd_write] is the system call *)
Section dest.
Context {F : Type} (fd_write : bytes -> F -> Z * F) (strerror : F -> string).

Fixpoint Write_loop (fuel : nat) (left : bytes) : M F unit := fun f =>
  match fuel with
  | O => (Fault NoFuel, f)
  | S k =>
      if 0 <? zlen left then
        let '(ret, f) := fd_write left f in
        if ret <? 0 then (Fault (Throw (String.append "could not write to file: " (strerror f))), f)
        else Write_loop k (drop (Z.to_nat ret) left) f
      else (Ok tt, f)
  end.
End dest.

(** ** Options *)

(** What the library for options has parsed. *)
Inductive any := ANone | AString (s : bytes) | AInt (n : Z).

Record ClientOptions := mkClientOptions { ScriptFile : option bytes; SingleCommand : option bytes; OutputFile : option bytes;
  Port : option Z; Host : option bytes; Version : bool }.

Definition as_string (a : any) : result bytes := match a with AString s => Ok s | _ => Fault (Throw "boost::bad_any_cast") end.
Definition as_int (a : any) : result Z := match a with AInt n => Ok n | _ => Fault (Throw "boost::bad_any_cast") end.

(** One [vm.find] with its conversion. *)
Definition find_as {A} (vm : string -> option any) (name : string) (as_ : any -> result A) : result (option A) :=
  match vm name with Some a => x ← as_ a; mret (Some x) | None => mret None end.

Definition ParseOptions (vm : string -> option any) : result ClientOptions :=
  match vm "version" with
  | Some _ => mret (mkClientOptions None None None None None true)
  | None =>
      command ← find_as vm "command" as_string;
      file ← find_as vm "file" as_string;
      port ← find_as vm "port" as_int;
      host ← find_as vm "host" as_string;
      output ← find_as vm "output" as_string;
      if bool_decide (is_Some file) && bool_decide (is_Some command)
      then Fault (Throw "can not specify both file and command")
      else mret (mkClientOptions file command output port host false)
  end.

(** The source for the options; [open] is the file system, [stdin] the standard input. *)
Definition tryCreateCommandSource (opts : ClientOptions) (open : bytes -> option bytes) (stdin : bytes) : option ICommandSource :=
  match SingleCommand opts with
  | Some command => Some (SingleCommandCommandSource command false)
  | None =>
      match ScriptFile opts with
      | Some name => match open name with Some file => Some (FDCommandSource file false) | None => None end
      | None => Some (FDCommandSource stdin true)
      end
  end.

(** ** The program: the connection, the source of commands and the output streams *)
Record Terminal (S : Type) := mkTerminal { t_conn : S; t_source : ICommandSource; t_out : bytes; t_err : bytes }.
Arguments mkTerminal {S} _ _ _ _.
Arguments t_conn {S} _.
Arguments t_source {S} _.
Arguments t_out {S} _.
Arguments t_err {S} _.

(** How [handleResponse] ends: with its result, or with the process. *)
Inductive Answer := Success | Lost | Exit (code : Z).

Section program.
Context `{Build} {S : Type} `{Socket S}.
#[local] Notation T := (M (Terminal S)).

Definition on_conn {A} (m : M S A) : T A := fun t =>
  let '(r, c) := m (t_conn t) in (r, mkTerminal c (t_source t) (t_out t) (t_err t)).
Definition cout {A} (m : M bytes A) : T A := fun t =>
  let '(r, out) := m (t_out t) in (r, mkTerminal (t_conn t) (t_source t) out (t_err t)).
Definition cerr (s : bytes) : T unit := modify (fun t => mkTerminal (t_conn t) (t_source t) (t_out t) (t_err t ++ s)).
Definition next_line : T (option bytes) := fun t =>
  let '(line, source) := GetNextLine (t_source t) in (Ok line, mkTerminal (t_conn t) source (t_out t) (t_err t)).
Definition print (s : string) : T unit := cout (write (bytes_of s)).

(** The text under a table. *)
Definition rows_text (rows : Z) : bytes :=
  bytes_of "(" ++ bytes_of (pretty rows) ++ (if rows =? 1 then bytes_of " row)" else bytes_of " rows)") ++ endl.

Definition print_complete (tupleDescPacket : option (list bytes)) (rows : list (list (option bytes))) (tag : bytes) (count : Z) : T unit :=
  match tupleDescPacket with
  | Some attrs =>
      _ ← cout (Format attrs rows);
      if 0 <=? count then cout (write (rows_text count)) else mret tt
  | None =>
      _ ← cout (write tag);
      _ ← (if 0 <=? count then cout (write (bytes_of " " ++ bytes_of (pretty count))) else mret tt);
      cout (write endl)
  end.

Fixpoint handleResponse (fuel : nat) (tupleDescPacket : option (list bytes)) (rows : list (list (option bytes))) : T Answer :=
  match fuel with
  | O => throw NoFuel
  | Datatypes.S k =>
      response ← on_conn ReceivePacket;
      match response with
      | None => mret Lost
      | Some (TupleDescriptionPacket attrs) => handleResponse k (Some attrs) rows
      | Some (DataRowPacket values) =>
          match tupleDescPacket with
          | None => throw (Throw "DataRow received before TupleDescription")
          | Some _ => handleResponse k tupleDescPacket (rows ++ [values])
          end
      | Some (CommandCompletePacket tag count) => _ ← print_complete tupleDescPacket rows tag count; mret Success
      | Some (ErrorResponsePacket message) => _ ← cerr (bytes_of "ERROR: " ++ message ++ endl); mret Success
      | Some (QueryPacket _) => _ ← cerr (bytes_of "Must not receive QUERY packet at client" ++ endl); mret (Exit 1)
      end
  end.

(** The exceptions that [main] catches around [handleResponse]. *)
Definition catch_response (body : T Answer) (handler : string -> T Answer) : T Answer := fun t =>
  match body t with
  | (Fault (Throw msg), t') => handler msg t'
  | r => r
  end.

(** The loop of [main], with the exit status of the process; [packets] bounds the packets of
    one answer. *)
Fixpoint main_loop (fuel packets : nat) : T Z :=
  match fuel with
  | O => throw NoFuel
  | Datatypes.S k =>
      source ← gets t_source;
      _ ← (if IsInteractive source then print "=> " else mret tt);
      line ← next_line;
      match line with
      | None => mret 0
      | Some cmd =>
          if zlen cmd =? 0 then mret 0
          else if IsInteractive source && bool_decide (cmd = bytes_of "\q") then mret 0
          else
            _ ← on_conn (SendPacket (QueryPacket cmd));
            answer ← catch_response (handleResponse packets None [])
              (fun msg => _ ← print (String.append "ERROR: " (String.append msg (String (Ascii.ascii_of_nat 10) EmptyString))); mret (Exit 0));
            match answer with
            | Success => main_loop k packets
            | Lost => _ ← cout (write (bytes_of "CONNECTION LOST" ++ endl)); mret 0
            | Exit code => mret code
            end
      end
  end.
End program.
