(* ===== verification/ClientSpec.v ===== *)
(** What the terminal client prints: the table of an answer, and the run of a script. *)
From S2P Require Import Prelude Types Network Packets Executor ClientProgram.

(** ** The table *)

(** The width of a column: its widest name or value, and a space on each side. *)
Definition column_max (attrs : list bytes) (rows : list (list (option bytes))) (j : nat) : Z :=
  fold_left (fun w row => Z.max w (value_width (default None (row !! j)))) rows (zlen (default [] (attrs !! j))).
Definition column_width attrs rows j : Z := column_max attrs rows j + 2.

Definition name_cell (width : Z) (name : bytes) : bytes :=
  let s := width - zlen name in chars (s / 2) space ++ name ++ chars (s - s / 2) space.
Definition value_cell (width : Z) (value : option bytes) : bytes :=
  match value with Some v => [space] ++ v ++ chars (width - zlen v - 1) space | None => chars width space end.

Fixpoint join (sep : byte) (cells : list bytes) : bytes :=
  match cells with [] => [] | [c] => c | c :: cells => c ++ [sep] ++ join sep cells end.

Definition header_line attrs rows : bytes :=
  join bar (map (fun j => name_cell (column_width attrs rows j) (default [] (attrs !! j))) (seq 0 (length attrs))).
Definition separator_line attrs rows : bytes :=
  join plus (map (fun j => chars (column_width attrs rows j) dash) (seq 0 (length attrs))).
Definition value_line attrs rows (row : list (option bytes)) : bytes :=
  join bar (map (fun j => value_cell (column_width attrs rows j) (default None (row !! j))) (seq 0 (length attrs))).

Definition table_lines attrs rows : list bytes := header_line attrs rows :: separator_line attrs rows :: map (value_line attrs rows) rows.
Definition table_text attrs rows : bytes := concat (map (fun line => line ++ endl) (table_lines attrs rows)).

(** The lengths that a packet can describe are far below this. *)
Definition moderate (attrs : list bytes) (rows : list (list (option bytes))) : Prop :=
  Forall (fun name => zlen name < 2 ^ 62) attrs /\ Forall (Forall (fun v => value_width v < 2 ^ 62)) rows.

Lemma zlen_chars n c : 0 <= n -> zlen (chars n c) = n.
Proof. intros. unfold zlen, chars. rewrite length_replicate. lia. Qed.

Lemma value_width_nonneg v : 0 <= value_width v.
Proof. destruct v; [apply zlen_nonneg | done]. Qed.

Lemma fold_max_ge (f : list (option bytes) -> Z) rows w : w <= fold_left (fun w row => Z.max w (f row)) rows w.
Proof. revert w. induction rows as [|row rows IH]; intros w; cbn [fold_left]; [lia|]. specialize (IH (Z.max w (f row))). lia. Qed.

Lemma fold_max_in (f : list (option bytes) -> Z) rows w row : row ∈ rows -> f row <= fold_left (fun w row => Z.max w (f row)) rows w.
Proof.
  intros Hin. revert w. induction Hin as [row rows|row row' rows Hin IH]; intros w; cbn [fold_left]; [|apply IH].
  pose proof (fold_max_ge f rows (Z.max w (f row))). lia.
Qed.

Lemma fold_max_lt (f : list (option bytes) -> Z) rows w b : w < b -> Forall (fun row => f row < b) rows -> fold_left (fun w row => Z.max w (f row)) rows w < b.
Proof. intros Hw Hr. revert w Hw. induction Hr as [|row rows Hx Hr IH]; intros w Hw; cbn [fold_left]; [done|]. apply IH. lia. Qed.

Lemma name_le attrs rows j : zlen (default [] (attrs !! j)) <= column_max attrs rows j.
Proof. apply fold_max_ge. Qed.

Lemma value_le attrs rows row j : row ∈ rows -> value_width (default None (row !! j)) <= column_max attrs rows j.
Proof. intros Hin. by apply (fold_max_in (fun row => value_width (default None (row !! j)))). Qed.

Lemma column_max_range attrs rows j : moderate attrs rows -> 0 <= column_max attrs rows j < 2 ^ 62.
Proof.
  intros [Ha Hr]. split; [pose proof (name_le attrs rows j); pose proof (zlen_nonneg (default [] (attrs !! j))); lia|].
  apply fold_max_lt.
  - destruct (attrs !! j) as [name|] eqn:E; cbn [default from_option id]; [|done]. by eapply Forall_lookup_1 in E; [|exact Ha].
  - eapply Forall_impl; [exact Hr|]. intros row Hrow. destruct (row !! j) as [v|] eqn:E; cbn [default from_option id]; [|done].
    by eapply Forall_lookup_1 in E; [|exact Hrow].
Qed.

(** *** The widths *)
Lemma widen_ok values n f k :
  (n <= length values)%nat -> (k < n)%nat ->
  widen values (map f (seq 0 n)) k = Ok (map (fupd f k (Z.max (f k) (value_width (default None (values !! k))))) (seq 0 n)).
Proof.
  intros Hl Hk. unfold widen. destruct (lookup_lt_is_Some_2 values k) as [v Hv]; [lia|].
  rewrite (vec_get_Ok _ _ _ Hv), bind_Ok, (vec_get_Ok _ _ _ (lookup_map_seq f n k Hk)), bind_Ok, Hv. cbn [default from_option id].
  destruct (Z.ltb_spec (f k) (value_width v)) as [Hlt|Hge].
  - rewrite vec_set_Ok by by rewrite length_map, length_seq. rewrite insert_map_seq by done. by rewrite Z.max_r by lia.
  - rewrite Z.max_l by lia. cbn [mret]. f_equal. apply map_seq_eq. intros j _. unfold fupd. by case_decide; subst.
Qed.

Lemma widen_row values n f :
  (n <= length values)%nat ->
  foldM (widen values) (seq 0 n) (map f (seq 0 n)) = Ok (map (fun j => Z.max (f j) (value_width (default None (values !! j)))) (seq 0 n)).
Proof.
  intros Hl. set (g := fun j => Z.max (f j) (value_width (default None (values !! j)))).
  destruct (foldM_inv (fun k ws => ws = map (fun j => if decide (j < k)%nat then g j else f j) (seq 0 n)) (widen values) (seq 0 n) (map f (seq 0 n)))
    as (ws & -> & ->).
  - apply map_seq_eq. intros j _. by rewrite decide_False by lia.
  - intros k x ws Hk ->. apply lookup_seq in Hk as [-> Hk]. cbn. rewrite widen_ok by done. eexists. split; [reflexivity|].
    apply map_seq_eq. intros j Hj. unfold fupd. rewrite (decide_False (P := (k < k)%nat)) by lia. destruct (decide (j = k)) as [->|Hne].
    + by rewrite decide_True by lia.
    + destruct (decide (j < k)%nat); [by rewrite decide_True by lia | by rewrite decide_False by lia].
  - rewrite length_seq. f_equal. apply map_seq_eq. intros j Hj. by rewrite decide_True.
Qed.

Lemma column_widths_ok attrs rows :
  moderate attrs rows -> Forall (fun row => (length attrs <= length row)%nat) rows ->
  column_widths attrs rows = Ok (map (column_width attrs rows) (seq 0 (length attrs))).
Proof.
  intros Hm Hr. unfold column_widths.
  assert (Hf : forall f, foldM (fun maxWidths values => foldM (widen values) (seq 0 (length attrs)) maxWidths) rows (map f (seq 0 (length attrs))) =
    Ok (map (fun j => fold_left (fun w row => Z.max w (value_width (default None (row !! j)))) rows (f j)) (seq 0 (length attrs)))).
  { clear Hm. induction Hr as [|row rows Hrow Hr IH]; intros f; [done|]. cbn [foldM fold_left]. rewrite widen_row by done. rewrite bind_Ok. apply IH. }
  rewrite (map_as_seq zlen attrs []), Hf, bind_Ok. cbn [mret]. f_equal. rewrite map_map. apply map_seq_eq. intros j _.
  unfold column_width. pose proof (column_max_range attrs rows j Hm). unfold column_max in *. by rewrite wrap_small by lia.
Qed.

(** A row that is too short is read past its end. *)
Lemma column_widths_short attrs rows :
  Exists (fun row => (length row < length attrs)%nat) rows -> column_widths attrs rows = Fault (UB "vector index out of range").
Proof.
  intros Hr. unfold column_widths. rewrite (map_as_seq zlen attrs []).
  assert (Hf : forall f, foldM (fun maxWidths values => foldM (widen values) (seq 0 (length attrs)) maxWidths) rows (map f (seq 0 (length attrs))) =
    Fault (UB "vector index out of range")); [|by rewrite Hf].
  set (n := length attrs) in *. induction rows as [|row rows IH]; intros f; [by inversion Hr|]. cbn [foldM].
  destruct (decide (n <= length row)%nat) as [Hl|Hl].
  - rewrite widen_row by done. rewrite bind_Ok. apply IH. inversion Hr; [lia | done].
  - rewrite (foldM_fault (fun _ ws => exists g, ws = map g (seq 0 n)) (widen row) (seq 0 n) _ (length row) (length row) (UB "vector index out of range")); [done|..].
    + by exists f.
    + apply lookup_seq. lia.
    + intros j x ws Hj Hx [g ->]. apply lookup_seq in Hx as [-> Hx]. cbn. destruct (lookup_lt_is_Some_2 row j) as [v Hv]; [done|].
      unfold widen. rewrite (vec_get_Ok _ _ _ Hv), bind_Ok, (vec_get_Ok _ _ _ (lookup_map_seq g n j Hx)), bind_Ok.
      case_match; [rewrite vec_set_Ok by (by rewrite length_map, length_seq); rewrite insert_map_seq by done|]; eauto.
    + intros ws _. unfold widen, vec_get. by rewrite (lookup_ge_None_2 row) by lia.
Qed.

(** *** The lines *)
Section output.
Context `{Build}.

Definition prints (m : M bytes unit) (text : bytes) : Prop := forall out, m out = (Ok tt, out ++ text).

Lemma prints_write s : prints (write s) s.
Proof. done. Qed.

Lemma prints_ret : prints (mret tt) [].
Proof. intros out. by rewrite app_nil_r. Qed.

Lemma prints_bind m k a b : prints m a -> prints (k tt) b -> prints (mbind k m) (a ++ b).
Proof. intros Hm Hk out. rewrite (M_bind_Ok _ _ _ _ _ (Hm out)), Hk. by rewrite app_assoc. Qed.

Lemma prints_lift {A} (r : result A) k a text : r = Ok a -> prints (k a) text -> prints (mbind k (lift r)) text.
Proof. intros -> Hk out. rewrite (M_bind_Ok _ _ out a out) by done. apply Hk. Qed.

Lemma writeColumnValue_ok value width align :
  zlen value + 2 <= width < 2 ^ 63 ->
  prints (writeColumnValue value width align) (if align then name_cell width value else value_cell width (Some value)).
Proof.
  intros Hw. pose proof (zlen_nonneg value). unfold writeColumnValue. rewrite (wrap_small 64 (zlen value + 2)) by lia.
  apply (prints_lift _ _ tt); [by apply assert_Ok, Z.leb_le; lia|]. rewrite (wrap_small 64 (width - _)) by lia.
  destruct align; cbn [name_cell value_cell].
  - unfold name_cell. pose proof (Z.div_le_upper_bound (width - zlen value) 2 (width - zlen value) ltac:(lia) ltac:(lia)).
    pose proof (Z.div_pos (width - zlen value) 2 ltac:(lia) ltac:(lia)). rewrite wrap_small by lia. do 2 (apply prints_bind; [done|]). done.
  - rewrite wrap_small by lia. change ([space] ++ value ++ ?x) with ([space] ++ (value ++ x)).
    apply (prints_bind _ _ [space]); [done|]. by apply prints_bind.
Qed.

Lemma write_line_ok n sep column cell :
  (forall j, (j < n)%nat -> prints (column j) (cell j)) -> prints (write_line n sep column) (join sep (map cell (seq 0 n)) ++ endl).
Proof.
  intros Hc. unfold write_line. apply prints_bind; [|done].
  assert (Hm : forall m k, (k + m = n)%nat ->
    prints (mapM_ (fun attno => _ ← column attno; if (attno <? n - 1)%nat then write [sep] else mret tt) (seq k m)) (join sep (map cell (seq k m)))); [|by apply Hm].
  induction m as [|m IH]; intros k Hk; [apply prints_ret|]. cbn [seq mapM_ map].
  destruct m as [|m].
  - cbn [seq mapM_ map join]. rewrite <-(app_nil_r (cell k)). apply prints_bind; [|apply prints_ret].
    rewrite <-(app_nil_r (cell k)). apply prints_bind; [apply Hc; lia|]. rewrite (proj2 (Nat.ltb_ge _ _)) by lia. apply prints_ret.
  - specialize (IH (S k) ltac:(lia)). cbn [seq map join] in *. rewrite app_assoc. apply prints_bind; [|exact IH].
    apply prints_bind; [apply Hc; lia|]. by rewrite (proj2 (Nat.ltb_lt _ _)) by lia.
Qed.

Lemma Format_ok attrs rows :
  moderate attrs rows -> Forall (fun row => (length attrs <= length row)%nat) rows -> prints (Format attrs rows) (table_text attrs rows).
Proof.
  intros Hm Hr. unfold Format, table_text, table_lines. apply (prints_lift _ _ _ _ (column_widths_ok attrs rows Hm Hr)).
  assert (Hget : forall j, (j < length attrs)%nat -> vec_get (map (column_width attrs rows) (seq 0 (length attrs))) j = Ok (column_width attrs rows j)).
  { intros j Hj. by apply vec_get_Ok, lookup_map_seq. }
  cbn [map concat]. apply prints_bind; [|apply prints_bind].
  - apply write_line_ok. intros j Hj. destruct (lookup_lt_is_Some_2 attrs j Hj) as [name Hname].
    apply (prints_lift _ _ _ _ (vec_get_Ok _ _ _ Hname)), (prints_lift _ _ _ _ (Hget j Hj)). rewrite Hname.
    apply (writeColumnValue_ok name _ true). pose proof (column_max_range attrs rows j Hm). pose proof (name_le attrs rows j) as Hle. rewrite Hname in Hle.
    cbn [default from_option id] in Hle. unfold column_width. lia.
  - apply write_line_ok. intros j Hj. apply (prints_lift _ _ _ _ (Hget j Hj)). apply prints_write.
  - assert (Hrows : forall l, Forall (fun row => row ∈ rows /\ (length attrs <= length row)%nat) l ->
      prints (mapM_ (fun values => write_line (length attrs) bar (fun attno =>
        width ← lift (vec_get (map (column_width attrs rows) (seq 0 (length attrs))) attno);
        value ← lift (vec_get values attno);
        match value with Some value => writeColumnValue value width false | None => write (chars width space) end)) l)
        (concat (map (fun line => line ++ endl) (map (value_line attrs rows) l)))).
    { intros l Hl. induction Hl as [|row l [Hin Hlen] Hl IH]; [apply prints_ret|]. cbn [mapM_ map concat]. apply prints_bind; [|exact IH].
      apply write_line_ok. intros j Hj. destruct (lookup_lt_is_Some_2 row j) as [v Hv]; [lia|].
      apply (prints_lift _ _ _ _ (Hget j Hj)), (prints_lift _ _ _ _ (vec_get_Ok _ _ _ Hv)). rewrite Hv. cbn [default from_option id].
      destruct v as [v|]; [|apply prints_write]. apply (writeColumnValue_ok v _ false).
      pose proof (column_max_range attrs rows j Hm). pose proof (value_le attrs rows row j Hin) as Hle. rewrite Hv in Hle.
      cbn [default from_option id value_width] in Hle. unfold column_width. lia. }
    apply Hrows, Forall_forall. intros row Hin. split; [done|]. by eapply Forall_forall in Hr.
Qed.
End output.

(** *** All lines of a table have one length *)
Definition table_width attrs rows : Z :=
  foldr Z.add 0 (map (column_width attrs rows) (seq 0 (length attrs))) + Z.max 0 (zlen attrs - 1).

Lemma zlen_join sep cells : zlen (join sep cells) = foldr Z.add 0 (map zlen cells) + Z.max 0 (zlen cells - 1).
Proof.
  induction cells as [|c cells IH]; [done|]. destruct cells as [|c' cells].
  - cbn [join map foldr]. rewrite zlen_cons. change (zlen (@nil bytes)) with 0. lia.
  - change (join sep (c :: c' :: cells)) with (c ++ [sep] ++ join sep (c' :: cells)). cbn [map foldr] in *.
    rewrite !zlen_app, IH, !zlen_cons. change (zlen (@nil byte)) with 0. pose proof (zlen_nonneg cells). lia.
Qed.

Lemma zlen_name_cell width name : zlen name <= width -> zlen (name_cell width name) = width.
Proof.
  intros Hw. unfold name_cell. pose proof (Z.div_le_upper_bound (width - zlen name) 2 (width - zlen name) ltac:(lia) ltac:(lia)).
  pose proof (Z.div_pos (width - zlen name) 2 ltac:(lia) ltac:(lia)). rewrite !zlen_app, !zlen_chars by lia. lia.
Qed.

Lemma zlen_value_cell width v : value_width v + 1 <= width -> zlen (value_cell width v) = width.
Proof.
  intros Hw. pose proof (value_width_nonneg v). destruct v as [v|]; cbn [value_cell value_width] in *.
  - rewrite !zlen_app, zlen_chars, zlen_cons, zlen_nil by lia. lia.
  - rewrite zlen_chars by lia. done.
Qed.

Lemma line_width attrs rows sep cell :
  (forall j, zlen (cell j) = column_width attrs rows j) -> zlen (join sep (map cell (seq 0 (length attrs)))) = table_width attrs rows.
Proof.
  intros Hc. rewrite zlen_join, map_map. unfold table_width. f_equal; [f_equal; by apply map_ext|]. unfold zlen. by rewrite length_map, length_seq.
Qed.

Lemma lines_aligned attrs rows : Forall (fun line => zlen line = table_width attrs rows) (table_lines attrs rows).
Proof.
  assert (H0 : forall j, 0 <= column_max attrs rows j).
  { intros j. pose proof (name_le attrs rows j). pose proof (zlen_nonneg (default [] (attrs !! j))). lia. }
  constructor; [|constructor].
  - apply line_width. intros j. apply zlen_name_cell. pose proof (name_le attrs rows j). unfold column_width. lia.
  - apply line_width. intros j. apply zlen_chars. specialize (H0 j). unfold column_width. lia.
  - apply Forall_map, Forall_forall. intros row Hin. apply line_width. intros j. apply zlen_value_cell.
    pose proof (value_le attrs rows row j Hin). unfold column_width. lia.
Qed.

(** ** An answer of the server *)
Inductive Reply :=
| RTable (attrs : list bytes) (rows : list (list (option bytes))) (tag : bytes) (count : Z)
| RTag (tag : bytes) (count : Z)
| RError (message : bytes).

Definition reply_packets (r : Reply) : list IPacket :=
  match r with
  | RTable attrs rows tag count => TupleDescriptionPacket attrs :: map DataRowPacket rows ++ [CommandCompletePacket tag count]
  | RTag tag count => [CommandCompletePacket tag count]
  | RError message => [ErrorResponsePacket message]
  end.

Definition reply_out (r : Reply) : bytes :=
  match r with
  | RTable attrs rows tag count => table_text attrs rows ++ (if 0 <=? count then rows_text count else [])
  | RTag tag count => tag ++ (if 0 <=? count then bytes_of " " ++ bytes_of (pretty count) else []) ++ endl
  | RError message => []
  end.

Definition reply_err (r : Reply) : bytes :=
  match r with RError message => bytes_of "ERROR: " ++ message ++ endl | _ => [] end.

(** The packets have lengths that fit their fields, and the rows have a value for every name. *)
Definition reply_ok (r : Reply) : Prop :=
  Forall fits (reply_packets r) /\
  match r with RTable attrs rows _ _ => Forall (fun row => (length attrs <= length row)%nat) rows | _ => True end.

Definition reply_wire (r : Reply) : bytes := concat (map wire (reply_packets r)).


Lemma reply_moderate attrs rows tag count : reply_ok (RTable attrs rows tag count) -> moderate attrs rows.
Proof.
  intros [Hf _]. cbn [reply_packets] in Hf. apply Forall_cons in Hf as [[Ha _] Hf]. apply Forall_app in Hf as [Hf _]. split.
  - apply Forall_forall. intros name Hin. cbn [payload] in Ha. rewrite zlen_app, zlen_enc_be in Ha.
    pose proof (piece_bound string_wire attrs name Hin). rewrite zlen_string_wire in *. lia.
  - apply (Forall_map DataRowPacket) in Hf. eapply Forall_impl; [exact Hf|]. intros row [Hrow _]. apply Forall_forall. intros v Hin. cbn [payload] in Hrow.
    rewrite zlen_app, zlen_enc_be in Hrow. pose proof (piece_bound value_wire row v Hin). destruct v as [v|]; [|done].
    cbn [value_width]. unfold value_wire in *. rewrite zlen_string_wire in *. lia.
Qed.

Section replies.
Context `{Build} {S : Type} `{SocketLaws S}.
Implicit Types (c : S) (src : ICommandSource) (out err rest : bytes).

Lemma receive_step p c src out err rest :
  fits p -> working c -> incoming c = wire p ++ rest ->
  exists c', on_conn ReceivePacket (mkTerminal c src out err) = (Ok (Some p), mkTerminal c' src out err) /\
    incoming c' = rest /\ sent c' = sent c /\ working c'.
Proof.
  intros Hf Hw Hi. destruct (ReceivePacket_ok p c rest Hf Hw Hi) as (c' & E & Hr). exists c'. split; [|done]. unfold on_conn. cbn [t_conn]. by rewrite E.
Qed.

Lemma cout_prints m text c src out err : prints m text -> cout m (mkTerminal c src out err) = (Ok tt, mkTerminal c src (out ++ text) err).
Proof. intros Hm. unfold cout. cbn [t_out]. by rewrite Hm. Qed.

Lemma print_complete_table attrs rows tag count c src out err :
  moderate attrs rows -> Forall (fun row => (length attrs <= length row)%nat) rows ->
  print_complete (Some attrs) rows tag count (mkTerminal c src out err) =
    (Ok tt, mkTerminal c src (out ++ table_text attrs rows ++ (if 0 <=? count then rows_text count else [])) err).
Proof.
  intros Hm Hr. unfold print_complete. erewrite M_bind_Ok by by apply cout_prints, Format_ok.
  destruct (0 <=? count); [by rewrite (cout_prints _ _ _ _ _ _ (prints_write _)), app_assoc | by rewrite app_nil_r].
Qed.

Lemma print_complete_tag rows tag count c src out err :
  print_complete None rows tag count (mkTerminal c src out err) = (Ok tt, mkTerminal c src (out ++ reply_out (RTag tag count)) err).
Proof.
  unfold print_complete. erewrite M_bind_Ok by apply cout_prints, prints_write. cbn [reply_out]. destruct (0 <=? count).
  - erewrite M_bind_Ok by apply cout_prints, prints_write. rewrite (cout_prints _ _ _ _ _ _ (prints_write _)). by rewrite <-!app_assoc.
  - erewrite M_bind_Ok by reflexivity. rewrite (cout_prints _ _ _ _ _ _ (prints_write _)). by rewrite <-!app_assoc.
Qed.

(** The rows are gathered, and printed with the last packet. *)
Lemma rows_ok attrs more : forall got fuel c src out err rest tag count,
  Forall fits (map DataRowPacket more ++ [CommandCompletePacket tag count]) -> working c ->
  incoming c = concat (map wire (map DataRowPacket more ++ [CommandCompletePacket tag count])) ++ rest ->
  (length more < fuel)%nat -> moderate attrs (got ++ more) -> Forall (fun row => (length attrs <= length row)%nat) (got ++ more) ->
  exists c', handleResponse fuel (Some attrs) got (mkTerminal c src out err) =
    (Ok Success, mkTerminal c' src (out ++ reply_out (RTable attrs (got ++ more) tag count)) err) /\
    incoming c' = rest /\ sent c' = sent c /\ working c'.
Proof.
  induction more as [|row more IH]; intros got fuel c src out err rest tag count Hf Hw Hi Hfuel Hm Hr; (destruct fuel as [|fuel]; [cbn in Hfuel; lia|]);
    cbn [map app concat] in Hf, Hi; apply Forall_cons in Hf as [Hf1 Hf]; rewrite <-app_assoc in Hi.
  - destruct (receive_step _ c src out err _ Hf1 Hw Hi) as (c1 & E1 & Hi1 & Hs1 & Hw1). exists c1. split; [|by split_and!].
    cbn [handleResponse]. erewrite M_bind_Ok by exact E1. cbv beta iota. rewrite app_nil_r in *.
    by erewrite M_bind_Ok by by apply print_complete_table.
  - destruct (receive_step _ c src out err _ Hf1 Hw Hi) as (c1 & E1 & Hi1 & Hs1 & Hw1).
    destruct (IH (got ++ [row]) fuel c1 src out err rest tag count Hf Hw1 Hi1) as (c' & E & Hi' & Hs' & Hw'); [cbn in Hfuel; lia | by rewrite <-app_assoc..|].
    exists c'. split; [|split_and!; congruence]. cbn [handleResponse]. erewrite M_bind_Ok by exact E1. cbv beta iota. rewrite E. by rewrite <-app_assoc.
Qed.

Lemma handleResponse_ok r fuel c src out err rest :
  reply_ok r -> working c -> incoming c = reply_wire r ++ rest -> (length (reply_packets r) <= fuel)%nat ->
  exists c', handleResponse fuel None [] (mkTerminal c src out err) =
    (Ok Success, mkTerminal c' src (out ++ reply_out r) (err ++ reply_err r)) /\ incoming c' = rest /\ sent c' = sent c /\ working c'.
Proof.
  intros Hok Hw Hi Hfuel. destruct r as [attrs rows tag count|tag count|message]; unfold reply_wire in Hi; cbn [reply_packets] in *.
  - pose proof (reply_moderate attrs rows tag count Hok) as Hm. destruct Hok as [Hf Hr]. cbn [reply_packets] in Hf. apply Forall_cons in Hf as [Hf1 Hf].
    cbn [map concat] in Hi. rewrite <-app_assoc in Hi. destruct fuel as [|fuel]; [cbn in Hfuel; lia|].
    destruct (receive_step _ c src out err _ Hf1 Hw Hi) as (c1 & E1 & Hi1 & Hs1 & Hw1).
    destruct (rows_ok attrs rows [] fuel c1 src out err rest tag count Hf Hw1 Hi1) as (c' & E & Hi' & Hs' & Hw'); [|done|done|].
    { cbn [length] in Hfuel. rewrite length_app, length_map in Hfuel. cbn in Hfuel. lia. }
    exists c'. cbn [reply_err]. rewrite app_nil_r. split; [|split_and!; congruence]. cbn [handleResponse]. erewrite M_bind_Ok by exact E1. exact E.
  - destruct Hok as [Hf _]. cbn [reply_packets] in Hf. apply Forall_cons in Hf as [Hf1 _]. cbn [map concat] in Hi. rewrite app_nil_r in Hi.
    destruct fuel as [|fuel]; [cbn in Hfuel; lia|]. destruct (receive_step _ c src out err _ Hf1 Hw Hi) as (c1 & E1 & Hi1 & Hs1 & Hw1).
    exists c1. split; [|done]. cbn [handleResponse]. erewrite M_bind_Ok by exact E1. cbv beta iota. cbn [reply_err]. rewrite app_nil_r.
    by erewrite M_bind_Ok by apply print_complete_tag.
  - destruct Hok as [Hf _]. cbn [reply_packets] in Hf. apply Forall_cons in Hf as [Hf1 _]. cbn [map concat] in Hi. rewrite app_nil_r in Hi.
    destruct fuel as [|fuel]; [cbn in Hfuel; lia|]. destruct (receive_step _ c src out err _ Hf1 Hw Hi) as (c1 & E1 & Hi1 & Hs1 & Hw1).
    exists c1. split; [|done]. cbn [handleResponse]. erewrite M_bind_Ok by exact E1. cbn [reply_out]. by rewrite app_nil_r.
Qed.
End replies.

(** ** The commands of a script: its lines that are not empty *)
Fixpoint split_lines (file : bytes) : list bytes :=
  match file with
  | [] => [[]]
  | c :: file =>
      if bool_decide (c = x0a) then [] :: split_lines file
      else match split_lines file with l :: ls => (c :: l) :: ls | [] => [[c]] end
  end.
Definition nonempty (l : bytes) : bool := negb (zlen l =? 0).
Definition commands (file : bytes) : list bytes := List.filter nonempty (split_lines file).

Lemma split_cons file : exists l ls, split_lines file = l :: ls.
Proof. destruct file as [|c file]; [by eexists _, _|]. cbn [split_lines]. case_bool_decide; [by eexists _, _|]. destruct (split_lines file); by eexists _, _. Qed.

Lemma zlen_eqb0 (l : bytes) : (zlen l =? 0) = match l with [] => true | _ => false end.
Proof. destruct l as [|b l]; [done|]. rewrite zlen_cons. pose proof (zlen_nonneg l). by apply Z.eqb_neq; lia. Qed.

Lemma read_line_ok file : forall command l ls,
  split_lines file = l :: ls -> (command ++ l <> [] ->
    exists file', read_line file command = (command ++ l, file') /\ commands file' = List.filter nonempty ls) /\
  (command ++ l = [] -> read_line file command = ([], []) /\ commands file = [] \/
    exists l' file', read_line file command = (l', file') /\ commands file = l' :: commands file' /\ l' <> []).
Proof.
  induction file as [|c file IH]; intros command l ls; cbn [split_lines read_line].
  - intros [= <- <-]. rewrite app_nil_r. split; [intros _; by exists [] | intros ->; by left].
  - destruct (split_cons file) as (l1 & ls1 & E1). case_bool_decide as Hc.
    + intros [= <- <-]. rewrite app_nil_r, zlen_eqb0. split.
      * intros Hne. destruct command; [done|]. by exists file.
      * intros ->. assert (Hcm : commands (c :: file) = commands file) by (unfold commands; cbn [split_lines]; by rewrite bool_decide_true).
        rewrite Hcm.
        destruct (IH [] l1 ls1 E1) as [I1 I2]. destruct l1 as [|b l1]; [by apply I2|]. right. destruct I1 as (file' & E & Hf); [done|].
        exists (b :: l1), file'. split; [done|]. split; [|done]. unfold commands at 1. rewrite E1, Hf. cbn [List.filter]. unfold nonempty at 1. by rewrite zlen_eqb0.
    + rewrite E1. intros [= <- <-]. split; [|intros Hn; by destruct command].
      intros _. destruct (IH (command ++ [c]) l1 ls1 E1) as [I1 _]. destruct I1 as (file' & E & Hf); [by destruct command|].
      exists file'. rewrite E. by rewrite <-app_assoc.
Qed.

(** One line is read: the next command, or the end of the script. *)
Lemma GetNextLine_ok file interactive :
  match commands file with
  | [] => exists file', GetNextLine (FDCommandSource file interactive) = (None, FDCommandSource file' interactive)
  | line :: lines => line <> [] /\
      exists file', GetNextLine (FDCommandSource file interactive) = (Some line, FDCommandSource file' interactive) /\ commands file' = lines
  end.
Proof.
  unfold GetNextLine. destruct (split_cons file) as (l & ls & E). destruct (read_line_ok file [] l ls E) as [I1 I2]. cbn [app] in *.
  destruct l as [|b l].
  - destruct I2 as [[Er Hc]|(l' & file' & Er & Hc & Hne)]; [done| |]; rewrite Hc, Er.
    + by exists [].
    + split; [done|]. rewrite zlen_eqb0. destruct l'; [done|]. by exists file'.
  - destruct I1 as (file' & Er & Hf); [done|]. unfold commands. rewrite E, Er. cbn [List.filter]. unfold nonempty at 1. rewrite !zlen_eqb0. cbn [negb].
    split; [done|]. by exists file'.
Qed.

(** ** The run of the program *)
Section run.
Context `{Build} {S : Type} `{SocketLaws S}.

Definition prompt (interactive : bool) : bytes := if interactive then bytes_of "=> " else [].

Lemma send_query line (c : S) src out err :
  fits (QueryPacket line) -> working c ->
  exists c', on_conn (SendPacket (QueryPacket line)) (mkTerminal c src out err) = (Ok tt, mkTerminal c' src out err) /\
    sent c' = sent c ++ wire (QueryPacket line) /\ incoming c' = incoming c /\ working c'.
Proof.
  intros Hf Hw. destruct (SendPacket_ok (QueryPacket line) c Hf Hw) as (c' & E & Hr). exists c'. split; [|done]. unfold on_conn. cbn [t_conn]. by rewrite E.
Qed.

Lemma prompt_ok interactive file (c : S) out err :
  (source ← gets t_source; if IsInteractive source then print "=> " else mret tt) (mkTerminal c (FDCommandSource file interactive) out err) =
    (Ok tt, mkTerminal c (FDCommandSource file interactive) (out ++ prompt interactive) err).
Proof. destruct interactive; [done|]. cbn [prompt]. by rewrite app_nil_r. Qed.

Lemma run_ok packets interactive replies : forall fuel file (c : S) out err,
  Forall2 (fun line r => fits (QueryPacket line) /\ (interactive = true -> line <> bytes_of "\q") /\ reply_ok r /\ (length (reply_packets r) <= packets)%nat)
    (commands file) replies ->
  working c -> incoming c = concat (map reply_wire replies) -> (length replies < fuel)%nat ->
  exists t', main_loop fuel packets (mkTerminal c (FDCommandSource file interactive) out err) = (Ok 0, t') /\
    sent (t_conn t') = sent c ++ concat (map (fun line => wire (QueryPacket line)) (commands file)) /\
    t_out t' = out ++ concat (map (fun r => prompt interactive ++ reply_out r) replies) ++ prompt interactive /\
    t_err t' = err ++ concat (map reply_err replies).
Proof.
  induction replies as [|r replies IH]; intros fuel file c out err Hall Hw Hi Hfuel; (destruct fuel as [|fuel]; [lia|]); cbn [main_loop];
    pose proof (GetNextLine_ok file interactive) as Hline.
  - apply Forall2_nil_inv_r in Hall. rewrite Hall in *. destruct Hline as [file' Hline].
    erewrite M_bind_Ok by reflexivity. cbn [t_source IsInteractive].
    erewrite M_bind_Ok by (pose proof (prompt_ok interactive file c out err) as Hp; cbn in Hp; exact Hp).
    erewrite M_bind_Ok by (unfold next_line; cbn [t_source]; rewrite Hline; reflexivity). eexists. split; [reflexivity|].
    cbn. by rewrite !app_nil_r.
  - apply Forall2_cons_inv_r in Hall as (line & lines & (Hf & Hq & Hr & Hp) & Hall & Hcmd). rewrite Hcmd in *. destruct Hline as (Hne & file' & Hline & Hf').
    erewrite M_bind_Ok by reflexivity. cbn [t_source IsInteractive].
    erewrite M_bind_Ok by (pose proof (prompt_ok interactive file c out err) as Hpr; cbn in Hpr; exact Hpr).
    erewrite M_bind_Ok by (unfold next_line; cbn [t_source]; rewrite Hline; reflexivity). cbv beta iota. cbn [t_conn t_out t_err].
    rewrite zlen_eqb0. destruct line as [|b line]; [done|].
    assert (Hqb : interactive && bool_decide (b :: line = bytes_of "\q") = false).
    { destruct interactive; [|done]. cbn. apply bool_decide_eq_false. by apply Hq. }
    rewrite Hqb. destruct (send_query (b :: line) c (FDCommandSource file' interactive) (out ++ prompt interactive) err Hf Hw) as (c1 & E1 & Hs1 & Hi1 & Hw1).
    erewrite M_bind_Ok by exact E1. rewrite Hi in Hi1. cbn [map concat] in Hi1.
    destruct (handleResponse_ok r packets c1 (FDCommandSource file' interactive) (out ++ prompt interactive) err _ Hr Hw1 Hi1 Hp) as (c2 & E2 & Hi2 & Hs2 & Hw2).
    erewrite M_bind_Ok by (unfold catch_response; rewrite E2; reflexivity). cbv beta iota.
    rewrite <-Hf' in Hall. destruct (IH fuel file' c2 ((out ++ prompt interactive) ++ reply_out r) (err ++ reply_err r) Hall Hw2 Hi2) as (t' & E & Hsent & Hout & Herr);
      [cbn in Hfuel; lia|].
    exists t'. split; [exact E|]. cbn [map concat]. rewrite Hsent, Hs2, Hs1, Hf', Hout, Herr. by rewrite <-!app_assoc.
Qed.
End run.

(** ** Theorems *)

(** C38: The formatter prints a table whose lines, the one with the names, the separator and one for each
    row, all have the same length: it never fails the assertion that a value fits its column, for any
    names and values; and a row with fewer values than there are names is read past its end. *)
Theorem format_table `{Build} (attrs : list bytes) (rows : list (list (option bytes))) (out : bytes) :
  Forall (fun line => zlen line = table_width attrs rows) (table_lines attrs rows) /\
  (moderate attrs rows ->
    (Forall (fun row => (length attrs <= length row)%nat) rows -> Format attrs rows out = (Ok tt, out ++ table_text attrs rows)) /\
    (Exists (fun row => (length row < length attrs)%nat) rows -> Format attrs rows out = (Fault (UB "vector index out of range"), out))).
Proof.
  split; [apply lines_aligned|]. intros Hm. split; intros Hr.
  - by apply Format_ok.
  - unfold Format. unfold mbind at 1, M_bind at 1, lift at 1. by rewrite column_widths_short.
Qed.

Lemma format_table_witness :
  let attrs := map bytes_of ["id"; "name"] in
  let rows := [[Some (bytes_of "7"); Some (bytes_of "abcdef")]; [None; Some []]] in
  Format (H := DebugBuild) attrs rows [] =
    (Ok tt, bytes_of " id |  name  " ++ endl ++ bytes_of "----+--------" ++ endl ++ bytes_of " 7  | abcdef " ++ endl ++ bytes_of "    |        " ++ endl).
Proof.
  intros attrs rows. destruct (format_table (H := DebugBuild) attrs rows []) as [_ Hf].
  rewrite (proj1 (Hf ltac:(split; repeat constructor))) by (repeat constructor). vm_compute. reflexivity.
Defined.

(** A script is run to its end: whatever pieces the connection transfers, when the server answers each
    command with a table, a tag or an error, the client sends exactly the lines of the script that are not
    empty, in order, prints each answer, to the output or, for an error, to the error output, and exits with status 0. The
    same holds for the lines of an interactive user, with a prompt before each one. *)
Theorem client_runs_script `{Build} {S : Type} `{SocketLaws S} (fuel packets : nat) (interactive : bool) (file : bytes) (replies : list Reply) (c : S) :
  Forall2 (fun line r => fits (QueryPacket line) /\ (interactive = true -> line <> bytes_of "\q") /\ reply_ok r /\ (length (reply_packets r) <= packets)%nat)
    (commands file) replies ->
  working c -> sent c = [] -> incoming c = concat (map reply_wire replies) -> (length replies < fuel)%nat ->
  exists t', main_loop fuel packets (mkTerminal c (FDCommandSource file interactive) [] []) = (Ok 0, t') /\
    sent (t_conn t') = concat (map (fun line => wire (QueryPacket line)) (commands file)) /\
    t_out t' = concat (map (fun r => prompt interactive ++ reply_out r) replies) ++ prompt interactive /\
    t_err t' = concat (map reply_err replies).
Proof.
  intros Hall Hw Hs Hi Hf. destruct (run_ok packets interactive replies fuel file c [] [] Hall Hw Hi Hf) as (t' & E & Hsent & Hout & Herr).
  exists t'. rewrite Hsent, Hs. done.
Qed.

Definition ex_script : bytes := bytes_of "BEGIN" ++ endl ++ endl ++ bytes_of "SELECT x" ++ endl ++ bytes_of "oops".
Definition ex_replies : list Reply :=
  [RTag (bytes_of "BEGIN") (-1); RTable [bytes_of "x"] [[Some (bytes_of "12")]] (bytes_of "SELECT") 1; RError (bytes_of "bad")].

Ltac all_fit := cbn [reply_packets map app];
  repeat (apply Forall_cons_2; [split; [vm_compute; reflexivity | cbn; first [exact I | lia]]|]); apply Forall_nil_2.

Lemma ex_replies_ok : Forall reply_ok ex_replies.
Proof.
  apply Forall_cons_2; [split; [all_fit | exact I]|]. apply Forall_cons_2; [split; [all_fit|]|].
  - apply Forall_cons_2; [cbn; lia | apply Forall_nil_2].
  - apply Forall_cons_2; [split; [all_fit | exact I] | apply Forall_nil_2].
Defined.

Lemma ex_script_replies :
  Forall2 (fun line r => fits (QueryPacket line) /\ (false = true -> line <> bytes_of "\q") /\ reply_ok r /\ (length (reply_packets r) <= 3)%nat)
    (commands ex_script) ex_replies.
Proof.
  assert (Hc : commands ex_script = [bytes_of "BEGIN"; bytes_of "SELECT x"; bytes_of "oops"]) by (vm_compute; reflexivity).
  rewrite Hc. pose proof ex_replies_ok as Hok. unfold ex_replies in *.
  repeat (apply Forall_cons in Hok as [? Hok]).
  do 3 (constructor; [split; [split; [vm_compute; reflexivity | exact I]|]; split; [discriminate|]; split; [assumption | cbn; lia]|]). constructor.
Defined.

Lemma client_runs_script_witness :
  exists t', main_loop (H := DebugBuild) 4 3 (mkTerminal (mkMemSocket (concat (map reply_wire ex_replies)) [] 2 false) (FDCommandSource ex_script false) [] []) = (Ok 0, t') /\
    t_out t' = bytes_of "BEGIN" ++ endl ++ bytes_of " x  " ++ endl ++ bytes_of "----" ++ endl ++ bytes_of " 12 " ++ endl ++ bytes_of "(1 row)" ++ endl /\
    t_err t' = bytes_of "ERROR: bad" ++ endl.
Proof.
  destruct (client_runs_script (H := DebugBuild) 4 3 false ex_script ex_replies (mkMemSocket (concat (map reply_wire ex_replies)) [] 2 false) ex_script_replies)
    as (t' & E & _ & Ho & He); [reflexivity..|cbn; lia|].
  exists t'. split; [exact E|]. rewrite Ho, He. split; vm_compute; reflexivity.
Defined.
