(* ===== verification/ClientMain.v ===== *)
(** The process of the terminal client: [main] of [client/main.cpp] around the loop over the commands, and the
    descriptor of the connection, which [MimiClient] owns. *)
From stdpp Require Import strings pretty.
From S2P Require Import Prelude Types Network Packets Executor ClientProgram ClientSpec.

(** The system calls on sockets, on the state [D] of the network; [nt_stream] is the connection that a socket
    has, as a state of the stream calls of [Packets]. *)
Class NetworkCalls (D S : Type) := {
  nt_socket : D -> Z * D;
  nt_getaddrinfo : bytes -> string -> D -> Z * D;
  nt_connect : Z -> D -> Z * D;
  nt_stream : D -> S;
  nt_shutdown : Z -> D -> D;
  nt_close : Z -> D -> D;
  nt_strerror : D -> string;
  nt_gai_strerror : Z -> string
}.

(** A network that is [up] gives sockets and connects them to a peer, and [nt_closed] are the descriptors that [close]
    was called with. *)
Class NetworkLaws (D S : Type) `{NetworkCalls D S} := {
  up : D -> Prop;
  nt_closed : D -> list Z;
  socket_law d : up d -> exists fd d', nt_socket d = (fd, d') /\ 0 <= fd /\ up d' /\ nt_closed d' = nt_closed d /\ nt_stream d' = nt_stream d;
  getaddrinfo_law host port d : up d -> exists d', nt_getaddrinfo host port d = (0, d') /\ up d' /\ nt_closed d' = nt_closed d /\ nt_stream d' = nt_stream d;
  connect_law fd d : up d -> exists d', nt_connect fd d = (0, d') /\ nt_closed d' = nt_closed d /\ nt_stream d' = nt_stream d;
  shutdown_law fd d : nt_closed (nt_shutdown fd d) = nt_closed d;
  close_law fd d : nt_closed (nt_close fd d) = nt_closed d ++ [fd]
}.

(** The process: the network, its connection once there is one, and the two output streams. *)
Record ClientProcess (D S : Type) := mkClientProcess { cp_net : D; cp_conn : option S; cp_out : bytes; cp_err : bytes }.
Arguments mkClientProcess {D S} _ _ _ _.
Arguments cp_net {D S} _.
Arguments cp_conn {D S} _.
Arguments cp_out {D S} _.
Arguments cp_err {D S} _.

Section process.
Context `{Build} {D S : Type} `{Socket S} `{!NetworkCalls D S}.
#[local] Notation P := (M (ClientProcess D S)).

Definition net_call {A} (f : D -> A * D) : P A := fun p =>
  let '(r, d) := f (cp_net p) in (Ok r, mkClientProcess d (cp_conn p) (cp_out p) (cp_err p)).
Definition net_do (f : D -> D) : P unit := net_call (fun d => (tt, f d)).
Definition say (s : bytes) : P unit := modify (fun p => mkClientProcess (cp_net p) (cp_conn p) (cp_out p ++ s) (cp_err p)).
Definition complain (s : bytes) : P unit := modify (fun p => mkClientProcess (cp_net p) (cp_conn p) (cp_out p) (cp_err p ++ s)).
Definition last_error : P bytes := gets (fun p => bytes_of (nt_strerror (cp_net p))).

(** [MimiClient::Close] and its destructor: the descriptor that the client has then. *)
Definition Close (socket : Z) : P Z :=
  if socket =? -1 then mret socket
  else
    _ ← net_do (nt_shutdown socket);
    _ ← net_do (nt_close socket);
    mret (-1).

Definition tryConnectClient (opts : ClientOptions) (sock : Z) : P bool :=
  let host := default (bytes_of "localhost") (Host opts) in
  let port := pretty (default 6543 (Port opts)) in
  ret ← net_call (nt_getaddrinfo host port);
  if negb (ret =? 0) then _ ← say (bytes_of "could not get address info: " ++ bytes_of (nt_gai_strerror (D := D) ret) ++ endl); mret false
  else
    ret ← net_call (nt_connect sock);
    if negb (ret =? 0) then e ← last_error; _ ← say (bytes_of "could not connect to database: " ++ e ++ endl); mret false
    else mret true.

(** The loop of the program, on the connection of the socket. *)
Definition run_loop (fuel packets : nat) (source : ICommandSource) : P Z := fun p =>
  let '(r, t) := main_loop fuel packets (mkTerminal (nt_stream (cp_net p)) source (cp_out p) (cp_err p)) in
  (r, mkClientProcess (cp_net p) (Some (t_conn t)) (t_out t) (t_err t)).

(** The exit status. [exit] ends the process at once; at the end of [main] the socket is closed, and then the client that
    has the same descriptor is destroyed. *)
Definition main (vm : string -> option any) (open : bytes -> option bytes) (stdin : bytes) (fuel packets : nat) : P Z :=
  match ParseOptions vm with
  | Fault (Throw msg) => _ ← say (bytes_of "could not parse options: " ++ bytes_of msg ++ endl); mret 1
  | Fault e => throw e
  | Ok opts =>
      sock ← net_call nt_socket;
      if sock <? 0 then e ← last_error; _ ← complain (bytes_of "could not socket: " ++ e ++ endl); mret 1
      else
        connected ← tryConnectClient opts sock;
        if negb connected then mret 1
        else
          let client := sock in
          match tryCreateCommandSource opts open stdin with
          | None => e ← last_error; _ ← say (bytes_of "could not open file: " ++ e ++ endl); _ ← Close client; mret 1
          | Some cmdsrc =>
              code ← run_loop fuel packets cmdsrc;
              if negb (code =? 0) then mret code
              else
                _ ← net_do (nt_shutdown sock);
                _ ← net_do (nt_close sock);
                _ ← Close client;
                mret 0
          end
  end.

Context `{!SocketLaws S} `{!NetworkLaws D S}.

Lemma Close_ok fd p : fd <> -1 ->
  exists d, Close fd p = (Ok (-1), mkClientProcess d (cp_conn p) (cp_out p) (cp_err p)) /\ nt_closed d = nt_closed (cp_net p) ++ [fd].
Proof.
  intros Hfd. unfold Close. rewrite (proj2 (Z.eqb_neq _ _)) by done. eexists. split; [reflexivity|]. cbn. by rewrite close_law, shutdown_law.
Qed.

Lemma tryConnectClient_ok opts fd d out err : up d ->
  exists d', tryConnectClient opts fd (mkClientProcess d None out err) = (Ok true, mkClientProcess d' None out err) /\
    nt_closed d' = nt_closed d /\ nt_stream d' = nt_stream d.
Proof.
  intros Hu. destruct (getaddrinfo_law (default (bytes_of "localhost") (Host opts)) (pretty (default 6543 (Port opts))) d Hu) as (d1 & E1 & Hu1 & Hc1 & Hs1).
  destruct (connect_law fd d1 Hu1) as (d2 & E2 & Hc2 & Hs2). exists d2. split; [|split; congruence].
  unfold tryConnectClient, net_call, mbind, M_bind. cbn [cp_net cp_conn cp_out cp_err]. rewrite E1. cbn [Z.eqb negb cp_net cp_conn cp_out cp_err]. by rewrite E2.
Qed.
End process.

(** C17: The client as a process: given a script, or standard input, it connects, sends each non-empty line, prints every answer of the
    server and ends with status 0, whatever pieces the connection transfers; and it closes the descriptor of the connection twice: at the end
    of [main], and again when the [MimiClient] is destroyed that still has its number. *)
Theorem client_process `{Build} {D S : Type} `{SocketLaws S} `{NetworkLaws D S} (vm : string -> option any) (open : bytes -> option bytes) (stdin : bytes)
    (fuel packets : nat) (opts : ClientOptions) (interactive : bool) (file : bytes) (replies : list Reply) (d : D) :
  ParseOptions vm = Ok opts -> tryCreateCommandSource opts open stdin = Some (FDCommandSource file interactive) -> up d ->
  Forall2 (fun line r => fits (QueryPacket line) /\ (interactive = true -> line <> bytes_of "\q") /\ reply_ok r /\ (length (reply_packets r) <= packets)%nat)
    (commands file) replies ->
  working (nt_stream d) -> sent (nt_stream d) = [] -> incoming (nt_stream d) = concat (map reply_wire replies) -> (length replies < fuel)%nat ->
  exists fd c p', main vm open stdin fuel packets (mkClientProcess d None [] []) = (Ok 0, p') /\
    cp_conn p' = Some c /\ sent c = concat (map (fun line => wire (QueryPacket line)) (commands file)) /\
    cp_out p' = concat (map (fun r => prompt interactive ++ reply_out r) replies) ++ prompt interactive /\
    cp_err p' = concat (map reply_err replies) /\ nt_closed (cp_net p') = nt_closed d ++ [fd; fd].
Proof.
  intros Ho Hsrc Hu Hall Hw Hs Hi Hf. destruct (socket_law d Hu) as (fd & d1 & E1 & Hfd & Hu1 & Hc1 & Hs1).
  destruct (tryConnectClient_ok opts fd d1 [] [] Hu1) as (d2 & E2 & Hc2 & Hs2). rewrite Hs1 in Hs2. rewrite <-Hs2 in *.
  destruct (run_ok packets interactive replies fuel file (nt_stream d2) [] [] Hall Hw Hi Hf) as (t & E3 & Hsent & Hout & Herr).
  set (p3 := mkClientProcess (nt_close fd (nt_shutdown fd d2)) (Some (t_conn t)) (t_out t) (t_err t)).
  destruct (Close_ok fd p3 ltac:(lia)) as (d4 & E4 & Hc4). 
  exists fd, (t_conn t), (mkClientProcess d4 (cp_conn p3) (cp_out p3) (cp_err p3)). split; [|split; [done|]].
  - unfold main. rewrite Ho. erewrite M_bind_Ok by (unfold net_call; cbn [cp_net]; rewrite E1; reflexivity). rewrite (proj2 (Z.ltb_ge _ _)) by done.
    erewrite M_bind_Ok by exact E2. cbn [negb]. cbv zeta. rewrite Hsrc.
    erewrite M_bind_Ok by (unfold run_loop; cbn [cp_net cp_out cp_err]; rewrite E3; reflexivity). change (negb (0 =? 0)) with false. cbv iota.
    erewrite M_bind_Ok by reflexivity. erewrite M_bind_Ok by reflexivity. erewrite M_bind_Ok by exact E4. reflexivity.
  - unfold p3. cbn [cp_out cp_err cp_net]. rewrite Hsent, Hs, Hout, Herr. split; [done|]. split; [done|]. split; [done|].
    rewrite Hc4. unfold p3. cbn [cp_net]. rewrite close_law, shutdown_law, Hc2, Hc1, <-app_assoc. done.
Qed.

(** A network in memory: the connection that it gives, and the descriptors that were closed. *)
#[export] Instance RamNetwork : NetworkCalls (MemSocket * list Z) MemSocket := {
  nt_socket d := (3, d);
  nt_getaddrinfo _ _ d := (0, d);
  nt_connect _ d := (0, d);
  nt_stream d := fst d;
  nt_shutdown _ d := d;
  nt_close fd d := (fst d, snd d ++ [fd]);
  nt_strerror _ := "Success";
  nt_gai_strerror _ := "Success"
}.

#[export] Instance RamNetwork_laws : NetworkLaws (MemSocket * list Z) MemSocket.
Proof.
  refine {| up _ := True; nt_closed := snd |}; try done.
  - intros d _. exists 3, d. by split_and!.
  - intros host port d _. exists d. by split_and!.
  - intros fd d _. exists d. by split_and!.
Defined.

Definition ex_options (name : string) : option any := if String.eqb name "file" then Some (AString (bytes_of "script.sql")) else None.

Lemma client_process_witness :
  exists p', main (H := DebugBuild) ex_options (fun _ => Some ex_script) [] 4 3
      (mkClientProcess (mkMemSocket (concat (map reply_wire ex_replies)) [] 2 false, []) None [] []) = (Ok 0, p') /\
    cp_err p' = bytes_of "ERROR: bad" ++ endl /\ exists fd, snd (cp_net p') = [fd; fd].
Proof.
  destruct (client_process (H := DebugBuild) ex_options (fun _ => Some ex_script) [] 4 3
    (mkClientOptions (Some (bytes_of "script.sql")) None None None None false) false ex_script ex_replies
    (mkMemSocket (concat (map reply_wire ex_replies)) [] 2 false, []) eq_refl eq_refl ltac:(exact I) ex_script_replies)
    as (fd & c & p' & E & _ & _ & _ & He & Hc); [reflexivity..|cbn; lia|].
  exists p'. split; [exact E|]. split; [rewrite He; vm_compute; reflexivity | exists fd; exact Hc].
Defined.
