(* ===== verification/EndToEnd.v ===== *)
(** A query from the client to the terminal: the session, its transaction, the plan, the table, the packets and the
    client, composed. *)
From stdpp Require Import strings pretty.
From S2P Require Import Prelude Types Transactions HeapTable Network Packets Executor Logger Plan Catalog Planner Session SessionSpec ClientProgram ClientSpec.

(** ** Plans over the tables of the storage

    A computation of a session that is one of the storage under it. *)
Section lifting.
Context `{Build} {W C L T Sc : Type} `{ITable W T Sc}.
#[local] Notation Session := (Session W C L).

Definition world (s : Session) : W := tm_world (s_tm s).
Definition with_world (w : W) (s : Session) : Session := set_tm (set_world w (s_tm s)) s.

Definition lifts {A} (m : M Session A) (m' : M W A) : Prop :=
  forall s, m s = let '(r, w) := m' (world s) in (r, with_world w s).

Lemma with_world_same s : with_world (world s) s = s.
Proof. by destruct s as [[] ? ? ? ?]. Qed.

Lemma lifts_ret {A} (a : A) : lifts (mret a) (mret a).
Proof. intros s. cbn. by rewrite with_world_same. Qed.

Lemma lifts_throw {A} f : lifts (A := A) (throw f) (throw f).
Proof. intros s. cbn. by rewrite with_world_same. Qed.

Lemma lifts_lift {A} (x : result A) : lifts (lift x) (lift x).
Proof. intros s. cbn. by rewrite with_world_same. Qed.

Lemma lifts_bind {A B} (m : M Session A) m' (k : A -> M Session B) k' :
  lifts m m' -> (forall a, lifts (k a) (k' a)) -> lifts (mbind k m) (mbind k' m').
Proof.
  intros Hm Hk s. unfold mbind, M_bind. rewrite Hm. destruct (m' (world s)) as [[a|e] w]; [|done].
  rewrite Hk. change (world (with_world w s)) with w. by destruct (k' a w).
Qed.

Lemma lifts_world {A} (m : M W A) : lifts (on_tm (on_world m)) m.
Proof. intros s. unfold on_tm, on_world, world. by destruct (m (tm_world (s_tm s))). Qed.
End lifting.

Create HintDb lifts discriminated.
#[export] Hint Resolve lifts_ret lifts_throw lifts_lift lifts_world : lifts.

Ltac lifts_tac :=
  repeat match goal with
  | |- lifts (mbind _ _) _ => apply lifts_bind; [|intro]
  | |- lifts (match ?x with _ => _ end) _ => destruct x
  end; auto with lifts.

Section plans.
Context `{Build} {W C L T Sc : Type} `{Tbl : ITable W T Sc}.
#[local] Notation Session := (Session W C L).
#[local] Existing Instance Session_table.

Lemma lifts_begin_scan snap : lifts (begin_scan (W := Session) snap) (begin_scan snap).
Proof. unfold begin_scan. lifts_tac; apply lifts_world. Qed.
#[local] Hint Resolve lifts_begin_scan : lifts.

Lemma lifts_Start node snap : lifts (Start (W := Session) node snap) (Start node snap).
Proof. destruct node; cbn [Start]; lifts_tac. Qed.

Lemma lifts_End node : lifts (End (W := Session) node) (End node).
Proof. destruct node; cbn [End]; lifts_tac; apply lifts_world. Qed.

Lemma lifts_seq_scan fuel qual sc : lifts (seq_scan (W := Session) fuel qual sc) (seq_scan fuel qual sc).
Proof. revert sc. induction fuel as [|fuel IH]; intros sc; cbn [seq_scan]; lifts_tac; apply lifts_world. Qed.

Lemma lifts_insert_all tuples n : lifts (insert_all (W := Session) tuples n) (insert_all tuples n).
Proof. revert n. induction tuples as [|t tuples IH]; intros n; cbn [insert_all]; lifts_tac; apply lifts_world. Qed.

Lemma lifts_update_loop fuel qual ups sc n : lifts (update_loop (W := Session) fuel qual ups sc n) (update_loop fuel qual ups sc n).
Proof. revert sc n. induction fuel as [|fuel IH]; intros sc n; cbn [update_loop]; lifts_tac; apply lifts_world. Qed.

Lemma lifts_delete_loop fuel qual sc n : lifts (delete_loop (W := Session) fuel qual sc n) (delete_loop fuel qual sc n).
Proof. revert sc n. induction fuel as [|fuel IH]; intros sc n; cbn [delete_loop]; lifts_tac; apply lifts_world. Qed.
#[local] Hint Resolve lifts_seq_scan lifts_insert_all lifts_update_loop lifts_delete_loop : lifts.

Lemma lifts_Execute fuel node : lifts (Execute (W := Session) fuel node) (Execute fuel node).
Proof. destruct node; cbn [Execute]; lifts_tac. Qed.
End plans.

(** ** The rows of a SELECT on the wire *)
Section rows.
Context `{Build} {W L S T Sc : Type} `{Lw : SocketLaws S} `{Tbl : ITable W T Sc} {R : Type}.
#[local] Notation Session := (Session W S L).
#[local] Existing Instance Session_table.
Context (table : R).
#[local] Notation db := (main_db table).

(** The text of an integer column, and the packet of a row. *)
Definition int_text (w : Z) (v : option Z) : option bytes := (fun v => bytes_of (pretty (swrap w v))) <$> v.
Definition row_values (row : option Z * option Z) : list (option bytes) := [int_text 32 row.1; int_text 16 row.2].

Definition outputs : list OutputFunction := [Int32Output; Int16Output].

(** The connection has sent [b], and the output functions are those of the table when they are set. *)
Definition sending (b : bytes) (s : Session) : Prop :=
  working (s_client s) /\ sent (s_client s) = b /\ (s_outputs s = None \/ s_outputs s = Some outputs).

(** What a reply leaves as it was. *)
Definition same_rest (s s' : Session) : Prop := s_tm s' = s_tm s /\ s_my s' = s_my s /\ s_log s' = s_log s.

Lemma Send_ok p b s : fits p -> sending b s ->
  exists s', Send p s = (Ok tt, s') /\ sending (b ++ wire p) s' /\ same_rest s s'.
Proof.
  intros Hf (Hw & Hb & Ho). destruct (SendPacket_ok p (s_client s) Hf Hw) as (c' & E & Hs & _ & Hw').
  unfold Send, on_client. cbn [cl_SendPacket Socket_client]. rewrite E. eexists. split; [reflexivity|]. split; [|done].
  split; [done|]. split; [cbn; congruence | done].
Qed.

Lemma getOutputFunctions_ok b s : sending b s ->
  exists s', getOutputFunctions db main_descriptor s = (Ok outputs, s') /\ sending b s' /\ same_rest s s'.
Proof.
  intros (Hw & Hb & Ho). unfold getOutputFunctions. unfold mbind at 1, M_bind at 1, gets. destruct Ho as [Ho|Ho]; rewrite Ho.
  - change (zlen main_descriptor <=? GetMaxAttrNumber main_descriptor) with true. cbv iota.
    erewrite lift_Ok by reflexivity. eexists. split; [reflexivity|]. split; [|done]. split; [done|]. split; [done | by right].
  - exists s. split; [done|]. split; [|done]. split; [done|]. split; [done | by right].
Qed.

Lemma output_attrs t row : tuple_holds t [Scalar <$> row.1; Scalar <$> row.2] ->
  AttrNumber.for_each (GetMaxAttrNumber main_descriptor) (output_value outputs t) [] = Ok (row_values row).
Proof.
  intros [_ Ha]. rewrite AttrNumber.for_each_seq; [|done|]; change (seq 0 (Z.to_nat (GetMaxAttrNumber main_descriptor))) with [0; 1]%nat; cbn [foldM].
  - unfold output_value. rewrite (Ha 0%nat _ eq_refl), (Ha 1%nat _ eq_refl). destruct row as [[a|] [b|]]; reflexivity.
  - unfold output_value. rewrite (Ha 0%nat _ eq_refl), (Ha 1%nat _ eq_refl). destruct row as [[a|] [b|]]; discriminate.
Qed.

Lemma SendTuple_ok t row b s :
  tuple_holds t [Scalar <$> row.1; Scalar <$> row.2] -> fits (DataRowPacket (row_values row)) -> sending b s ->
  exists s', SendTuple db main_descriptor t s = (Ok tt, s') /\ sending (b ++ wire (DataRowPacket (row_values row))) s' /\ same_rest s s'.
Proof.
  intros Ht Hf Hs. unfold SendTuple. destruct (getOutputFunctions_ok b s Hs) as (s1 & E1 & Hs1 & Hr1). erewrite M_bind_Ok by exact E1.
  erewrite lift_Ok by by apply output_attrs. destruct (Send_ok _ b s1 Hf Hs1) as (s2 & E2 & Hs2 & Hr2). exists s2. split; [done|]. split; [done|].
  unfold same_rest in *. intuition congruence.
Qed.

(** The loop over the rows, when the plan alone returns [ts]. *)
Lemma send_rows_ok (row : T -> option Z * option Z) fuel : forall ts node node' w' b (s : Session),
  results fuel node (world s) = (Ok (ts, node'), w') -> Forall (fun t => is_row t (row t)) ts ->
  Forall (fun t => fits (DataRowPacket (row_values (row t)))) ts -> sending b s ->
  exists s', send_rows db fuel true main_descriptor node s = (Ok node', s') /\
    sending (b ++ concat (map (fun t => wire (DataRowPacket (row_values (row t)))) ts)) s' /\
    s_tm s' = set_world w' (s_tm s) /\ s_my s' = s_my s /\ s_log s' = s_log s.
Proof.
  unfold send_rows. induction fuel as [|fuel IH]; intros ts node node' w' b s; cbn [results execute_all]; [done|].
  intros E Hr Hf Hs. apply M_bind_inv in E as ([o n1] & w1 & E1 & E).
  assert (E1s : Execute (W := Session) (Datatypes.S fuel) node s = (Ok (o, n1), with_world w1 s)) by by rewrite (lifts_Execute (Datatypes.S fuel) node s), E1.
  erewrite M_bind_Ok by exact E1s. cbv beta iota. assert (Hs1 : sending b (with_world w1 s)) by done. destruct o as [t|].
  - apply M_bind_inv in E as ([ts' n2] & w2 & E2 & [= <- <- <-]). apply Forall_cons in Hr as [Hr1 Hr]. apply Forall_cons in Hf as [Hf1 Hf].
    destruct (SendTuple_ok _ _ b (with_world w1 s) Hr1 Hf1 Hs1) as (s2 & Es & Hs2 & Htm & Hmy & Hlog). erewrite M_bind_Ok by exact Es.
    destruct (IH ts' n1 n2 w2 (b ++ wire (DataRowPacket (row_values (row t)))) s2) as (s' & E' & Hs' & Htm' & Hmy' & Hlog'); [|done|done|done|].
    { unfold world. rewrite Htm. exact E2. }
    exists s'. split; [exact E'|]. cbn [map concat]. rewrite <-app_assoc in Hs'. split; [done|]. rewrite Htm', Hmy', Hlog', Htm, Hmy, Hlog. done.
  - injection E as <- <- <-. exists (with_world w1 s). cbn [map concat]. rewrite app_nil_r. done.
Qed.
End rows.

(** ** The statement and its transaction *)
Section statement.
Context `{Build} {W L S T Sc : Type} `{Lw : SocketLaws S} `{Tbl : ITable W T Sc} `{Lg : ILogHandler L} {R : Type}.
#[local] Notation Session := (Session W S L).
#[local] Existing Instance Session_table.
Context (Flush : Z -> M W unit) (UndoAllRecords : list Z -> M W unit) (workerId : Z) (table : R) (GetDescriptor : R -> TupleDescriptor).
Hypothesis Hdesc : GetDescriptor table = main_descriptor.
#[local] Notation db := (main_db table).

(** The snapshot of the first statement of a transaction. *)
Definition first_snapshot (s : Session) : Snapshot := mkSnapshot (tm_csn (s_tm s)) UndoSeqNumber.Invalid.

Lemma begin_statement_ok b s t :
  tm_transactions (s_tm s) !! workerId = Some t -> t_snapshot t = None -> sending b s ->
  exists s', begin_statement workerId s = (Ok (first_snapshot s), s') /\ sending b s' /\ world s' = world s /\ s_log s' = s_log s.
Proof.
  intros Ht Hn Hs. unfold begin_statement. unfold mbind at 1, M_bind at 1, get. rewrite Ht. erewrite lift_Ok by reflexivity.
  assert (Hb : on_tm (BeginNewStatement t) s = (Ok (set_snapshot t (first_snapshot s)), s)).
  { unfold on_tm, BeginNewStatement. rewrite Hn. unfold GetCurrentCSN, mbind, M_bind, gets, mret, M_ret, set_tm. by destruct s. }
  erewrite M_bind_Ok by exact Hb. erewrite lift_Ok by (apply assert_Ok; done). erewrite M_bind_Ok by reflexivity.
  eexists. split; [reflexivity|]. done.
Qed.

(** What is sent for the rows [rows]. *)
Definition select_reply (rows : list (option Z * option Z)) : Reply :=
  RTable [bytes_of "a"; bytes_of "b"] (map row_values rows) (bytes_of "SELECT") (zlen rows).

Lemma run_select_ok fuel stmt (row : T -> option Z * option Z) qual ts node node' w1 w2 b (s : Session) t :
  tm_transactions (s_tm s) !! workerId = Some t -> t_snapshot t = None -> sending b s ->
  GetCmdTag stmt = CSelect -> GetNode stmt = newSeqScan qual ->
  (n ← Start (newSeqScan qual) (first_snapshot s); results fuel n) (world s) = (Ok (ts, node), w1) ->
  End node w1 = (Ok node', w2) -> GetRowsProcessed node' = zlen ts ->
  Forall (fun t => is_row t (row t)) ts -> reply_ok (select_reply (map row ts)) ->
  exists s', run_statement workerId db GetDescriptor fuel stmt s = (Ok tt, s') /\ sending (b ++ reply_wire (select_reply (map row ts))) s'.
Proof.
  intros Ht Hn Hs Htag Hnode Hrun Hend Hrows Hr [Hfit _]. unfold select_reply in *. cbn [reply_packets] in Hfit. apply Forall_cons in Hfit as [Hf1 Hfit].
  apply Forall_app in Hfit as [Hf2 Hf3]. apply Forall_cons in Hf3 as [Hf3 _]. rewrite !map_map, Forall_map in Hf2.
  destruct (begin_statement_ok b s t Ht Hn Hs) as (s1 & E1 & Hs1 & Hw1 & _). unfold run_statement. erewrite M_bind_Ok by exact E1.
  erewrite lift_Ok by apply OpenTable_ok. cbv zeta. rewrite Htag, Hnode, Hdesc, bool_decide_true by done.
  destruct (Send_ok _ b s1 Hf1 Hs1) as (s2 & E2 & Hs2 & Htm2 & _ & _). erewrite M_bind_Ok by exact E2.
  apply M_bind_inv in Hrun as (n & w0 & Hst & Hres).
  assert (Hws : world s2 = world s) by (unfold world in *; congruence).
  assert (E3 : Start (W := Session) (newSeqScan qual) (first_snapshot s) s2 = (Ok n, with_world w0 s2)) by by rewrite (lifts_Start _ _ s2), Hws, Hst.
  erewrite M_bind_Ok by exact E3.
  destruct (send_rows_ok table row fuel ts n node w1 (b ++ wire (TupleDescriptionPacket [bytes_of "a"; bytes_of "b"])) (with_world w0 s2)) as (s3 & E4 & Hs3 & Htm3 & _ & _).
  { exact Hres. } { done. } { exact Hf2. } { done. }
  erewrite M_bind_Ok by exact E4.
  assert (Hw3 : world s3 = w1) by (unfold world; by rewrite Htm3).
  assert (E5 : End (W := Session) node s3 = (Ok node', with_world w2 s3)) by by rewrite (lifts_End _ s3), Hw3, Hend.
  erewrite M_bind_Ok by exact E5. rewrite Hrows. cbn [cmdTagToString]. unfold SendCommandComplete.
  unfold zlen in Hf3 at 1. rewrite length_map in Hf3.
  destruct (Send_ok _ _ (with_world w2 s3) Hf3 ltac:(exact Hs3)) as (s4 & E6 & Hs4 & _). exists s4. split; [exact E6|].
  unfold reply_wire. cbn [reply_packets map concat]. rewrite map_app, concat_app, !map_map. cbn [map concat]. rewrite app_nil_r. unfold zlen at 1. rewrite length_map.
  by rewrite <-!app_assoc in *.
Qed.

(** A SELECT from [tbl] as the parser gives it, with or without a condition; the planner does not look at its select list, and what
    comes back are all the columns. *)
Definition select_all (sel : list Expr) (wh : option Expr) : SQLStatement :=
  Select (mkSelect (Some kTableName) false sel wh false false false false false).

Lemma plan_select_all sel wh :
  opt_all supported wh = true -> opt_all well_formed wh = true ->
  exists p qual, Plan (Sc := Sc) db (select_all sel wh) = Ok p /\ GetCmdTag p = CSelect /\ GetNode p = newSeqScan qual /\ denotes_opt qual wh.
Proof.
  intros Hs Hw. pose proof (plan_select_ok (Sc := Sc) table (mkSelect (Some kTableName) false sel wh false false false false false)) as Hp.
  unfold handled in Hp. cbn [stmt_supported no_null_reference groupBy limit order lockings setOperations selectDistinct fromTable whereClause] in Hp.
  rewrite Hs, Hw in Hp. destruct (Hp eq_refl) as (p & E & _ & Ht & qual & Hn & Hq). exists p, qual.
  split; [unfold Plan; rewrite assert_Ok by done; exact E | done].
Qed.

Lemma commit_keeps_client (s : Session) r (s' : Session) : commit_transaction_command Flush workerId s = (r, s') -> s_client s' = s_client s.
Proof.
  unfold commit_transaction_command, on_tm, set_my, mbind, M_bind, modify. destruct (CommitTransaction Flush workerId (s_tm s)) as [[[]|e] m]; by intros [= _ <-].
Qed.

Hypothesis Log_answers : forall text (l : L), exists l', handler_Write text l = (Ok tt, l').
Hypothesis Flush_answers : forall lsn w, exists w', Flush lsn w = (Ok tt, w').

Lemma select_served parse fuel query sel wh (row : T -> option Z * option Z) b (s : Session) s0 w0 ts s1 w1 s2 w2 :
  in_mode workerId s NoTransaction -> CommitSeqNumber.Min <= tm_csn (s_tm s) -> zlen (c_str query) <= 1004 ->
  ParseStatement parse query = Ok (select_all sel wh) -> opt_all supported wh = true -> opt_all well_formed wh = true ->
  begin_scan (first_snapshot s) (world s) = (Ok s0, w0) -> yields s0 w0 ts s1 w1 -> tbl_EndScan s1 w1 = (Ok s2, w2) ->
  Forall (fun t => is_row t (row t)) ts -> (length ts < fuel)%nat -> sending b s ->
  let selected := map row (filter (fun t => where_true wh (row t)) ts) in
  reply_ok (select_reply selected) ->
  exists s', handle_query Flush UndoAllRecords workerId db GetDescriptor parse fuel query s = (Ok tt, s') /\
    in_mode workerId s' NoTransaction /\ history s' (tm_xid (s_tm s)) = Some (tm_csn (s_tm s)) /\
    sent (s_client s') = b ++ reply_wire (select_reply selected).
Proof.
  intros Hm Hc Hq Hp Hsup Hwf Hb Hy He Hr Hf Hs selected Hok.
  assert (Hlog : zlen (levelMsg DEBUG) + zlen (query_text query) < MaxLogMessageSize).
  { unfold query_text. rewrite zlen_app. change (zlen (bytes_of "got query: ")) with 11. change (zlen (levelMsg DEBUG)) with 8. unfold MaxLogMessageSize. lia. }
  destruct (log_answers Log_answers DEBUG (query_text query) s Hlog) as (l0 & E0). set (sl := mkSession _ _ _ _ l0) in *.
  unfold handle_query. erewrite M_bind_Ok by exact E0. unfold try_catch. rewrite Hp. erewrite lift_Ok by reflexivity.
  destruct (plan_select_all sel wh Hsup Hwf) as (p & qual & Epl & Htag & Hnode & Hqual).
  destruct (session_begin_ok workerId sl Hm) as (sb & Eb & Hmb & Hcb & Hwb & Hclb & Hob & _ & t & Ht & Hsn).
  change (tm_csn (s_tm sl)) with (tm_csn (s_tm s)) in Hcb.
  assert (Hfirst : first_snapshot sb = first_snapshot s) by (unfold first_snapshot; by rewrite Hcb).
  assert (Hsb : sending b sb) by (destruct Hs as (A1 & A2 & A3); unfold sending; rewrite Hclb, Hob; done).
  set (qs := filter (fun t => where_true wh (row t)) ts) in *.
  destruct (run_select_ok fuel p row qual qs (SeqScan (Some s1) qual (0 + zlen qs)) (SeqScan (Some s2) qual (0 + zlen qs)) w1 w2 b sb t Ht Hsn Hsb Htag Hnode)
    as (sr & Er & Hsr).
  { rewrite Hfirst. change (world s) with (world sl) in Hb. unfold world in *. rewrite Hwb.
    erewrite M_bind_Ok; [|unfold Start, newSeqScan; by erewrite M_bind_Ok by exact Hb].
    eapply results_filter; [exact Hy | | exact Hf]. eapply Forall_impl; [exact Hr|]. intros u Hu. by apply denotes_passes. }
  { cbn [End]. erewrite lift_Ok by reflexivity. by erewrite M_bind_Ok by exact He. }
  { done. }
  { rewrite Forall_forall in Hr. apply Forall_forall. intros u Hu. apply Hr. by apply list_elem_of_filter in Hu as [_ Hu]. }
  { exact Hok. }
  destruct (stays_mode workerId _ _ _ _ _ (stays_run_statement (Sc := Sc) (SessionTable0 := Session_table_laws workerId) workerId db GetDescriptor fuel p) Hmb Er I) as [Hmr [= _ Hcr]].
  destruct (commit_transaction_command Flush workerId sr) as [rc sc] eqn:Ec.
  destruct (commit_ok Flush workerId sr _ _ rc sc Hmr ltac:(lia) Ec) as [Hk Hans]. rewrite (Hans Flush_answers) in *. destruct Hk as [Hmc Hhc].
  exists sc. split; [|split; [done|split; [change (tm_xid (s_tm s)) with (tm_xid (s_tm sl)); rewrite Hhc; f_equal; lia | rewrite (commit_keeps_client _ _ _ Ec); by destruct Hsr as (_ & Hsr & _)]]].
  unfold exec_statement, select_all. cbn [IsPlannableStatement]. fold (select_all sel wh). unfold exec_plannable_query. erewrite lift_Ok by exact Epl.
  unfold with_guard. assert (Eg : guard_enter workerId sl = (Ok true, sb)).
  { unfold guard_enter, mbind, M_bind, gets. destruct Hm as (_ & Hmy & _). change (s_my sl) with (s_my s). by rewrite Hmy, Eb. }
  erewrite M_bind_Ok by exact Eg. unfold guard_scope. erewrite M_bind_Ok by exact Er. unfold guard_commit. erewrite M_bind_Ok by exact Ec. reflexivity.
Qed.

(** C11: A SELECT from the keyboard to the screen: when a session without a transaction gets a query that is parsed as
    [SELECT ... FROM tbl WHERE e], and the scan of the table with the snapshot of the present commit number yields the tuples [ts],
    then the query is answered, its transaction is committed with the next number, and a terminal client that
    receives what was sent, in whatever pieces, prints the columns [a] and [b] of exactly the rows for which [e] is
    true, in the order of the scan, and how many they are. *)
Theorem select_end_to_end parse fuel query sel wh (row : T -> option Z * option Z) b (s : Session) s0 w0 ts s1 w1 s2 w2 :
  in_mode workerId s NoTransaction -> CommitSeqNumber.Min <= tm_csn (s_tm s) -> zlen (c_str query) <= 1004 ->
  ParseStatement parse query = Ok (select_all sel wh) -> opt_all supported wh = true -> opt_all well_formed wh = true ->
  begin_scan (first_snapshot s) (world s) = (Ok s0, w0) -> yields s0 w0 ts s1 w1 -> tbl_EndScan s1 w1 = (Ok s2, w2) ->
  Forall (fun t => is_row t (row t)) ts -> (length ts < fuel)%nat -> sending b s ->
  let selected := map row (filter (fun t => where_true wh (row t)) ts) in
  reply_ok (select_reply selected) ->
  exists s' bs, handle_query Flush UndoAllRecords workerId db GetDescriptor parse fuel query s = (Ok tt, s') /\
    in_mode workerId s' NoTransaction /\ history s' (tm_xid (s_tm s)) = Some (tm_csn (s_tm s)) /\ sent (s_client s') = b ++ bs /\
    forall (c : S) src out err packets rest, working c -> incoming c = bs ++ rest -> (length selected + 2 <= packets)%nat ->
      exists c', handleResponse packets None [] (mkTerminal c src out err) =
        (Ok Success, mkTerminal c' src (out ++ table_text [bytes_of "a"; bytes_of "b"] (map row_values selected) ++ rows_text (zlen selected)) err) /\
        incoming c' = rest.
Proof.
  intros Hm Hc Hq Hp Hsup Hwf Hb Hy He Hr Hf Hs selected Hok.
  destruct (select_served parse fuel query sel wh row b s s0 w0 ts s1 w1 s2 w2 Hm Hc Hq Hp Hsup Hwf Hb Hy He Hr Hf Hs Hok) as (s' & E & Hm' & Hh & Hsent).
  exists s', (reply_wire (select_reply selected)). split; [exact E|]. split; [exact Hm'|]. split; [exact Hh|]. split; [exact Hsent|].
  intros c src out err packets rest Hw Hi Hpk. destruct (handleResponse_ok (select_reply selected) packets c src out err rest Hok Hw Hi) as (c' & Eh & Hi' & _).
  { unfold select_reply. cbn [reply_packets length]. rewrite length_app, !length_map. cbn. lia. }
  exists c'. split; [|done]. rewrite Eh. cbn [reply_out reply_err select_reply]. pose proof (zlen_nonneg selected).
  rewrite (proj2 (Z.leb_le _ _)) by done. by rewrite app_nil_r.
Qed.
End statement.

(** ** A concrete session: [SELECT * FROM tbl WHERE a = 2] over a socket that takes three bytes at a time *)
Definition ex_select_session : Session ex_W MemSocket ConsoleLogHandler :=
  mkSession (Transactions.init []) false (mkMemSocket [] [] 3 false) None (mkConsole []).

Definition ex_row (t : list (option Datum)) : option Z * option Z :=
  (match nth 0 t None with Some (Scalar v) => Some v | _ => None end, match nth 1 t None with Some (Scalar v) => Some v | _ => None end).

Lemma select_end_to_end_witness :
  exists s' bs, handle_query (H := DebugBuild) (H0 := Socket_client (H := DebugBuild)) (H2 := Session_table) ex_flush ex_undo 3 ex_db ex_desc ex_parse 5 [] ex_select_session = (Ok tt, s') /\
    sent (s_client s') = bs /\
    exists c', handleResponse (H := DebugBuild) 5 None [] (mkTerminal (mkMemSocket bs [] 2 false) (FDCommandSource [] false) [] []) =
      (Ok Success, mkTerminal c' (FDCommandSource [] false)
        (bytes_of " a | b " ++ endl ++ bytes_of "---+---" ++ endl ++ bytes_of " 2 |   " ++ endl ++ bytes_of "(1 row)" ++ endl) []).
Proof.
  destruct (select_end_to_end (H := DebugBuild) (Tbl := Mem_table) ex_flush ex_undo 3 tt ex_desc eq_refl ex_write (fun _ w => ex_intro _ w eq_refl) ex_parse 5 []
    [] (Some (op_equals (column_ref "a") (int_literal 2))) ex_row [] ex_select_session ex_rows [] ex_rows [] [] [] [])
    as (s' & bs & E & _ & _ & Hs & Hc).
  - split; [reflexivity | split; reflexivity].
  - vm_compute. discriminate.
  - vm_compute. discriminate.
  - reflexivity.
  - reflexivity.
  - reflexivity.
  - reflexivity.
  - repeat (eapply yields_next; [reflexivity|]). by apply yields_end.
  - reflexivity.
  - repeat (apply Forall_cons_2; [split; [reflexivity|]; intros [|[|i]] v Hi; [injection Hi as <-; reflexivity | injection Hi as <-; reflexivity | destruct i; discriminate]|]). apply Forall_nil_2.
  - cbn. lia.
  - split; [reflexivity|]. split; [reflexivity | by left].
  - change (reply_ok (select_reply [(Some 2, None)])). split; [unfold select_reply; change (zlen [(Some 2, @None Z)]) with 1; all_fit|]. apply Forall_cons_2; [cbn; lia | apply Forall_nil_2].
  - exists s', bs. split; [exact E|]. split; [exact Hs|].
    destruct (Hc (mkMemSocket bs [] 2 false) (FDCommandSource [] false) [] [] 5%nat []) as (c' & Eh & _); [reflexivity | cbn; by rewrite app_nil_r | change (3 <= 5)%nat; lia |].
    exists c'. etransitivity; [exact Eh|]. reflexivity.
Defined.
