(* ===== verification/Workers.v ===== *)
(** The workers: [worker/Worker.cpp] and [worker/WorkerManager.cpp]. *)
From S2P Require Import Prelude Types Executor.

Module WorkerId.
Definition InvalidValue : Z := -1.
Definition IsValid (value : Z) : bool := negb (value =? InvalidValue).
End WorkerId.

(** A worker: its id, the flag [_busy] ([None] while nothing has been written to it) and the
    sockets that its threads were started with, the last one first; a thread is there to be
    joined when there is one. *)
Record Worker := mkWorker { w_id : Z; w_busy : option bool; w_threads : list Z }.

#[export] Instance Worker_eq_dec : EqDecision Worker.
Proof. solve_decision. Defined.

Section workers.
Context `{Build}.

(** The constructor does not initialise [_busy]. *)
Definition newWorker (id : Z) : result Worker :=
  _ ← assert_ (WorkerId.IsValid id) "id.IsValid()";
  mret (mkWorker id None []).

Definition IsBusy (w : Worker) : result bool := of_option (UB "indeterminate value") (w_busy w).
Definition SetBusy (w : Worker) : Worker := mkWorker (w_id w) (Some true) (w_threads w).

(** Joining waits for the thread before, which has ended when the flag is clear. *)
Definition Submit (w : Worker) (sock : Z) : result Worker :=
  busy ← IsBusy w;
  if busy : bool then Fault (Throw "Can not submit handler because worker already running")
  else Ok (mkWorker (w_id w) (Some true) (sock :: w_threads w)).

(** Only the ids are exchanged: a worker that was made by a move has no thread and an indeterminate flag. *)
Definition swap (this other : Worker) : Worker * Worker :=
  (mkWorker (w_id other) (w_busy this) (w_threads this), mkWorker (w_id this) (w_busy other) (w_threads other)).
Definition move_construct (other : Worker) : Worker := fst (swap (mkWorker WorkerId.InvalidValue None []) other).
Definition move_assign (this other : Worker) : Worker := fst (swap this other).

(** The end of a session. *)
Definition mark_free (w : Worker) : Worker := mkWorker (w_id w) (Some false) (w_threads w).

(** ** WorkerManager: the vector of its workers *)
Definition newWorkerManager (workersCount : nat) : result (list Worker) :=
  workers ← mapM (fun i => newWorker (Z.of_nat i)) (seq 0 workersCount);
  w ← vec_get workers 0;
  vec_set workers 0 (SetBusy w).

Definition GetWorker (workers : list Worker) (id : Z) : result Worker :=
  _ ← assert_ (WorkerId.IsValid id) "id.IsValid()";
  _ ← assert_ (wrap 64 id <? zlen workers) "static_cast<size_t>(id.value) < this->_workers.size()";
  vec_get workers (Z.to_nat (wrap 64 id)).

(** What the thread of a session does: [outcome] is what its connection ended with; an exception is printed. *)
Definition HandleUserConnectionGuts (id : Z) (outcome : result unit) (workers : list Worker) (cerr : list byte) : result (list Worker * list byte) :=
  cerr ← (match outcome with
          | Ok _ => Ok cerr
          | Fault (Throw msg) => Ok (cerr ++ bytes_of msg ++ [x0a])
          | Fault e => Fault e
          end);
  w ← GetWorker workers id;
  workers ← vec_set workers (Z.to_nat (wrap 64 id)) (mark_free w);
  mret (workers, cerr).

(** [std::find_if] and [Submit]. *)
Fixpoint StartNewSession (workers : list Worker) (sock : Z) : result (bool * list Worker) :=
  match workers with
  | [] => Ok (false, [])
  | w :: workers =>
      busy ← IsBusy w;
      if busy : bool then '(ok, workers) ← StartNewSession workers sock; mret (ok, w :: workers)
      else w ← Submit w sock; mret (true, w :: workers)
  end.

Lemma newWorkers_ok n i : mapM (fun i => newWorker (Z.of_nat i)) (seq i n) = Ok (map (fun i => mkWorker (Z.of_nat i) None []) (seq i n)).
Proof.
  revert i. induction n as [|n IH]; intros i; [done|]. cbn [seq mapM map].
  assert (Hw : newWorker (Z.of_nat i) = Ok (mkWorker (Z.of_nat i) None [])).
  { unfold newWorker. by rewrite assert_Ok by (apply negb_true_iff, Z.eqb_neq; unfold WorkerId.InvalidValue; lia). }
  rewrite Hw, bind_Ok, IH. done.
Qed.

(** The first worker is the one of the main thread; nothing was written to the flags of the others. *)
Lemma newWorkerManager_ok n :
  newWorkerManager (S n) = Ok (mkWorker 0 (Some true) [] :: map (fun i => mkWorker (Z.of_nat i) None []) (seq 1 n)).
Proof. unfold newWorkerManager. by rewrite newWorkers_ok. Qed.

(** The moves of a vector that grows keep new workers. *)
Lemma move_new_worker id w : newWorker id = Ok w -> move_construct w = w.
Proof. unfold newWorker. intros (? & _ & [= <-])%bind_inv. done. Qed.

(** A worker is free for the next session when its connection has ended, also with an exception. *)
Lemma session_ends id outcome busy w rest cerr :
  zlen busy = id -> w_id w = id -> zlen (busy ++ w :: rest) < 2 ^ 64 -> (outcome = Ok tt \/ exists msg, outcome = Fault (Throw msg)) ->
  exists cerr', HandleUserConnectionGuts id outcome (busy ++ w :: rest) cerr = Ok (busy ++ mark_free w :: rest, cerr').
Proof.
  intros Hid Hw Hlen Ho. pose proof (zlen_nonneg busy). rewrite zlen_app, zlen_cons in Hlen. pose proof (zlen_nonneg rest).
  assert (Hwr : wrap 64 id = id) by (apply wrap_small; lia).
  assert (Hn : Z.to_nat id = length busy) by (unfold zlen in Hid; lia).
  assert (Hg : GetWorker (busy ++ w :: rest) id = Ok w).
  { unfold GetWorker. rewrite (assert_Ok (WorkerId.IsValid id)), bind_Ok by (apply negb_true_iff, Z.eqb_neq; unfold WorkerId.InvalidValue; lia).
    rewrite Hwr, (assert_Ok (id <? _)), bind_Ok by (apply Z.ltb_lt; rewrite zlen_app, zlen_cons; lia). rewrite Hn. apply vec_get_Ok. by rewrite list_lookup_middle. }
  unfold HandleUserConnectionGuts. destruct Ho as [-> | [msg ->]]; rewrite bind_Ok, Hg, bind_Ok, Hwr, Hn;
    rewrite vec_set_Ok, bind_Ok by (rewrite length_app; cbn; lia); rewrite insert_app_r_alt, Nat.sub_diag by lia; by eexists.
Qed.

Lemma StartNewSession_skip busy rest sock :
  Forall (fun w => w_busy w = Some true) busy ->
  StartNewSession (busy ++ rest) sock = ('(ok, ws) ← StartNewSession rest sock; mret (ok, busy ++ ws)).
Proof.
  induction 1 as [|w busy Hw Hb IH]; [cbn [app]; destruct (StartNewSession rest sock) as [[ok ws]|e]; reflexivity|]. cbn [app StartNewSession].
  unfold IsBusy. rewrite Hw. cbn [of_option]. rewrite bind_Ok, IH. destruct (StartNewSession rest sock) as [[ok ws]|e]; reflexivity.
Qed.

(** A new session goes to the first worker that is not busy, which is busy from then on,
    and to no other; when all are busy nobody gets it. But the flag of a worker that has had no
    session is read before anything was written to it: the first session of the server has
    undefined behaviour. *)
Theorem start_new_session busy w rest sock n :
  Forall (fun w => w_busy w = Some true) busy ->
  StartNewSession busy sock = Ok (false, busy) /\
  (w_busy w = Some false -> StartNewSession (busy ++ w :: rest) sock = Ok (true, busy ++ mkWorker (w_id w) (Some true) (sock :: w_threads w) :: rest)) /\
  (w_busy w = None -> StartNewSession (busy ++ w :: rest) sock = Fault (UB "indeterminate value")) /\
  (exists ws, newWorkerManager (S (S n)) = Ok ws /\ StartNewSession ws sock = Fault (UB "indeterminate value")).
Proof.
  intros Hb. assert (Hall : forall w rest, StartNewSession (w :: rest) sock = (b ← IsBusy w;
    if b : bool then '(ok, ws) ← StartNewSession rest sock; mret (ok, w :: ws) else w ← Submit w sock; mret (true, w :: rest))) by done.
  split; [|split; [|split]].
  - rewrite <-(app_nil_r busy) at 1. rewrite StartNewSession_skip by done. cbn. by rewrite app_nil_r.
  - intros Hw. rewrite StartNewSession_skip, Hall by done. unfold Submit, IsBusy. rewrite Hw. done.
  - intros Hw. rewrite StartNewSession_skip, Hall by done. unfold IsBusy. by rewrite Hw.
  - rewrite newWorkerManager_ok. eexists. split; [reflexivity|]. done.
Qed.
End workers.

Lemma start_new_session_witness :
  StartNewSession [mkWorker 0 (Some true) []; mkWorker 1 (Some false) []] 9 = Ok (true, [mkWorker 0 (Some true) []; mkWorker 1 (Some true) [9]]).
Proof.
  refine (proj1 (proj2 (start_new_session (H := DebugBuild) [mkWorker 0 (Some true) []] (mkWorker 1 (Some false) []) [] 9 0 _)) eq_refl).
  by repeat constructor.
Defined.
