(* ===== verification/StartUp.v ===== *)
(** Start-up: [Settings.cpp], [cluster_state.cpp] and [main.cpp]: the options, the directory and files of the
    cluster, its global objects, and the loop over the connections. *)
From stdpp Require Import strings pretty.
From S2P Require Import Prelude Types File UndoRecord UndoLog WAL Transactions LockList Executor Logger Catalog Planner Workers.
From S2P Require Import BufferPool BufferSpec PoolLists PoolSpec ClientProgram.

(** ** Settings *)
Record Settings := mkSettings { LogFile : bytes; DataDirectory : bytes }.

(** [vm] are the options that the library has parsed. [notify] is not called, so that no option is required. *)
Definition parseCommandArgs (vm : string -> option any) : result Settings :=
  logfile ← find_as vm "logfile" as_string;
  datadir ← find_as vm "datadir" as_string;
  mret (mkSettings (default [] logfile) (default [] datadir)).

(** ** The system calls on the files of the cluster: they return a negative number when they fail, and set [errno] *)
Definition ENOENT : Z := 2.
Definition EINTR : Z := 4.
Definition EEXIST : Z := 17.

Class Host (H : Type) := {
  h_open_log : bytes -> H -> Z * H;
  h_chdir : bytes -> H -> Z * H;
  h_stat : string -> H -> (Z + Z);
  h_creat : string -> H -> Z * H;
  h_truncate : string -> H -> Z * H;
  h_errno : H -> Z;
  h_strerror : Z -> string;
  h_read : string -> H -> list byte;
  h_relations : H -> gmap Z (list byte)
}.

(** [stat] has an error number on the left; the files [files] of the working directory are
    what the calls below change while it is [writable]. *)
Class HostLaws (H : Type) `{Host H} := {
  files : H -> gmap string (list byte);
  writable : H -> Prop;
  stat_law p h : h_stat p h = match files h !! p with Some f => inr (zlen f) | None => inl ENOENT end;
  creat_law p h : p = "undo" \/ p = "wal" -> writable h ->
    exists fd h', h_creat p h = (fd, h') /\ 0 <= fd /\ files h' = <[p := []]> (files h) /\ writable h';
  truncate_law p h f : writable h -> files h !! p = Some f ->
    exists h', h_truncate p h = (0, h') /\ files h' = <[p := []]> (files h) /\ writable h';
  read_law p h f : files h !! p = Some f -> h_read p h = f;
  relation_law h : h_relations h !! MainTableId = files h !! "data/1"
}.

(** The process: the files, and what it has written to the error output. *)
Record Process (H : Type) := mkProcess { p_host : H; p_cerr : bytes }.
Arguments mkProcess {H} _ _.
Arguments p_host {H} _.
Arguments p_cerr {H} _.

(** The handler of the log, by its kind; a file by its descriptor, which is not tested. *)
Inductive LogHandlerKind := ConsoleHandler | FileHandler (fd : Z).

(** The global objects. *)
Record Cluster (A R W : Type) := mkCluster {
  LoggerGlobal : LogHandlerKind; RMgrRegistryGlobal : list (option A); DatabaseGlobal : Database R;
  WorkerGlobal : list Worker; LockGlobal : list WorkerLock; TransactionManagerGlobal : TransactionManager (W := W);
  BufferPoolGlobal : BufferManager; UndoLogGlobal : UndoLog; WALGlobal : WriteAheadLog; MyWorker : Worker }.
Arguments mkCluster {A R W} _ _ _ _ _ _ _ _ _ _.
Arguments LoggerGlobal {A R W} _.
Arguments RMgrRegistryGlobal {A R W} _.
Arguments DatabaseGlobal {A R W} _.
Arguments WorkerGlobal {A R W} _.
Arguments LockGlobal {A R W} _.
Arguments TransactionManagerGlobal {A R W} _.
Arguments BufferPoolGlobal {A R W} _.
Arguments UndoLogGlobal {A R W} _.
Arguments WALGlobal {A R W} _.
Arguments MyWorker {A R W} _.

Section cluster.
Context `{Build} `{Posix} {F : Type} `{Host F} {A R W : Type} (heap_manager : A) (table : R) (storage : W).
#[local] Notation P := (M (Process F)).

Definition call (f : F -> Z * F) : P Z := fun p => let '(r, h) := f (p_host p) in (Ok r, mkProcess h (p_cerr p)).
Definition errno : P Z := gets (fun p => h_errno (p_host p)).

(** [std::cerr << msg << std::endl; exit(1)]: the process ends. *)
Definition exit_with {B} (msg : bytes) : P B :=
  _ ← modify (fun p => mkProcess (p_host p) (p_cerr p ++ msg ++ [x0a]));
  throw (Abort "exit(1)").
Definition exit_errno {B} (msg : string) : P B := e ← errno; exit_with (bytes_of msg ++ bytes_of (h_strerror e)).

Definition setupLogger (settings : Settings) : P LogHandlerKind :=
  if negb (zlen (LogFile settings) =? 0) then fd ← call (h_open_log (LogFile settings)); mret (FileHandler fd)
  else mret ConsoleHandler.

Definition setupDirectory (settings : Settings) : P unit :=
  if zlen (DataDirectory settings) =? 0 then throw (Throw "Data directory is not specified")
  else
    ret ← call (h_chdir (DataDirectory settings));
    if ret <? 0 then e ← errno; throw (Throw (String.append "could not change directory: " (h_strerror e))) else mret tt.

(** One of the logs, made or emptied. *)
Definition create_log (path : string) (msg : string) : P unit :=
  fd ← call (h_creat path);
  if fd <? 0 then exit_errno msg else mret tt.

Definition setupStorage : P unit :=
  p ← get;
  _ ← (match h_stat "data/1" (p_host p) with
       | inl e =>
           if e =? EEXIST then
             fd ← call (h_creat "data/1");
             if fd <? 0 then exit_with (bytes_of "could not creat data/1") else mret tt
           else exit_with (bytes_of "could not stat: " ++ bytes_of (h_strerror e))
       | inr st_size =>
           if 0 <? st_size then
             ret ← call (h_truncate "data/1");
             if ret <? 0 then exit_errno "could not truncate: " else mret tt
           else mret tt
       end);
  _ ← create_log "undo" "could not open undo: ";
  create_log "wal" "could not open wal: ".

Definition setupMasterWorker (workers : list Worker) : result Worker := GetWorker workers 0.

Definition setupCluster (settings : Settings) : P (Cluster A R W) :=
  logger ← setupLogger settings;
  _ ← setupDirectory settings;
  managers ← lift (setupResourceManagers heap_manager);
  database ← lift (setupDatabase table);
  _ ← setupStorage;
  workers ← lift (newWorkerManager (Z.to_nat Config.MaxWorkers));
  let locks := replicate (Z.to_nat Config.MaxWorkers) newWorkerLock in
  let transactions := Transactions.init storage in
  p ← get;
  pool ← lift (newBufferManager (Z.to_nat Config.BufferPoolSize) (h_relations (p_host p)));
  undo ← lift (UndoLog.Open "undo" (h_read "undo" (p_host p)));
  wal ← lift (WAL.Open "wal" (h_read "wal" (p_host p)));
  master ← lift (setupMasterWorker workers);
  mret (mkCluster logger managers database workers locks transactions pool undo wal master).
End cluster.

(** ** [main.cpp]

    The calls of the listening socket. [accept] gives a socket or an error number, and whether the signal handler
    has asked to stop; [ss_close] is [shutdown] followed by [close]. *)
Class ServerSocket (N : Type) := {
  ss_socket : N -> Z * N;
  ss_setsockopt : Z -> N -> Z * N;
  ss_getaddrinfo : string -> N -> Z * N;
  ss_bind : Z -> N -> Z * N;
  ss_listen : Z -> Z -> N -> Z * N;
  ss_accept : Z -> N -> (Z + Z) * bool * N;
  ss_close : Z -> N -> N;
  ss_sigaction : N -> Z * N;
  ss_gai_strerror : Z -> string;
  ss_strerror : Z -> string
}.

Definition ServerPort : Z := 6543.

Record Server (L N : Type) := mkServer { sv_workers : list Worker; sv_log : L; sv_net : N }.
Arguments mkServer {L N} _ _ _.
Arguments sv_workers {L N} _.
Arguments sv_log {L N} _.
Arguments sv_net {L N} _.

Section main.
Context `{Build} `{Posix} {L N : Type} `{ILogHandler L} `{ServerSocket N}.
#[local] Notation Sv := (M (Server L N)).

Definition net (f : N -> Z * N) : Sv Z := fun s => let '(r, n) := f (sv_net s) in (Ok r, mkServer (sv_workers s) (sv_log s) n).
Definition logged (m : M L unit) : Sv unit := fun s => let '(r, l) := m (sv_log s) in (r, mkServer (sv_workers s) l (sv_net s)).

(** The socket is not closed when a later call fails. *)
Definition open_server_socket : Sv Z :=
  sock ← net ss_socket;
  if sock <? 0 then throw (Throw "could not initialize socket")
  else
    ret ← net (ss_setsockopt sock);
    if ret <? 0 then throw (Throw "could not setsockopt(SO_REUSEADDR)")
    else
      ret ← net (ss_getaddrinfo (pretty ServerPort));
      if negb (ret =? 0) then throw (Throw (ss_gai_strerror ret))
      else
        ret ← net (ss_bind sock);
        if ret <? 0 then throw (Throw "could not bind address")
        else
          ret ← net (ss_listen sock 128);
          if ret <? 0 then throw (Throw "could not listen") else mret sock.

Definition accept_client (server : Z) : Sv ((Z + Z) * bool) := fun s =>
  let '(r, stop, n) := ss_accept server (sv_net s) in (Ok (r, stop), mkServer (sv_workers s) (sv_log s) n).

(** The result of [StartNewSession] is not looked at. *)
Definition start_session (clientSock : Z) : Sv unit := fun s =>
  match StartNewSession (sv_workers s) clientSock with
  | Ok (_, workers) => (Ok tt, mkServer workers (sv_log s) (sv_net s))
  | Fault e => (Fault e, s)
  end.

Fixpoint accept_loop (fuel : nat) (server : Z) : Sv unit :=
  match fuel with
  | O => throw NoFuel
  | S k =>
      '(client, stop_requested) ← accept_client server;
      match client with
      | inl errno =>
          if (errno =? EINTR) && stop_requested then logged (Info (bytes_of "got SIGINT, stop working"))
          else logged (Error (bytes_of "error accepting client, stop working: " ++ bytes_of (ss_strerror errno)))
      | inr clientSock => _ ← start_session clientSock; accept_loop k server
      end
  end.

Definition main_loop (fuel : nat) : Sv Z :=
  server ← open_server_socket;
  _ ← logged (Info (bytes_of "Ready to accept connections"));
  _ ← accept_loop fuel server;
  _ ← modify (fun s => mkServer (sv_workers s) (sv_log s) (ss_close server (sv_net s)));
  mret 0.

(** What [main] does once the cluster is set up. *)
Definition serve (fuel : nat) : Sv Z :=
  ret ← net ss_sigaction;
  if ret <? 0 then _ ← logged (Error (bytes_of "could not setup SIGINT handler")); mret 1
  else
    ret ← main_loop fuel;
    _ ← (if negb (ret =? 0) then logged (Error (bytes_of "invalid return code: " ++ bytes_of (pretty ret))) else mret tt);
    mret ret.

(** The exit status of the process; [handler] is the handler of the log that a kind stands for. An exception
    that leaves [main] ends the process. *)
Definition main {F A R W : Type} `{Host F} (heap_manager : A) (table : R) (storage : W) (handler : LogHandlerKind -> L) (vm : string -> option any) (fuel : nat)
    : M (Process F * N) Z := fun '(p, n) =>
  match (settings ← lift (parseCommandArgs vm); setupCluster heap_manager table storage settings) p with
  | (Ok cl, p) =>
      let '(r, s) := serve fuel (mkServer (WorkerGlobal cl) (handler (LoggerGlobal cl)) n) in
      (r, (p, sv_net s))
  | (Fault e, p) => (Fault e, (p, n))
  end.
End main.

(** ** What a start leaves *)
Section start.
Context `{Build} `{PosixOk} {F : Type} `{HostLaws F} {A R W : Type} (heap_manager : A) (table : R) (storage : W).

(** The files after the log was opened. *)
Definition log_opened (settings : Settings) (h : F) : F :=
  if negb (zlen (LogFile settings) =? 0) then snd (h_open_log (LogFile settings) h) else h.

Lemma setupLogger_ok settings p :
  exists k, setupLogger settings p = (Ok k, mkProcess (log_opened settings (p_host p)) (p_cerr p)).
Proof.
  unfold setupLogger, log_opened, call, mbind, M_bind. destruct (negb _).
  - destruct (h_open_log _ _) as [fd h]. by eexists.
  - exists ConsoleHandler. by destruct p.
Qed.

Lemma setupDirectory_ok settings (p : Process F) r h1 :
  zlen (DataDirectory settings) <> 0 -> h_chdir (DataDirectory settings) (p_host p) = (r, h1) -> 0 <= r ->
  setupDirectory settings p = (Ok tt, mkProcess h1 (p_cerr p)).
Proof.
  intros Hd Hc Hr. unfold setupDirectory, call, mbind, M_bind. rewrite (proj2 (Z.eqb_neq _ _)) by done. rewrite Hc.
  by rewrite (proj2 (Z.ltb_ge _ _)) by done.
Qed.

Lemma create_log_ok path msg h c :
  path = "undo" \/ path = "wal" -> writable h ->
  exists h', create_log path msg (mkProcess h c) = (Ok tt, mkProcess h' c) /\ files h' = <[path := []]> (files h) /\ writable h'.
Proof.
  intros Hp Hw. destruct (creat_law path h Hp Hw) as (fd & h' & E & Hfd & Hf & Hw'). exists h'. split; [|done].
  unfold create_log, call, mbind, M_bind. cbn [p_host p_cerr]. rewrite E. by rewrite (proj2 (Z.ltb_ge _ _)) by done.
Qed.

(** The storage of a directory with the file of the table, and without it. *)
Definition storage_files (fs : gmap string (list byte)) : gmap string (list byte) :=
  <["wal" := []]> (<["undo" := []]> (<["data/1" := []]> fs)).

Lemma setupStorage_ok h c f :
  writable h -> files h !! "data/1" = Some f ->
  exists h', setupStorage (mkProcess h c) = (Ok tt, mkProcess h' c) /\ files h' = storage_files (files h).
Proof.
  intros Hw Hf. unfold setupStorage. erewrite M_bind_Ok by reflexivity. cbn [p_host]. rewrite stat_law, Hf.
  assert (Ht : exists h1, (if 0 <? zlen f then ret ← call (h_truncate "data/1"); if ret <? 0 then exit_errno "could not truncate: " else mret tt
      else mret tt) (mkProcess h c) = (Ok tt, mkProcess h1 c) /\ files h1 = <["data/1" := []]> (files h) /\ writable h1).
  { destruct (0 <? zlen f) eqn:El.
    - destruct (truncate_law "data/1" h f Hw Hf) as (h1 & E1 & Hf1 & Hw1). exists h1. split; [|done].
      unfold call, mbind, M_bind. cbn [p_host p_cerr]. by rewrite E1.
    - exists h. split; [done|]. split; [|done]. rewrite insert_id; [done|]. rewrite Hf. apply Z.ltb_ge in El. f_equal.
      destruct f as [|b f]; [done|]. rewrite zlen_cons in El. pose proof (zlen_nonneg f). lia. }
  destruct Ht as (h1 & E1 & Hf1 & Hw1). erewrite M_bind_Ok by exact E1.
  destruct (create_log_ok "undo" "could not open undo: " h1 c) as (h2 & E2 & Hf2 & Hw2); [by left | done |].
  erewrite M_bind_Ok by exact E2. destruct (create_log_ok "wal" "could not open wal: " h2 c) as (h3 & E3 & Hf3 & _); [by right | done |].
  exists h3. split; [done|]. unfold storage_files. congruence.
Qed.

Lemma setupStorage_missing h c :
  files h !! "data/1" = None ->
  setupStorage (mkProcess h c) = (Fault (Abort "exit(1)"), mkProcess h (c ++ (bytes_of "could not stat: " ++ bytes_of (h_strerror ENOENT)) ++ [x0a])).
Proof. intros Hf. unfold setupStorage. erewrite M_bind_Ok by reflexivity. cbn [p_host]. by rewrite stat_law, Hf. Qed.

(** The objects of a server that has just started: empty logs, no transaction, an idle pool, and the worker of the main thread. *)
Record fresh_cluster (relations : gmap Z (list byte)) (cl : Cluster A R W) : Prop := mk_fresh {
  fresh_managers : setupResourceManagers heap_manager = Ok (RMgrRegistryGlobal cl);
  fresh_database : DatabaseGlobal cl = main_db table;
  fresh_workers : newWorkerManager 16 = Ok (WorkerGlobal cl) /\ MyWorker cl = mkWorker 0 (Some true) [];
  fresh_locks : LockGlobal cl = replicate 16 newWorkerLock;
  fresh_transactions : TransactionManagerGlobal cl = Transactions.init storage;
  fresh_pool hash : serves hash 1024 relations (initial_view relations) (BufferPoolGlobal cl);
  fresh_table : relations !! MainTableId = Some [];
  fresh_logs : UndoLogGlobal cl = mkUndoLog 0 [] /\ WALGlobal cl = mkWAL [] 0 0 []
}.

(** The registry of a new server. *)
Lemma setupResourceManagers_ok : exists ms, setupResourceManagers heap_manager = Ok ms.
Proof. unfold setupResourceManagers, RegisterManager. by eexists. Qed.

(** C18: The server starts only in a directory that has the file of the table already: there it empties that file and
    both logs, whatever they held, and leaves the other files; its workers, catalog, transaction manager, buffer pool and logs
    are in their initial states. In a new directory it ends with status 1: the file would be made
    when [stat] fails with [EEXIST], which it does not, and not with [ENOENT]. *)
Theorem server_starts settings (p : Process F) r h1 :
  zlen (DataDirectory settings) <> 0 -> h_chdir (DataDirectory settings) (log_opened settings (p_host p)) = (r, h1) -> 0 <= r -> writable h1 ->
  (files h1 !! "data/1" = None -> setupCluster heap_manager table storage settings p =
    (Fault (Abort "exit(1)"), mkProcess h1 (p_cerr p ++ (bytes_of "could not stat: " ++ bytes_of (h_strerror ENOENT)) ++ [x0a]))) /\
  (is_Some (files h1 !! "data/1") -> exists cl h', setupCluster heap_manager table storage settings p = (Ok cl, mkProcess h' (p_cerr p)) /\
    files h' = storage_files (files h1) /\ fresh_cluster (h_relations h') cl).
Proof.
  intros Hd Hc Hr Hw. destruct (setupLogger_ok settings p) as (k & E1).
  assert (E2 : setupDirectory settings (mkProcess (log_opened settings (p_host p)) (p_cerr p)) = (Ok tt, mkProcess h1 (p_cerr p))).
  { by eapply (setupDirectory_ok settings (mkProcess (log_opened settings (p_host p)) (p_cerr p))). }
  destruct setupResourceManagers_ok as (ms & Em).
  assert (Hpre : setupCluster heap_manager table storage settings p = (_ ← setupStorage;
    workers ← lift (newWorkerManager (Z.to_nat Config.MaxWorkers));
    p ← get;
    pool ← lift (newBufferManager (Z.to_nat Config.BufferPoolSize) (h_relations (p_host p)));
    undo ← lift (UndoLog.Open "undo" (h_read "undo" (p_host p)));
    wal ← lift (WAL.Open "wal" (h_read "wal" (p_host p)));
    master ← lift (setupMasterWorker workers);
    mret (mkCluster k ms (main_db table) workers (replicate (Z.to_nat Config.MaxWorkers) newWorkerLock) (Transactions.init storage) pool undo wal master))
      (mkProcess h1 (p_cerr p))).
  { unfold setupCluster. erewrite M_bind_Ok by exact E1. erewrite M_bind_Ok by exact E2. erewrite lift_Ok by exact Em.
    erewrite lift_Ok by apply setupDatabase_ok. reflexivity. }
  rewrite Hpre. split.
  - intros Hf. by erewrite M_bind_fault by by apply setupStorage_missing.
  - intros [f Hf]. destruct (setupStorage_ok h1 (p_cerr p) f Hw Hf) as (h' & E3 & Hf'). erewrite M_bind_Ok by exact E3.
    pose proof (newWorkerManager_ok 15) as Ews. set (ws := _ :: _) in Ews. change (Z.to_nat Config.MaxWorkers) with 16%nat.
    erewrite lift_Ok by exact Ews. erewrite M_bind_Ok by reflexivity. cbn [p_host].
    destruct (new_serves (fun _ => 0) 1024 (h_relations h') ltac:(lia) ltac:(lia)) as (pool & Ep & _).
    erewrite lift_Ok by exact Ep.
    assert (Hu : h_read "undo" h' = []) by (apply read_law; rewrite Hf'; unfold storage_files; by rewrite lookup_insert_ne, lookup_insert_eq).
    assert (Hwal : h_read "wal" h' = []) by (apply read_law; rewrite Hf'; unfold storage_files; by rewrite lookup_insert_eq).
    assert (Eu : UndoLog.Open "undo" (h_read "undo" h') = Ok (mkUndoLog 0 [])).
    { rewrite Hu. unfold UndoLog.Open. rewrite File.Open_ok, bind_Ok, File.Size_ok. done. }
    assert (Ew : WAL.Open "wal" (h_read "wal" h') = Ok (mkWAL [] 0 0 [])).
    { rewrite Hwal. unfold WAL.Open. rewrite File.Open_ok, bind_Ok, File.Size_ok. done. }
    erewrite lift_Ok by exact Eu. erewrite lift_Ok by exact Ew.
    assert (Emw : setupMasterWorker ws = Ok (mkWorker 0 (Some true) [])).
    { unfold setupMasterWorker, GetWorker. by rewrite assert_Ok, bind_Ok, assert_Ok by done. }
    erewrite lift_Ok by exact Emw. eexists _, h'. split; [reflexivity|]. split; [done|]. constructor; cbn; try done.
    + intros hash. destruct (new_serves hash 1024 (h_relations h') ltac:(lia) ltac:(lia)) as (pool' & Ep' & Hs). rewrite Ep in Ep'. by injection Ep' as ->.
    + rewrite relation_law, Hf'. unfold storage_files. do 2 rewrite lookup_insert_ne by done. by rewrite lookup_insert_eq.
Qed.
End start.

(** ** Files in memory *)
#[export] Instance RamHost : Host (gmap string (list byte)) := {
  h_open_log _ h := (3, h);
  h_chdir _ h := (0, h);
  h_stat p h := match h !! p with Some f => inr (zlen f) | None => inl ENOENT end;
  h_creat p h := (3, <[p := []]> h);
  h_truncate p h := (0, <[p := []]> h);
  h_errno _ := 0;
  h_strerror e := if e =? ENOENT then "No such file or directory" else "Success";
  h_read p h := default [] (h !! p);
  h_relations h := match h !! "data/1" with Some f => {[MainTableId := f]} | None => ∅ end
}.

#[export] Instance RamHost_laws : HostLaws (gmap string (list byte)).
Proof.
  refine {| files h := h; writable _ := True |}.
  - done.
  - intros p h _ _. by exists 3, (<[p := []]> h).
  - intros p h f _ _. by exists (<[p := []]> h).
  - intros p h f Hf. cbn. by rewrite Hf.
  - intros h. cbn. by destruct (h !! "data/1").
Defined.

Lemma server_starts_witness :
  let settings := mkSettings [] (bytes_of "/var/lib/mimidb") in
  let start (fs : gmap string (list byte)) := setupCluster (H := DebugBuild) (H0 := File.RamFile) tt tt tt settings (mkProcess fs []) in
  start ∅ = (Fault (Abort "exit(1)"), mkProcess ∅ (bytes_of "could not stat: No such file or directory" ++ [x0a])) /\
  exists cl h', start {["data/1" := [x01]]} = (Ok cl, mkProcess h' []) /\ h' !! "data/1" = Some [] /\
    WorkerGlobal cl !! 0%nat = Some (mkWorker 0 (Some true) []).
Proof.
  intros settings start. split.
  - exact (proj1 (server_starts (H := DebugBuild) (H0 := File.RamFile) (H1 := File.RamFile_ok) tt tt tt settings (mkProcess ∅ []) 0 ∅
      ltac:(vm_compute; discriminate) eq_refl ltac:(lia) I) eq_refl).
  - destruct (proj2 (server_starts (H := DebugBuild) (H0 := File.RamFile) (H1 := File.RamFile_ok) tt tt tt settings (mkProcess {["data/1" := [x01]]} []) 0 {["data/1" := [x01]]}
      ltac:(vm_compute; discriminate) eq_refl ltac:(lia) I) (ex_intro _ [x01] eq_refl)) as (cl & h' & E & Hf & Hcl).
    exists cl, h'. split; [exact E|]. change (files h') with h' in Hf. split; [rewrite Hf; reflexivity|].
    destruct (fresh_workers _ _ _ _ _ Hcl) as [Hw _]. rewrite (newWorkerManager_ok (H := DebugBuild) 15) in Hw. injection Hw as Hw. rewrite <-Hw. reflexivity.
Defined.
